(* ===== verification/_CoqProject ===== *)
-Q . S2P
Prelude.v
CString.v
Paths.v
Hash.v
Map.v
MapFacts.v
CList.v
Qrtr.v
NameServer.v
NsFacts.v
NsProps.v
Qmi.v
QmiRef.v
QmiFacts.v
QmiDecode.v
RmtfsMsgs.v
QmiProps.v
Os.v
World.v
Storage.v
StorageFacts.v
StorageProps.v
SharedMem.v
SharedMemProps.v
Rmtfs.v
RmtfsWorld.v
RmtfsFacts.v
RmtfsProps.v
RmtfsWrite.v
RmtfsWriteProps.v
RmtfsSession.v
Json.v
JsonProps.v
JsonHeap.v
JsonHeapProps.v
Assoc.v
AssocProps.v
ServregLoc.v
PdMapper.v
PdMapperProps.v
PdLoadProps.v
PdServeProps.v
Translate.v
Tftp.v
TftpProps.v
TftpShare.v
Bridge.v
BridgeProps.v
Waiter.v
WaiterProps.v
Gpio.v
GpioProps.v
Bdaddr.v
BdaddrProps.v
Rproc.v
RprocProps.v
RmtfsStart.v
RmtfsStartProps.v
Numbers.v
Lookup.v
LookupProps.v
Cfg.v
CfgProps.v
Udev.v
UdevProps.v
Diag.v
DiagProps.v
NsStart.v
NsStartProps.v
Ring.v
RingProps.v
QmiTlv.v
QmiTlvProps.v
