(* ===== verification/Prelude.v ===== *)
(** * The native services of the Arduino Imola device tree: a verified model

    The repository is the Android device configuration of a Qualcomm board.  The
    programs in it, under src/shared/utils, are C services and tools: those that connect
    Linux to the modem processor with the QMI protocol over QRTR sockets, the bridge to
    the microcontroller of the board, and the setter of the Bluetooth address.  This
    library models all of them as executable functions, proves what makes them correct,
    and states exactly where they are not.

    ** The parts and how they interact

    - qrtr/src/ns.c, the QRTR name server, keeps which services run on which node and
      port and tells clients about them.  It stores nodes and servers in the hash
      table of qrtr/src/map.c (hashes from qrtr/src/hash.c) and lookups in the
      intrusive list of qrtr/src/list.h, waits with qrtr/src/waiter.c and sets its
      address with qrtr/src/addr.c; qrtr/src/lookup.c asks it, qrtr/src/cfg.c sets the
      address alone.
    - qrtr/lib/qrtr.c, the client library, registers services with the name server
      and decodes the datagrams a service receives; qrtr/lib/qmi.c turns C structures
      into QMI messages and back, driven by descriptor tables (rmtfs/qmi_rmtfs.c,
      pd-mapper/servreg_loc.c); rmtfs/qmi_tlv.c is an older helper for messages.
    - rmtfs/rmtfs.c, the remote file system service, receives requests of the modem
      through these, moves sectors between partitions (rmtfs/storage.c) and memory
      shared with the modem (rmtfs/sharedmem.c), and starts and stops the modem
      (rmtfs/rproc.c).
    - pd-mapper/pd-mapper.c reads JSON files next to the firmware (json.c) into maps from
      services to protection domains and answers which domains provide a service; the
      files of a directory are told apart with the table of strings in assoc.c.
    - tqftpserv/tqftpserv.c serves files to the modem, which tqftpserv/translate.c finds;
      its clients are on the rings of tqftpserv/list.h.
    - imola-gpio/imola-bridge.c takes MessagePack requests of the router of the board and
      sets pins through a debugger; imola-gpio/imola-gpio.c sets lines of the GPIO chip.
    - bdaddr/bdaddr.c sets the public address of the Bluetooth controller.

    ** Files of the library and the code they model

    - Prelude: words of fixed width, the monad of C outcomes ([Done], a [fault], or
      out of fuel), memory objects as lists of bytes, total correctness ([returns]).
      CString, Paths, Numbers: strings in memory, [snprintf] of paths, [strtoul].
    - Hash (hash.c), Map and MapFacts (map.c, map.h): the table, its invariant, and
      the refinement of put, remove, lookup and iteration to finite maps (stdpp's
      [gmap]).  CList (list.h): the list over a heap of items, refined to sequences.
    - Qrtr (qrtr.c, libqrtr.h, ns.h): packets, the client calls with their traces of
      socket calls, decoding, polling.
    - NameServer (ns.c), NsFacts, NsProps: the server as a state monad over the
      state, the datagrams sent and oracles for allocation and sending; its
      invariant, one specification per handler, then the properties.  Waiter,
      WaiterProps (waiter.c, util.c); Cfg, CfgProps (addr.c, cfg.c); Diag, DiagProps
      (logging.c, rmtfs/util.c).  NsStart, NsStartProps (main of ns.c): the program made
      of these.  Lookup, LookupProps (lookup.c): the client, run with the server.
    - Qmi (qmi.c), QmiRef (the reference encoder), QmiFacts (encoding), QmiDecode
      (decoding), RmtfsMsgs (qmi_rmtfs.c, qmi_rmtfs.h), ServregLoc (servreg_loc.c,
      servreg_loc.h), QmiProps: the codec over byte memories; decidable checks of
      descriptor tables ([table_ok], [dtable_ok]) under which it is safe; properties of
      messages.  QmiTlv, QmiTlvProps (qmi_tlv.c).
    - Os: the system calls of the file services as a class [OsOps], what is relied
      on as a class [OsLaws], and an instance, a file system in memory.  World: what
      can be seen of these calls (open descriptors, contents of files, the messages
      sent, as a class [OsView]) and what each call changes of it ([OsWorld]), with an
      instance, a box of files, in which the examples of the service run.
    - Storage (storage.c), StorageFacts, StorageProps; SharedMem (sharedmem.c as built
      for Android), SharedMemProps; Udev, UdevProps (its other openers); Rmtfs (rmtfs.c),
      RmtfsFacts, RmtfsProps: the remote file system service, from one sector up to the
      loop around [select].  RmtfsWorld: which descriptors it holds, and what its window
      holds, be it mapped or, as on the device, reached through its descriptor.
      RmtfsWrite, RmtfsWriteProps, RmtfsSession: writing sectors and reading them back,
      with whole messages, from opening a partition on.  Rproc, RprocProps (rproc.c);
      RmtfsStart, RmtfsStartProps (main of rmtfs.c): the command line, and the life of the
      service.
    - Json, JsonProps (json.c as a reader of values); JsonHeap, JsonHeapProps (json.c and
      json.h with the cells in memory: the parser that builds them in place, [json_free],
      the walks); Assoc, AssocProps (assoc.c); PdMapper, PdMapperProps, PdLoadProps,
      PdServeProps (pd-mapper.c): answering, loading, and both together.
    - Translate (translate.c), Tftp, TftpProps (tqftpserv.c), TftpShare (several clients);
      Ring, RingProps (tqftpserv/list.h).
    - Bridge, BridgeProps (imola-bridge.c); Gpio, GpioProps (imola-gpio.c); Bdaddr,
      BdaddrProps (bdaddr.c).

    A definition has the name of the C function, type or constant it models; a loop
    inside a function is a definition of its own, named after the function or the
    loop.  Structures are records, pointers into a table are indices and null is
    [None] (or 0 where cells live in a heap).  Static variables are fields of the state
    of their component.

    ** What the theorems show

    - Containers: the hash table implements a finite map as long as no deleted slot
      precedes a stored key on its probe path; without this a key is stored twice
      and a removed value comes back ([map_reput_shadow_resurrects]).  The list
      implements sequences; [list_prepend] breaks the back links.  The table of strings
      implements finite maps from strings.  The rings of the TFTP server implement
      sequences, also while their elements are freed.
    - Name server: no datagram, and no failure of allocation or sending, makes it
      fault, loop or lose its invariant ([ns_main_safe]); a node can only
      change its own servers, and a client its own server, as long as no port is in a table
      twice; the effect of each command, packets included; and two executions in which it
      keeps a stale server and registers stack memory.  The
      program around it hands it the datagrams one by one ([ns_program_serves]); a waiter
      runs exactly the tickets that are due; what qrtr-lookup prints is what is
      registered, as long as no port is in a table twice.
    - Codec: encoding never leaves the buffer and writes what a reference encoder
      gives ([table_ok]), decoding never leaves the structure ([dtable_ok]), for all tables
      that pass a check.  The tables of the services are shown to pass, but for three: the
      open request of the file service and the restart request of the mapper do not pass
      [dtable_ok], since a string that fills its field is terminated behind the structure,
      and the list of domains does not pass [table_ok], since the space for a string inside
      a structure is not checked in full.  Round trips of the responses and of the older
      helper; the two ways decoding reads or writes one step too far.
    - Remote file system: opening, reading back what was written, from the copy of a
      partition up to messages of the modem ([rmtfs_session]); transfers copy the
      sectors asked for, at their address modulo [2 ^ 32] ([rmtfs_entry_reads]); what is
      sent for a request that is served is one message more, with its transaction; a run
      ends for the reasons the loop gives and no others, the program runs again after a
      reset, and at its end just what was open before it started is open
      ([rmtfs_program_life]); the requests that make the service fault, those included
      whose type is wrong: their answer would carry an uninitialised transaction.
    - Protection domain mapper: the parser returns the value of every text of the
      grammar; the cells it builds are freed once each and nothing else is
      ([json_heap_lifecycle]); the table of maps is what the documents say, and every
      request whose answer fits the packet is answered with the domains in them
      ([pd_mapper_serves]); exactly when copying the domains leaves the response, which is
      modelled as the memory it is ([get_domain_list_overflows]).
    - TFTP: downloads of up to 65535 blocks send the bytes of the file in numbered blocks,
      also to several clients in any order ([tftp_readers_share]), uploads store what is sent, options are
      acknowledged with values that can be read back.
    - Bridge: however the stream is cut into pieces each request is answered once, in
      order, after the pin was driven, and the buffer never fills up.  GPIO: the lines the
      kernel is asked for, the pauses between them and what is made of its answers.
      Bluetooth: whatever the datagrams are, but for those torn behind the header, the
      address is set just when the first controller reports that it is missing.  Address
      of the node: what each answer of the kernel to the request leads to.

    A theorem that needs a condition states it in its comment; theorems about faults and the
    examples next to them show what happens without it.

    ** Bounds and fuel

    Target: 64-bit little-endian Android, [char] unsigned, [long] and pointers of 64
    bits; integers are [Z], truncated where the code truncates.  The indices of the hash
    table are [int]s: from [2 ^ 31] slots on its loops overflow, so that its invariant
    bounds the size below that.  Using a
    variable that was not set is a fault ([Uninitialised]); what receive buffers and stack
    buffers held before is an argument.  Recursion that
    follows a list or a counter is structural; a loop around a socket is structural in
    the events it sees, so that a theorem holds after any number of them.  Fuel is used by
    - the hash table ([map_reput_fuel]: two rounds, since the table has room after one
      growth) and the table of strings ([assoc_set_fuel]: the same; a probe has one unit
      per slot);
    - the codec (one unit per nesting level, [msg_fuel] = 3 for tables of depth 2; its
      loops get one unit per byte or table entry, [decode_fuel]);
    - the JSON parser (the length of the text), [json_free] and the walks (the blocks of
      the value);
    - the loops over a buffer: one unit per byte (bridge, dumps, options of a TFTP
      request), per chunk of it (requests of the debugger), per element (TLV helper:
      size of the message plus one; rings: elements; notifications: tickets), per packet
      of a window (TFTP).
    The theorems that the functions return show that the fuel is enough; those about loops
    that do not end ([json_parse_open_bracket_diverges], [tftp_window_never_ends]) are for
    every fuel.

    ** Not modelled

    - The system calls, libudev, [getopt] and the C library's formatting are parameters:
      records of results, oracles, or classes of operations ([OsOps], [TftpOps],
      [BridgeOps], [GpioOps], [RprocOps], [WaiterOps]); signals are the counter the loop
      of rmtfs.c sees.
    - The checks that the C library adds when it is built with FORTIFY: an overflow is what
      the language says, a write behind the object.
    - Texts for people: usage, verbose and debugging messages.
    - Functions that only free memory at the end of a program (waiter_destroy,
      pollset_destroy, map_destroy, qmi_tlv_free, server_mi_free) and the endless sleep of
      the name server (go_dormant).
    - The configuration files, policies, overlays, build files and Python tools, which are
      not part of the C services. *)
From stdpp Require Export prelude gmap list.
From Stdlib Require Export ZArith Lia.

#[global] Open Scope Z_scope.

(** ** Machine integers: a [w]-bit integer is a [Z], its wrap-around explicit. *)

Definition u8 (z : Z) : Z := z mod 2 ^ 8.
Definition u16 (z : Z) : Z := z mod 2 ^ 16.
Definition u32 (z : Z) : Z := z mod 2 ^ 32.
Definition u64 (z : Z) : Z := z mod 2 ^ 64.
Definition s32 (z : Z) : Z := (z + 2 ^ 31) mod 2 ^ 32 - 2 ^ 31.
Definition s64 (z : Z) : Z := (z + 2 ^ 63) mod 2 ^ 64 - 2 ^ 63.

(** ** Outcomes of C code

    [Done a]: the code returns [a].  [Fault f]: it has undefined behaviour of
    the kind [f] at that point.  [OutOfFuel]: the recursion bound of the model
    was reached, which the theorems rule out separately. *)

Inductive fault := NullPointer | OutOfBounds | Uninitialised | DivByZero | AssertFailed | Overflow.

Inductive outcome (A : Type) :=
  | Done (a : A)
  | Fault (f : fault)
  | OutOfFuel.
Arguments Done {A} _.
Arguments Fault {A} _.
Arguments OutOfFuel {A}.

#[global] Instance outcome_ret : MRet outcome := fun A a => Done a.
#[global] Instance outcome_bind : MBind outcome := fun A B k m =>
  match m with
  | Done a => k a
  | Fault f => Fault f
  | OutOfFuel => OutOfFuel
  end.
#[global] Instance outcome_map : FMap outcome := fun A B f m =>
  match m with
  | Done a => Done (f a)
  | Fault e => Fault e
  | OutOfFuel => OutOfFuel
  end.

(** [of_option f o] dereferences: a missing cell is the fault [f]. *)
Definition of_option {A} (f : fault) (o : option A) : outcome A :=
  match o with Some a => Done a | None => Fault f end.

Definition is_done {A} (o : outcome A) : bool :=
  match o with Done _ => true | _ => false end.

(** ** Bytes, little-endian words, memory regions

    A memory object is the list of its bytes.  Every access names the object,
    the offset and the length, and is undefined outside the object. *)

Definition byte_ok (b : Z) : Prop := 0 <= b < 256.
Definition bytes_ok (l : list Z) : Prop := Forall byte_ok l.

Fixpoint le_bytes (n : nat) (z : Z) : list Z :=
  match n with
  | O => []
  | S n' => z mod 256 :: le_bytes n' (z / 256)
  end.

Fixpoint le_value (l : list Z) : Z :=
  match l with
  | [] => 0
  | b :: l' => b + 256 * le_value l'
  end.

Definition zlen {A} (l : list A) : Z := Z.of_nat (length l).

Definition read_mem (m : list Z) (off n : Z) : outcome (list Z) :=
  if (0 <=? off) && (0 <=? n) && (off + n <=? zlen m)
  then Done (take (Z.to_nat n) (drop (Z.to_nat off) m))
  else Fault OutOfBounds.

Definition write_mem (m : list Z) (off : Z) (bs : list Z) : outcome (list Z) :=
  if (0 <=? off) && (off + zlen bs <=? zlen m)
  then Done (take (Z.to_nat off) m ++ bs ++ drop (Z.to_nat off + length bs) m)
  else Fault OutOfBounds.

(** ** Proof automation *)

Create HintDb imola discriminated.
Create Rewrite HintDb imola_rw.

(** Case on the scrutinee of a [match] or [if], in the goal or a hypothesis. *)
Ltac case_scrut :=
  match goal with
  | |- context [match ?x with _ => _ end] => destruct x eqn:?
  | H : context [match ?x with _ => _ end] |- _ => destruct x eqn:?
  end.

(** Booleans tests on [Z] and [nat] turned into propositions. *)
Ltac reflect_bools :=
  repeat match goal with
  | H : (_ && _)%bool = true |- _ => apply andb_true_iff in H; destruct H
  | H : (_ || _)%bool = false |- _ => apply orb_false_iff in H; destruct H
  | H : (_ && _)%bool = false |- _ => apply andb_false_iff in H
  | H : (_ || _)%bool = true |- _ => apply orb_true_iff in H
  | H : negb _ = true |- _ => apply negb_true_iff in H
  | H : negb _ = false |- _ => apply negb_false_iff in H
  | H : (_ <=? _) = true |- _ => apply Z.leb_le in H
  | H : (_ <=? _) = false |- _ => apply Z.leb_gt in H
  | H : (_ <? _) = true |- _ => apply Z.ltb_lt in H
  | H : (_ <? _) = false |- _ => apply Z.ltb_ge in H
  | H : (_ =? _) = true |- _ => apply Z.eqb_eq in H
  | H : (_ =? _) = false |- _ => apply Z.eqb_neq in H
  | H : bool_decide _ = true |- _ => apply bool_decide_eq_true in H
  | H : bool_decide _ = false |- _ => apply bool_decide_eq_false in H
  end.

(** Reduce the binds of a computation, and nothing else. *)
Ltac run := cbn [mbind outcome_bind mret outcome_ret of_option].

(** Arithmetic with the word truncations unfolded. *)
Ltac word_lia :=
  unfold u8, u16, u32, u64, s32, s64, byte_ok, zlen in *;
  Z.div_mod_to_equations; lia.

(** ** Words *)

Lemma u32_small z : 0 <= z < 2 ^ 32 -> u32 z = z.
Proof. intros; unfold u32; apply Z.mod_small; lia. Qed.
Lemma u32_range z : 0 <= u32 z < 2 ^ 32.
Proof. unfold u32; apply Z.mod_pos_bound; lia. Qed.
Lemma u16_small z : 0 <= z < 2 ^ 16 -> u16 z = z.
Proof. intros; unfold u16; apply Z.mod_small; lia. Qed.
Lemma u64_small z : 0 <= z < 2 ^ 64 -> u64 z = z.
Proof. intros; unfold u64; apply Z.mod_small; lia. Qed.
Lemma s32_small z : - 2 ^ 31 <= z < 2 ^ 31 -> s32 z = z.
Proof. intros; unfold s32; rewrite Z.mod_small; lia. Qed.
#[export] Hint Resolve u32_range : imola.

Lemma lor_range n a b :
  0 <= n -> 0 <= a < 2 ^ n -> 0 <= b < 2 ^ n -> 0 <= Z.lor a b < 2 ^ n.
Proof.
  intros Hn Ha Hb.
  assert (Z.lor a b = Z.lor a b mod 2 ^ n) as ->.
  { rewrite <- Z.land_ones, Z.land_lor_distr_l, !Z.land_ones, !Z.mod_small by lia. done. }
  apply Z.mod_pos_bound. lia.
Qed.

(** ** Probing modulo a size *)

(** A word above a smaller one. *)
Lemma lor_add a b n : 0 <= n -> 0 <= b < 2 ^ n -> Z.lor (a * 2 ^ n) b = a * 2 ^ n + b.
Proof.
  intros Hn Hb. assert (Hland : Z.land (a * 2 ^ n) b = 0).
  { apply Z.bits_inj'. intros k Hk. rewrite Z.land_spec, Z.bits_0. destruct (Z.lt_ge_cases k n) as [H|H].
    - by rewrite Z.mul_pow2_bits_low.
    - rewrite <- (Z.mod_small b (2 ^ n)), Z.mod_pow2_bits_high by lia. apply andb_false_r. }
  by rewrite <- Z.lxor_lor, <- Z.add_nocarry_lxor.
Qed.
Lemma land_ff v : Z.land v 0xff = v mod 256.
Proof. change 0xff with (Z.ones 8). by rewrite Z.land_ones. Qed.
Lemma probe_next k d s : ((k + d) mod s + 1) mod s = (k + (d + 1)) mod s.
Proof.
  destruct (decide (s = 0)) as [->|Hs]; [rewrite !Z.mod_0_r; lia|].
  rewrite Z.add_mod_idemp_l by done. f_equal; lia.
Qed.

Lemma probe_offset_inj s k d d' :
  0 <= d < s -> 0 <= d' < s -> (k + d) mod s = (k + d') mod s -> d = d'.
Proof.
  intros Hd Hd' Heq.
  assert ((d - d') mod s = 0) as H0.
  { replace (d - d') with ((k + d) - (k + d')) by lia.
    rewrite Zminus_mod, Heq, Z.sub_diag. apply Z.mod_0_l. lia. }
  apply Z.mod_divide in H0; [|lia]. destruct H0 as [q Hq].
  assert (q = 0) by nia. nia.
Qed.

(** ** Little-endian words *)

Lemma length_le_bytes n z : length (le_bytes n z) = n.
Proof. revert z; induction n; intros z; simpl; auto. Qed.

Lemma le_bytes_ok n z : bytes_ok (le_bytes n z).
Proof.
  revert z; induction n as [|n IH]; intros z; simpl; constructor.
  - unfold byte_ok; apply Z.mod_pos_bound; lia.
  - apply IH.
Qed.

Lemma le_value_bytes n z : le_value (le_bytes n z) = z mod 2 ^ (8 * Z.of_nat n).
Proof.
  revert z; induction n as [|n IH]; intros z; cbn [le_bytes le_value].
  - by rewrite Z.mod_1_r.
  - rewrite IH.
    replace (8 * Z.of_nat (S n)) with (8 + 8 * Z.of_nat n) by lia.
    rewrite Z.pow_add_r by lia. change (2 ^ 8) with 256.
    rewrite Z.rem_mul_r by lia. lia.
Qed.

Lemma le_value_range l : bytes_ok l -> 0 <= le_value l < 2 ^ (8 * zlen l).
Proof.
  unfold zlen; induction 1 as [|b l Hb Hl IH]; cbn [le_value length]; [lia|].
  replace (8 * Z.of_nat (S (length l))) with (8 + 8 * Z.of_nat (length l)) by lia.
  rewrite Z.pow_add_r by lia. unfold byte_ok in Hb. lia.
Qed.

Lemma le_bytes_value l : bytes_ok l -> le_bytes (length l) (le_value l) = l.
Proof.
  induction 1 as [|b l Hb Hl IH]; cbn [le_bytes le_value length]; [done|].
  unfold byte_ok in Hb. f_equal.
  - rewrite Z.mul_comm, Z_mod_plus_full. apply Z.mod_small; lia.
  - rewrite Z.mul_comm, Z_div_plus by lia.
    rewrite Z.div_small, Z.add_0_l by lia. exact IH.
Qed.

(** A 32-bit value survives the trip through its four bytes. *)
Lemma le_value_bytes4 z : 0 <= z < 2 ^ 32 -> le_value (le_bytes 4 z) = z.
Proof. intros; rewrite le_value_bytes; apply Z.mod_small; lia. Qed.
Lemma le_value_bytes2 z : 0 <= z < 2 ^ 16 -> le_value (le_bytes 2 z) = z.
Proof. intros; rewrite le_value_bytes; apply Z.mod_small; lia. Qed.
Lemma le_value_bytes8 z : 0 <= z < 2 ^ 64 -> le_value (le_bytes 8 z) = z.
Proof. intros; rewrite le_value_bytes; apply Z.mod_small; lia. Qed.
#[export] Hint Resolve le_bytes_ok : imola.
#[export] Hint Rewrite length_le_bytes : imola_rw.

(** ** Memory *)

Lemma read_mem_done m off n bs :
  read_mem m off n = Done bs <->
  0 <= off /\ 0 <= n /\ off + n <= zlen m /\
  bs = take (Z.to_nat n) (drop (Z.to_nat off) m).
Proof.
  unfold read_mem; split.
  - case_scrut; [|done]. intros [= <-]. reflect_bools. auto.
  - intros (H1 & H2 & H3 & ->).
    by rewrite (proj2 (Z.leb_le _ _) H1), (proj2 (Z.leb_le _ _) H2), (proj2 (Z.leb_le _ _) H3).
Qed.

Lemma write_mem_done m off bs m' :
  write_mem m off bs = Done m' <->
  0 <= off /\ off + zlen bs <= zlen m /\
  m' = take (Z.to_nat off) m ++ bs ++ drop (Z.to_nat off + length bs) m.
Proof.
  unfold write_mem; split.
  - case_scrut; [|done]. intros [= <-]. reflect_bools. auto.
  - intros (H1 & H2 & ->).
    by rewrite (proj2 (Z.leb_le _ _) H1), (proj2 (Z.leb_le _ _) H2).
Qed.

Lemma read_mem_length m off n bs : read_mem m off n = Done bs -> zlen bs = n.
Proof.
  intros (H1 & H2 & H3 & ->)%read_mem_done. unfold zlen in *.
  rewrite length_take, length_drop. lia.
Qed.

Lemma write_mem_length m off bs m' :
  write_mem m off bs = Done m' -> zlen m' = zlen m.
Proof.
  intros (H1 & H2 & ->)%write_mem_done. unfold zlen in *.
  rewrite !length_app, length_take, length_drop. lia.
Qed.

Lemma write_mem_ok m off bs :
  0 <= off -> off + zlen bs <= zlen m -> exists m', write_mem m off bs = Done m'.
Proof. intros; eexists; apply write_mem_done; eauto. Qed.

Lemma read_mem_ok m off n :
  0 <= off -> 0 <= n -> off + n <= zlen m -> exists bs, read_mem m off n = Done bs.
Proof. intros; eexists; apply read_mem_done; eauto. Qed.

Lemma read_mem_bytes m off n bs : bytes_ok m -> read_mem m off n = Done bs -> bytes_ok bs.
Proof.
  intros Hm (_ & _ & _ & ->)%read_mem_done. by apply Forall_take, Forall_drop.
Qed.

Lemma write_mem_bytes m off bs m' :
  bytes_ok m -> bytes_ok bs -> write_mem m off bs = Done m' -> bytes_ok m'.
Proof.
  intros Hm Hb (_ & _ & ->)%write_mem_done.
  apply Forall_app; split; [by apply Forall_take|].
  apply Forall_app; split; [done|by apply Forall_drop].
Qed.

Lemma write_mem_lookup m off bs m' i :
  write_mem m off bs = Done m' ->
  m' !! i = if decide (Z.to_nat off <= i < Z.to_nat off + length bs)%nat
            then bs !! (i - Z.to_nat off)%nat else m !! i.
Proof.
  intros (H1 & H2 & ->)%write_mem_done. unfold zlen in *.
  assert (length (take (Z.to_nat off) m) = Z.to_nat off) as Hl
    by (rewrite length_take; lia).
  case_decide.
  - rewrite lookup_app_r, Hl by lia. rewrite lookup_app_l by lia. done.
  - destruct (decide (i < Z.to_nat off)%nat).
    + rewrite lookup_app_l by lia. apply lookup_take_lt; lia.
    + rewrite lookup_app_r, Hl by lia. rewrite lookup_app_r by lia.
      rewrite lookup_drop. f_equal. lia.
Qed.

(** Whole objects. *)
Lemma read_mem_all m n : n = zlen m -> read_mem m 0 n = Done m.
Proof.
  intros ->. apply read_mem_done. split_and!; [unfold zlen; lia..|].
  change (drop (Z.to_nat 0) m) with m. rewrite take_ge; [done|unfold zlen; lia].
Qed.
Lemma write_mem_all m bs : (length bs <= length m)%nat ->
  write_mem m 0 bs = Done (bs ++ drop (length bs) m).
Proof.
  intros. apply write_mem_done. unfold zlen. split_and!; [lia..|]. done.
Qed.

(** Lengths, and reading and overwriting the middle of a memory. *)
Lemma zlen_app {A} (l k : list A) : zlen (l ++ k) = zlen l + zlen k.
Proof. unfold zlen. rewrite length_app. lia. Qed.
Lemma zlen_nonneg {A} (l : list A) : 0 <= zlen l.
Proof. unfold zlen. lia. Qed.
Lemma read_at c X b Y off n : c = X ++ b ++ Y -> off = zlen X -> n = zlen b -> read_mem c off n = Done b.
Proof.
  intros -> -> ->. apply read_mem_done. rewrite !zlen_app. pose proof (zlen_nonneg X). pose proof (zlen_nonneg b).
  pose proof (zlen_nonneg Y). split_and!; [lia..|]. unfold zlen. by rewrite !Nat2Z.id, drop_app_length, take_app_length.
Qed.
Lemma write_at X O Y bs d : d = zlen X -> zlen bs = zlen O -> write_mem (X ++ O ++ Y) d bs = Done (X ++ bs ++ Y).
Proof.
  intros -> Hl. unfold zlen in *. apply write_mem_done. unfold zlen. rewrite !length_app. split; [lia|]. split; [lia|].
  rewrite Nat2Z.id, take_app_length. do 2 f_equal. rewrite drop_app_ge by lia.
  rewrite drop_app_ge by lia. replace (_ - _ - _)%nat with 0%nat by lia. done.
Qed.

(** Reading back what was just written, and reading next to it. *)
Lemma read_write_same m off bs m' :
  write_mem m off bs = Done m' -> read_mem m' off (zlen bs) = Done bs.
Proof.
  intros Hw. pose proof (write_mem_length _ _ _ _ Hw) as Hlen.
  apply write_mem_done in Hw as (H1 & H2 & ->).
  apply read_mem_done. rewrite Hlen. unfold zlen in *. repeat split; try lia.
  rewrite drop_app_length' by (rewrite length_take; lia).
  rewrite take_app_length' by lia. done.
Qed.

Lemma read_write_other m off bs m' off' n :
  write_mem m off bs = Done m' ->
  off' + n <= off \/ off + zlen bs <= off' ->
  read_mem m' off' n = read_mem m off' n.
Proof.
  intros Hw Hdisj. pose proof (write_mem_length _ _ _ _ Hw) as Hlen.
  pose proof (proj1 (write_mem_done _ _ _ _) Hw) as (Hoff & Hin & _).
  unfold read_mem. rewrite Hlen. case_scrut; [|done]. f_equal. reflect_bools.
  apply list_eq; intros i. rewrite !lookup_take.
  case_decide; [|done]. rewrite !lookup_drop, (write_mem_lookup _ _ _ _ _ Hw).
  unfold zlen in *. case_decide; [lia|done].
Qed.

(** ** Outcomes *)

Lemma bind_done {A B} (m : outcome A) (k : A -> outcome B) b :
  (m ≫= k) = Done b <-> exists a, m = Done a /\ k a = Done b.
Proof.
  destruct m as [a| |]; simpl; split.
  - eauto.
  - intros (? & [= ->] & ?); done.
  - done.
  - intros (? & ? & ?); done.
  - done.
  - intros (? & ? & ?); done.
Qed.

Lemma of_option_done {A} f (o : option A) a :
  of_option f o = Done a <-> o = Some a.
Proof. destruct o; simpl; split; congruence. Qed.

(** Step through a monadic computation that is known to return. *)
Ltac inv_done :=
  repeat match goal with
  | H : (_ ≫= _) = Done _ |- _ =>
      let a := fresh "r" in let H1 := fresh "Hrun" in
      apply bind_done in H; destruct H as (a & H1 & H)
  | H : Done _ = Done _ |- _ => injection H as H
  | H : Fault _ = Done _ |- _ => discriminate H
  | H : OutOfFuel = Done _ |- _ => discriminate H
  | H : of_option _ _ = Done _ |- _ => apply of_option_done in H
  | H : mret _ = Done _ |- _ => injection H as H
  end.

(** ** Total correctness of computations

    [returns o Q]: the computation [o] returns a value that satisfies [Q]; in
    particular it has no fault and does not run out of fuel. *)
Definition returns {A} (o : outcome A) (Q : A -> Prop) : Prop := exists a, o = Done a /\ Q a.

Lemma returns_done {A} (a : A) (Q : A -> Prop) : Q a -> returns (Done a) Q.
Proof. by exists a. Qed.
Lemma returns_bind {A B} (m : outcome A) (k : A -> outcome B) Q :
  returns m (fun a => returns (k a) Q) -> returns (m ≫= k) Q.
Proof. intros (a & -> & Hk). exact Hk. Qed.
Lemma returns_mono {A} (m : outcome A) (P Q : A -> Prop) :
  returns m P -> (forall a, P a -> Q a) -> returns m Q.
Proof. intros (a & E & HP) H. exists a; auto. Qed.
Lemma returns_is {A} (o : outcome A) a (Q : A -> Prop) : o = Done a -> Q a -> returns o Q.
Proof. by exists a. Qed.

(** Memories that agree outside a range. *)
Record same_outside (lo hi : Z) (m m' : list Z) : Prop := {
  so_len : zlen m' = zlen m;
  so_at : forall i : nat, Z.of_nat i < lo \/ hi <= Z.of_nat i -> m' !! i = m !! i }.

Lemma same_outside_refl lo hi m : same_outside lo hi m m.
Proof. by split. Qed.
Lemma same_outside_trans lo hi m1 m2 m3 :
  same_outside lo hi m1 m2 -> same_outside lo hi m2 m3 -> same_outside lo hi m1 m3.
Proof. intros [L1 A1] [L2 A2]. split; [congruence|]. intros i Hi. by rewrite A2, A1. Qed.
Lemma same_outside_wider lo hi lo' hi' m m' :
  same_outside lo hi m m' -> lo' <= lo -> hi <= hi' -> same_outside lo' hi' m m'.
Proof. intros [L A] H1 H2. split; [done|]. intros i Hi. apply A. lia. Qed.
Lemma write_same_outside m off bs m' :
  write_mem m off bs = Done m' -> same_outside off (off + zlen bs) m m'.
Proof.
  intros Hw. split; [by eapply write_mem_length|]. intros i Hi.
  rewrite (write_mem_lookup _ _ _ _ _ Hw).
  apply write_mem_done in Hw as (H1 & _ & _). unfold zlen in *. case_decide; [lia|done].
Qed.
#[export] Hint Resolve same_outside_refl : imola.

Lemma returns_read m off n Q :
  0 <= off -> 0 <= n -> off + n <= zlen m ->
  (forall bs, zlen bs = n -> (bytes_ok m -> bytes_ok bs) -> read_mem m off n = Done bs -> Q bs) ->
  returns (read_mem m off n) Q.
Proof.
  intros H1 H2 H3 HQ. destruct (read_mem_ok m off n H1 H2 H3) as [bs E]. exists bs. split; [done|].
  apply HQ; [by eapply read_mem_length| |done]. intros Hm. by eapply read_mem_bytes.
Qed.
Lemma returns_write m off bs Q :
  0 <= off -> off + zlen bs <= zlen m ->
  (forall m', same_outside off (off + zlen bs) m m' -> (bytes_ok m -> bytes_ok bs -> bytes_ok m') ->
     write_mem m off bs = Done m' -> Q m') ->
  returns (write_mem m off bs) Q.
Proof.
  intros H1 H2 HQ. destruct (write_mem_ok m off bs H1 H2) as [m' E]. exists m'. split; [done|].
  apply HQ; [by apply write_same_outside| |done]. intros Hm Hb. exact (write_mem_bytes _ _ _ _ Hm Hb E).
Qed.
