(* ===== verification/CString.v ===== *)
(** * C strings

    String literals as lists of bytes, [strlen] and what it says about a buffer. *)
From Stdlib Require Import Ascii String.
From S2P Require Import Prelude.
#[local] Open Scope Z_scope.

(** The bytes of a C string literal, without the terminator. *)
Definition cstr (s : string) : list Z :=
  map (fun c => Z.of_N (N_of_ascii c)) (list_ascii_of_string s).

(** [strlen]: the bytes before the first NUL; no NUL is an out-of-bounds read. *)
Fixpoint strlen (s : list Z) : outcome Z :=
  match s with
  | [] => Fault OutOfBounds
  | b :: s' => if b =? 0 then Done 0 else n ← strlen s'; Done (1 + n)
  end.

(** The string at [off], up to its terminator. *)
Definition read_cstr (m : list Z) (off : Z) : outcome (list Z) :=
  n ← strlen (drop (Z.to_nat off) m); read_mem m off n.

(** Characters, and the value of decimal digits. *)
Definition isspace (ch : Z) : bool := (ch =? 32) || ((9 <=? ch) && (ch <=? 13)).
Definition isdigit (ch : Z) : bool := (48 <=? ch) && (ch <=? 57).
Definition digits_value (ds : list Z) : Z := fold_left (fun v d => v * 10 + (d - 48)) ds 0.

Lemma strlen_range s n : strlen s = Done n -> 0 <= n < zlen s.
Proof.
  revert n. induction s as [|b s IH]; intros n; cbn [strlen]; [done|]. unfold zlen in *. cbn [length].
  destruct (b =? 0); [intros [= <-]; lia|]. destruct (strlen s) as [k| |] eqn:E; run; try done.
  intros [= <-]. specialize (IH k eq_refl). lia.
Qed.

(** Without a NUL before it, the terminator is found. *)
Lemma strlen_terminated s junk : Forall (fun b => b <> 0) s -> strlen (s ++ 0 :: junk) = Done (zlen s).
Proof.
  induction 1 as [|b s Hb Hs IH]; [done|]. cbn [app strlen]. rewrite (proj2 (Z.eqb_neq _ _)) by done.
  rewrite IH. run. f_equal. unfold zlen. cbn [length]. lia.
Qed.
Lemma strlen_prefix s n : strlen s = Done n ->
  exists junk, s = take (Z.to_nat n) s ++ 0 :: junk /\ Forall (fun b => b <> 0) (take (Z.to_nat n) s).
Proof.
  revert n. induction s as [|b s IH]; intros n; cbn [strlen]; [done|].
  destruct (b =? 0) eqn:E; reflect_bools.
  - intros [= <-]. subst. exists s. by split; [|constructor].
  - intros Hn. inv_done. pose proof (strlen_range _ _ Hrun) as Hr. destruct (IH _ Hrun) as (junk & Es & Hf). subst n.
    exists junk. replace (Z.to_nat (1 + r)) with (S (Z.to_nat r)) by lia. cbn [take app]. split; [by f_equal|].
    by constructor.
Qed.

Lemma read_cstr_at m off s junk : 0 <= off <= zlen m -> drop (Z.to_nat off) m = s ++ 0 :: junk ->
  Forall (fun b => b <> 0) s -> read_cstr m off = Done s.
Proof.
  intros Ho Hd Hs. unfold read_cstr. rewrite Hd, strlen_terminated by done. run.
  apply read_mem_done. assert (Hl : length (drop (Z.to_nat off) m) = length (s ++ 0 :: junk)) by congruence.
  rewrite length_drop, length_app in Hl. cbn [length] in Hl. unfold zlen in *. split_and!; [lia..|].
  by rewrite Nat2Z.id, Hd, take_app_length.
Qed.

(** ** Decimal numbers *)

(** The decimal digits of [z], at most [n] of them. *)
Fixpoint dec (n : nat) (z : Z) : list Z :=
  match n with
  | O => []
  | S n' => if z <? 10 then [z + 48] else dec n' (z / 10) ++ [z mod 10 + 48]
  end.

Lemma digits_value_snoc ds d : digits_value (ds ++ [d]) = digits_value ds * 10 + (d - 48).
Proof. unfold digits_value. by rewrite fold_left_app. Qed.

Lemma dec_value n z : 0 <= z < 10 ^ Z.of_nat n -> digits_value (dec n z) = z.
Proof.
  revert z. induction n as [|n IH]; intros z Hz; [cbn in *; lia|]. cbn [dec].
  destruct (z <? 10) eqn:E; reflect_bools; [cbn; lia|].
  rewrite Nat2Z.inj_succ, Z.pow_succ_r in Hz by lia.
  rewrite digits_value_snoc, IH by (Z.div_mod_to_equations; lia). Z.div_mod_to_equations. lia.
Qed.
Lemma dec_digits n z : (0 < n)%nat -> 0 <= z < 10 ^ Z.of_nat n ->
  Forall (fun b => isdigit b = true) (dec n z) /\ (0 < length (dec n z) <= n)%nat.
Proof.
  assert (D : forall d, 0 <= d < 10 -> isdigit (d + 48) = true)
    by (intros d Hd; unfold isdigit; rewrite andb_true_iff, !Z.leb_le; lia).
  revert z. induction n as [|n IH]; intros z Hn Hz; [lia|]. cbn [dec].
  destruct (z <? 10) eqn:E; reflect_bools.
  { split; [|cbn; lia]. constructor; [apply D; lia|constructor]. }
  rewrite Nat2Z.inj_succ, Z.pow_succ_r in Hz by lia.
  destruct n as [|n]; [cbn in Hz; lia|].
  destruct (IH (z / 10)) as [I1 I2]; [lia|Z.div_mod_to_equations; lia|]. split.
  - apply Forall_app. split; [done|]. constructor; [|constructor]. apply D. apply Z.mod_pos_bound. lia.
  - rewrite length_app. cbn [length]. lia.
Qed.

(** [%zd] and [%d]. *)
Definition print_int (z : Z) : list Z := if z <? 0 then 45 :: dec 20 (- z) else dec 20 z.

Lemma print_int_length z : - 10 ^ 20 < z < 10 ^ 20 -> zlen (print_int z) <= 21.
Proof.
  intros Hz. unfold print_int. destruct (z <? 0) eqn:E; reflect_bools.
  - destruct (dec_digits 20 (- z)) as [_ Hl]; [lia|lia|]. unfold zlen. cbn [length]. lia.
  - destruct (dec_digits 20 z) as [_ Hl]; [lia|lia|]. unfold zlen. lia.
Qed.

(** [atoi]: white space, a sign, digits; [strtol] saturates, the conversion to [int]
    truncates. *)
Fixpoint skip_isspace (s : list Z) : list Z :=
  match s with c :: s' => if isspace c then skip_isspace s' else s | [] => [] end.
Fixpoint leading_digits (s : list Z) : list Z :=
  match s with c :: s' => if isdigit c then c :: leading_digits s' else [] | [] => [] end.
Definition strtol (s : list Z) : Z :=
  let s := skip_isspace s in
  let '(neg, s) := match s with c :: s' => if c =? 45 then (true, s') else if c =? 43 then (false, s') else (false, s)
                   | [] => (false, s) end in
  let v := digits_value (leading_digits s) in
  if (neg : bool) then Z.max (- 2 ^ 63) (- v) else Z.min (2 ^ 63 - 1) v.
Definition atoi (s : list Z) : Z := s32 (strtol s).

Lemma leading_digits_all ds : Forall (fun b => isdigit b = true) ds -> leading_digits ds = ds.
Proof. induction 1 as [|d ds Hd _ IH]; cbn [leading_digits]; [done|]. by rewrite Hd, IH. Qed.
Lemma digit_range d : isdigit d = true -> 48 <= d <= 57.
Proof. unfold isdigit. intros H. reflect_bools. lia. Qed.
(** Numbers are read back as they are printed. *)
Lemma atoi_print z : 0 <= z < 2 ^ 31 -> atoi (print_int z) = z.
Proof.
  intros Hz. unfold print_int. rewrite (proj2 (Z.ltb_ge _ _)) by lia.
  destruct (dec_digits 20 z) as [Hd Hl]; [lia|lia|]. pose proof (dec_value 20 z ltac:(lia)) as Hv.
  unfold atoi, strtol. destruct (dec 20 z) as [|d ds] eqn:E; [cbn in Hl; lia|]. pose proof (Forall_inv Hd) as Hd0.
  pose proof (digit_range d Hd0) as Hr. cbn [skip_isspace].
  assert (isspace d = false) as ->.
  { unfold isspace. apply orb_false_iff. split; [apply Z.eqb_neq; lia|]. apply andb_false_iff. rewrite !Z.leb_gt. lia. }
  rewrite (proj2 (Z.eqb_neq d 45)), (proj2 (Z.eqb_neq d 43)) by lia. rewrite leading_digits_all, Hv by done.
  rewrite Z.min_r by lia. apply s32_small. lia.
Qed.

(** [strcasecmp] is zero. *)
Definition tolower (c : Z) : Z := if (65 <=? c) && (c <=? 90) then c + 32 else c.
Definition same_ignoring_case (a b : list Z) : bool := bool_decide (map tolower a = map tolower b).

(** Hexadecimal digits: the value of one, and the last [n] of a number. *)
Definition hex_digit (b : Z) : option Z :=
  if (48 <=? b) && (b <=? 57) then Some (b - 48)
  else if (97 <=? b) && (b <=? 102) then Some (b - 87)
  else if (65 <=? b) && (b <=? 70) then Some (b - 55)
  else None.
Definition hex_char (d : Z) : Z := if d <? 10 then 48 + d else 87 + d.
Fixpoint hex_digits (n : nat) (v : Z) : list Z :=
  match n with O => [] | S n' => hex_digits n' (Z.shiftr v 4) ++ [hex_char (Z.land v 0xf)] end.
Lemma hex_digit_back d : 0 <= d < 16 -> hex_digit (hex_char d) = Some d.
Proof.
  intros Hd. assert (Hall : forallb (fun d => bool_decide (hex_digit (hex_char d) = Some d)) (map Z.of_nat (seq 0 16)) = true) by done.
  rewrite forallb_forall in Hall. specialize (Hall d). rewrite bool_decide_eq_true in Hall. apply Hall.
  apply in_map_iff. exists (Z.to_nat d). split; [lia|]. apply in_seq. lia.
Qed.
