(* ===== verification/Paths.v ===== *)
(** * Paths of the firmware files

    What pd-mapper/pd-mapper.c and tqftpserv/translate.c share: the firmware directory,
    the entries that are skipped, and [dirname] of the C library. *)
From Stdlib Require Import String.
From S2P Require Import Prelude CString.
#[local] Open Scope Z_scope.

Definition PATH_MAX : Z := 4096.
Definition slash : list Z := cstr "/".
Definition FIRMWARE_BASE : list Z := cstr "/vendor/firmware/".

(** The part in front of the last component, without its trailing slashes, and
    [dirname] of the C library, which leaves its argument as it is. *)
Fixpoint drop_slashes (r : list Z) : list Z :=
  match r with c :: r' => if c =? 47 then drop_slashes r' else r | [] => [] end.
Fixpoint drop_component (r : list Z) : list Z :=
  match r with c :: r' => if c =? 47 then r else drop_component r' | [] => [] end.
Definition dirname (path : list Z) : list Z :=
  match drop_slashes (rev path) with
  | [] => if bool_decide (path = []) then cstr "." else slash
  | r =>
      match drop_component r with
      | [] => cstr "."
      | r => match drop_slashes r with [] => slash | r => rev r end
      end
  end.

Definition is_dot (name : list Z) : bool := bool_decide (name = cstr ".") || bool_decide (name = cstr "..").

(** The string in a buffer that is terminated behind its bytes. *)
Fixpoint before_nul (s : list Z) : list Z :=
  match s with b :: s' => if b =? 0 then [] else b :: before_nul s' | [] => [] end.
Lemma read_before_nul s : read_cstr (s ++ [0]) 0 = Done (before_nul s).
Proof.
  assert (H : exists junk, s ++ [0] = before_nul s ++ 0 :: junk /\ Forall (fun b => b <> 0) (before_nul s)).
  { induction s as [|b s (junk & E & Hf)]; [by exists []|]. cbn [before_nul app]. destruct (b =? 0) eqn:Eb; reflect_bools.
    - exists (s ++ [0]). subst. by split.
    - exists junk. rewrite E. split; [done|by constructor]. }
  destruct H as (junk & E & Hf). apply (read_cstr_at _ _ _ junk); [unfold zlen; lia|exact E|done].
Qed.
