(* ===== verification/Hash.v ===== *)
(** * Hash: the integer and memory hashes of the name server

    Models [src/shared/utils/qrtr/src/hash.c].  The name server keys its maps
    by [hash_u32 id] and never compares the ids themselves, so the maps are
    right only because [hash_u32] loses nothing: [hash_u32_inj]. *)

From S2P Require Import Prelude CString.

(** ** Operations *)

(** One round of the loop of [hash_mem]. *)
Definition hash_step (h b : Z) : Z :=
  Z.lxor (Z.lxor (Z.shiftr h 27) (u32 (Z.shiftl h 5))) b.

Definition hash_mem (data : list Z) (len : Z) : outcome Z :=
  bs ← read_mem data 0 len;
  Done (foldl hash_step (u32 len) bs).

Definition hash_string (value : list Z) : outcome Z :=
  n ← strlen value; hash_mem value n.

(** The multiplication is done in [unsigned long] and truncated on return. *)
Definition hash_u32 (value : Z) : Z := u32 (u64 (value * 2654435761)).

Definition hash_u64 (value : Z) : Z :=
  Z.lxor (hash_u32 (Z.land value 0xffffffff)) (hash_u32 (u32 (Z.shiftr value 32))).

(** Pointers are 64 bits wide on the target. *)
Definition hash_pointer (value : Z) : Z := hash_u64 (u64 value).

(** ** Lemmas *)

Lemma hash_u32_mod v : hash_u32 v = (v * 2654435761) mod 2 ^ 32.
Proof.
  unfold hash_u32, u32, u64.
  apply Z.mod_mod_divide. by exists (2 ^ 32).
Qed.

Lemma hash_u32_range v : 0 <= hash_u32 v < 2 ^ 32.
Proof. apply u32_range. Qed.
#[export] Hint Resolve hash_u32_range : imola.

(** 244002641 is the inverse of the multiplier modulo [2^32]. *)
Lemma hash_u32_left_inverse v :
  0 <= v < 2 ^ 32 -> u32 (hash_u32 v * 244002641) = v.
Proof.
  intros Hv. unfold u32. rewrite hash_u32_mod, Z.mul_mod_idemp_l by lia.
  rewrite <- Z.mul_assoc, <- Z.mul_mod_idemp_r by lia.
  change ((2654435761 * 244002641) mod 2 ^ 32) with 1.
  rewrite Z.mul_1_r. by apply Z.mod_small.
Qed.

Lemma hash_u32_injective v w :
  0 <= v < 2 ^ 32 -> 0 <= w < 2 ^ 32 -> hash_u32 v = hash_u32 w -> v = w.
Proof.
  intros Hv Hw Heq. rewrite <- (hash_u32_left_inverse v Hv), Heq.
  by apply hash_u32_left_inverse.
Qed.

Lemma lxor_range n a b :
  0 <= n -> 0 <= a < 2 ^ n -> 0 <= b < 2 ^ n -> 0 <= Z.lxor a b < 2 ^ n.
Proof.
  intros Hn Ha Hb. split; [apply Z.lxor_nonneg; lia|].
  destruct (Z.eq_dec (Z.lxor a b) 0) as [->|Hne]; [lia|].
  assert (0 < n) by (destruct (Z.eq_dec n 0) as [->|]; [|lia];
    assert (a = 0 /\ b = 0) as [-> ->] by lia; done).
  assert (0 <= Z.lxor a b) by (apply Z.lxor_nonneg; lia).
  apply Z.log2_lt_pow2; [lia|].
  pose proof (Z.log2_lxor a b ltac:(lia) ltac:(lia)).
  assert (forall x, 0 <= x < 2 ^ n -> Z.log2 x < n) as Hlog.
  { intros x Hx. destruct (Z.eq_dec x 0) as [->|]; [simpl; lia|].
    apply Z.log2_lt_pow2; lia. }
  pose proof (Hlog a Ha). pose proof (Hlog b Hb). lia.
Qed.

Lemma hash_step_range h b : 0 <= h < 2 ^ 32 -> byte_ok b -> 0 <= hash_step h b < 2 ^ 32.
Proof.
  intros Hh Hb. unfold hash_step, byte_ok in *.
  apply lxor_range; [lia| |lia]. apply lxor_range; [lia| |apply u32_range].
  rewrite Z.shiftr_div_pow2 by lia. split; [apply Z.div_pos; lia|].
  apply Z.div_lt_upper_bound; lia.
Qed.

Lemma foldl_hash_step_range bs h :
  0 <= h < 2 ^ 32 -> bytes_ok bs -> 0 <= foldl hash_step h bs < 2 ^ 32.
Proof.
  intros Hh Hbs. revert h Hh. induction Hbs as [|b bs Hb Hbs IH]; simpl; auto.
  intros h Hh. apply IH. by apply hash_step_range.
Qed.

(** ** Properties *)

(** [hash_u32] is a bijection of the 32-bit integers: it is injective and
    each hash has a preimage, so a map keyed by the hash of a node id or of a
    port is a map keyed by the id or the port. *)
Theorem hash_u32_bijective :
  (forall v w, 0 <= v < 2 ^ 32 /\ 0 <= w < 2 ^ 32 /\ hash_u32 v = hash_u32 w -> v = w) /\
  (forall h, 0 <= h < 2 ^ 32 -> exists v, 0 <= v < 2 ^ 32 /\ hash_u32 v = h).
Proof.
  split.
  - intros v w (Hv & Hw & H). by apply hash_u32_injective.
  - intros h Hh. exists (u32 (h * 244002641)). split; [apply u32_range|].
    rewrite hash_u32_mod. unfold u32. rewrite Z.mul_mod_idemp_l by lia.
    rewrite <- Z.mul_assoc, <- Z.mul_mod_idemp_r by lia.
    change ((244002641 * 2654435761) mod 2 ^ 32) with 1.
    rewrite Z.mul_1_r. by apply Z.mod_small.
Qed.

Lemma hash_u32_bijective_witness :
  (7 = 7 :> Z) /\ (exists v, 0 <= v < 2 ^ 32 /\ hash_u32 v = 12345).
Proof.
  split.
  - apply (proj1 hash_u32_bijective). repeat split; (lia || reflexivity).
  - apply (proj2 hash_u32_bijective). lia.
Defined.
