(* ===== verification/Map.v ===== *)
(** * Map: the open-addressing hash table of the name server

    Models [src/shared/utils/qrtr/src/map.c] and [map.h].  A slot of the table
    is NULL, the marker [&deleted] or an item; an item is its key and the
    payload of the structure the item is embedded in.  Each loop of the source
    is a recursion over its own bound ([i < map->size]); [map_reput] and
    [map_rehash] call each other, and [map_reput_fuel] bounds that nesting.

    The invariant [map_wf] is what every operation keeps; [map_unique] (no key
    in two slots) is kept by every operation except a [map_reput] that meets a
    deleted slot before the slot of its own key. *)

From S2P Require Import Prelude.

(** ** Data *)

Inductive map_entry (V : Type) :=
  | Null
  | Deleted
  | Item (key : Z) (value : V).
Arguments Null {V}.
Arguments Deleted {V}.
Arguments Item {V} _ _.

Record cmap (V : Type) := CMap {
  map_size : Z;
  map_count : Z;
  map_data : list (map_entry V) }.
Arguments CMap {V} _ _ _.
Arguments map_size {V} _.
Arguments map_count {V} _.
Arguments map_data {V} _.

Section operations.
Context {V : Type}.
Implicit Types m : cmap V.

(** ** Operations *)

Definition map_create : cmap V := CMap 0 0 [].

Definition get_entry (m : cmap V) (idx : Z) : outcome (map_entry V) :=
  if idx <? 0 then Fault OutOfBounds
  else of_option OutOfBounds (map_data m !! Z.to_nat idx).

Definition set_entry (m : cmap V) (idx : Z) (e : map_entry V) : cmap V :=
  CMap (map_size m) (map_count m) (<[Z.to_nat idx := e]> (map_data m)).

Definition set_count (m : cmap V) (c : Z) : cmap V :=
  CMap (map_size m) (u32 c) (map_data m).

(** [map_clear] hands the live items to [release], in slot order. *)
Fixpoint map_clear_loop (es : list (map_entry V)) : list V * list (map_entry V) :=
  match es with
  | [] => ([], [])
  | e :: es' =>
      let '(rel, es'') := map_clear_loop es' in
      match e with
      | Null => (rel, Null :: es'')
      | Deleted => (rel, Null :: es'')
      | Item _ v => (v :: rel, Null :: es'')
      end
  end.

Definition map_clear (m : cmap V) : list V * cmap V :=
  let '(rel, es) := map_clear_loop (map_data m) in (rel, CMap (map_size m) 0 es).

(** The index and the loop counter are [int]s, the size is an [unsigned int]: the index of a
    slot from [2 ^ 31] on becomes negative, and the counter overflows when it gets there. *)
Definition next_idx (m : cmap V) (idx : Z) : outcome Z :=
  if idx + 1 <? 2 ^ 31 then Done (s32 ((idx + 1) mod map_size m)) else Fault Overflow.
Definition rounds (m : cmap V) : nat := Z.to_nat (Z.min (map_size m) (2 ^ 31)).
Definition all_seen {A} (m : cmap V) (a : A) : outcome A := if map_size m <? 2 ^ 31 then Done a else Fault Overflow.

Fixpoint map_hash_loop (n : nat) (m : cmap V) (key idx : Z) : outcome (cmap V * Z) :=
  match n with
  | O => all_seen m (m, -2)
  | S n' =>
      e ← get_entry m idx;
      match e with
      | Null | Deleted => Done (set_count m (map_count m + 1), idx)
      | Item k _ =>
          if k =? key then Done (m, idx)
          else idx ← next_idx m idx; map_hash_loop n' m key idx
      end
  end.

Definition map_hash (m : cmap V) (key : Z) : outcome (cmap V * Z) :=
  if map_count m =? map_size m then Done (m, -1)
  else if map_size m =? 0 then Fault DivByZero
  else map_hash_loop (rounds m) m key (s32 (key mod map_size m)).

(** The loop of [map_rehash] over the old table, [put] being [map_put]. *)
Fixpoint map_rehash_loop (put : cmap V -> Z -> V -> outcome (cmap V * Z))
    (oldt : list (map_entry V)) (m : cmap V) : outcome (cmap V * Z) :=
  match oldt with
  | [] => Done (m, 0)
  | Item k v :: oldt' =>
      '(m', rc) ← put m k v;
      if rc <? 0 then Done (m', rc) else map_rehash_loop put oldt' m'
  | _ :: oldt' => map_rehash_loop put oldt' m
  end.

(** [calloc n]: whether the allocator has room for a table of [n] slots. *)
Context (calloc : Z -> bool).

Definition map_rehash (put : cmap V -> Z -> V -> outcome (cmap V * Z)) (m : cmap V)
    : outcome (cmap V * Z) :=
  let nsize := u32 (map_size m + 256) in
  if negb (calloc nsize) then Done (m, -1)
  else map_rehash_loop put (map_data m) (CMap nsize 0 (replicate (Z.to_nat nsize) Null)).

(** [map_reput]: result code, and what [*old] receives. *)
Fixpoint map_reput_fuel (fuel : nat) (m : cmap V) (key : Z) (value : option V)
    : outcome (cmap V * Z * option V) :=
  match fuel with
  | O => OutOfFuel
  | S fuel' =>
      '(m1, rc) ← map_hash m key;
      if rc <? 0 then
        '(m2, rc2) ← map_rehash (fun m' k v =>
                        '(m'', rc', _) ← map_reput_fuel fuel' m' k (Some v); Done (m'', rc')) m1;
        if rc2 <? 0 then Done (m2, rc2, None)
        else map_reput_fuel fuel' m2 key value
      else
        e ← get_entry m1 rc;
        let old := match e with Item _ v => Some v | _ => None end in
        let new := match value with Some v => Item key v | None => Null end in
        Done (set_entry m1 rc new, 0, old)
  end.

Definition map_reput (m : cmap V) (key : Z) (value : option V) :=
  map_reput_fuel 2 m key value.

Definition map_put (m : cmap V) (key : Z) (value : option V) : outcome (cmap V * Z) :=
  '(m', rc, _) ← map_reput m key value; Done (m', rc).

Fixpoint map_find_loop (n : nat) (m : cmap V) (key idx : Z) : outcome (option Z) :=
  match n with
  | O => all_seen m None
  | S n' =>
      e ← get_entry m idx;
      idx' ← next_idx m idx;
      match e with
      | Null => Done None
      | Deleted => map_find_loop n' m key idx'
      | Item k _ => if k =? key then Done (Some idx) else map_find_loop n' m key idx'
      end
  end.

Definition map_find (m : cmap V) (key : Z) : outcome (option Z) :=
  if map_size m =? 0 then Done None
  else map_find_loop (rounds m) m key (s32 (key mod map_size m)).

Definition map_contains (m : cmap V) (key : Z) : outcome Z :=
  e ← map_find m key; Done (match e with None => 0 | Some _ => 1 end).

Definition map_get (m : cmap V) (key : Z) : outcome (option V) :=
  e ← map_find m key;
  match e with
  | None => Done None
  | Some idx => x ← get_entry m idx;
                Done (match x with Item _ v => Some v | _ => None end)
  end.

Definition map_remove (m : cmap V) (key : Z) : outcome (cmap V * Z) :=
  e ← map_find m key;
  match e with
  | None => Done (m, 1)
  | Some idx => Done (set_count (set_entry m idx Deleted) (map_count m - 1), 0)
  end.

Definition map_length (m : option (cmap V)) : Z :=
  match m with Some m' => map_count m' | None => 0 end.

(** [for (; i < map->size; ++i)], [n] being the iterations left. *)
Fixpoint map_iter_loop (n : nat) (m : cmap V) (i : Z) : outcome (option Z) :=
  match n with
  | O => Done None
  | S n' =>
      e ← get_entry m i;
      match e with
      | Item _ _ => Done (Some i)
      | _ => map_iter_loop n' m (i + 1)
      end
  end.

Definition map_iter_from (m : cmap V) (start : Z) : outcome (option Z) :=
  map_iter_loop (Z.to_nat (map_size m - start)) m start.

Definition map_iter_first (m : cmap V) : outcome (option Z) := map_iter_from m 0.

Definition map_iter_next (m : cmap V) (iter : option Z) : outcome (option Z) :=
  match iter with
  | None => Done None
  | Some i => map_iter_from m (i + 1)
  end.

Definition map_iter_item (m : cmap V) (i : Z) : outcome (option V) :=
  e ← get_entry m i;
  Done (match e with Item _ v => Some v | _ => None end).

(** [map_for_each]: the items the loop visits when its body leaves [m] alone. *)
Fixpoint map_for_each_loop (fuel : nat) (m : cmap V) (iter : option Z) : outcome (list V) :=
  match fuel with
  | O => OutOfFuel
  | S fuel' =>
      match iter with
      | None => Done []
      | Some i =>
          x ← map_iter_item m i;
          v ← of_option NullPointer x;
          next ← map_iter_next m iter;
          vs ← map_for_each_loop fuel' m next;
          Done (v :: vs)
      end
  end.

Definition map_for_each (m : cmap V) : outcome (list V) :=
  first ← map_iter_first m;
  map_for_each_loop (S (Z.to_nat (map_size m))) m first.

(** ** Specification *)

Definition is_item (e : map_entry V) : bool :=
  match e with Item _ _ => true | _ => false end.
Definition items (m : cmap V) : list (Z * V) :=
  omap (fun e => match e with Item k v => Some (k, v) | _ => None end) (map_data m).
Definition live (m : cmap V) : Z := zlen (items m).

(** The slot reached from [k] after [d] probes. *)
Definition probe (m : cmap V) (k d : Z) : option (map_entry V) :=
  map_data m !! Z.to_nat ((k + d) mod map_size m).

(** The table has its size, which an [int] holds, counts its items, and no NULL slot lies between
    the home slot of a key and an item with that key. *)
Record map_wf (m : cmap V) : Prop := {
  wf_len : zlen (map_data m) = map_size m;
  wf_size : 0 <= map_size m < 2 ^ 31;
  wf_count : map_count m = live m;
  wf_path : forall i k v, map_data m !! i = Some (Item k v) ->
    exists d, 0 <= d < map_size m /\ Z.of_nat i = (k + d) mod map_size m /\
              forall d', 0 <= d' < d -> probe m k d' <> Some Null }.

Definition map_unique (m : cmap V) : Prop :=
  forall i j k v w, map_data m !! i = Some (Item k v) -> map_data m !! j = Some (Item k w) -> i = j.

Definition no_tombstone (m : cmap V) : Prop := Deleted ∉ map_data m.

(** A deleted slot comes before the slot of [k] on the way from its home. *)
Definition shadowed (m : cmap V) (k : Z) : Prop :=
  exists d d' v, 0 <= d < d' /\ d' < map_size m /\
    probe m k d = Some Deleted /\ probe m k d' = Some (Item k v).

(** The table stands for the finite map [M]. *)
Definition represents (m : cmap V) (M : gmap Z V) : Prop :=
  map_wf m /\ map_unique m /\ forall k, map_get m k = Done (M !! k).

(** A full table can still grow. *)
Definition can_grow (m : cmap V) : Prop :=
  map_count m = map_size m -> map_size m + 256 < 2 ^ 31 /\ calloc (map_size m + 256) = true.

End operations.
