(* ===== verification/MapFacts.v ===== *)
(** * MapFacts: the hash table refines a finite map

    Lemmas and properties of [Map.v].  The proofs follow the probe sequence of
    a key by its offset [d] from the home slot: [find_spec] and [hash_spec] say
    where the two probe loops stop, [get_some]/[get_none] what a lookup sees,
    and each operation is then an update of one slot. *)

From S2P Require Import Prelude CString Hash Map.

Section facts.
Context {V : Type}.
Implicit Types (m : cmap V) (M : gmap Z V) (e : map_entry V).

(** ** Probe arithmetic *)

Lemma get_entry_probe m k d :
  0 < map_size m -> zlen (map_data m) = map_size m ->
  exists e, probe m k d = Some e /\ get_entry m ((k + d) mod map_size m) = Done e.
Proof.
  intros Hs Hl. unfold probe, get_entry.
  pose proof (Z.mod_pos_bound (k + d) (map_size m) Hs) as Hb.
  destruct (lookup_lt_is_Some_2 (map_data m) (Z.to_nat ((k + d) mod map_size m))) as [e He].
  { unfold zlen in Hl. lia. }
  exists e. rewrite He. rewrite (proj2 (Z.ltb_ge _ _)) by lia. done.
Qed.

Lemma probe_lookup m k d e :
  probe m k d = Some e -> map_data m !! Z.to_nat ((k + d) mod map_size m) = Some e.
Proof. done. Qed.

(** ** The lookup loop *)

(** The lookup loop walks over this slot. *)
Definition passes (k : Z) (o : option (map_entry V)) : Prop :=
  o = Some Deleted \/ exists k' v, o = Some (Item k' v) /\ k' <> k.

Definition find_result m k d (r : option Z) : Prop :=
  match r with
  | Some i => exists d' v, d <= d' < map_size m /\ i = (k + d') mod map_size m /\
      probe m k d' = Some (Item k v) /\ forall d'', d <= d'' < d' -> passes k (probe m k d'')
  | None => exists d', d <= d' <= map_size m /\
      (d' < map_size m -> probe m k d' = Some Null) /\
      forall d'', d <= d'' < d' -> passes k (probe m k d'')
  end.

Lemma next_small m idx : 0 < map_size m < 2 ^ 31 -> 0 <= idx < map_size m -> next_idx m idx = Done ((idx + 1) mod map_size m).
Proof.
  intros Hs Hi. unfold next_idx. rewrite (proj2 (Z.ltb_lt _ _)) by lia. rewrite s32_small; [done|].
  pose proof (Z.mod_pos_bound (idx + 1) (map_size m)). lia.
Qed.
Lemma first_small m k : 0 < map_size m < 2 ^ 31 -> s32 (k mod map_size m) = k mod map_size m.
Proof. intros Hs. apply s32_small. pose proof (Z.mod_pos_bound k (map_size m)). lia. Qed.
Lemma rounds_small m : 0 <= map_size m < 2 ^ 31 -> rounds m = Z.to_nat (map_size m).
Proof. intros Hs. unfold rounds. by rewrite Z.min_l by lia. Qed.
Lemma seen_small {A} m (a : A) : map_size m < 2 ^ 31 -> all_seen m a = Done a.
Proof. intros Hs. unfold all_seen. by rewrite (proj2 (Z.ltb_lt _ _)). Qed.

Lemma find_loop_spec m k n d :
  map_size m < 2 ^ 31 -> 0 <= d -> d + Z.of_nat n = map_size m -> zlen (map_data m) = map_size m ->
  exists r, map_find_loop n m k ((k + d) mod map_size m) = Done r /\ find_result m k d r.
Proof.
  intros Hs. revert d. induction n as [|n IH]; intros d Hd Hn Hl; cbn [map_find_loop].
  { exists None. split; [by apply seen_small|]. exists d. repeat split; lia. }
  destruct (get_entry_probe m k d ltac:(lia) Hl) as (e & Hp & Hg).
  rewrite Hg. simpl. rewrite next_small by first [lia|apply Z.mod_pos_bound; lia]. simpl. rewrite probe_next.
  assert (forall r, find_result m k (d + 1) r -> passes k (probe m k d) -> find_result m k d r) as Hext.
  { intros [i|] Hr Hpass; simpl in Hr.
    - destruct Hr as (d' & v & ? & ? & ? & Hall). exists d', v. repeat split; try lia; auto.
      intros d'' ?. destruct (decide (d'' = d)) as [->|]; [done|]. apply Hall; lia.
    - destruct Hr as (d' & ? & ? & Hall). exists d'. repeat split; try lia; auto.
      intros d'' ?. destruct (decide (d'' = d)) as [->|]; [done|]. apply Hall; lia. }
  destruct e as [| |k' v].
  - exists None. split; [done|]. exists d. repeat split; try lia; auto.
  - destruct (IH (d + 1)) as (r & Hr & Hspec); [lia..|done|].
    exists r. split; [done|]. apply Hext; [done|]. left; done.
  - destruct (Z.eqb_spec k' k) as [->|Hne].
    + exists (Some ((k + d) mod map_size m)). split; [done|].
      exists d, v. repeat split; try lia; auto.
    + destruct (IH (d + 1)) as (r & Hr & Hspec); [lia..|done|].
      exists r. split; [done|]. apply Hext; [done|]. right; eauto.
Qed.

Lemma find_spec m k :
  map_wf m -> 0 < map_size m -> exists r, map_find m k = Done r /\ find_result m k 0 r.
Proof.
  intros [Hl Hs _ _] Hpos. unfold map_find.
  rewrite (proj2 (Z.eqb_neq _ _)) by lia.
  rewrite rounds_small, first_small by lia.
  destruct (find_loop_spec m k (Z.to_nat (map_size m)) 0) as (r & Hr & Hspec); [lia..|done|].
  rewrite Z.add_0_r in Hr. eauto.
Qed.

(** The first item of [k] along its probe sequence. *)
Definition first_item m k d v : Prop :=
  0 <= d < map_size m /\ probe m k d = Some (Item k v) /\
  forall d' w, 0 <= d' < d -> probe m k d' <> Some (Item k w).

Lemma passes_not_item k v o : passes k o -> o <> Some (Item k v).
Proof. intros [->|(k' & w & -> & Hne)]; [done|]. congruence. Qed.

Lemma wf_path_probe m k d v :
  map_wf m -> 0 <= d < map_size m -> probe m k d = Some (Item k v) ->
  forall d', 0 <= d' < d -> probe m k d' <> Some Null.
Proof.
  intros Hwf Hd Hp.
  destruct (wf_path _ Hwf _ _ _ (probe_lookup _ _ _ _ Hp)) as (d0 & Hd0 & Heq & Hall).
  rewrite Z2Nat.id in Heq by (apply Z.mod_pos_bound; lia).
  apply probe_offset_inj in Heq; [subst d0; done|lia..].
Qed.

(** A slot is reached by exactly one offset. *)
Lemma lookup_probe m i k e :
  map_wf m -> map_data m !! i = Some e -> exists d, 0 <= d < map_size m /\
    Z.of_nat i = (k + d) mod map_size m /\ probe m k d = Some e.
Proof.
  intros Hwf Hi. pose proof (lookup_lt_Some _ _ _ Hi) as Hlt.
  pose proof (wf_len _ Hwf) as Hl. unfold zlen in Hl.
  exists ((Z.of_nat i - k) mod map_size m).
  assert ((k + (Z.of_nat i - k) mod map_size m) mod map_size m = Z.of_nat i) as Heq.
  { rewrite Z.add_mod_idemp_r by lia. replace (k + (Z.of_nat i - k)) with (Z.of_nat i) by lia.
    apply Z.mod_small; lia. }
  split; [apply Z.mod_pos_bound; lia|]. split; [done|].
  unfold probe. by rewrite Heq, Nat2Z.id.
Qed.

Lemma find_size0 m k : map_size m = 0 -> map_find m k = Done None.
Proof. intros H. unfold map_find. by rewrite H. Qed.

Lemma wf_empty_no_item m i e : map_wf m -> map_size m = 0 -> map_data m !! i <> Some e.
Proof.
  intros Hwf H0 Hi. apply lookup_lt_Some in Hi. pose proof (wf_len _ Hwf). unfold zlen in *. lia.
Qed.

(** What a lookup returns: the first item of the key, or nothing when there is none. *)
Lemma get_cases m k :
  map_wf m ->
  (exists d v, first_item m k d v /\ map_find m k = Done (Some ((k + d) mod map_size m)) /\
               map_get m k = Done (Some v)) \/
  ((forall i v, map_data m !! i <> Some (Item k v)) /\
   map_find m k = Done None /\ map_get m k = Done None).
Proof.
  intros Hwf. destruct (decide (map_size m = 0)) as [H0|Hpos].
  { right. unfold map_get. rewrite find_size0 by done. simpl.
    split; [|done]. intros i v. by apply wf_empty_no_item. }
  pose proof (wf_size _ Hwf).
  destruct (find_spec m k Hwf) as ([i|] & Hf & Hr); [lia| |].
  - destruct Hr as (d & v & Hd & -> & Hp & Hall). left. exists d, v. split.
    { repeat split; [lia..|done|]. intros d' w Hd'. apply passes_not_item, Hall; lia. }
    split; [done|]. unfold map_get. rewrite Hf. simpl.
    destruct (get_entry_probe m k d) as (e & Hpe & Hg); [lia|by apply wf_len|].
    rewrite Hg. assert (e = Item k v) as -> by congruence. done.
  - right. split; [|split; [done|]; unfold map_get; by rewrite Hf].
    destruct Hr as (d' & Hd' & Hnull & Hall). intros i v Hi.
    destruct (lookup_probe m i k _ Hwf Hi) as (d & Hd & _ & Hp).
    destruct (Z.lt_ge_cases d d') as [Hlt|Hge].
    + by apply (passes_not_item k v) in Hp; [|apply Hall; lia].
    + assert (probe m k d' = Some Null) as Hn by (apply Hnull; lia).
      destruct (decide (d = d')) as [->|]; [congruence|].
      by apply (wf_path_probe m k d v Hwf Hd Hp d'); [lia|].
Qed.

Lemma first_item_inj m k d v d' v' :
  first_item m k d v -> first_item m k d' v' -> d = d' /\ v = v'.
Proof.
  intros (Hd & Hp & Hall) (Hd' & Hp' & Hall').
  assert (d = d') as ->; [|split; congruence].
  destruct (Z.lt_trichotomy d d') as [Hlt|[->|Hgt]]; [|done|].
  - exfalso. apply (Hall' d v); [lia|done].
  - exfalso. apply (Hall d' v'); [lia|done].
Qed.

Lemma get_first m k d v : map_wf m -> first_item m k d v -> map_get m k = Done (Some v).
Proof.
  intros Hwf Hf. destruct (get_cases m k Hwf) as [(d' & v' & Hf' & _ & Hg)|(Hno & _)].
  - destruct (first_item_inj _ _ _ _ _ _ Hf Hf') as [-> ->]. done.
  - destruct Hf as (_ & Hp & _). by apply Hno in Hp.
Qed.

Lemma get_absent m k :
  map_wf m -> (forall i v, map_data m !! i <> Some (Item k v)) -> map_get m k = Done None.
Proof.
  intros Hwf Hno. destruct (get_cases m k Hwf) as [(d' & v' & (_ & Hp & _) & _)|(_ & _ & Hg)]; [|done].
  by apply Hno in Hp.
Qed.

(** Under [map_unique], lookup is membership. *)
Lemma get_unique_some m k v :
  map_wf m -> map_unique m ->
  (map_get m k = Done (Some v) <-> exists i, map_data m !! i = Some (Item k v)).
Proof.
  intros Hwf Hun. destruct (get_cases m k Hwf) as [(d & v' & (Hd & Hp & _) & _ & Hg)|(Hno & _ & Hg)];
    rewrite Hg; split.
  - intros [= ->]. eexists. apply (probe_lookup _ _ _ _ Hp).
  - intros (i & Hi). pose proof (Hun _ _ _ _ _ Hi (probe_lookup _ _ _ _ Hp)) as ->.
    apply probe_lookup in Hp. congruence.
  - done.
  - intros (i & Hi). by apply Hno in Hi.
Qed.

(** ** The insertion loop *)

Definition other_item (k : Z) (o : option (map_entry V)) : Prop :=
  exists k' v, o = Some (Item k' v) /\ k' <> k.

(** [d'] is where [map_hash] stops: the first slot that is free or holds [k]. *)
Definition hash_stop m k d e : Prop :=
  0 <= d < map_size m /\ probe m k d = Some e /\
  (e = Null \/ e = Deleted \/ exists v, e = Item k v) /\
  forall d', 0 <= d' < d -> other_item k (probe m k d').

Lemma hash_loop_spec m k n d :
  map_size m < 2 ^ 31 -> 0 <= d -> d + Z.of_nat n = map_size m -> zlen (map_data m) = map_size m ->
  (forall d', 0 <= d' < d -> other_item k (probe m k d')) ->
  (exists d' e, hash_stop m k d' e /\
     map_hash_loop n m k ((k + d) mod map_size m) =
     Done (if is_item e then m else set_count m (map_count m + 1), (k + d') mod map_size m)) \/
  (forall d', 0 <= d' < map_size m -> other_item k (probe m k d')).
Proof.
  intros Hs. revert d. induction n as [|n IH]; intros d Hd Hn Hl Hall; cbn [map_hash_loop].
  { right. intros d' Hd'. apply Hall. lia. }
  destruct (get_entry_probe m k d ltac:(lia) Hl) as (e & Hp & Hg).
  rewrite Hg. simpl. rewrite next_small by first [lia|apply Z.mod_pos_bound; lia]. simpl. rewrite probe_next.
  assert (hash_stop m k d e \/ other_item k (probe m k d)) as [Hstop|Hother].
  { destruct e as [| |k' v]; [left..|].
    - repeat split; [lia..|done|auto|done].
    - repeat split; [lia..|done|auto|done].
    - destruct (decide (k' = k)) as [->|]; [left|right; unfold other_item; eauto].
      repeat split; [lia..|done|eauto|done]. }
  - left. exists d, e. split; [done|].
    destruct Hstop as (_ & _ & [->|[->|[v ->]]] & _); simpl; [done..|].
    by rewrite Z.eqb_refl.
  - destruct Hother as (k' & v & Hp' & Hne). assert (e = Item k' v) as -> by congruence.
    rewrite (proj2 (Z.eqb_neq _ _) Hne). apply IH; [lia..|done|].
    intros d' Hd'. destruct (decide (d' = d)) as [->|]; [unfold other_item; eauto|]. apply Hall; lia.
Qed.

Lemma omap_all_items (l : list (map_entry V)) :
  (forall e, e ∈ l -> is_item e = true) ->
  length (omap (fun e => match e with Item k v => Some (k, v) | _ => None end) l) = length l.
Proof.
  induction l as [|e l IH]; intros H; simpl; [done|].
  assert (is_item e = true) as He by (apply H; left).
  destruct e; try done. simpl. f_equal. apply IH. intros; apply H; by right.
Qed.

Lemma live_bounds m : 0 <= live m <= zlen (map_data m).
Proof.
  unfold live, items, zlen. split; [lia|].
  enough (forall l : list (map_entry V), (length (omap (fun e =>
    match e with Item k v => Some (k, v) | _ => None end) l) <= length l)%nat) as H
    by (specialize (H (map_data m)); lia).
  induction l as [|[| |k v] l IH]; csimpl; lia.
Qed.

Lemma full_live m k :
  map_wf m -> (forall d, 0 <= d < map_size m -> other_item k (probe m k d)) ->
  live m = map_size m.
Proof.
  intros Hwf Hall. rewrite <- (wf_len _ Hwf). unfold live, zlen. f_equal.
  apply omap_all_items. intros e [i Hi]%list_elem_of_lookup.
  destruct (lookup_probe m i k e Hwf Hi) as (d & Hd & _ & Hp).
  destruct (Hall d Hd) as (k' & v & Hp' & _). assert (e = Item k' v) as -> by congruence. done.
Qed.

Lemma hash_spec m k :
  map_wf m -> map_count m < map_size m ->
  exists d e, hash_stop m k d e /\
    map_hash m k = Done (if is_item e then m else set_count m (map_count m + 1), (k + d) mod map_size m).
Proof.
  intros Hwf Hlt. pose proof (wf_count _ Hwf). pose proof (live_bounds m). pose proof (wf_size _ Hwf).
  unfold map_hash. rewrite (proj2 (Z.eqb_neq (map_count m) _)) by lia.
  rewrite (proj2 (Z.eqb_neq (map_size m) 0)) by lia.
  rewrite rounds_small, first_small by lia.
  destruct (hash_loop_spec m k (Z.to_nat (map_size m)) 0) as [Hs|Hfull].
  - lia.
  - lia.
  - lia.
  - by apply wf_len.
  - lia.
  - by rewrite Z.add_0_r in Hs.
  - apply full_live in Hfull; [lia|done].
Qed.

(** ** Updating one slot *)

Lemma live_insert m i e e' s c :
  map_data m !! i = Some e ->
  live (CMap s c (<[i := e']> (map_data m))) =
  live m - Z.b2z (is_item e) + Z.b2z (is_item e').
Proof.
  intros Hi. unfold live, items, zlen. simpl.
  rewrite insert_take_drop by (by eapply lookup_lt_Some).
  rewrite <- (take_drop_middle _ _ _ Hi) at 3.
  rewrite !omap_app, !length_app. simpl.
  destruct e, e'; simpl; lia.
Qed.

Lemma probe_set m k d e k' d' :
  map_wf m -> 0 < map_size m ->
  probe (set_entry m ((k + d) mod map_size m) e) k' d' =
  if decide ((k' + d') mod map_size m = (k + d) mod map_size m) then Some e else probe m k' d'.
Proof.
  intros Hwf Hs. unfold probe, set_entry; simpl. pose proof (wf_len _ Hwf) as Hl. unfold zlen in Hl.
  pose proof (Z.mod_pos_bound (k + d) _ Hs). pose proof (Z.mod_pos_bound (k' + d') _ Hs).
  case_decide as Heq.
  - rewrite Heq. apply list_lookup_insert_eq. lia.
  - apply list_lookup_insert_ne. lia.
Qed.

(** Overwriting a slot by a non-NULL entry keeps the table well formed, when an
    item put there is reached without crossing a NULL slot. *)
Lemma set_wf m k d e e' c :
  map_wf m -> 0 <= d < map_size m -> probe m k d = Some e -> e' <> Null ->
  (forall k' v, e' = Item k' v -> k' = k /\ forall d', 0 <= d' < d -> probe m k d' <> Some Null) ->
  u32 c = live m - Z.b2z (is_item e) + Z.b2z (is_item e') ->
  map_wf (set_count (set_entry m ((k + d) mod map_size m) e') c).
Proof.
  intros Hwf Hd Hp Hnn Hnew Hc. pose proof (wf_len _ Hwf) as Hl. pose proof (wf_size _ Hwf).
  pose proof (Z.mod_pos_bound (k + d) (map_size m) ltac:(lia)) as Hb.
  assert (forall k' d', probe (set_count (set_entry m ((k + d) mod map_size m) e') c) k' d' =
    if decide ((k' + d') mod map_size m = (k + d) mod map_size m) then Some e' else probe m k' d') as Hprobe.
  { intros k' d'. rewrite <- probe_set by (done || lia). done. }
  split.
  - simpl. unfold zlen in *. by rewrite length_insert.
  - done.
  - simpl. rewrite Hc. symmetry. by apply (live_insert m _ e e').
  - intros i k' v Hi. simpl in Hi.
    assert (exists d0, 0 <= d0 < map_size m /\ Z.of_nat i = (k' + d0) mod map_size m /\
              forall d', 0 <= d' < d0 -> probe m k' d' <> Some Null) as (d0 & Hd0 & Hi0 & Hpath).
    { apply list_lookup_insert_Some in Hi as [(Hi & He' & _)|(Hne & Hi)].
      - destruct (Hnew k' v He') as [-> Hpath]. exists d. repeat split; [lia..| |done].
        rewrite <- Hi, Z2Nat.id by lia. done.
      - by apply (wf_path _ Hwf) in Hi. }
    exists d0. split; [done|]. split; [done|]. intros d' Hd'. rewrite Hprobe.
    case_decide; [congruence|by apply Hpath].
Qed.

(** A lookup depends only on the items of its own key. *)
Lemma get_frame m m' k :
  map_wf m -> map_wf m' -> map_size m' = map_size m ->
  (forall i v, map_data m' !! i = Some (Item k v) <-> map_data m !! i = Some (Item k v)) ->
  map_get m' k = map_get m k.
Proof.
  intros Hwf Hwf' Hsz Hsame.
  destruct (get_cases m k Hwf) as [(d & v & (Hd & Hp & Hall) & _ & Hg)|(Hno & _ & Hg)]; rewrite Hg.
  - apply (get_first m' k d v Hwf'). unfold first_item, probe in *. rewrite Hsz.
    split; [done|]. split; [by apply Hsame|].
    intros d' w Hd' Hx. apply Hsame in Hx. by apply (Hall d' w).
  - apply get_absent; [done|]. intros i v Hx. apply Hsame in Hx. by apply Hno in Hx.
Qed.

Lemma set_item_other m idx e e0 k c i v :
  map_data m !! Z.to_nat idx = Some e0 ->
  (forall w, e <> Item k w) -> (forall w, e0 <> Item k w) ->
  map_data (set_count (set_entry m idx e) c) !! i = Some (Item k v) <->
  map_data m !! i = Some (Item k v).
Proof.
  intros H0 He He0. simpl. rewrite list_lookup_insert_Some. split.
  - intros [(_ & -> & _)|(_ & H)]; [by destruct (He v)|done].
  - intros H. destruct (decide (Z.to_nat idx = i)) as [<-|Hne]; [|by right].
    exfalso. apply (He0 v). congruence.
Qed.

(** ** [map_reput] *)

Definition has m k v : Prop := exists i, map_data m !! i = Some (Item k v).

Lemma set_count_id m : map_wf m -> set_count m (map_count m) = m.
Proof.
  intros Hwf. destruct m as [s c l]. unfold set_count; simpl. f_equal. apply u32_small.
  pose proof (wf_count _ Hwf). pose proof (live_bounds (CMap s c l)).
  pose proof (wf_len _ Hwf). pose proof (wf_size _ Hwf). simpl in *. lia.
Qed.

Definition put_result m k v d e : cmap V :=
  set_count (set_entry m ((k + d) mod map_size m) (Item k v)) (map_count m + Z.b2z (negb (is_item e))).

Definition old_of e : option V := match e with Item _ w => Some w | _ => None end.

Lemma reput_room calloc fuel m k v :
  map_wf m -> map_count m < map_size m ->
  exists d e, hash_stop m k d e /\
    map_reput_fuel calloc (S fuel) m k (Some v) = Done (put_result m k v d e, 0, old_of e).
Proof.
  intros Hwf Hlt. destruct (hash_spec m k Hwf Hlt) as (d & e & Hstop & Hh).
  exists d, e. split; [done|]. pose proof Hstop as (Hd & Hp & _).
  destruct (get_entry_probe m k d) as (e' & Hp' & Hg); [lia|by apply wf_len|].
  assert (e' = e) as -> by congruence.
  pose proof (Z.mod_pos_bound (k + d) (map_size m) ltac:(lia)).
  cbn [map_reput_fuel]. rewrite Hh. simpl.
  rewrite (proj2 (Z.ltb_ge _ _)) by lia.
  destruct e as [| |k' w]; simpl.
  - change (get_entry (set_count m (map_count m + 1))) with (get_entry m). by rewrite Hg.
  - change (get_entry (set_count m (map_count m + 1))) with (get_entry m). by rewrite Hg.
  - rewrite Hg. simpl. unfold put_result. simpl. rewrite Z.add_0_r.
    rewrite <- (set_count_id m Hwf) at 1. done.
Qed.

Lemma hash_stop_no_null m k d e :
  hash_stop m k d e -> forall d', 0 <= d' < d -> probe m k d' <> Some Null.
Proof.
  intros (_ & _ & _ & Hall) d' Hd'. destruct (Hall d' Hd') as (? & ? & -> & _). done.
Qed.

Lemma put_result_wf m k v d e :
  map_wf m -> map_count m < map_size m -> hash_stop m k d e -> map_wf (put_result m k v d e).
Proof.
  intros Hwf Hlt Hstop. pose proof Hstop as (Hd & Hp & _).
  pose proof (wf_count _ Hwf). pose proof (live_bounds m). pose proof (wf_size _ Hwf).
  apply (set_wf m k d e); [done..| |].
  - intros k' v' [= -> ->]. split; [done|]. by apply (hash_stop_no_null m k' d e).
  - simpl. rewrite u32_small; destruct (is_item e); simpl; lia.
Qed.

Lemma put_result_items m k v d e i k' v' :
  map_wf m -> hash_stop m k d e ->
  map_data (put_result m k v d e) !! i = Some (Item k' v') <->
  (k' = k /\ v' = v /\ i = Z.to_nat ((k + d) mod map_size m)) \/
  (i <> Z.to_nat ((k + d) mod map_size m) /\ map_data m !! i = Some (Item k' v')).
Proof.
  intros Hwf (Hd & Hp & _). simpl. rewrite list_lookup_insert_Some. split.
  - intros [(<- & [= -> ->] & _)|(Hne & Hi)]; auto.
  - intros [(-> & -> & ->)|(Hne & Hi)]; [left|right; auto].
    repeat split. eapply lookup_lt_Some, probe_lookup, Hp.
Qed.

Lemma put_result_has m k v d e k' v' :
  map_wf m -> hash_stop m k d e -> has (put_result m k v d e) k' v' ->
  (k' = k /\ v' = v) \/ has m k' v'.
Proof.
  intros Hwf Hs [i Hi]. apply put_result_items in Hi; [|done..].
  destruct Hi as [(-> & -> & _)|(_ & Hi)]; [auto|right; by exists i].
Qed.

Lemma put_result_first m k v d e :
  map_wf m -> hash_stop m k d e -> first_item (put_result m k v d e) k d v.
Proof.
  intros Hwf (Hd & Hp & _ & Hall).
  assert (forall d', probe (put_result m k v d e) k d' =
    if decide ((k + d') mod map_size m = (k + d) mod map_size m) then Some (Item k v) else probe m k d') as Hpr.
  { intros d'. rewrite <- probe_set by (done || lia). done. }
  split; [done|]. split; [by rewrite Hpr, decide_True|].
  intros d' w Hd'. rewrite Hpr. case_decide as Heq.
  - apply probe_offset_inj in Heq; lia.
  - destruct (Hall d' ltac:(lia)) as (k' & v' & -> & Hne). congruence.
Qed.

Lemma put_result_get m k v d e :
  map_wf m -> map_count m < map_size m -> hash_stop m k d e ->
  map_get (put_result m k v d e) k = Done (Some v).
Proof.
  intros Hwf Hlt Hstop. apply (get_first _ k d); [by apply put_result_wf|by apply put_result_first].
Qed.

Lemma put_result_get_other m k v d e k' :
  map_wf m -> map_count m < map_size m -> hash_stop m k d e -> k' <> k ->
  map_get (put_result m k v d e) k' = map_get m k'.
Proof.
  intros Hwf Hlt Hstop Hne. pose proof Hstop as (Hd & Hp & He & _).
  apply get_frame; [done|by apply put_result_wf|done|].
  intros i w. apply (set_item_other m _ _ e); [done|congruence|].
  intros w' ->. destruct He as [?|[?|[? ?]]]; congruence.
Qed.

(** A free stopping slot means the key is absent, unless it is shadowed. *)
Lemma hash_stop_absent m k d e :
  map_wf m -> hash_stop m k d e -> is_item e = false -> ~ shadowed m k ->
  forall v, ~ has m k v.
Proof.
  intros Hwf (Hd & Hp & He & Hall) Hni Hsh v [i Hi].
  destruct (lookup_probe m i k _ Hwf Hi) as (d0 & Hd0 & _ & Hp0).
  destruct (Z.lt_trichotomy d0 d) as [Hlt|[->|Hgt]].
  - destruct (Hall d0 ltac:(lia)) as (k' & w & Hp' & Hne). congruence.
  - destruct e; simpl in *; congruence.
  - destruct He as [->|[->|[w ->]]]; [| |done].
    + by apply (wf_path_probe m k d0 v Hwf Hd0 Hp0 d); [lia|].
    + apply Hsh. exists d, d0, v. repeat split; (done || lia).
Qed.

Lemma put_result_unique m k v d e :
  map_wf m -> map_unique m -> hash_stop m k d e -> ~ shadowed m k ->
  map_unique (put_result m k v d e) /\ map_get m k = Done (old_of e).
Proof.
  intros Hwf Hun Hstop Hsh. pose proof Hstop as (Hd & Hp & He & _).
  set (idx := Z.to_nat ((k + d) mod map_size m)).
  assert (forall j w, j <> idx -> map_data m !! j <> Some (Item k w)) as Hfresh.
  { intros j w Hj Hx. destruct (is_item e) eqn:Hie.
    - destruct He as [->|[->|[w' ->]]]; try done.
      by apply Hj, (Hun _ _ _ _ _ Hx (probe_lookup _ _ _ _ Hp)).
    - eapply hash_stop_absent; eauto. by exists j. }
  split.
  - intros i j k' v1 v2 H1 H2.
    apply put_result_items in H1; [|done..]. apply put_result_items in H2; [|done..].
    destruct H1 as [(-> & -> & ->)|(Hi & H1)], H2 as [(E2 & -> & ->)|(Hj & H2)]; [done|..].
    + by apply Hfresh in H2.
    + subst k'. by apply Hfresh in H1.
    + eauto.
  - destruct e as [| |k' w]; simpl.
    1-2: apply get_absent; [done|]; intros i w Hi; eapply hash_stop_absent; eauto; by exists i.
    destruct He as [?|[?|[? [= -> ->]]]]; try done.
    apply get_unique_some; eauto.
Qed.

Lemma put_result_no_tombstone m k v d e :
  no_tombstone m -> no_tombstone (put_result m k v d e).
Proof.
  intros Hnt [i Hi]%list_elem_of_lookup. simpl in Hi.
  apply list_lookup_insert_Some in Hi as [(_ & ? & _)|(_ & Hi)]; [done|].
  apply Hnt. by eapply list_elem_of_lookup_2.
Qed.

Lemma no_tombstone_not_shadowed m k : no_tombstone m -> ~ shadowed m k.
Proof.
  intros Hnt (d & d' & v & _ & _ & Hp & _). apply Hnt. by eapply list_elem_of_lookup_2.
Qed.

Lemma put_result_live m k v d e :
  map_wf m -> hash_stop m k d e ->
  live (put_result m k v d e) = live m + Z.b2z (negb (is_item e)).
Proof.
  intros Hwf (Hd & Hp & _). unfold put_result, set_entry, set_count; simpl.
  rewrite (live_insert m _ e) by done. destruct (is_item e); simpl; lia.
Qed.

(** ** [map_rehash] *)

Lemma fresh_table_wf n :
  0 <= n < 2 ^ 31 -> map_wf (CMap n 0 (replicate (Z.to_nat n) (@Null V))).
Proof.
  intros Hn. split; simpl.
  - unfold zlen. rewrite length_replicate. lia.
  - done.
  - unfold live, items, zlen. simpl.
    induction (Z.to_nat n) as [|x IH]; [done|]. by csimpl.
  - intros i k v Hi. apply lookup_replicate in Hi as [? _]. done.
Qed.

Lemma fresh_table_has n c k v : ~ has (CMap n c (replicate (Z.to_nat n) (@Null V))) k v.
Proof. intros [i Hi]. simpl in Hi. apply lookup_replicate in Hi as [? _]. done. Qed.

Lemma fresh_table_live n c : live (CMap n c (replicate (Z.to_nat n) (@Null V))) = 0.
Proof.
  unfold live, items, zlen. simpl. induction (Z.to_nat n) as [|x IH]; [done|]. by csimpl.
Qed.

Definition item_pairs (es : list (map_entry V)) : list (Z * V) :=
  omap (fun e => match e with Item k v => Some (k, v) | _ => None end) es.

Definition put_fuel calloc fuel : cmap V -> Z -> V -> outcome (cmap V * Z) :=
  fun m' k v => '(m'', rc', _) ← map_reput_fuel calloc fuel m' k (Some v); Done (m'', rc').

Lemma put_fuel_done calloc fuel m k v m' rc old :
  map_reput_fuel calloc fuel m k (Some v) = Done (m', rc, old) ->
  put_fuel calloc fuel m k v = Done (m', rc).
Proof. intros H. unfold put_fuel. by rewrite H. Qed.

(** The copying loop, when the new table has room for what is left. *)
Lemma rehash_loop_spec calloc fuel es m :
  map_wf m -> live m + zlen (item_pairs es) <= map_size m ->
  exists m', map_rehash_loop (put_fuel calloc (S fuel)) es m = Done (m', 0) /\ map_wf m' /\
    map_size m' = map_size m /\
    (forall k v, has m' k v -> has m k v \/ Item k v ∈ es) /\
    (no_tombstone m -> no_tombstone m') /\
    live m' <= live m + zlen (item_pairs es).
Proof.
  revert m. induction es as [|e es IH]; intros m Hwf Hroom.
  { exists m. change (zlen (item_pairs [])) with 0. split_and!; auto; lia. }
  assert (forall k v, Item k v ∈ es -> Item k v ∈ e :: es) as Hin by (intros; by right).
  assert (e = Null \/ e = Deleted \/ exists k v, e = Item k v) as [->|[->|(k & v & ->)]]
    by (destruct e; eauto).
  1-2: (destruct (IH m Hwf Hroom) as (m' & Hrun & ? & ? & Hh & ? & ?); exists m';
        split_and!; auto; intros k v Hx; destruct (Hh k v Hx); auto).
  change (item_pairs (Item k v :: es)) with ((k, v) :: item_pairs es) in *.
  assert (zlen ((k, v) :: item_pairs es) = zlen (item_pairs es) + 1) as Hz
    by (unfold zlen; simpl; lia).
  rewrite Hz in *. pose proof (wf_count _ Hwf). assert (0 <= zlen (item_pairs es)) by (unfold zlen; lia).
  destruct (reput_room calloc fuel m k v Hwf) as (d & s & Hstop & Hput); [lia|].
  pose proof (put_result_live m k v d s Hwf Hstop) as Hlive.
  assert (Z.b2z (negb (is_item s)) <= 1) by (destruct (is_item s); simpl; lia).
  destruct (IH (put_result m k v d s)) as (m' & Hrun & Hwf' & Hsz & Hh & Hnt & Hlv).
  { apply put_result_wf; [done|lia|done]. }
  { simpl. lia. }
  exists m'. cbn [map_rehash_loop]. rewrite (put_fuel_done _ _ _ _ _ _ _ _ Hput). simpl.
  split_and!; auto.
  - intros k' v' Hx. destruct (Hh k' v' Hx) as [Hx'|]; [|right; by right].
    apply put_result_has in Hx' as [[-> ->]|]; auto. right; left.
  - intros Hn. by apply Hnt, put_result_no_tombstone.
  - lia.
Qed.

(** When the old table has no key twice, the copy holds exactly its items. *)
Lemma rehash_loop_unique calloc fuel es m m' :
  map_wf m -> map_unique m -> no_tombstone m -> live m + zlen (item_pairs es) <= map_size m ->
  (forall i j k v w, es !! i = Some (Item k v) -> es !! j = Some (Item k w) -> i = j) ->
  (forall k v w, Item k v ∈ es -> ~ has m k w) ->
  map_rehash_loop (put_fuel calloc (S fuel)) es m = Done (m', 0) ->
  map_unique m' /\ (forall k v, has m' k v <-> has m k v \/ Item k v ∈ es).
Proof.
  revert m. induction es as [|e es IH]; intros m Hwf Hun Hnt Hroom Hes Hdis Hrun.
  { cbn in Hrun. injection Hrun as <-. split; [done|]. intros k v. split; [auto|].
    intros [?|Hx]; [done|]. by apply not_elem_of_nil in Hx. }
  assert (forall i j k v w, es !! i = Some (Item k v) -> es !! j = Some (Item k w) -> i = j) as Hes'.
  { intros i j k v w Hi Hj. pose proof (Hes (S i) (S j) k v w Hi Hj). lia. }
  assert (e = Null \/ e = Deleted \/ exists k v, e = Item k v) as [->|[->|(k & v & ->)]]
    by (destruct e; eauto).
  1-2: (destruct (IH m) as [? Hiff]; auto;
        [intros k v w Hx; apply (Hdis k v w); by right|];
        split; [done|]; intros k v; rewrite Hiff, elem_of_cons; intuition congruence).
  change (item_pairs (Item k v :: es)) with ((k, v) :: item_pairs es) in *.
  assert (zlen ((k, v) :: item_pairs es) = zlen (item_pairs es) + 1) as Hz
    by (unfold zlen; simpl; lia).
  rewrite Hz in *. pose proof (wf_count _ Hwf). assert (0 <= zlen (item_pairs es)) by (unfold zlen; lia).
  destruct (reput_room calloc fuel m k v Hwf) as (d & s & Hstop & Hput); [lia|].
  cbn [map_rehash_loop] in Hrun. rewrite (put_fuel_done _ _ _ _ _ _ _ _ Hput) in Hrun. simpl in Hrun.
  destruct (put_result_unique m k v d s Hwf Hun Hstop) as [Hun' _].
  { by apply no_tombstone_not_shadowed. }
  pose proof (put_result_live m k v d s Hwf Hstop).
  assert (Z.b2z (negb (is_item s)) <= 1) by (destruct (is_item s); simpl; lia).
  assert (has (put_result m k v d s) k v) as Hkv.
  { exists (Z.to_nat ((k + d) mod map_size m)). apply put_result_items; auto. }
  assert (forall k' v', has m k' v' -> has (put_result m k v d s) k' v') as Hkeep.
  { intros k' v' [i Hi]. exists i. apply put_result_items; [done..|]. right. split; [|done].
    intros ->. pose proof Hstop as (_ & Hp & Hs & _). apply probe_lookup in Hp.
    rewrite Hp in Hi. injection Hi as ->. destruct Hs as [?|[?|[w [= -> ->]]]]; try done.
    eapply (Hdis k v w); [left|]. by exists (Z.to_nat ((k + d) mod map_size m)). }
  destruct (IH (put_result m k v d s)) as [Hun2 Hiff]; auto.
  - apply put_result_wf; [done|lia|done].
  - by apply put_result_no_tombstone.
  - simpl. lia.
  - intros k' v' w Hx Hh.
    destruct (put_result_has _ _ _ _ _ _ _ Hwf Hstop Hh) as [[-> ->]|Hh'].
    + apply list_elem_of_lookup in Hx as [i Hi]. pose proof (Hes (S i) 0%nat k v' v Hi eq_refl). lia.
    + apply (Hdis k' v' w); [by right|done].
  - split; [done|]. intros k' v'. rewrite Hiff, elem_of_cons. split.
    + intros [Hh|?]; [|auto]. apply put_result_has in Hh as [[-> ->]|]; auto.
    + intros [?|[[= -> ->]|?]]; auto.
Qed.

Lemma rehash_spec calloc fuel m :
  map_wf m -> map_size m + 256 < 2 ^ 31 -> calloc (map_size m + 256) = true ->
  exists m', map_rehash calloc (put_fuel calloc (S fuel)) m = Done (m', 0) /\ map_wf m' /\
    map_size m' = map_size m + 256 /\ map_count m' < map_size m' /\ no_tombstone m' /\
    (forall k v, has m' k v -> has m k v) /\
    (map_unique m -> map_unique m' /\ forall k v, has m' k v <-> has m k v).
Proof.
  intros Hwf Hs Hc. pose proof (wf_size _ Hwf). pose proof (live_bounds m) as Hlb.
  rewrite (wf_len _ Hwf) in Hlb.
  unfold map_rehash. rewrite (u32_small (map_size m + 256)) by lia. rewrite Hc. simpl.
  set (m0 := CMap (map_size m + 256) 0 (replicate (Z.to_nat (map_size m + 256)) Null)).
  assert (map_wf m0) as Hwf0 by (apply fresh_table_wf; lia).
  assert (no_tombstone m0) as Hnt0.
  { intros [i Hi]%list_elem_of_lookup. apply lookup_replicate in Hi as [? _]. done. }
  assert (live m0 = 0) as Hl0 by apply fresh_table_live.
  assert (zlen (item_pairs (map_data m)) = live m) as Hz by done.
  destruct (rehash_loop_spec calloc fuel (map_data m) m0) as (m' & Hrun & Hwf' & Hsz & Hh & Hnt & Hlv);
    [done|rewrite Hz, Hl0; simpl; lia|].
  exists m'. split; [done|]. split; [done|]. split; [done|].
  split; [rewrite (wf_count _ Hwf'), Hsz; simpl; lia|]. split; [auto|].
  assert (forall k v, Item k v ∈ map_data m <-> has m k v) as Hmem
    by (intros; apply list_elem_of_lookup).
  split.
  { intros k v Hx. destruct (Hh k v Hx) as [Hx'|Hx']; [by apply fresh_table_has in Hx'|by apply Hmem]. }
  intros Hun. destruct (rehash_loop_unique calloc fuel (map_data m) m0 m') as [Hun' Hiff]; auto.
  - intros i j k v w Hx. simpl in Hx. apply lookup_replicate in Hx as [? _]. done.
  - rewrite Hz, Hl0; simpl; lia.
  - intros k v w _. apply fresh_table_has.
  - split; [done|]. intros k v. rewrite Hiff, Hmem. split; [|auto].
    intros [Hx|]; [by apply fresh_table_has in Hx|done].
Qed.

Lemma has_get_unique m m' :
  map_wf m -> map_wf m' -> map_unique m -> map_unique m' ->
  (forall k v, has m' k v <-> has m k v) -> forall k, map_get m' k = map_get m k.
Proof.
  intros Hwf Hwf' Hun Hun' Hiff k.
  destruct (get_cases m k Hwf) as [(d & v & (_ & Hp & _) & _ & Hg)|(Hno & _ & Hg)]; rewrite Hg.
  - apply get_unique_some; [done..|]. apply Hiff. eexists. apply (probe_lookup _ _ _ _ Hp).
  - apply get_absent; [done|]. intros i v Hi. assert (has m k v) as [j Hj]; [apply Hiff; by exists i|].
    by apply Hno in Hj.
Qed.

(** ** The operations as a whole *)

Lemma count_le_size m : map_wf m -> 0 <= map_count m <= map_size m.
Proof.
  intros Hwf. rewrite (wf_count _ Hwf), <- (wf_len _ Hwf). apply live_bounds.
Qed.

Lemma hash_full m k : map_count m = map_size m -> map_hash m k = Done (m, -1).
Proof. intros H. unfold map_hash. by rewrite H, Z.eqb_refl. Qed.

(** Two levels of nesting are enough: the table a rehash builds has room. *)
Lemma reput_grow calloc fuel m k v :
  map_wf m -> map_count m = map_size m -> map_size m + 256 < 2 ^ 31 ->
  calloc (map_size m + 256) = true ->
  exists m2 d e, map_rehash calloc (put_fuel calloc (S fuel)) m = Done (m2, 0) /\
    hash_stop m2 k d e /\
    map_reput_fuel calloc (S (S fuel)) m k (Some v) = Done (put_result m2 k v d e, 0, old_of e).
Proof.
  intros Hwf Hfull Hs Hc.
  destruct (rehash_spec calloc fuel m Hwf Hs Hc) as (m2 & Hre & Hwf2 & Hsz & Hroom & _).
  destruct (reput_room calloc fuel m2 k v Hwf2 Hroom) as (d & e & Hstop & Hput).
  exists m2, d, e. split; [done|]. split; [done|].
  remember (S fuel) as f. cbn [map_reput_fuel]. rewrite hash_full by done. simpl.
  unfold put_fuel in Hre. rewrite Hre. simpl. exact Hput.
Qed.

Lemma reput_no_memory calloc fuel m k v :
  map_wf m -> map_count m = map_size m -> calloc (map_size m + 256) = false ->
  map_reput_fuel calloc (S fuel) m k v = Done (m, -1, None).
Proof.
  intros Hwf Hfull Hc. pose proof (wf_size _ Hwf). cbn [map_reput_fuel].
  rewrite hash_full by done. simpl. unfold map_rehash.
  rewrite (u32_small (map_size m + 256)), Hc by lia. done.
Qed.

(** Everything a client may rely on about [map_reput], with or without
    duplicate keys in the table. *)
Lemma reput_total calloc fuel m k v :
  map_wf m ->
  (map_count m = map_size m -> map_size m + 256 < 2 ^ 31) ->
  (map_count m = map_size m /\ calloc (map_size m + 256) = false /\
   map_reput_fuel calloc (S (S fuel)) m k (Some v) = Done (m, -1, None)) \/
  exists m' old, map_reput_fuel calloc (S (S fuel)) m k (Some v) = Done (m', 0, old) /\
    map_wf m' /\ map_get m' k = Done (Some v) /\
    map_size m' <= map_size m + 256 /\
    (forall k' v', has m' k' v' -> (k' = k /\ v' = v) \/ has m k' v') /\
    (forall o, old = Some o -> has m k o) /\
    (no_tombstone m -> no_tombstone m') /\
    (map_count m < map_size m \/ map_unique m ->
       forall k', k' <> k -> map_get m' k' = map_get m k') /\
    (map_unique m -> ~ shadowed m k -> map_unique m' /\ map_get m k = Done old) /\
    (map_count m < map_size m -> exists d e, hash_stop m k d e /\ m' = put_result m k v d e).
Proof.
  intros Hwf Hgrow. pose proof (count_le_size m Hwf) as Hcs.
  assert (forall m0 d e, hash_stop m0 k d e -> forall o, old_of e = Some o -> has m0 k o) as Hold.
  { intros m0 d e (Hd & Hp & He & _) o Ho. destruct e; simpl in Ho; try done. injection Ho as ->.
    destruct He as [?|[?|[? [= -> ->]]]]; try done. eexists. apply (probe_lookup _ _ _ _ Hp). }
  destruct (decide (map_count m = map_size m)) as [Hfull|Hroom].
  - destruct (calloc (map_size m + 256)) eqn:Hc; [right|left].
    + destruct (reput_grow calloc fuel m k v Hwf Hfull) as (m2 & d & e & Hre & Hstop & Hput); auto.
      destruct (rehash_spec calloc fuel m Hwf) as (m2' & Hre' & Hwf2 & Hsz & Hroom & Hnt & Hsub & Hun);
        auto. rewrite Hre in Hre'. injection Hre' as <-.
      assert (map_unique m -> forall k', map_get m2 k' = map_get m k') as Hget.
      { intros Hu. destruct (Hun Hu). by apply has_get_unique. }
      eexists _, _. split; [exact Hput|].
      split; [by apply put_result_wf|]. split; [by apply put_result_get|].
      split; [simpl; lia|]. split.
      { intros k' v' Hx. apply put_result_has in Hx as [?|?]; auto. }
      split; [intros o Ho; apply Hsub; eauto|].
      split; [intros _; by apply put_result_no_tombstone|]. split.
      { intros [?|Hu]; [lia|]. intros k' Hne. rewrite put_result_get_other; auto. }
      split; [|lia]. intros Hu _. rewrite <- (Hget Hu). destruct (Hun Hu).
      apply put_result_unique; auto. by apply no_tombstone_not_shadowed.
    + split_and!; auto. apply reput_no_memory; auto.
  - right. destruct (reput_room calloc (S fuel) m k v Hwf) as (d & e & Hstop & Hput); [lia|].
    assert (map_count m < map_size m) by lia.
    eexists _, _. split; [exact Hput|].
    split; [by apply put_result_wf|]. split; [by apply put_result_get|].
    split; [simpl; lia|]. split.
    { intros k' v' Hx. by apply put_result_has in Hx. }
    split; [eauto|]. split; [apply put_result_no_tombstone|]. split.
    { intros _ k' Hne. by apply put_result_get_other. }
    split; [|eauto]. intros Hu Hsh. by apply put_result_unique.
Qed.

(** ** [map_remove] *)

Lemma remove_cases m k :
  map_wf m ->
  (map_get m k = Done None /\ (forall v, ~ has m k v) /\ map_remove m k = Done (m, 1)) \/
  exists d v m', first_item m k d v /\ map_get m k = Done (Some v) /\
    map_remove m k = Done (m', 0) /\ map_wf m' /\ map_size m' = map_size m /\
    m' = set_count (set_entry m ((k + d) mod map_size m) Deleted) (map_count m - 1) /\
    map_count m' = map_count m - 1.
Proof.
  intros Hwf. destruct (get_cases m k Hwf) as [(d & v & Hf & Hfind & Hg)|(Hno & Hfind & Hg)].
  - right. exists d, v. eexists. split; [done|]. split; [done|].
    unfold map_remove. rewrite Hfind. simpl. split; [done|].
    pose proof Hf as (Hd & Hp & _). pose proof (wf_count _ Hwf). pose proof (count_le_size m Hwf).
    assert (1 <= live m) as Hlv.
    { pose proof (live_insert m _ _ Deleted (map_size m) 0 (probe_lookup _ _ _ _ Hp)) as Hx.
      pose proof (live_bounds (CMap (map_size m) 0
        (<[Z.to_nat ((k + d) mod map_size m):=Deleted]> (map_data m)))). simpl in Hx. lia. }
    pose proof (wf_size _ Hwf).
    assert (u32 (map_count m - 1) = map_count m - 1) as Hu by (apply u32_small; lia).
    split; [|split; [done|split; [done|done]]].
    apply (set_wf m k d (Item k v) Deleted); [done..|]. simpl. lia.
  - left. split; [done|]. split; [intros v [i Hi]; by apply Hno in Hi|].
    unfold map_remove. by rewrite Hfind.
Qed.

Lemma remove_items m k d v c i k' v' :
  map_wf m -> first_item m k d v ->
  map_data (set_count (set_entry m ((k + d) mod map_size m) Deleted) c) !! i = Some (Item k' v') <->
  i <> Z.to_nat ((k + d) mod map_size m) /\ map_data m !! i = Some (Item k' v').
Proof.
  intros Hwf (Hd & Hp & _). simpl. rewrite list_lookup_insert_Some. split.
  - intros [(_ & ? & _)|(? & ?)]; [done|auto].
  - intros [Hne Hi]. right; auto.
Qed.

Lemma remove_get_other m k k' m' rc :
  map_wf m -> map_remove m k = Done (m', rc) -> k' <> k -> map_get m' k' = map_get m k'.
Proof.
  intros Hwf Hrm Hne.
  destruct (remove_cases m k Hwf) as [(_ & _ & Hr)|(d & v & m2 & Hf & _ & Hr & Hwf' & Hsz & -> & _)];
    rewrite Hr in Hrm; injection Hrm as <- <-; [done|].
  apply get_frame; [done..|]. intros i w. pose proof Hf as (Hd & Hp & _).
  apply (set_item_other m _ _ (Item k v)); [done|done|congruence].
Qed.

Lemma remove_unique m k m' rc :
  map_wf m -> map_unique m -> map_remove m k = Done (m', rc) ->
  map_unique m' /\ map_get m' k = Done None.
Proof.
  intros Hwf Hun Hrm.
  destruct (remove_cases m k Hwf) as [(Hg & _ & Hr)|(d & v & m2 & Hf & _ & Hr & Hwf' & Hsz & -> & _)];
    rewrite Hr in Hrm; injection Hrm as <- <-; [done|]. split.
  - intros i j k' v1 v2 H1 H2. apply (remove_items _ _ _ _ _ _ _ _ Hwf Hf) in H1 as [_ H1].
    apply (remove_items _ _ _ _ _ _ _ _ Hwf Hf) in H2 as [_ H2]. eauto.
  - apply get_absent; [done|]. intros i w Hi. apply (remove_items _ _ _ _ _ _ _ _ Hwf Hf) in Hi as [Hne Hi].
    destruct Hf as (Hd & Hp & _). by apply Hne, (Hun _ _ _ _ _ Hi (probe_lookup _ _ _ _ Hp)).
Qed.

(** ** Iteration *)

Lemma get_entry_lookup m i e :
  map_data m !! i = Some e -> get_entry m (Z.of_nat i) = Done e.
Proof.
  intros Hi. unfold get_entry. rewrite (proj2 (Z.ltb_ge _ _)), Nat2Z.id, Hi by lia. done.
Qed.

(** [map_iter_from] finds the first item at or after its start. *)
Lemma iter_loop_spec m n (i : nat) :
  (i + n = length (map_data m))%nat ->
  exists r, map_iter_loop n m (Z.of_nat i) = Done r /\
    match r with
    | None => item_pairs (drop i (map_data m)) = []
    | Some j => exists k v (j' : nat), j = Z.of_nat j' /\ (i <= j')%nat /\
        map_data m !! j' = Some (Item k v) /\
        item_pairs (drop i (map_data m)) = (k, v) :: item_pairs (drop (S j') (map_data m))
    end.
Proof.
  revert i. induction n as [|n IH]; intros i Hn; cbn [map_iter_loop].
  { exists None. split; [done|]. by rewrite drop_ge by lia. }
  destruct (lookup_lt_is_Some_2 (map_data m) i) as [e He]; [lia|].
  rewrite (get_entry_lookup m i e He). simpl. rewrite (drop_S _ _ _ He).
  replace (Z.of_nat i + 1) with (Z.of_nat (S i)) by lia.
  destruct e as [| |k v].
  3: { exists (Some (Z.of_nat i)). split; [done|]. exists k, v, i. auto. }
  all: destruct (IH (S i)) as (r & Hr & Hspec); [lia|]; exists r; split; [done|];
    destruct r as [j|]; [|done]; destruct Hspec as (k & v & j' & -> & Hle & Hl & Heq);
    exists k, v, j'; split_and!; auto; lia.
Qed.

Lemma for_each_loop_spec m fuel (i : nat) r :
  zlen (map_data m) = map_size m -> (i <= length (map_data m))%nat ->
  (length (map_data m) - i < fuel)%nat ->
  map_iter_from m (Z.of_nat i) = Done r ->
  map_for_each_loop fuel m r = Done (item_pairs (drop i (map_data m))).*2.
Proof.
  intros Hl. revert i r. induction fuel as [|fuel IH]; intros i r Hi Hf Hr; [lia|].
  unfold map_iter_from in Hr. unfold zlen in Hl.
  destruct (iter_loop_spec m (Z.to_nat (map_size m - Z.of_nat i)) i) as (r' & Hr' & Hspec); [lia|].
  rewrite Hr in Hr'. injection Hr' as <-.
  destruct r as [j|]; cbn [map_for_each_loop]; [|by rewrite Hspec].
  destruct Hspec as (k & v & j' & -> & Hle & Hlk & ->).
  unfold map_iter_item. rewrite (get_entry_lookup m j' _ Hlk). simpl.
  pose proof (lookup_lt_Some _ _ _ Hlk).
  replace (Z.of_nat j' + 1) with (Z.of_nat (S j')) by lia.
  unfold map_iter_from.
  destruct (iter_loop_spec m (Z.to_nat (map_size m - Z.of_nat (S j'))) (S j')) as (r & Hr2 & _); [lia|].
  rewrite Hr2. simpl. rewrite (IH (S j') r); [done|lia..|].
  unfold map_iter_from. exact Hr2.
Qed.

Lemma for_each_items m : map_wf m -> map_for_each m = Done (items m).*2.
Proof.
  intros Hwf. unfold map_for_each, map_iter_first. pose proof (wf_len _ Hwf) as Hl. unfold zlen in Hl.
  destruct (iter_loop_spec m (Z.to_nat (map_size m - Z.of_nat 0)) 0) as (r & Hr & _); [lia|].
  unfold map_iter_from. change 0 with (Z.of_nat 0). rewrite Hr. run.
  rewrite (for_each_loop_spec m _ 0 r); [done|by apply wf_len|lia|lia|exact Hr].
Qed.

Lemma clear_loop_spec (es : list (map_entry V)) :
  map_clear_loop es = ((item_pairs es).*2, replicate (length es) Null).
Proof.
  induction es as [|e es IH]; [done|]. cbn [map_clear_loop]. rewrite IH.
  by destruct e.
Qed.

(** ** The table as a finite map *)

Lemma item_pairs_keys (es : list (map_entry V)) k :
  k ∈ (item_pairs es).*1 <-> exists v, Item k v ∈ es.
Proof.
  unfold item_pairs. rewrite list_elem_of_fmap. split.
  - intros ([k' v] & -> & (e & He & Hi)%list_elem_of_omap). exists v.
    destruct e; simpl in Hi; try done. injection Hi as -> ->. done.
  - intros (v & Hv). exists (k, v). split; [done|]. apply list_elem_of_omap. eauto.
Qed.

Lemma item_pairs_NoDup (es : list (map_entry V)) :
  (forall i j k v w, es !! i = Some (Item k v) -> es !! j = Some (Item k w) -> i = j) ->
  NoDup (item_pairs es).*1.
Proof.
  induction es as [|e es IH]; intros Hun; [constructor|].
  assert (NoDup (item_pairs es).*1) as IH'.
  { apply IH. intros i j k v w Hi Hj. pose proof (Hun (S i) (S j) k v w Hi Hj). lia. }
  destruct e as [| |k v]; [done..|]. change (NoDup (k :: (item_pairs es).*1)). constructor; [|done].
  intros [w Hw]%item_pairs_keys. apply list_elem_of_lookup in Hw as [i Hi].
  pose proof (Hun 0%nat (S i) k v w eq_refl Hi). lia.
Qed.

Lemma represents_items m M :
  represents m M -> NoDup (items m).*1 /\ list_to_map (items m) = M.
Proof.
  intros (Hwf & Hun & Hget). assert (NoDup (items m).*1) as Hnd by (apply item_pairs_NoDup, Hun).
  split; [done|]. apply map_eq. intros k. apply option_eq. intros v.
  rewrite <- (elem_of_list_to_map (items m) k v Hnd).
  assert ((M !! k = Some v) <-> has m k v) as ->.
  { unfold has. rewrite <- get_unique_some by done. rewrite Hget. split; congruence. }
  unfold items. rewrite list_elem_of_omap. split.
  - intros (e & [i Hi]%list_elem_of_lookup & He). destruct e; simpl in He; try done.
    injection He as -> ->. by exists i.
  - intros [i Hi]. exists (Item k v). split; [by eapply list_elem_of_lookup_2|done].
Qed.

Lemma reput_represents calloc m M k v :
  represents m M -> can_grow calloc m -> ~ shadowed m k ->
  exists m', map_reput calloc m k (Some v) = Done (m', 0, M !! k) /\
             represents m' (<[k := v]> M) /\ (no_tombstone m -> no_tombstone m').
Proof.
  intros (Hwf & Hun & Hget) Hgrow Hsh. unfold map_reput.
  destruct (reput_total calloc 0 m k v Hwf) as
    [(Hfull & Hc & _)|(m' & old & Hrun & Hwf' & Hk & _ & _ & _ & Hnt & Hother & Hu & _)].
  { intros Hfull. by apply Hgrow. }
  { destruct (Hgrow Hfull). congruence. }
  destruct (Hu Hun Hsh) as [Hun' Hold]. rewrite Hget in Hold. injection Hold as <-.
  exists m'. split; [done|]. split; [|done]. split; [done|]. split; [done|]. intros k'.
  destruct (decide (k = k')) as [<-|Hne].
  - by rewrite lookup_insert_eq.
  - rewrite lookup_insert_ne by done. rewrite Hother by auto. apply Hget.
Qed.

Lemma remove_represents m M k :
  represents m M ->
  exists m', map_remove m k = Done (m', if bool_decide (is_Some (M !! k)) then 0 else 1) /\
             represents m' (delete k M).
Proof.
  intros (Hwf & Hun & Hget). pose proof (Hget k) as Hk.
  assert (forall m' rc, map_remove m k = Done (m', rc) -> map_wf m' -> represents m' (delete k M)) as Hrep.
  { intros m' rc Hr Hwf'. destruct (remove_unique m k m' rc Hwf Hun Hr) as [Hun' Hnone].
    split; [done|]. split; [done|]. intros k'. destruct (decide (k = k')) as [<-|Hne].
    - by rewrite lookup_delete_eq.
    - rewrite lookup_delete_ne by done. rewrite (remove_get_other m k k' m' rc) by auto. apply Hget. }
  destruct (remove_cases m k Hwf) as [(Hg & _ & Hr)|(d & v & m' & Hf & Hg & Hr & Hwf' & _)];
    rewrite Hg in Hk; injection Hk as Hk; rewrite <- Hk; simpl; eauto.
Qed.

Lemma create_wf : map_wf (map_create : cmap V).
Proof. by split. Qed.

Lemma create_represents : represents (map_create : cmap V) ∅.
Proof. split; [apply create_wf|]. split; [done|]. intros k. by rewrite lookup_empty. Qed.

Lemma create_no_tombstone : no_tombstone (map_create : cmap V).
Proof. apply not_elem_of_nil. Qed.

Lemma get_only m k w :
  map_wf m -> has m k w -> (forall u, has m k u -> u = w) -> map_get m k = Done (Some w).
Proof.
  intros Hwf [i Hi] Hall. destruct (get_cases m k Hwf) as [(d & u & (_ & Hp & _) & _ & ->)|(Hno & _)].
  - rewrite (Hall u); [done|]. eexists. apply (probe_lookup _ _ _ _ Hp).
  - by apply Hno in Hi.
Qed.

Lemma shadowed_stop m k d e :
  map_wf m -> map_unique m -> shadowed m k -> hash_stop m k d e ->
  e = Deleted /\ exists d' v, d < d' < map_size m /\ probe m k d' = Some (Item k v).
Proof.
  intros Hwf Hun (d1 & d2 & v & Hd1 & Hd2 & Hp1 & Hp2) (Hd & Hp & He & Hall).
  assert (d <= d1) as Hle.
  { destruct (Z.le_gt_cases d d1); [done|]. destruct (Hall d1 ltac:(lia)) as (? & ? & ? & _). congruence. }
  split; [|exists d2, v; split; [lia|done]].
  destruct He as [->|[->|[w ->]]]; [|done|].
  - exfalso. by apply (wf_path_probe m k d2 v Hwf ltac:(lia) Hp2 d); [lia|].
  - exfalso. pose proof (Hun _ _ _ _ _ (probe_lookup _ _ _ _ Hp) (probe_lookup _ _ _ _ Hp2)) as Heq.
    pose proof (Z.mod_pos_bound (k + d) (map_size m) ltac:(lia)).
    pose proof (Z.mod_pos_bound (k + d2) (map_size m) ltac:(lia)).
    assert (d = d2); [|lia]. apply (probe_offset_inj (map_size m) k); lia.
Qed.

End facts.

(** ** Properties *)

Section properties.
Context {V : Type}.
Implicit Types (m : cmap V) (M : gmap Z V).

(** C2: [map_reput] implements insertion: on a table that stands for [M], with
    memory to grow when it is full, it returns 0, hands back the item it
    replaces, and leaves a table that stands for [M] with [k] set to [v] --
    provided no deleted slot precedes the slot of [k].  Growing and rehashing
    the table are part of the operation. *)
Theorem map_reput_refines (calloc : Z -> bool) m M k v :
  represents m M -> can_grow calloc m -> ~ shadowed m k ->
  exists m', map_reput calloc m k (Some v) = Done (m', 0, M !! k) /\
             represents m' (<[k := v]> M).
Proof.
  intros Hrep Hgrow Hsh.
  destruct (reput_represents calloc m M k v Hrep Hgrow Hsh) as (m' & ? & ? & _). eauto.
Qed.

(** C3: [map_remove] implements deletion: it returns 0 exactly when the key is
    present and leaves a table that stands for [M] without [k]. *)
Theorem map_remove_refines m M k :
  represents m M ->
  exists m', map_remove m k = Done (m', if bool_decide (is_Some (M !! k)) then 0 else 1) /\ represents m' (delete k M).
Proof. apply remove_represents. Qed.

(** Iteration is complete: [map_for_each] visits the values of [M], each key
    once, and [map_length] is the number of its keys. *)
Theorem map_for_each_complete m M :
  represents m M ->
  exists l, map_for_each m = Done l.*2 /\ NoDup l.*1 /\ list_to_map l = M /\
            map_length (Some m) = Z.of_nat (size M).
Proof.
  intros Hrep. pose proof Hrep as (Hwf & _). destruct (represents_items m M Hrep) as [Hnd HM].
  exists (items m). split; [by apply for_each_items|]. split; [done|]. split; [done|].
  simpl. rewrite (wf_count _ Hwf). unfold live, zlen. f_equal.
  rewrite <- HM, map_size_list_to_map by done. done.
Qed.

(** A full table that cannot grow is left untouched and the insertion
    reports -1. *)
Theorem map_reput_no_memory (calloc : Z -> bool) m k v :
  map_wf m -> map_count m = map_size m -> calloc (map_size m + 256) = false ->
  map_reput calloc m k v = Done (m, -1, None).
Proof. apply reput_no_memory. Qed.

(** C40: the defect of [map_hash]: when a deleted slot precedes the slot of [k],
    [map_reput] stores a second item for [k] in the deleted slot and reports
    that it replaced nothing; removing [k] then brings back the value that was
    overwritten. *)
Theorem map_reput_shadow_resurrects (calloc : Z -> bool) m M k v :
  represents m M -> map_count m < map_size m -> shadowed m k ->
  exists w m1 m2, M !! k = Some w /\
    map_reput calloc m k (Some v) = Done (m1, 0, None) /\
    map_get m1 k = Done (Some v) /\
    map_remove m1 k = Done (m2, 0) /\ map_get m2 k = Done (Some w).
Proof.
  intros (Hwf & Hun & Hget) Hlt Hsh. unfold map_reput.
  destruct (reput_room calloc 1 m k v Hwf Hlt) as (d & e & Hstop & Hrun).
  destruct (shadowed_stop m k d e Hwf Hun Hsh Hstop) as [-> (d2 & w & Hd2 & Hp2)].
  pose proof Hstop as (Hd & Hp & _). pose proof (probe_lookup _ _ _ _ Hp2) as Hl2.
  pose proof (put_result_wf m k v d _ Hwf Hlt Hstop) as Hwf1.
  pose proof (put_result_get m k v d _ Hwf Hlt Hstop) as Hg1.
  assert (M !! k = Some w) as HM.
  { assert (map_get m k = Done (Some w)) as Hx; [|rewrite Hget in Hx; congruence].
    apply get_unique_some; eauto. }
  exists w, (put_result m k v d Deleted).
  destruct (remove_cases _ k Hwf1) as
    [(Hno & _)|(d1 & v1 & m2 & Hf & Hg & Hr & Hwf2 & _ & Hm2 & _)]; [congruence|].
  destruct (first_item_inj _ _ _ _ _ _ Hf (put_result_first m k v d _ Hwf Hstop)) as [-> ->].
  exists m2. split_and!; [done..|].
  assert (forall i u, map_data m2 !! i = Some (Item k u) <->
    i <> Z.to_nat ((k + d) mod map_size m) /\ map_data m !! i = Some (Item k u)) as Hitems.
  { intros i u. rewrite Hm2, (remove_items _ _ _ _ _ _ _ _ Hwf1 Hf), put_result_items by done.
    change (map_size (put_result m k v d Deleted)) with (map_size m). tauto. }
  apply get_only; [done|..].
  - exists (Z.to_nat ((k + d2) mod map_size m)). apply Hitems. split; [|done].
    apply probe_lookup in Hp. congruence.
  - intros u [i [_ Hi]%Hitems]. pose proof (Hun _ _ _ _ _ Hi Hl2) as ->. congruence.
Qed.

End properties.

(** ** Witnesses

    A table that goes through the operations: keys 1 and 257 share their home
    slot in a table of 256, so removing 1 leaves a deleted slot before 257. *)

Definition demo_calloc (n : Z) : bool := n <? 2 ^ 31.
Definition demo_put (m : cmap Z) (k v : Z) : cmap Z :=
  match map_reput demo_calloc m k (Some v) with Done (m', _, _) => m' | _ => m end.
Definition demo_remove (m : cmap Z) (k : Z) : cmap Z :=
  match map_remove m k with Done (m', _) => m' | _ => m end.
Definition demo_one : cmap Z := demo_put map_create 1 10.
Definition demo_two : cmap Z := demo_put demo_one 257 20.
Definition demo_shadow : cmap Z := demo_remove demo_two 1.

Lemma demo_put_represents m M k v :
  represents m M -> no_tombstone m -> can_grow demo_calloc m ->
  represents (demo_put m k v) (<[k := v]> M) /\ no_tombstone (demo_put m k v).
Proof.
  intros Hrep Hnt Hg.
  destruct (reput_represents demo_calloc m M k v Hrep Hg) as (m' & Hrun & Hrep' & Hnt').
  { by apply no_tombstone_not_shadowed. }
  unfold demo_put. rewrite Hrun. auto.
Qed.

Lemma demo_two_represents :
  represents demo_two (<[257 := 20]> (<[1 := 10]> ∅)) /\ no_tombstone demo_two.
Proof.
  destruct (demo_put_represents map_create ∅ 1 10) as [H1 H2];
    [apply create_represents|apply create_no_tombstone|by split|].
  apply demo_put_represents; [done..|]. intros H. vm_compute in H. discriminate H.
Qed.

Lemma demo_shadow_represents :
  represents demo_shadow (delete 1 (<[257 := 20]> (<[1 := 10]> ∅))).
Proof.
  destruct demo_two_represents as [H _].
  destruct (remove_represents _ _ 1 H) as (m' & Hrun & Hrep).
  unfold demo_shadow, demo_remove. by rewrite Hrun.
Qed.

Lemma map_reput_refines_witness :
  exists m', map_reput demo_calloc map_create 7 (Some true) =
               Done (m', 0, (∅ : gmap Z bool) !! 7) /\
             represents m' (<[7 := true]> ∅).
Proof.
  apply (map_reput_refines demo_calloc map_create ∅ 7 true).
  - apply create_represents.
  - by split.
  - apply no_tombstone_not_shadowed, create_no_tombstone.
Defined.

Lemma map_remove_refines_witness :
  exists m', map_remove demo_two 1 = Done (m', 0) /\
             represents m' (delete 1 (<[257 := 20]> (<[1 := 10]> ∅))).
Proof. exact (map_remove_refines demo_two _ 1 (proj1 demo_two_represents)). Defined.

Lemma map_for_each_complete_witness :
  exists l, map_for_each demo_two = Done l.*2 /\ NoDup l.*1 /\
            list_to_map l = <[257 := 20]> (<[1 := 10]> (∅ : gmap Z Z)) /\
            map_length (Some demo_two) = 2.
Proof. exact (map_for_each_complete demo_two _ (proj1 demo_two_represents)). Defined.

Lemma map_reput_no_memory_witness :
  map_reput (fun _ => false) (map_create : cmap Z) 3 (Some 4) = Done (map_create, -1, None).
Proof.
  apply (map_reput_no_memory (fun _ => false) map_create 3 (Some 4)); [apply create_wf|done..].
Defined.

Lemma map_reput_shadow_resurrects_witness :
  exists w m1 m2, delete 1 (<[257 := 20]> (<[1 := 10]> (∅ : gmap Z Z))) !! 257 = Some w /\
    map_reput demo_calloc demo_shadow 257 (Some 30) = Done (m1, 0, None) /\
    map_get m1 257 = Done (Some 30) /\
    map_remove m1 257 = Done (m2, 0) /\ map_get m2 257 = Done (Some w).
Proof.
  apply (map_reput_shadow_resurrects demo_calloc demo_shadow _ 257 30).
  - apply demo_shadow_represents.
  - vm_compute. reflexivity.
  - exists 0, 1, 20. split_and!; try lia; vm_compute; reflexivity.
Defined.
