(* ===== verification/CList.v ===== *)
(** * Intrusive doubly linked lists (qrtr/src/list.h)

    The list items live in a heap: a finite map from addresses to the two
    fields of [struct list_item].  Address [0] is the null pointer and is never
    allocated, so dereferencing it is the fault [NullPointer].  The operations
    are the inline functions of the header, statement by statement; the
    specification [is_list] says that a heap and a list head hold a given
    sequence of item addresses. *)
From S2P Require Import Prelude.

Module CList.

Record list_item := ListItem { next : Z; prev : Z }.
Record clist := CListHead { head : Z; tail : Z }.

Abbreviation heap := (gmap Z list_item).

#[global] Instance list_item_eq_dec : EqDecision list_item.
Proof. solve_decision. Defined.
#[global] Instance clist_eq_dec : EqDecision clist.
Proof. solve_decision. Defined.

(** [deref h p] reads the item at [p]; the setters write one field of it. *)
Definition deref (h : heap) (p : Z) : outcome list_item := of_option NullPointer (h !! p).

Definition set_next (h : heap) (p v : Z) : outcome heap :=
  it ← deref h p; Done (<[p := ListItem v (prev it)]> h).
Definition set_prev (h : heap) (p v : Z) : outcome heap :=
  it ← deref h p; Done (<[p := ListItem (next it) v]> h).

Definition list_init : clist := CListHead 0 0.

Definition list_append (h : heap) (l : clist) (item : Z) : outcome (heap * clist) :=
  h ← set_next h item 0;
  h ← set_prev h item (tail l);
  '(h, l) ← (if negb (tail l =? 0)
             then h ← set_next h (tail l) item; Done (h, l)
             else Done (h, CListHead item (tail l)));
  Done (h, CListHead (head l) item).

Definition list_prepend (h : heap) (l : clist) (item : Z) : outcome (heap * clist) :=
  h ← set_prev h item 0;
  h ← set_next h item (head l);
  let l := if head l =? 0 then CListHead (head l) item else l in
  Done (h, CListHead item (tail l)).

Definition list_insert (h : heap) (l : clist) (after item : Z) : outcome (heap * clist) :=
  if after =? 0 then list_prepend h l item
  else
    h ← set_prev h item after;
    a ← deref h after;
    h ← set_next h item (next a);
    h ← set_next h after item;
    it ← deref h item;
    h ← (if negb (next it =? 0) then set_prev h (next it) item else Done h);
    Done (h, if tail l =? after then CListHead (head l) item else l).

Definition list_remove (h : heap) (l : clist) (item : Z) : outcome (heap * clist) :=
  it ← deref h item;
  h ← (if negb (next it =? 0) then set_prev h (next it) (prev it) else Done h);
  '(h, l) ← (if head l =? item
             then it ← deref h item;
                  let l := CListHead (next it) (tail l) in
                  Done (h, if head l =? 0 then CListHead (head l) 0 else l)
             else it ← deref h item;
                  h ← set_next h (prev it) (next it);
                  it ← deref h item;
                  Done (h, if tail l =? item then CListHead (head l) (prev it) else l));
  h ← set_next h item 0;
  h ← set_prev h item 0;
  Done (h, l).

Definition list_pop (h : heap) (l : clist) : outcome (heap * clist * Z) :=
  let item := head l in
  if item =? 0 then Done (h, l, 0)
  else '(h, l) ← list_remove h l item; Done (h, l, item).

Definition list_last (l : clist) : Z := tail l.
Definition list_first (l : clist) : Z := head l.
Definition list_next (h : heap) (item : Z) : outcome Z := it ← deref h item; Done (next it).

(** [list_for_each]: the addresses the loop visits, following [next]. *)
Fixpoint walk (fuel : nat) (h : heap) (it : Z) : outcome (list Z) :=
  match fuel with
  | O => OutOfFuel
  | S fuel => if it =? 0 then Done []
              else i ← deref h it; r ← walk fuel h (next i); Done (it :: r)
  end.
Definition list_for_each (h : heap) (l : clist) : outcome (list Z) :=
  walk (S (size h)) h (head l).

(** ** Specification *)

(** [dlseg h p xs n]: the items [xs] are linked in this order, the first one
    points back to [p] and the last one on to [n]. *)
Fixpoint dlseg (h : heap) (p : Z) (xs : list Z) (n : Z) : Prop :=
  match xs with
  | [] => True
  | x :: xs' => h !! x = Some (ListItem (List.hd n xs') p) /\ dlseg h x xs' n
  end.

Record is_list (h : heap) (l : clist) (xs : list Z) : Prop := {
  il_head : head l = List.hd 0 xs;
  il_tail : tail l = List.last xs 0;
  il_nodup : NoDup xs;
  il_nonnull : 0 ∉ xs;
  il_links : dlseg h 0 xs 0 }.

(** ** Segments *)

Lemma hd_app (d : Z) xs ys : List.hd d (xs ++ ys) = List.hd (List.hd d ys) xs.
Proof. by destruct xs. Qed.
Lemma last_app1 (d : Z) xs y : List.last (xs ++ [y]) d = y.
Proof. induction xs as [|x [|z xs] IH]; done. Qed.
Lemma last_cons_app (d : Z) xs y ys : List.last (xs ++ y :: ys) d = List.last (y :: ys) d.
Proof. induction xs as [|x [|z xs] IH]; done. Qed.
Lemma last_indep (d d' y : Z) ys : List.last (y :: ys) d = List.last (y :: ys) d'.
Proof. revert y; induction ys as [|z ys IH]; intros y; [done|]. apply IH. Qed.

Lemma last_cons (d y : Z) ys : List.last (y :: ys) d = List.last ys y.
Proof. destruct ys as [|z ys]; [done|]. exact (last_indep d y z ys). Qed.

Lemma last_in (d y : Z) ys : In (List.last (y :: ys) d) (y :: ys).
Proof.
  revert y; induction ys as [|z ys IH]; intros y; [by left|]. right. apply IH.
Qed.

Lemma dlseg_app h p xs ys n :
  dlseg h p (xs ++ ys) n <->
  dlseg h p xs (List.hd n ys) /\ dlseg h (List.last xs p) ys n.
Proof.
  revert p; induction xs as [|x xs IH]; intros p; [simpl; tauto|].
  cbn [app dlseg]. rewrite IH, hd_app, last_cons. tauto.
Qed.

Lemma dlseg_frame h p xs n y v :
  y ∉ xs -> dlseg h p xs n -> dlseg (<[y := v]> h) p xs n.
Proof.
  revert p; induction xs as [|x xs IH]; intros p Hy; [done|].
  apply not_elem_of_cons in Hy as [Hne Hy]. cbn [dlseg]. intros [Hx Hs].
  split; [by rewrite lookup_insert_ne by done | by apply IH].
Qed.
#[export] Hint Resolve dlseg_frame : imola.

(** Relinking the last item of a segment forwards, or the first one backwards. *)
Lemma dlseg_relink_last h p xs y n m :
  y ∉ xs -> dlseg h p (xs ++ [y]) n ->
  dlseg (<[y := ListItem m (List.last xs p)]> h) p (xs ++ [y]) m.
Proof.
  intros Hy. rewrite !dlseg_app. cbn [dlseg List.hd]. intros [Hs [Hl _]].
  split_and!; [by apply dlseg_frame | by rewrite lookup_insert_eq | done].
Qed.

Lemma dlseg_relink_first h p q y ys n :
  y ∉ ys -> dlseg h p (y :: ys) n ->
  dlseg (<[y := ListItem (List.hd n ys) q]> h) q (y :: ys) n.
Proof.
  cbn [dlseg]. intros Hy [Hl Hs].
  split; [by rewrite lookup_insert_eq | by apply dlseg_frame].
Qed.

Lemma dlseg_lookup h p xs n x : dlseg h p xs n -> x ∈ xs -> is_Some (h !! x).
Proof.
  revert p; induction xs as [|z xs IH]; intros p; cbn [dlseg]; [set_solver|].
  intros [Hz Hs] [->|Hin]%elem_of_cons; eauto.
Qed.

(** The last item of a non-empty sequence. *)
Lemma last_split (xs : list Z) : xs = [] \/ exists ys y, xs = ys ++ [y].
Proof.
  destruct (decide (xs = [])) as [->|Hne]; [by left|right].
  destruct (exists_last Hne) as (ys & y & ->). by eauto.
Qed.

Lemma walk_segment h p xs fuel :
  0 ∉ xs -> dlseg h p xs 0 -> (length xs < fuel)%nat ->
  walk fuel h (List.hd 0 xs) = Done xs.
Proof.
  revert p fuel; induction xs as [|x xs IH]; intros p fuel H0 Hs Hf;
    (destruct fuel as [|fuel]; [simpl in Hf; lia|]); [done|].
  apply not_elem_of_cons in H0 as [Hx0 H0].
  cbn [walk List.hd]. cbn [dlseg length] in *. destruct Hs as [Hx Hs].
  rewrite (proj2 (Z.eqb_neq x 0)) by done.
  unfold deref. rewrite Hx. run. cbn [next].
  rewrite (IH x fuel) by (done || lia). done.
Qed.

Lemma allocated_size (h : heap) xs :
  NoDup xs -> (forall x, x ∈ xs -> is_Some (h !! x)) -> (length xs <= size h)%nat.
Proof.
  intros Hnd Hal.
  transitivity (size (list_to_set xs : gset Z)); [by rewrite size_list_to_set|].
  rewrite <- (size_dom h). apply subseteq_size.
  intros x Hx%elem_of_list_to_set. by apply elem_of_dom, Hal.
Qed.

Lemma segment_size h p xs n : NoDup xs -> dlseg h p xs n -> (length xs <= size h)%nat.
Proof. intros Hnd Hs. apply allocated_size; [done|]. intros x. by eapply dlseg_lookup. Qed.

(** ** The operations refine sequence operations *)

Lemma nodup_middle (xs : list Z) x ys :
  NoDup (xs ++ x :: ys) -> (x ∉ xs) /\ (x ∉ ys) /\ NoDup (xs ++ ys).
Proof.
  intros Hnd. rewrite <- (Permutation_middle xs ys x) in Hnd.
  apply NoDup_cons in Hnd as [Hx Hnd]. set_solver.
Qed.

(** Pointer tests and reads of a heap that was written. *)
Ltac heap_step :=
  repeat first
    [ rewrite Z.eqb_refl
    | rewrite (proj2 (Z.eqb_neq _ _)) by done
    | rewrite lookup_insert_eq
    | rewrite lookup_insert_ne by done
    | match goal with H : _ !! _ = Some _ |- _ => rewrite H end
    | progress cbn [negb next prev head tail List.hd List.last]
    | progress run ].

(** Appending a fresh allocated item. *)
Lemma append_spec h l xs item :
  is_list h l xs -> item <> 0 -> item ∉ xs -> is_Some (h !! item) ->
  exists h' l', list_append h l item = Done (h', l') /\ is_list h' l' (xs ++ [item]) /\
    forall y, y ∉ xs ++ [item] -> h' !! y = h !! y.
Proof.
  intros [Hh Ht Hnd H0 Hs] Hi Hni [it Hit].
  assert (Hnd' : NoDup (xs ++ [item])).
  { rewrite <- Permutation_cons_append. by constructor. }
  assert (H0' : 0 ∉ xs ++ [item]) by set_solver.
  unfold list_append, set_next, set_prev, deref. rewrite Ht. heap_step.
  destruct (last_split xs) as [->|(ys & y & ->)].
  - heap_step. eexists _, _; split; [done|]. split.
    + split; cbn; rewrite ?lookup_insert_eq; done.
    + intros z Hz. rewrite !lookup_insert_ne by set_solver. done.
  - assert (y <> item) by set_solver. assert (y <> 0) by set_solver.
    assert (Hy : h !! y = Some (ListItem 0 (List.last ys 0))).
    { apply dlseg_app in Hs as [_ [Hs _]]. done. }
    rewrite last_app1. heap_step.
    eexists _, _; split; [done|]. split.
    + split; [by rewrite Hh, !hd_app | by rewrite last_app1 | done | done |].
      apply dlseg_app. cbn [List.hd dlseg]. rewrite last_app1.
      split_and!; [|by heap_step |done].
      apply (dlseg_relink_last _ _ _ _ 0); [|by do 2 (apply dlseg_frame; [set_solver|])].
      apply nodup_middle in Hnd. tauto.
    + intros z Hz. rewrite !lookup_insert_ne by set_solver. done.
Qed.

Lemma dlseg_item h p pre x post n :
  dlseg h p (pre ++ x :: post) n ->
  h !! x = Some (ListItem (List.hd n post) (List.last pre p)).
Proof. by intros [_ [? _]]%dlseg_app. Qed.

Lemma deref_some h p it : h !! p = Some it -> deref h p = Done it.
Proof. by unfold deref; intros ->. Qed.

(** The back link of the following item, when there is one. *)
Lemma set_back h q q' post n :
  NoDup post -> 0 ∉ post -> n = 0 -> dlseg h q post n ->
  exists h', (if negb (List.hd n post =? 0) then set_prev h (List.hd n post) q' else Done h) = Done h' /\
    dlseg h' q' post n /\ forall y, y ∉ post -> h' !! y = h !! y.
Proof.
  intros Hnd H0 -> Hs. destruct post as [|z zs]; [by eexists|].
  apply NoDup_cons in Hnd as [Hz Hnd]. apply not_elem_of_cons in H0 as [Hz0 _].
  pose proof (proj1 Hs) as Hl.
  unfold set_prev, deref. heap_step. eexists; split; [done|]. split.
  - by eapply dlseg_relink_first.
  - intros y [Hy _]%not_elem_of_cons. by rewrite lookup_insert_ne.
Qed.

(** Segments only depend on the heap at their items. *)
Lemma dlseg_agree h h' p xs n :
  (forall y, y ∈ xs -> h' !! y = h !! y) -> dlseg h p xs n -> dlseg h' p xs n.
Proof.
  revert p; induction xs as [|x xs IH]; intros p Hag; [done|].
  cbn [dlseg]. intros [Hx Hs]. split; [rewrite Hag; [done|left]|].
  apply IH; [|done]. intros y Hy. apply Hag. by right.
Qed.

(** Unlinking an item of the list. *)
Lemma remove_spec h l pre x post :
  is_list h l (pre ++ x :: post) ->
  exists h' l', list_remove h l x = Done (h', l') /\ is_list h' l' (pre ++ post) /\
    h' !! x = Some (ListItem 0 0) /\
    forall y, y ∉ pre ++ x :: post -> h' !! y = h !! y.
Proof.
  intros [Hh Ht Hnd H0 Hs].
  pose proof (dlseg_item _ _ _ _ _ _ Hs) as Hx.
  pose proof (nodup_middle _ _ _ Hnd) as (Hxpre & Hxpost & Hnd').
  assert (x <> 0) by set_solver. assert (H0' : 0 ∉ pre ++ post) by set_solver.
  pose proof (proj1 (NoDup_app _ _) Hnd') as (_ & Hdisj & Hndpost).
  apply dlseg_app in Hs as [Hpre [_ Hpost]].
  destruct (set_back h x (List.last pre 0) post 0) as (h1 & E1 & Hpost1 & Hfr1);
    [done | set_solver | done | done |].
  assert (Hx1 : h1 !! x = h !! x) by by apply Hfr1. rewrite Hx in Hx1.
  assert (Hpre1 : dlseg h1 0 pre x).
  { eapply dlseg_agree, Hpre. intros y Hy. by apply Hfr1, Hdisj. }
  unfold list_remove. rewrite (deref_some _ _ _ Hx). run. cbn [next prev]. rewrite E1. run.
  clear E1. rewrite Hh, Ht. unfold set_next, set_prev, deref.
  destruct (last_split pre) as [->|(ys & y & ->)].
  - cbn [app List.hd]. heap_step. eexists _, _; split; [done|]. split_and!.
    + cbn [List.last] in Hpost1. split; cbn [head tail]; try done.
      * by destruct (_ =? 0).
      * destruct post as [|z zs]; [done|]. by destruct (_ =? 0) eqn:E; reflect_bools; [cbn in E; set_solver|].
      * by do 2 (apply dlseg_frame; [done|]).
    + by heap_step.
    + intros y Hy. rewrite !lookup_insert_ne by set_solver. apply Hfr1. set_solver.
  - rewrite last_app1 in *. assert (y <> x) by set_solver. assert (y <> 0) by set_solver.
    assert (Hy : h1 !! y = Some (ListItem x (List.last ys 0))) by (by apply dlseg_item in Hpre1).
    rewrite (hd_app 0 _ (x :: post)), hd_app. cbn [List.hd].
    rewrite (proj2 (Z.eqb_neq (List.hd y ys) x)) by (destruct ys; set_solver).
    heap_step. eexists _, _; split; [done|]. split_and!.
    + split; try done.
      * rewrite hd_app, hd_app. cbn [List.hd].
        by destruct (_ =? x); [|rewrite Hh, !hd_app].
      * rewrite last_cons_app. destruct post as [|z zs].
        -- cbn [List.last]. by rewrite Z.eqb_refl, app_nil_r, last_app1.
        -- rewrite last_cons_app. change (List.last (x :: z :: zs) 0) with (List.last (z :: zs) 0).
           destruct (_ =? x) eqn:E; reflect_bools; [|by rewrite Ht, last_cons_app].
           destruct Hxpost. rewrite <- E. apply list_elem_of_In, last_in.
      * apply dlseg_app. rewrite last_app1. split.
        -- do 2 (apply dlseg_frame; [done|]).
           apply (dlseg_relink_last _ _ _ _ x); [|done].
           apply NoDup_app in Hnd as [Hnd _]. apply (nodup_middle _ _ _ Hnd).
        -- do 3 (apply dlseg_frame; [set_solver|]). done.
    + by heap_step.
    + intros z Hz. rewrite !lookup_insert_ne by set_solver. apply Hfr1. set_solver.
Qed.

(** Linking a fresh allocated item after an item of the list. *)
Lemma insert_spec h l pre a post item :
  is_list h l (pre ++ a :: post) -> item <> 0 -> item ∉ pre ++ a :: post ->
  is_Some (h !! item) ->
  exists h' l', list_insert h l a item = Done (h', l') /\
    is_list h' l' (pre ++ a :: item :: post) /\
    forall y, y ∉ pre ++ a :: item :: post -> h' !! y = h !! y.
Proof.
  intros [Hh Ht Hnd H0 Hs] Hi Hni [it Hit].
  pose proof (dlseg_item _ _ _ _ _ _ Hs) as Ha.
  pose proof (nodup_middle _ _ _ Hnd) as (Hapre & Hapost & Hnd').
  pose proof (proj1 (NoDup_app _ _) Hnd') as (_ & Hdisj & Hndpost).
  assert (a <> 0) by set_solver. assert (item <> a) by set_solver.
  assert (Hperm : pre ++ a :: item :: post ≡ₚ item :: pre ++ a :: post).
  { rewrite (app_assoc pre [a] (item :: post) : pre ++ a :: item :: post = _).
    rewrite <- Permutation_middle. by rewrite <- app_assoc. }
  unfold list_insert. rewrite (proj2 (Z.eqb_neq a 0)) by done.
  unfold set_next, set_prev, deref. heap_step.
  apply dlseg_app in Hs as [Hpre [_ Hpost]].
  set (h1 := <[a := _]> _).
  destruct (set_back h1 a item post 0) as (h2 & E2 & Hpost2 & Hfr2);
    [done | set_solver | done | by do 3 (apply dlseg_frame; [set_solver|]) |].
  unfold set_prev, deref in E2. rewrite E2. run. clear E2.
  eexists _, _; split; [done|]. split.
  - split.
    + by destruct (_ =? a); rewrite ?Hh, !hd_app.
    + rewrite Ht, !last_cons_app. destruct post as [|z zs].
      * cbn [List.last]. by rewrite Z.eqb_refl.
      * change (List.last (a :: z :: zs) 0) with (List.last (z :: zs) 0).
        destruct (_ =? a) eqn:E; reflect_bools; [|by rewrite Ht, last_cons_app].
        destruct Hapost. rewrite <- E. apply list_elem_of_In, last_in.
    + rewrite Hperm. by constructor.
    + set_solver.
    + apply dlseg_app. cbn [dlseg List.hd]. split_and!.
      * eapply dlseg_agree; [intros y Hy; apply Hfr2; by apply Hdisj|].
        do 3 (apply dlseg_frame; [set_solver|]). done.
      * rewrite Hfr2 by done. unfold h1. by heap_step.
      * rewrite Hfr2 by set_solver. unfold h1. by heap_step.
      * done.
  - intros y Hy. rewrite Hfr2 by set_solver. unfold h1.
    rewrite !lookup_insert_ne by set_solver. done.
Qed.

Lemma for_each_spec h l xs : is_list h l xs -> list_for_each h l = Done xs.
Proof.
  intros [Hh _ Hnd H0 Hs]. unfold list_for_each. rewrite Hh.
  eapply walk_segment; [done | done |]. apply segment_size in Hs; [lia|done].
Qed.

(** A decided version of [is_list], so that examples evaluate. *)
Fixpoint dlsegb (h : heap) (p : Z) (xs : list Z) (n : Z) : bool :=
  match xs with
  | [] => true
  | x :: xs' => bool_decide (h !! x = Some (ListItem (List.hd n xs') p)) && dlsegb h x xs' n
  end.

Lemma dlsegb_spec h p xs n : dlsegb h p xs n = true -> dlseg h p xs n.
Proof.
  revert p; induction xs as [|x xs IH]; intros p; [done|].
  cbn [dlsegb dlseg]. intros [H1%bool_decide_eq_true H2]%andb_true_iff. auto.
Qed.

(** ** Properties *)

(** [list_append] of a fresh item appends it to the sequence the list
    holds, without touching any item outside the list. *)
Theorem list_append_refines h l xs item :
  is_list h l xs -> item <> 0 -> item ∉ xs -> is_Some (h !! item) ->
  exists h' l', list_append h l item = Done (h', l') /\ is_list h' l' (xs ++ [item]) /\
    list_for_each h' l' = Done (xs ++ [item]) /\
    forall y, y ∉ xs ++ [item] -> h' !! y = h !! y.
Proof.
  intros Hl Hi Hn Ha. destruct (append_spec h l xs item) as (h' & l' & E & Hl' & Hf); try done.
  exists h', l'. auto using for_each_spec.
Qed.

(** C33: [list_remove] of an item of the list removes exactly this item, clears
    its links and touches no item outside the list; [list_pop] is the removal
    of the first item, and an empty list pops the null pointer. *)
Theorem list_remove_refines h l pre x post :
  is_list h l (pre ++ x :: post) ->
  exists h' l', list_remove h l x = Done (h', l') /\ is_list h' l' (pre ++ post) /\
    h' !! x = Some (ListItem 0 0) /\
    (pre = [] -> list_pop h l = Done (h', l', x)) /\
    forall y, y ∉ pre ++ x :: post -> h' !! y = h !! y.
Proof.
  intros Hl. pose proof (il_nonnull _ _ _ Hl) as H0. pose proof (il_head _ _ _ Hl) as Hh.
  apply remove_spec in Hl as (h' & l' & E & Hl' & Hx & Hf).
  exists h', l'; split_and!; try done. intros ->. cbn [app List.hd] in Hh.
  unfold list_pop. rewrite Hh, (proj2 (Z.eqb_neq x 0)) by set_solver.
  by rewrite E.
Qed.

(** [list_insert] links a fresh item right after an item of the list. *)
Theorem list_insert_refines h l pre a post item :
  is_list h l (pre ++ a :: post) -> item <> 0 -> item ∉ pre ++ a :: post ->
  is_Some (h !! item) ->
  exists h' l', list_insert h l a item = Done (h', l') /\
    is_list h' l' (pre ++ a :: item :: post) /\
    list_for_each h' l' = Done (pre ++ a :: item :: post).
Proof.
  intros Hl Hi Hn Ha.
  destruct (insert_spec h l pre a post item) as (h' & l' & E & Hl' & _); try done.
  exists h', l'. auto using for_each_spec.
Qed.

(** [list_prepend] (and [list_insert] after the null pointer) does not set
    the back link of the old first item: the list can still be walked forwards,
    but a following [list_remove] of that item dereferences the null pointer. *)
Theorem list_prepend_loses_back_link h l x xs item :
  is_list h l (x :: xs) -> item <> 0 -> item ∉ x :: xs -> is_Some (h !! item) ->
  exists h' l', list_prepend h l item = Done (h', l') /\
    list_insert h l 0 item = Done (h', l') /\
    list_for_each h' l' = Done (item :: x :: xs) /\
    (h' !! 0 = None -> list_remove h' l' x = Fault NullPointer).
Proof.
  intros [Hh Ht Hnd H0 Hs] Hi Hni [it Hit].
  assert (x <> 0) by set_solver. assert (item <> x) by set_solver.
  assert (E : list_prepend h l item = list_insert h l 0 item) by done.
  pose proof (proj1 Hs) as Hx. cbn [List.hd] in Hh. rewrite <- E.
  unfold list_prepend, set_prev, set_next, deref. rewrite Hh. heap_step.
  eexists _, _; split_and!; [done | done | |].
  - unfold list_for_each. cbn [head]. set (h' := <[item := _]> _).
    assert (Hw : dlseg h' 0 (x :: xs) 0) by (by do 2 (apply dlseg_frame; [done|])).
    cbn [walk]. rewrite (proj2 (Z.eqb_neq item 0)) by done.
    unfold deref, h'. heap_step. fold h'.
    change x with (List.hd 0 (x :: xs)) at 1.
    assert (Hlt : (length (x :: xs) < size h')%nat).
    { apply (allocated_size h' (item :: x :: xs)); [by constructor|].
      intros y [->|Hy]%elem_of_cons; [unfold h'; by heap_step | by eapply dlseg_lookup]. }
    by rewrite (walk_segment h' 0 (x :: xs)).
  - intros Hnull. rewrite !lookup_insert_ne in Hnull by done.
    apply NoDup_cons in Hnd as [Hxs Hnd].
    set (h' := <[item := ListItem x 0]> _).
    assert (Hx' : h' !! x = Some (ListItem (List.hd 0 xs) 0)) by (unfold h'; by heap_step).
    destruct (set_back h' x 0 xs 0) as (h2 & E2 & _ & Hf2); [done | set_solver | done | |].
    { do 2 (apply dlseg_frame; [set_solver|]). apply Hs. }
    unfold list_remove. rewrite (deref_some _ _ _ Hx'). run. cbn [next prev head].
    rewrite E2, (proj2 (Z.eqb_neq item x)) by done. run.
    rewrite (deref_some h2 x (ListItem (List.hd 0 xs) 0)) by (by rewrite Hf2).
    run. unfold set_next, deref. cbn [next prev]. rewrite Hf2 by set_solver.
    unfold h'. heap_step. by rewrite Hnull.
Qed.

(** A list of two items, at the addresses 1 and 2, and a free item at 3. *)
Definition ex_heap : heap :=
  <[1 := ListItem 2 0]> (<[2 := ListItem 0 1]> (<[3 := ListItem 0 0]> ∅)).
Definition ex_list : clist := CListHead 1 2.

Lemma ex_is_list : is_list ex_heap ex_list [1; 2].
Proof.
  split; [done | done | by apply (bool_decide_unpack _) | by apply (bool_decide_unpack _) |].
  by apply dlsegb_spec.
Qed.

Ltac ex_list_side := first [apply ex_is_list | lia | by apply (bool_decide_unpack _) | by eexists].

Lemma list_append_refines_witness :
  exists h' l', list_append ex_heap ex_list 3 = Done (h', l') /\ is_list h' l' [1; 2; 3] /\
    list_for_each h' l' = Done [1; 2; 3] /\
    forall y, y ∉ [1; 2; 3] -> h' !! y = ex_heap !! y.
Proof. apply (list_append_refines ex_heap ex_list [1; 2] 3); ex_list_side. Defined.

Lemma list_remove_refines_witness :
  exists h' l', list_remove ex_heap ex_list 2 = Done (h', l') /\ is_list h' l' [1] /\
    h' !! 2 = Some (ListItem 0 0) /\
    ([1] = [] -> list_pop ex_heap ex_list = Done (h', l', 2)) /\
    forall y, y ∉ [1; 2] -> h' !! y = ex_heap !! y.
Proof. apply (list_remove_refines ex_heap ex_list [1] 2 []); ex_list_side. Defined.

Lemma list_insert_refines_witness :
  exists h' l', list_insert ex_heap ex_list 1 3 = Done (h', l') /\
    is_list h' l' [1; 3; 2] /\ list_for_each h' l' = Done [1; 3; 2].
Proof. apply (list_insert_refines ex_heap ex_list [] 1 [2] 3); ex_list_side. Defined.

Lemma list_prepend_loses_back_link_witness :
  exists h' l', list_prepend ex_heap ex_list 3 = Done (h', l') /\
    list_insert ex_heap ex_list 0 3 = Done (h', l') /\
    list_for_each h' l' = Done [3; 1; 2] /\
    (h' !! 0 = None -> list_remove h' l' 1 = Fault NullPointer).
Proof. apply (list_prepend_loses_back_link ex_heap ex_list 1 [2] 3); ex_list_side. Defined.

End CList.
