(* ===== verification/Qrtr.v ===== *)
(** * The QRTR client library (qrtr/lib/qrtr.c, qrtr/lib/libqrtr.h, qrtr/src/ns.h)

    Control packets are built and parsed as the 20 little-endian bytes that
    travel on the socket.  The socket calls are parameters: each function takes
    a record [sys] of the results the kernel gives and returns, besides its
    value, the calls it made, in order. *)
From S2P Require Import Prelude.

Definition AF_QIPCRTR : Z := 42.
Definition QRTR_NODE_BCAST : Z := 0xffffffff.
Definition QRTR_PORT_CTRL : Z := 0xfffffffe.

Definition QRTR_TYPE_DATA : Z := 1.
Definition QRTR_TYPE_HELLO : Z := 2.
Definition QRTR_TYPE_BYE : Z := 3.
Definition QRTR_TYPE_NEW_SERVER : Z := 4.
Definition QRTR_TYPE_DEL_SERVER : Z := 5.
Definition QRTR_TYPE_DEL_CLIENT : Z := 6.
Definition QRTR_TYPE_RESUME_TX : Z := 7.
Definition QRTR_TYPE_EXIT : Z := 8.
Definition QRTR_TYPE_PING : Z := 9.
Definition QRTR_TYPE_NEW_LOOKUP : Z := 10.
Definition QRTR_TYPE_DEL_LOOKUP : Z := 11.

Definition EMSGSIZE : Z := 90.

(** [struct sockaddr_qrtr]: 12 bytes with its padding. *)
Record sockaddr_qrtr := SockaddrQrtr { sq_family : Z; sq_node : Z; sq_port : Z }.
Definition sizeof_sockaddr_qrtr : Z := 12.

#[global] Instance sockaddr_qrtr_eq_dec : EqDecision sockaddr_qrtr.
Proof. solve_decision. Defined.

(** [struct qrtr_ctrl_pkt]: the union is kept as its larger member; the fields
    [client.node] and [client.port] are the words of [service] and [instance]. *)
Record qrtr_ctrl_pkt := CtrlPkt { cmd : Z; service : Z; instance : Z; node : Z; port : Z }.
Definition sizeof_ctrl_pkt : Z := 20.

Definition client_pkt (c n p : Z) : qrtr_ctrl_pkt := CtrlPkt c n p 0 0.

(** The bytes of a packet; [cpu_to_le32] on a little-endian machine. *)
Definition cpu_to_le32 (x : Z) : list Z := le_bytes 4 x.
Definition le32_to_cpu (buf : list Z) (off : Z) : outcome Z :=
  b ← read_mem buf off 4; Done (le_value b).

Definition pkt_bytes (p : qrtr_ctrl_pkt) : list Z :=
  cpu_to_le32 (cmd p) ++ cpu_to_le32 (service p) ++ cpu_to_le32 (instance p)
  ++ cpu_to_le32 (node p) ++ cpu_to_le32 (port p).

(** Offsets of the fields in the packed struct. *)
Definition off_cmd : Z := 0.
Definition off_service : Z := 4.
Definition off_instance : Z := 8.
Definition off_node : Z := 12.
Definition off_port : Z := 16.

(** [instance << 8 | version], the arguments being of type [uint16_t]. *)
Definition pack_instance (version instance : Z) : Z :=
  u32 (Z.lor (Z.shiftl (u16 instance) 8) (u16 version)).

(** ** The system calls the library makes *)

Record sys := Sys {
  sys_socket : Z;
  sys_setsockopt : Z;
  sys_bind : Z;
  sys_getsockname : Z * sockaddr_qrtr * Z;
  sys_sendto : Z }.

Inductive call :=
  | CSocket
  | CSetsockopt (sock : Z)
  | CBind (sock : Z) (sq : sockaddr_qrtr)
  | CGetsockname (sock : Z)
  | CSendto (sock : Z) (data : list Z) (sq : sockaddr_qrtr)
  | CClose (sock : Z).

(** A value and the calls made to obtain it. *)
Definition traced (A : Type) : Type := list call * A.

Section Client.
Context (sy : sys).

Definition qrtr_getname (sock : Z) : traced (Z * sockaddr_qrtr) :=
  let '(rc, sq, sl) := sys_getsockname sy in
  ([CGetsockname sock],
   if negb (rc =? 0) then (-1, sq)
   else if negb (sq_family sq =? AF_QIPCRTR) || negb (sl =? sizeof_sockaddr_qrtr)
   then (-1, sq) else (0, sq)).

Definition qrtr_open (rport : Z) : traced Z :=
  let sock := sys_socket sy in
  if sock <? 0 then ([CSocket], -1)
  else if negb (sys_setsockopt sy =? 0)
  then ([CSocket; CSetsockopt sock; CClose sock], -1)
  else if negb (rport =? 0) then
    let sq := SockaddrQrtr AF_QIPCRTR 1 (u32 rport) in
    if sys_bind sy <? 0
    then ([CSocket; CSetsockopt sock; CBind sock sq; CClose sock], -1)
    else ([CSocket; CSetsockopt sock; CBind sock sq], sock)
  else ([CSocket; CSetsockopt sock], sock).

Definition qrtr_close (sock : Z) : traced unit := ([CClose sock], tt).

Definition qrtr_sendto (sock n p : Z) (data : list Z) : traced Z :=
  let sq := SockaddrQrtr AF_QIPCRTR n p in
  ([CSendto sock data sq], if sys_sendto sy <? 0 then -1 else 0).

(** The four registrations differ in the command and in whether the node and
    port of the socket are filled in. *)
Definition send_ctrl (sock : Z) (mk : sockaddr_qrtr -> qrtr_ctrl_pkt) : traced Z :=
  let '(t, (rc, sq)) := qrtr_getname sock in
  if negb (rc =? 0) then (t, -1)
  else
    let '(t', r) := qrtr_sendto sock (sq_node sq) QRTR_PORT_CTRL (pkt_bytes (mk sq)) in
    (t ++ t', r).

Definition qrtr_new_server (sock srv version inst : Z) : traced Z :=
  send_ctrl sock (fun _ =>
    CtrlPkt QRTR_TYPE_NEW_SERVER srv (pack_instance version inst) 0 0).
Definition qrtr_remove_server (sock srv version inst : Z) : traced Z :=
  send_ctrl sock (fun sq =>
    CtrlPkt QRTR_TYPE_DEL_SERVER srv (pack_instance version inst) (sq_node sq) (sq_port sq)).
Definition qrtr_publish := qrtr_new_server.
Definition qrtr_bye := qrtr_remove_server.
Definition qrtr_new_lookup (sock srv version inst : Z) : traced Z :=
  send_ctrl sock (fun _ =>
    CtrlPkt QRTR_TYPE_NEW_LOOKUP srv (pack_instance version inst) 0 0).
Definition qrtr_remove_lookup (sock srv version inst : Z) : traced Z :=
  send_ctrl sock (fun sq =>
    CtrlPkt QRTR_TYPE_DEL_LOOKUP srv (pack_instance version inst) (sq_node sq) (sq_port sq)).

End Client.

(** A descriptor and the events [poll] waits for. *)
Record pollfd := Pollfd { pfd_fd : Z; pfd_events : Z; pfd_revents : Z }.
Definition POLLIN : Z := 1.
Definition POLLERR : Z := 8.

(** [poll] takes the number of milliseconds as an int: [ms], which is unsigned,
    is converted, so that [-1] still means to wait without a limit. *)
Definition qrtr_poll (poll : list pollfd -> Z -> Z) (sock ms : Z) : Z :=
  poll [Pollfd sock (Z.lor POLLIN POLLERR) 0] (s32 ms).

(** [recvfrom] returned [rc] (with the sender's address): the results of
    [qrtr_recv] and [qrtr_recvfrom], the latter storing the address through
    the pointers it was given. *)
Definition qrtr_recv (rc : Z) : Z := rc.
Definition qrtr_recvfrom (rc : Z) (sq : sockaddr_qrtr) : Z * option (Z * Z) :=
  if rc <? 0 then (rc, None) else (rc, Some (sq_node sq, sq_port sq)).

(** ** [struct qrtr_packet] and [qrtr_decode] *)

Record qrtr_packet := QrtrPacket {
  qp_type : Z; qp_node : Z; qp_port : Z;
  qp_service : Z; qp_instance : Z; qp_version : Z;
  qp_data : list Z }.

Definition set_qp_type (d : qrtr_packet) (t : Z) : qrtr_packet :=
  QrtrPacket t (qp_node d) (qp_port d) (qp_service d) (qp_instance d) (qp_version d) (qp_data d).
Definition set_qp_addr (d : qrtr_packet) (n p : Z) : qrtr_packet :=
  QrtrPacket (qp_type d) n p (qp_service d) (qp_instance d) (qp_version d) (qp_data d).
Definition set_qp_server (d : qrtr_packet) (s i v : Z) : qrtr_packet :=
  QrtrPacket (qp_type d) (qp_node d) (qp_port d) s i v (qp_data d).
Definition set_qp_data (d : qrtr_packet) (b : list Z) : qrtr_packet :=
  QrtrPacket (qp_type d) (qp_node d) (qp_port d) (qp_service d) (qp_instance d) (qp_version d) b.

(** [buf] holds the [len] received bytes. *)
Definition qrtr_decode (dest : qrtr_packet) (buf : list Z) (sq : sockaddr_qrtr)
    : outcome (Z * qrtr_packet) :=
  if sq_port sq =? QRTR_PORT_CTRL then
    if zlen buf <? sizeof_ctrl_pkt then Done (- EMSGSIZE, dest)
    else
      c ← le32_to_cpu buf off_cmd;
      let dest := set_qp_type dest (s32 c) in
      if qp_type dest =? QRTR_TYPE_BYE then
        n ← le32_to_cpu buf off_service;
        Done (0, set_qp_addr dest n (qp_port dest))
      else if qp_type dest =? QRTR_TYPE_DEL_CLIENT then
        n ← le32_to_cpu buf off_service;
        p ← le32_to_cpu buf off_instance;
        Done (0, set_qp_addr dest n p)
      else if (qp_type dest =? QRTR_TYPE_NEW_SERVER) || (qp_type dest =? QRTR_TYPE_DEL_SERVER) then
        n ← le32_to_cpu buf off_node;
        p ← le32_to_cpu buf off_port;
        s ← le32_to_cpu buf off_service;
        i ← le32_to_cpu buf off_instance;
        Done (0, set_qp_server (set_qp_addr dest n p) s (Z.shiftr i 8) (Z.land i 0xff))
      else Done (0, set_qp_type dest 0)
  else
    Done (0, set_qp_data (set_qp_addr (set_qp_type dest QRTR_TYPE_DATA)
                                      (sq_node sq) (sq_port sq)) buf).

(** ** Lemmas on packets *)

Lemma length_pkt_bytes p : length (pkt_bytes p) = 20%nat.
Proof. done. Qed.
Lemma pkt_bytes_ok p : bytes_ok (pkt_bytes p).
Proof. unfold pkt_bytes, cpu_to_le32. repeat (apply Forall_app; split); apply le_bytes_ok. Qed.

(** Reading back a field of a received packet; [buf] may go on behind it. *)
Lemma le32_to_cpu_field (pre rest : list Z) (x off : Z) :
  0 <= x < 2 ^ 32 -> off = zlen pre ->
  le32_to_cpu (pre ++ cpu_to_le32 x ++ rest) off = Done x.
Proof.
  intros Hx ->. unfold le32_to_cpu, read_mem.
  assert (zlen (pre ++ cpu_to_le32 x ++ rest) = zlen pre + (4 + zlen rest)) as ->.
  { unfold zlen, cpu_to_le32. rewrite !length_app, length_le_bytes. lia. }
  rewrite (proj2 (andb_true_iff _ _)).
  2:{ unfold zlen; rewrite !andb_true_iff, !Z.leb_le; lia. }
  run. f_equal. unfold zlen. rewrite Nat2Z.id, drop_app_length.
  change (Z.to_nat 4) with (length (cpu_to_le32 x)). rewrite take_app_length.
  by apply le_value_bytes4.
Qed.

Record pkt_ok (p : qrtr_ctrl_pkt) : Prop := {
  ok_cmd : 0 <= cmd p < 2 ^ 32; ok_service : 0 <= service p < 2 ^ 32;
  ok_instance : 0 <= instance p < 2 ^ 32; ok_node : 0 <= node p < 2 ^ 32;
  ok_port : 0 <= port p < 2 ^ 32 }.

Lemma pkt_fields p rest : pkt_ok p ->
  le32_to_cpu (pkt_bytes p ++ rest) off_cmd = Done (cmd p) /\
  le32_to_cpu (pkt_bytes p ++ rest) off_service = Done (service p) /\
  le32_to_cpu (pkt_bytes p ++ rest) off_instance = Done (instance p) /\
  le32_to_cpu (pkt_bytes p ++ rest) off_node = Done (node p) /\
  le32_to_cpu (pkt_bytes p ++ rest) off_port = Done (port p).
Proof.
  intros [H1 H2 H3 H4 H5]. unfold pkt_bytes. rewrite <- !app_assoc.
  set (c := cpu_to_le32 (cmd p)). set (s := cpu_to_le32 (service p)).
  set (i := cpu_to_le32 (instance p)). set (n := cpu_to_le32 (node p)).
  split_and!.
  - by apply (le32_to_cpu_field []).
  - by apply (le32_to_cpu_field c).
  - rewrite (app_assoc c). by apply (le32_to_cpu_field (c ++ s)).
  - rewrite (app_assoc c), (app_assoc (c ++ s)). by apply (le32_to_cpu_field ((c ++ s) ++ i)).
  - rewrite (app_assoc c), (app_assoc (c ++ s)), (app_assoc ((c ++ s) ++ i)).
    by apply (le32_to_cpu_field (((c ++ s) ++ i) ++ n)).
Qed.

Lemma le32_to_cpu_done buf off :
  0 <= off -> off + 4 <= zlen buf -> exists x, le32_to_cpu buf off = Done x.
Proof.
  intros. unfold le32_to_cpu, read_mem.
  replace (_ && _ && _)%bool with true; [by eexists|].
  symmetry. rewrite !andb_true_iff, !Z.leb_le. lia.
Qed.

(** What the receiver finds in the instance word. *)
Lemma pack_instance_fields version inst :
  0 <= version < 2 ^ 16 -> 0 <= inst < 2 ^ 16 ->
  Z.land (pack_instance version inst) 0xff = version mod 256 /\
  Z.shiftr (pack_instance version inst) 8 = Z.lor inst (version / 256).
Proof.
  intros Hv Hi. unfold pack_instance. rewrite !u16_small by lia.
  assert (Hr : 0 <= Z.lor (Z.shiftl inst 8) version < 2 ^ 32).
  { apply lor_range; [lia| |lia]. rewrite Z.shiftl_mul_pow2; lia. }
  rewrite u32_small by done. split.
  - change 0xff with (Z.ones 8). rewrite Z.land_lor_distr_l, !Z.land_ones by lia.
    rewrite Z.shiftl_mul_pow2, Z.mod_mul, Z.lor_0_l by lia. done.
  - rewrite Z.shiftr_lor, Z.shiftr_shiftl_l, Z.sub_diag, Z.shiftl_0_r, Z.shiftr_div_pow2 by lia. done.
Qed.

(** The socket is closed again on every failing path of [qrtr_open]. *)
Lemma qrtr_open_no_leak sy rport t r :
  qrtr_open sy rport = (t, r) -> 0 <= sys_socket sy ->
  r = sys_socket sy /\ CClose (sys_socket sy) ∉ t \/
  r = -1 /\ last t = Some (CClose (sys_socket sy)).
Proof.
  unfold qrtr_open. intros E Hs. rewrite (proj2 (Z.ltb_ge _ _) Hs) in E.
  repeat case_match; simplify_eq; (right; by split) || (left; split; [done|]);
    rewrite !elem_of_cons, elem_of_nil; intuition congruence.
Qed.

(** A control datagram is refused or gives a packet that is not a message; any other
    datagram is a message. *)
Lemma qrtr_decode_control dest buf sq : sq_port sq = QRTR_PORT_CTRL ->
  exists rc d, qrtr_decode dest buf sq = Done (rc, d) /\ (rc < 0 \/ rc = 0 /\ qp_type d <> QRTR_TYPE_DATA).
Proof.
  intros Hp. unfold qrtr_decode. rewrite (proj2 (Z.eqb_eq _ _) Hp).
  destruct (zlen buf <? sizeof_ctrl_pkt) eqn:El; reflect_bools; [eexists _, _; split; [done|by left]|].
  unfold sizeof_ctrl_pkt in *.
  assert (Hd : forall off, 0 <= off <= 16 -> exists x, le32_to_cpu buf off = Done x).
  { intros off Hoff. apply le32_to_cpu_done; lia. }
  destruct (Hd off_cmd) as [c ->]; [unfold off_cmd; lia|].
  destruct (Hd off_service) as [s ->]; [unfold off_service; lia|].
  destruct (Hd off_instance) as [i ->]; [unfold off_instance; lia|].
  destruct (Hd off_node) as [n ->]; [unfold off_node; lia|].
  destruct (Hd off_port) as [p ->]; [unfold off_port; lia|].
  run. cbn [set_qp_type qp_type].
  repeat match goal with |- context [s32 c =? ?k] => destruct (Z.eqb_spec (s32 c) k) as [E|] end;
    cbn [orb]; (eexists _, _; split; [done|]; right; split; [done|]); cbn [set_qp_addr set_qp_server set_qp_type qp_type];
    try done; by rewrite E.
Qed.
Lemma qrtr_decode_message dest buf sq : sq_port sq <> QRTR_PORT_CTRL ->
  exists d, qrtr_decode dest buf sq = Done (0, d) /\ qp_type d = QRTR_TYPE_DATA /\ qp_data d = buf /\
    qp_node d = sq_node sq /\ qp_port d = sq_port sq.
Proof. intros Hp. unfold qrtr_decode. rewrite (proj2 (Z.eqb_neq _ _) Hp). by eexists. Qed.

(** ** Properties *)

(** [qrtr_decode] reads inside the received bytes for every datagram and
    sender: it returns -EMSGSIZE and leaves the packet alone exactly when a
    control datagram is shorter than a control packet, and 0 otherwise. *)
Theorem qrtr_decode_safe dest buf sq :
  exists rc dest', qrtr_decode dest buf sq = Done (rc, dest') /\
    (rc = - EMSGSIZE /\ dest' = dest /\ sq_port sq = QRTR_PORT_CTRL /\ zlen buf < sizeof_ctrl_pkt
     \/ rc = 0 /\ (sq_port sq = QRTR_PORT_CTRL -> sizeof_ctrl_pkt <= zlen buf)).
Proof.
  unfold qrtr_decode.
  destruct (sq_port sq =? QRTR_PORT_CTRL) eqn:Ep; reflect_bools;
    [|eexists _, _; split; [done|]; right; split; [done|]; intros; contradiction].
  destruct (zlen buf <? sizeof_ctrl_pkt) eqn:El; reflect_bools;
    [eexists _, _; split; [done|]; left; auto|].
  unfold sizeof_ctrl_pkt in *.
  assert (Hd : forall off, 0 <= off <= 16 -> exists x, le32_to_cpu buf off = Done x).
  { intros off Hoff. apply le32_to_cpu_done; lia. }
  destruct (Hd off_cmd) as [c ->]; [unfold off_cmd; lia|].
  destruct (Hd off_service) as [s ->]; [unfold off_service; lia|].
  destruct (Hd off_instance) as [i ->]; [unfold off_instance; lia|].
  destruct (Hd off_node) as [n ->]; [unfold off_node; lia|].
  destruct (Hd off_port) as [p ->]; [unfold off_port; lia|].
  run. repeat case_match; eexists _, _; (split; [done|]; right; auto).
Qed.

(** A registration that travels as a control packet is decoded to the
    service, node and port it was made with; the version and instance come back
    unchanged when the version fits in 8 bits, and a larger version is reduced
    modulo 256 and its upper byte is merged into the instance. *)
Theorem qrtr_decode_server_roundtrip dest sq c srv version inst n p rest :
  sq_port sq = QRTR_PORT_CTRL -> c = QRTR_TYPE_NEW_SERVER \/ c = QRTR_TYPE_DEL_SERVER ->
  0 <= srv < 2 ^ 32 -> 0 <= n < 2 ^ 32 -> 0 <= p < 2 ^ 32 ->
  0 <= version < 2 ^ 16 -> 0 <= inst < 2 ^ 16 ->
  qrtr_decode dest (pkt_bytes (CtrlPkt c srv (pack_instance version inst) n p) ++ rest) sq =
    Done (0, QrtrPacket c n p srv (Z.lor inst (version / 256)) (version mod 256) (qp_data dest)) /\
  (version < 256 -> version mod 256 = version /\ Z.lor inst (version / 256) = inst).
Proof.
  intros Hp Hc Hs Hn Hpp Hv Hi. split.
  2:{ intros. rewrite Z.mod_small, Z.div_small, Z.lor_0_r by lia. done. }
  unfold qrtr_decode. rewrite Hp, Z.eqb_refl.
  set (pk := CtrlPkt c srv (pack_instance version inst) n p).
  assert (Hok : pkt_ok pk).
  { split; cbn; try done; [destruct Hc as [-> | ->]; done | apply u32_range]. }
  destruct (pkt_fields pk rest Hok) as (-> & -> & -> & -> & ->).
  destruct (pack_instance_fields version inst Hv Hi) as [Ev Ei].
  assert ((zlen (pkt_bytes pk ++ rest) <? sizeof_ctrl_pkt) = false) as ->.
  { apply Z.ltb_ge. unfold zlen, sizeof_ctrl_pkt. rewrite length_app, length_pkt_bytes. lia. }
  run. cbn [cmd service instance node port pk]. rewrite Ev, Ei.
  by destruct Hc as [-> | ->].
Qed.

Lemma qrtr_decode_server_roundtrip_witness :
  qrtr_decode (QrtrPacket 0 0 0 0 0 0 [])
    (pkt_bytes (CtrlPkt QRTR_TYPE_NEW_SERVER 14 (pack_instance 1 3) 1 77) ++ [])
    (SockaddrQrtr AF_QIPCRTR 1 QRTR_PORT_CTRL) =
    Done (0, QrtrPacket QRTR_TYPE_NEW_SERVER 1 77 14 (Z.lor 3 (1 / 256)) (1 mod 256) []) /\
  (1 < 256 -> 1 mod 256 = 1 /\ Z.lor 3 (1 / 256) = 3).
Proof.
  apply (qrtr_decode_server_roundtrip (QrtrPacket 0 0 0 0 0 0 [])
    (SockaddrQrtr AF_QIPCRTR 1 QRTR_PORT_CTRL) QRTR_TYPE_NEW_SERVER 14 1 3 1 77 []);
    first [reflexivity | left; reflexivity | lia].
Defined.
