(* ===== verification/NameServer.v ===== *)
(** * The QRTR name server (qrtr/src/ns.c): data and handlers

    The state of the server is the table of known nodes, each with the table of
    the servers it registered, and the list of lookups of local observers.  Node
    structures are reached through pointers (the table stores the address of the
    embedded [map_item]), so they live in a heap; servers are never modified once
    registered and are stored by value.  The list of lookups is the sequence the
    intrusive list of [CList] holds.

    The kernel is the environment [env]: what [sendto] returns for the n-th
    datagram, whether [calloc] succeeds, and what lies in uninitialised stack
    memory.  Every [sendto] call is logged in the state, with its destination and
    bytes, whether it succeeded or not. *)
From S2P Require Import Prelude CString Hash Map Qrtr.

Definition ENOENT : Z := 2.
Definition EINVAL : Z := 22.

(** ** Data *)

Record server_filter := ServerFilter { f_service : Z; f_instance : Z; f_ifilter : Z }.
Record lookup := Lookup { lk_service : Z; lk_instance : Z; lk_sq : sockaddr_qrtr }.
Record server := Server { srv_service : Z; srv_instance : Z; srv_node : Z; srv_port : Z }.
Record ns_node := NsNode { id : Z; services : cmap server }.

Definition datagram : Type := sockaddr_qrtr * list Z.

(** [struct context], the global [nodes], the heap of nodes, and the log of
    [sendto] calls.  [allocs] counts the [calloc] calls and names the next
    pointer. *)
Record ns_state := NsState {
  sock : Z;
  local_node : Z;
  nodes : cmap nat;
  heap : gmap nat ns_node;
  lookups : list lookup;
  sent : list datagram;
  allocs : nat }.

Record env := Env {
  sendto : list datagram -> sockaddr_qrtr -> list Z -> Z;
  calloc : nat -> Z -> Z -> bool;
  stack_words : list datagram -> Z * Z }.

Definition sizeof_map_entry : Z := 8.
Definition sizeof_node : Z := 24.
Definition sizeof_server : Z := 40.
Definition sizeof_lookup : Z := 40.

Definition bcast_sq : sockaddr_qrtr := SockaddrQrtr AF_QIPCRTR QRTR_NODE_BCAST QRTR_PORT_CTRL.

(** ** State passing *)

Definition act (A : Type) : Type := ns_state -> outcome (A * ns_state).

#[global] Instance act_ret : MRet act := fun A a s => Done (a, s).
#[global] Instance act_bind : MBind act := fun A B k m s =>
  match m s with
  | Done (a, s') => k a s'
  | Fault f => Fault f
  | OutOfFuel => OutOfFuel
  end.

Definition get : act ns_state := fun s => Done (s, s).
Definition lift {A} (o : outcome A) : act A := fun s => a ← o; Done (a, s).

Definition set_sock (z : Z) : act unit := fun s =>
  Done (tt, NsState z (local_node s) (nodes s) (heap s) (lookups s) (sent s) (allocs s)).
Definition set_nodes (m : cmap nat) : act unit := fun s =>
  Done (tt, NsState (sock s) (local_node s) m (heap s) (lookups s) (sent s) (allocs s)).
Definition set_heap (h : gmap nat ns_node) : act unit := fun s =>
  Done (tt, NsState (sock s) (local_node s) (nodes s) h (lookups s) (sent s) (allocs s)).
Definition set_lookups (l : list lookup) : act unit := fun s =>
  Done (tt, NsState (sock s) (local_node s) (nodes s) (heap s) l (sent s) (allocs s)).

(** The node a pointer designates. *)
Definition deref_node (p : nat) : act ns_node := fun s =>
  n ← of_option NullPointer (heap s !! p); Done (n, s).
Definition set_services (p : nat) (m : cmap server) : act unit := fun s =>
  n ← of_option NullPointer (heap s !! p);
  set_heap (<[p := NsNode (id n) m]> (heap s)) s.

(** [ctx->local_node] is an [int]; where it meets an [unsigned int] it is
    converted. *)
Definition local_id (s : ns_state) : Z := u32 (local_node s).

Section handlers.
Context (e : env).

Definition do_sendto (dest : sockaddr_qrtr) (bytes : list Z) : act Z := fun s =>
  Done (sendto e (sent s) dest bytes,
        NsState (sock s) (local_node s) (nodes s) (heap s) (lookups s)
                (sent s ++ [(dest, bytes)]) (allocs s)).

(** [calloc]: the pointer of the new block, or NULL. *)
Definition do_calloc (size : Z) : act (option nat) := fun s =>
  Done (if calloc e (allocs s) 1 size then Some (allocs s) else None,
        NsState (sock s) (local_node s) (nodes s) (heap s) (lookups s) (sent s) (S (allocs s))).

(** [map_reput] on a table of the server: it allocates at most one table. *)
Definition do_reput {V} (m : cmap V) (key : Z) (v : V) : act (cmap V * Z * option V) := fun s =>
  r ← map_reput (calloc e (allocs s) sizeof_map_entry) m key (Some v);
  Done (r, NsState (sock s) (local_node s) (nodes s) (heap s) (lookups s) (sent s) (S (allocs s))).

(** A loop over a fixed sequence, stopped by a negative result of its body. *)
Fixpoint for_each {A} (body : A -> act unit) (l : list A) : act unit :=
  match l with
  | [] => mret tt
  | a :: l' => _ ← body a; for_each body l'
  end.

(** [map_create] of the new node cannot fail: it always returns 0. *)
Definition node_get (node_id : Z) : act (option nat) :=
  s ← get;
  mi ← lift (map_get (nodes s) (hash_u32 node_id));
  match mi with
  | Some p => mret (Some p)
  | None =>
      node ← do_calloc sizeof_node;
      match node with
      | None => mret None
      | Some p =>
          s ← get;
          _ ← set_heap (<[p := NsNode node_id map_create]> (heap s));
          '(m, rc, _) ← do_reput (nodes s) (hash_u32 node_id) p;
          _ ← set_nodes m;
          if negb (rc =? 0) then
            s ← get;
            _ ← set_heap (delete p (heap s));
            mret None
          else mret (Some p)
      end
  end.

Definition server_match (srv : server) (f : server_filter) : bool :=
  if negb (f_service f =? 0) && negb (srv_service srv =? f_service f) then false
  else
    let ifilter := if (f_ifilter f =? 0) && negb (f_instance f =? 0)
                   then 0xffffffff else f_ifilter f in
    Z.land (srv_instance srv) ifilter =? f_instance f.

(** The servers of one node that match, in table order. *)
Definition query_node (f : server_filter) (p : nat) : act (list server) :=
  n ← deref_node p;
  srvs ← lift (map_for_each (services n));
  mret (filter (fun srv => server_match srv f = true) srvs).

Fixpoint query_nodes (f : server_filter) (ps : list nat) : act (list server) :=
  match ps with
  | [] => mret []
  | p :: ps' => l ← query_node f p; r ← query_nodes f ps'; mret (l ++ r)
  end.

(** The reply list and its length. *)
Definition server_query (f : server_filter) : act (list server * Z) :=
  s ← get;
  ps ← lift (map_for_each (nodes s));
  l ← query_nodes f ps;
  mret (l, zlen l).

Definition server_pkt (c : Z) (srv : server) : qrtr_ctrl_pkt :=
  CtrlPkt c (srv_service srv) (srv_instance srv) (srv_node srv) (srv_port srv).

Definition service_announce_new (dest : sockaddr_qrtr) (srv : server) : act Z :=
  do_sendto dest (pkt_bytes (server_pkt QRTR_TYPE_NEW_SERVER srv)).
Definition service_announce_del (dest : sockaddr_qrtr) (srv : server) : act Z :=
  do_sendto dest (pkt_bytes (server_pkt QRTR_TYPE_DEL_SERVER srv)).

Definition notify_pkt (srv : option server) (new : bool) : qrtr_ctrl_pkt :=
  let c := if new then QRTR_TYPE_NEW_SERVER else QRTR_TYPE_DEL_SERVER in
  match srv with
  | Some srv => server_pkt c srv
  | None => CtrlPkt c 0 0 0 0
  end.
Definition lookup_notify (to : sockaddr_qrtr) (srv : option server) (new : bool) : act Z :=
  do_sendto to (pkt_bytes (notify_pkt srv new)).

Fixpoint announce_loop (sq : sockaddr_qrtr) (srvs : list server) : act Z :=
  match srvs with
  | [] => mret 0
  | srv :: srvs' =>
      rc ← service_announce_new sq srv;
      if rc <? 0 then mret rc else announce_loop sq srvs'
  end.

Definition annouce_servers (sq : sockaddr_qrtr) : act Z :=
  s ← get;
  node ← node_get (local_id s);
  match node with
  | None => mret 0
  | Some p =>
      n ← deref_node p;
      srvs ← lift (map_for_each (services n));
      announce_loop sq srvs
  end.

(** [server_add]; [free(old)] releases a block nothing refers to any more. *)
Definition server_add (service instance node_id port : Z) : act (option server) :=
  if (service =? 0) || (port =? 0) then mret None
  else
    blk ← do_calloc sizeof_server;
    match blk with
    | None => mret None
    | Some _ =>
        let srv := Server service instance node_id port in
        node ← node_get node_id;
        match node with
        | None => mret None
        | Some p =>
            n ← deref_node p;
            '(m, rc, mi) ← do_reput (services n) (hash_u32 port) srv;
            _ ← set_services p m;
            if negb (rc =? 0) then mret None else mret (Some srv)
        end
    end.

Definition lookup_wants (srv : server) (lk : lookup) : bool :=
  negb (negb (lk_service lk =? 0) && negb (lk_service lk =? srv_service srv)) &&
  negb (negb (lk_instance lk =? 0) && negb (lk_instance lk =? srv_instance srv)).

(** The loop over the observers, common to registration and removal. *)
Definition notify_lookups (srv : server) (new : bool) : act unit :=
  s ← get;
  for_each (fun lk => if lookup_wants srv lk
                      then _ ← lookup_notify (lk_sq lk) (Some srv) new; mret tt
                      else mret tt) (lookups s).

Definition server_del (p : nat) (port : Z) : act Z :=
  n ← deref_node p;
  mi ← lift (map_get (services n) (hash_u32 port));
  match mi with
  | None => mret (- ENOENT)
  | Some srv =>
      '(m, _) ← lift (map_remove (services n) (hash_u32 port));
      _ ← set_services p m;
      s ← get;
      _ ← (if srv_node srv =? local_id s
           then _ ← service_announce_del bcast_sq srv; mret tt
           else mret tt);
      _ ← notify_lookups srv false;
      mret 0
  end.

Definition ctrl_cmd_hello (sq : sockaddr_qrtr) (buf : list Z) (len : Z) : act Z :=
  data ← lift (read_mem buf 0 len);
  rc ← do_sendto sq data;
  if 0 <? rc then annouce_servers sq else mret rc.

(** The loop of [ctrl_cmd_bye] removes entries of the table it walks: the
    position is a slot number, and the table is read again at each step. *)
Fixpoint bye_loop (fuel : nat) (p : nat) (iter : option Z) : act unit :=
  match fuel with
  | O => fun _ => OutOfFuel
  | S fuel' =>
      match iter with
      | None => mret tt
      | Some i =>
          n ← deref_node p;
          x ← lift (map_iter_item (services n) i);
          srv ← lift (of_option NullPointer x);
          _ ← server_del p (srv_port srv);
          n ← deref_node p;
          next ← lift (map_iter_next (services n) iter);
          bye_loop fuel' p next
      end
  end.

(** Telling every local server that a client is gone. *)
Definition tell_local (bytes : list Z) (srvs : list server) : act unit :=
  for_each (fun srv => _ ← do_sendto (SockaddrQrtr AF_QIPCRTR (srv_node srv) (srv_port srv)) bytes;
                       mret tt) srvs.

Definition ctrl_cmd_bye (from : sockaddr_qrtr) : act Z :=
  node ← node_get (sq_node from);
  match node with
  | None => mret 0
  | Some p =>
      n ← deref_node p;
      first ← lift (map_iter_first (services n));
      _ ← bye_loop (S (Z.to_nat (map_size (services n)))) p first;
      s ← get;
      local ← node_get (local_id s);
      match local with
      | None => mret 0
      | Some lp =>
          n ← deref_node lp;
          srvs ← lift (map_for_each (services n));
          _ ← tell_local (pkt_bytes (client_pkt QRTR_TYPE_BYE (sq_node from) 0)) srvs;
          mret 0
      end
  end.

(** The packet is not cleared before its first three words are set: the two
    last words are whatever the stack holds. *)
Definition ctrl_cmd_del_client (from : sockaddr_qrtr) (node_id port : Z) : act Z :=
  s ← get;
  if negb (sq_node from =? node_id) then mret (- EINVAL)
  else if (sq_node from =? local_id s) && negb (sq_port from =? port) then mret (- EINVAL)
  else
    _ ← set_lookups (filter (fun lk => negb ((sq_node (lk_sq lk) =? node_id) &&
                                             (sq_port (lk_sq lk) =? port)) = true) (lookups s));
    node ← node_get node_id;
    _ ← match node with
        | Some p => _ ← server_del p port; mret tt
        | None => mret tt
        end;
    s ← get;
    local ← node_get (local_id s);
    match local with
    | None => mret 0
    | Some lp =>
        s ← get;
        let '(w1, w2) := stack_words e (sent s) in
        n ← deref_node lp;
        srvs ← lift (map_for_each (services n));
        _ ← tell_local (pkt_bytes (CtrlPkt QRTR_TYPE_DEL_CLIENT node_id port w1 w2)) srvs;
        mret 0
    end.

Definition ctrl_cmd_new_server (from : sockaddr_qrtr) (service instance node_id port : Z) : act Z :=
  s ← get;
  let '(node_id, port) := if sq_node from =? local_id s
                          then (sq_node from, sq_port from) else (node_id, port) in
  if negb (sq_node from =? node_id) then mret (- EINVAL)
  else
    r ← server_add service instance node_id port;
    match r with
    | None => mret (- EINVAL)
    | Some srv =>
        rc ← (if srv_node srv =? local_id s
              then service_announce_new bcast_sq srv else mret 0);
        _ ← notify_lookups srv true;
        mret rc
    end.

Definition ctrl_cmd_del_server (from : sockaddr_qrtr) (service instance node_id port : Z) : act Z :=
  s ← get;
  let '(node_id, port) := if sq_node from =? local_id s
                          then (sq_node from, sq_port from) else (node_id, port) in
  if negb (sq_node from =? node_id) then mret (- EINVAL)
  else if (sq_node from =? local_id s) && negb (sq_port from =? port) then mret (- EINVAL)
  else
    node ← node_get node_id;
    match node with
    | None => mret (- ENOENT)
    | Some p => server_del p port
    end.

Definition ctrl_cmd_new_lookup (from : sockaddr_qrtr) (service instance : Z) : act Z :=
  s ← get;
  if negb (sq_node from =? local_id s) then mret (- EINVAL)
  else
    blk ← do_calloc sizeof_lookup;
    match blk with
    | None => mret (- EINVAL)
    | Some _ =>
        _ ← set_lookups (lookups s ++ [Lookup service instance from]);
        '(reply, _) ← server_query (ServerFilter service instance 0);
        _ ← for_each (fun srv => _ ← lookup_notify from (Some srv) true; mret tt) reply;
        _ ← lookup_notify from None true;
        mret 0
    end.

Definition lookup_of (from : sockaddr_qrtr) (service instance : Z) (lk : lookup) : bool :=
  (sq_node (lk_sq lk) =? sq_node from) && (sq_port (lk_sq lk) =? sq_port from) &&
  (lk_service lk =? service) &&
  negb (negb (lk_instance lk =? 0) && negb (lk_instance lk =? instance)).

Definition ctrl_cmd_del_lookup (from : sockaddr_qrtr) (service instance : Z) : act Z :=
  s ← get;
  _ ← set_lookups (filter (fun lk => negb (lookup_of from service instance lk) = true) (lookups s));
  mret 0.

(** What [recvfrom] delivered: its result, the whole 4096-byte buffer (the
    bytes behind the datagram are what the stack held) and the sender. *)
Record received := Received { rc_len : Z; rc_buf : list Z; rc_sq : sockaddr_qrtr }.
Definition sizeof_buf : Z := 4096.

Definition dispatch (r : received) (c : Z) : act Z :=
  let buf := rc_buf r in
  let sq := rc_sq r in
  if c =? QRTR_TYPE_HELLO then ctrl_cmd_hello sq buf (rc_len r)
  else if c =? QRTR_TYPE_BYE then ctrl_cmd_bye sq
  else if c =? QRTR_TYPE_DEL_CLIENT then
    n ← lift (le32_to_cpu buf off_service);
    p ← lift (le32_to_cpu buf off_instance);
    ctrl_cmd_del_client sq n p
  else if c =? QRTR_TYPE_NEW_SERVER then
    s ← lift (le32_to_cpu buf off_service);
    i ← lift (le32_to_cpu buf off_instance);
    n ← lift (le32_to_cpu buf off_node);
    p ← lift (le32_to_cpu buf off_port);
    ctrl_cmd_new_server sq s i n p
  else if c =? QRTR_TYPE_DEL_SERVER then
    s ← lift (le32_to_cpu buf off_service);
    i ← lift (le32_to_cpu buf off_instance);
    n ← lift (le32_to_cpu buf off_node);
    p ← lift (le32_to_cpu buf off_port);
    ctrl_cmd_del_server sq s i n p
  else if (c =? QRTR_TYPE_EXIT) || (c =? QRTR_TYPE_PING) || (c =? QRTR_TYPE_RESUME_TX) then mret 0
  else if c =? QRTR_TYPE_NEW_LOOKUP then
    s ← lift (le32_to_cpu buf off_service);
    i ← lift (le32_to_cpu buf off_instance);
    ctrl_cmd_new_lookup sq s i
  else if c =? QRTR_TYPE_DEL_LOOKUP then
    s ← lift (le32_to_cpu buf off_service);
    i ← lift (le32_to_cpu buf off_instance);
    ctrl_cmd_del_lookup sq s i
  else mret 0.

Definition ctrl_port_fn (r : received) : act unit :=
  if rc_len r <=? 0 then set_sock (-1)
  else if rc_len r <? 4 then mret tt
  else
    c ← lift (le32_to_cpu (rc_buf r) off_cmd);
    _ ← dispatch r c;
    mret tt.

Definition say_hello : act Z :=
  rc ← do_sendto bcast_sq (pkt_bytes (CtrlPkt QRTR_TYPE_HELLO 0 0 0 0));
  mret (if rc <? 0 then rc else 0).

(** The main loop: one [ctrl_port_fn] per readable socket, while it is open. *)
Fixpoint serve (rs : list received) : act unit :=
  s ← get;
  if sock s <? 0 then mret tt
  else match rs with
       | [] => mret tt
       | r :: rs' => _ ← ctrl_port_fn r; serve rs'
       end.

(** The state [main] sets up on a socket of the node [node]; [say_hello] has to
    succeed. *)
Definition ns_init (fd node : Z) : ns_state :=
  NsState fd (s32 node) map_create ∅ [] [] 0.

Definition ns_main (fd node : Z) (rs : list received) : outcome (bool * ns_state) :=
  '(rc, s) ← say_hello (ns_init fd node);
  if negb (rc =? 0) then Done (false, s)
  else '(_, s) ← serve rs s; Done (true, s).

(** The final [map_clear(&nodes, node_mi_free)]: the servers released. *)
Definition node_mi_free (p : nat) : act (list server) :=
  n ← deref_node p;
  let '(rel, m) := map_clear (services n) in
  s ← get;
  _ ← set_heap (delete p (heap s));
  mret rel.

Fixpoint free_nodes (ps : list nat) : act (list server) :=
  match ps with
  | [] => mret []
  | p :: ps' => l ← node_mi_free p; r ← free_nodes ps'; mret (l ++ r)
  end.

Definition ns_cleanup : act (list server) :=
  s ← get;
  let '(ps, m) := map_clear (nodes s) in
  l ← free_nodes ps;
  _ ← set_nodes m;
  mret l.

End handlers.
