(* ===== verification/NsFacts.v ===== *)
(** * The QRTR name server: invariant, isolation, notification

    Proofs about the handlers of [NameServer].  The handlers are reasoned about
    with [runs m s Q]: from the state [s] the action [m] terminates without a
    fault in a state and with a result that satisfy [Q]. *)
From S2P Require Import Prelude CString Hash Map MapFacts Qrtr NameServer.

(** ** Running actions *)

Definition runs {A} (m : act A) (s : ns_state) (Q : A -> ns_state -> Prop) : Prop :=
  exists a s', m s = Done (a, s') /\ Q a s'.

Lemma runs_ret {A} (a : A) s (Q : A -> ns_state -> Prop) : Q a s -> runs (mret a) s Q.
Proof. by exists a, s. Qed.
Lemma runs_bind {A B} (m : act A) (k : A -> act B) s Q :
  runs m s (fun a s' => runs (k a) s' Q) -> runs (m ≫= k) s Q.
Proof.
  intros (a & s' & Hm & (b & s'' & Hk & HQ)). exists b, s''.
  unfold mbind, act_bind. by rewrite Hm.
Qed.
Lemma runs_mono {A} (m : act A) s (P Q : A -> ns_state -> Prop) :
  runs m s P -> (forall a s', P a s' -> Q a s') -> runs m s Q.
Proof. intros (a & s' & Hm & HP) H. exists a, s'; auto. Qed.
Lemma runs_get s (Q : ns_state -> ns_state -> Prop) : Q s s -> runs get s Q.
Proof. by exists s, s. Qed.
Lemma runs_lift {A} (o : outcome A) a s (Q : A -> ns_state -> Prop) :
  o = Done a -> Q a s -> runs (lift o) s Q.
Proof. intros ->. by exists a, s. Qed.
Lemma runs_deref p n s (Q : ns_node -> ns_state -> Prop) :
  heap s !! p = Some n -> Q n s -> runs (deref_node p) s Q.
Proof. intros E HQ. exists n, s. unfold deref_node. by rewrite E. Qed.

(** State updates. *)
Definition with_nodes m s :=
  NsState (sock s) (local_node s) m (heap s) (lookups s) (sent s) (allocs s).
Definition with_heap h s :=
  NsState (sock s) (local_node s) (nodes s) h (lookups s) (sent s) (allocs s).
Definition with_lookups l s :=
  NsState (sock s) (local_node s) (nodes s) (heap s) l (sent s) (allocs s).
Definition with_sent l s :=
  NsState (sock s) (local_node s) (nodes s) (heap s) (lookups s) l (allocs s).
Definition tick s :=
  NsState (sock s) (local_node s) (nodes s) (heap s) (lookups s) (sent s) (S (allocs s)).

Lemma runs_set_nodes m s (Q : unit -> ns_state -> Prop) :
  Q tt (with_nodes m s) -> runs (set_nodes m) s Q.
Proof. intros HQ. by eexists tt, _. Qed.
Lemma runs_set_heap h s (Q : unit -> ns_state -> Prop) :
  Q tt (with_heap h s) -> runs (set_heap h) s Q.
Proof. intros HQ. by eexists tt, _. Qed.
Lemma runs_set_lookups l s (Q : unit -> ns_state -> Prop) :
  Q tt (with_lookups l s) -> runs (set_lookups l) s Q.
Proof. intros HQ. by eexists tt, _. Qed.
Lemma runs_set_services p n m s (Q : unit -> ns_state -> Prop) :
  heap s !! p = Some n -> Q tt (with_heap (<[p := NsNode (id n) m]> (heap s)) s) ->
  runs (set_services p m) s Q.
Proof. intros E HQ. eexists tt, _. unfold set_services. rewrite E. by split. Qed.
Lemma runs_sendto e dest bytes s (Q : Z -> ns_state -> Prop) :
  (forall rc, Q rc (with_sent (sent s ++ [(dest, bytes)]) s)) -> runs (do_sendto e dest bytes) s Q.
Proof. intros HQ. eexists _, _. split; [done|]. apply HQ. Qed.
Lemma runs_calloc e size s (Q : option nat -> ns_state -> Prop) :
  Q (if calloc e (allocs s) 1 size then Some (allocs s) else None) (tick s) ->
  runs (do_calloc e size) s Q.
Proof. intros HQ. by eexists _, _. Qed.

Lemma runs_reput {V} e (m : cmap V) k v r s (Q : cmap V * Z * option V -> ns_state -> Prop) :
  map_reput (calloc e (allocs s) sizeof_map_entry) m k (Some v) = Done r -> Q r (tick s) ->
  runs (do_reput e m k v) s Q.
Proof. intros E HQ. eexists r, _. unfold do_reput. by rewrite E. Qed.

(** Symbolic execution: one step of the action at the head. *)
Ltac act_step :=
  lazymatch goal with
  | |- runs (mbind _ _) _ _ => apply runs_bind
  | |- runs (mret _) _ _ => apply runs_ret
  | |- runs get _ _ => apply runs_get
  | |- runs (set_nodes _) _ _ => apply runs_set_nodes
  | |- runs (set_heap _) _ _ => apply runs_set_heap
  | |- runs (set_lookups _) _ _ => apply runs_set_lookups
  | |- runs (do_sendto _ _ _) _ _ => apply runs_sendto; intros ?
  | |- runs (do_calloc _ _) _ _ => apply runs_calloc
  | |- runs (lift ?o) _ _ => eapply runs_lift; [first [eassumption | reflexivity]|]
  | |- runs (deref_node _) _ _ => eapply runs_deref; [eassumption|]
  | |- runs _ _ _ => progress (cbv beta iota)
  end.
Ltac acts := repeat act_step.

(** ** The invariant *)

Definition is_u32 (z : Z) : Prop := 0 <= z < 2 ^ 32.

Record server_ok (nid k : Z) (srv : server) : Prop := {
  so_key : k = hash_u32 (srv_port srv);
  so_node : srv_node srv = nid;
  so_service : is_u32 (srv_service srv) /\ srv_service srv <> 0;
  so_instance : is_u32 (srv_instance srv);
  so_port : is_u32 (srv_port srv) /\ srv_port srv <> 0 }.

Record node_ok (n : ns_node) : Prop := {
  no_wf : map_wf (services n);
  no_size : map_size (services n) < 2 ^ 31;
  no_id : is_u32 (id n);
  no_servers : forall k srv, has (services n) k srv -> server_ok (id n) k srv }.

Record ns_ok (s : ns_state) : Prop := {
  ok_wf : map_wf (nodes s);
  ok_size : map_size (nodes s) < 2 ^ 31;
  ok_tomb : no_tombstone (nodes s);
  ok_unique : map_unique (nodes s);
  ok_nodes : forall k p, has (nodes s) k p -> exists n, heap s !! p = Some n /\ k = hash_u32 (id n);
  ok_heap : forall p n, heap s !! p = Some n -> node_ok n /\ (p < allocs s)%nat }.

(** The allocator of the device cannot provide a table of 2^31 slots. *)
Definition calloc_limit (e : env) : Prop :=
  forall n slots, calloc e n sizeof_map_entry slots = true -> slots < 2 ^ 31.

(** Memory for every request below that limit, and tables that may still grow. *)
Definition plenty (e : env) : Prop :=
  forall n k size, size < 2 ^ 31 -> calloc e n k size = true.

(** ** Views *)

Definition node_at (s : ns_state) (n : Z) : option ns_node :=
  match map_get (nodes s) (hash_u32 n) with
  | Done (Some p) => heap s !! p
  | _ => None
  end.
Definition server_at (s : ns_state) (n p : Z) : option server :=
  match node_at s n with
  | Some nd => match map_get (services nd) (hash_u32 p) with Done o => o | _ => None end
  | None => None
  end.

(** The table of a node; a node that is not known yet has an empty one. *)
Definition table_at (s : ns_state) (n : Z) : cmap server :=
  match node_at s n with Some nd => services nd | None => map_create end.

(** No port is registered twice at the node. *)
Definition clean_at (s : ns_state) (n : Z) : Prop := map_unique (table_at s n).

Definition roomy (s : ns_state) (n : Z) : Prop :=
  map_size (nodes s) + 256 < 2 ^ 31 /\ map_size (table_at s n) + 256 < 2 ^ 31.

(** ** Facts about tables *)

(** [map_reput] under the allocator's limit: it fails without a change, or
    stores the item. *)
Lemma reput_limited {V} (calloc : Z -> bool) (m : cmap V) k v :
  map_wf m -> map_size m < 2 ^ 31 -> (forall sl, calloc sl = true -> sl < 2 ^ 31) ->
  (map_reput calloc m k (Some v) = Done (m, -1, None) /\
   map_count m = map_size m /\ calloc (map_size m + 256) = false) \/
  exists m' old, map_reput calloc m k (Some v) = Done (m', 0, old) /\
    map_wf m' /\ map_size m' < 2 ^ 31 /\ map_get m' k = Done (Some v) /\
    (forall k' v', has m' k' v' -> (k' = k /\ v' = v) \/ has m k' v') /\
    (no_tombstone m -> no_tombstone m') /\
    (map_count m < map_size m \/ map_unique m ->
       forall k', k' <> k -> map_get m' k' = map_get m k') /\
    (map_unique m -> ~ shadowed m k -> map_unique m').
Proof.
  intros Hwf Hsz Hlim. pose proof (count_le_size m Hwf).
  destruct (decide (map_count m = map_size m)) as [Hfull|Hroom];
    [destruct (calloc (map_size m + 256)) eqn:Ec|].
  - right. apply Hlim in Ec as Ec'.
    destruct (reput_total calloc 0 m k v Hwf ltac:(lia))
      as [(_ & Hc & _)|(m' & old & E & W & G & S & Ha & _ & Ht & Ho & Hu & _)]; [congruence|].
    exists m', old. split_and!; try done; [lia|].
    intros U N. by apply Hu.
  - left. split_and!; try done. by apply reput_no_memory.
  - right. destruct (reput_total calloc 0 m k v Hwf ltac:(lia))
      as [(? & _)|(m' & old & E & W & G & _ & Ha & _ & Ht & Ho & Hu & Hp)]; [done|].
    exists m', old. split_and!; try done.
    + destruct Hp as (d & x & _ & ->); [lia|]. done.
    + intros U N. by apply Hu.
Qed.

Lemma get_has {V} (m : cmap V) k v : map_wf m -> map_get m k = Done (Some v) -> has m k v.
Proof.
  intros Hwf E. destruct (get_cases m k Hwf) as [(d & v' & (Hd & Hp & _) & _ & Hg)|(_ & _ & Hg)];
    rewrite Hg in E; [|done]. injection E as ->. eexists. apply (probe_lookup _ _ _ _ Hp).
Qed.

Lemma get_total {V} (m : cmap V) k : map_wf m -> exists o, map_get m k = Done o.
Proof. intros Hwf. destruct (get_cases m k Hwf) as [(?&?&_&_&->)|(_&_&->)]; eauto. Qed.

(** ** Frames *)

Record frame (s s' : ns_state) : Prop := {
  fr_sock : sock s' = sock s;
  fr_local : local_node s' = local_node s;
  fr_lookups : lookups s' = lookups s;
  fr_sent : sent s' = sent s }.

Lemma node_at_ok s n nd : ns_ok s -> node_at s n = Some nd -> node_ok nd.
Proof.
  unfold node_at. intros H E. destruct (map_get _ _) as [[p|]| |]; try done.
  by apply (ok_heap s H) in E as [? _].
Qed.

Lemma node_at_id s n nd : ns_ok s -> is_u32 n -> node_at s n = Some nd -> id nd = n.
Proof.
  unfold node_at. intros H Hn E. destruct (map_get _ _) as [[p|]| |] eqn:G; try done.
  apply get_has in G; [|apply H]. apply (ok_nodes s H) in G as (nd' & E' & Hh).
  assert (nd' = nd) as -> by congruence.
  apply (ok_heap s H) in E as [Hok _]. symmetry.
  by apply hash_u32_injective; [|apply Hok|].
Qed.

(** A pointer stored in the table is live and older than the next allocation. *)
Lemma node_ptr s n p :
  ns_ok s -> map_get (nodes s) (hash_u32 n) = Done (Some p) ->
  exists nd, heap s !! p = Some nd /\ node_ok nd /\ (p < allocs s)%nat /\
    node_at s n = Some nd /\ (is_u32 n -> id nd = n).
Proof.
  intros H G. pose proof G as G'. apply get_has in G; [|apply H].
  apply (ok_nodes s H) in G as (nd & E & Hk). exists nd.
  pose proof (proj1 (ok_heap s H _ _ E)) as Hok.
  split_and!; try done.
  - by eapply (ok_heap s H).
  - unfold node_at. by rewrite G'.
  - intros Hn. symmetry. by apply hash_u32_injective; [|apply Hok|].
Qed.

Lemma has_empty {V} k (v : V) : ~ has map_create k v.
Proof. by intros [i Hi]. Qed.

Lemma empty_node_ok nid : is_u32 nid -> node_ok (NsNode nid map_create).
Proof.
  intros Hn. split; [apply create_wf | done | done |]. intros k srv []%has_empty.
Qed.

Lemma tick_ok s : ns_ok s -> ns_ok (tick s).
Proof.
  intros [H1 H2 H3 H4 H5 H6]. split; try done.
  intros p n E. apply H6 in E as [? ?]. split; [done|]. cbn. lia.
Qed.

(** What a node was before [node_get], and is after it. *)
Definition node_kept (o : option ns_node) (nid : Z) (n : ns_node) : Prop :=
  o = Some n \/ o = None /\ n = NsNode nid map_create.

(** Replacing the table of a node. *)
Definition with_services p n m s := with_heap (<[p := NsNode (id n) m]> (heap s)) s.

Lemma with_services_ok s p n m :
  ns_ok s -> heap s !! p = Some n -> node_ok (NsNode (id n) m) -> ns_ok (with_services p n m s).
Proof.
  intros H E Hm. split; try apply H.
  - cbn. intros k q Hq. apply (ok_nodes s H) in Hq as (nd & Eq & ->).
    destruct (decide (q = p)) as [->|Hne].
    + rewrite lookup_insert_eq. eexists; split; [done|]. cbn. congruence.
    + rewrite lookup_insert_ne by done. eauto.
  - cbn. intros q nd [[<- <-]|[Hne Eq]]%lookup_insert_Some; [|by apply (ok_heap s H) in Eq].
    split; [done|]. apply (ok_heap s H _ _ E).
Qed.

Lemma with_services_at s nid p n m :
  ns_ok s -> is_u32 nid -> map_get (nodes s) (hash_u32 nid) = Done (Some p) -> heap s !! p = Some n ->
  node_at (with_services p n m s) nid = Some (NsNode nid m) /\
  forall n', is_u32 n' -> n' <> nid -> node_at (with_services p n m s) n' = node_at s n'.
Proof.
  intros H Hn G E.
  destruct (node_ptr s nid p H G) as (nd & E' & _ & _ & _ & Hid).
  assert (nd = n) as -> by congruence. unfold node_at. cbn. rewrite G. split.
  - rewrite lookup_insert_eq. by rewrite (Hid Hn).
  - intros n' Hn' Hne. destruct (map_get (nodes s) (hash_u32 n')) as [[q|]| |] eqn:Gq; try done.
    rewrite lookup_insert_ne; [done|]. intros ->.
    destruct (node_ptr s n' q H Gq) as (nd' & Eq & _ & _ & _ & Hid').
    apply Hne. rewrite <- Hid', <- Hid by done. congruence.
Qed.

Lemma with_sent_ok l s : ns_ok s -> ns_ok (with_sent l s).
Proof. by intros []. Qed.
Lemma with_sent_sent l l' s : with_sent l (with_sent l' s) = with_sent l s.
Proof. done. Qed.
Lemma with_sent_id s : with_sent (sent s ++ []) s = s.
Proof. destruct s. unfold with_sent; cbn. by rewrite app_nil_r. Qed.

(** ** What is sent *)

Definition notes (lks : list lookup) (srv : server) (new : bool) : list datagram :=
  map (fun lk => (lk_sq lk, pkt_bytes (notify_pkt (Some srv) new)))
      (filter (fun lk => lookup_wants srv lk = true) lks).
Definition bcast_note (s : ns_state) (c : Z) (srv : server) : list datagram :=
  if srv_node srv =? local_id s then [(bcast_sq, pkt_bytes (server_pkt c srv))] else [].

Lemma runs_for_each_send {A} (body : A -> act unit) (msg : A -> list datagram) l s Q :
  (forall a s, runs (body a) s (fun _ s' => s' = with_sent (sent s ++ msg a) s)) ->
  Q tt (with_sent (sent s ++ concat (map msg l)) s) -> runs (for_each body l) s Q.
Proof.
  intros Hb. revert s. induction l as [|a l IH]; intros s HQ; cbn [for_each].
  - apply runs_ret. cbn in HQ. by rewrite with_sent_id in HQ.
  - apply runs_bind. eapply runs_mono; [apply Hb|]. intros _ s' ->. apply IH.
    rewrite with_sent_sent. cbn [with_sent sent]. cbn [map concat] in HQ. by rewrite app_assoc in HQ.
Qed.

Lemma runs_notify e srv new s Q :
  Q tt (with_sent (sent s ++ notes (lookups s) srv new) s) -> runs (notify_lookups e srv new) s Q.
Proof.
  intros HQ. unfold notify_lookups. acts.
  apply (runs_for_each_send _ (fun lk => if lookup_wants srv lk
     then [(lk_sq lk, pkt_bytes (notify_pkt (Some srv) new))] else [])).
  - intros lk s0. destruct (lookup_wants srv lk); unfold lookup_notify; acts; [done|].
    by rewrite with_sent_id.
  - replace (concat _) with (notes (lookups s) srv new); [done|]. clear HQ. unfold notes.
    induction (lookups s) as [|lk lks IH]; [done|]. rewrite filter_cons. cbn [map concat].
    rewrite <- IH. by destruct (lookup_wants srv lk).
Qed.

Section specs.
Context (e : env) (Hlim : calloc_limit e).

Lemma node_get_spec s nid :
  ns_ok s -> is_u32 nid ->
  runs (node_get e nid) s (fun r s' =>
    ns_ok s' /\ frame s s' /\
    (forall n, is_u32 n -> n <> nid -> node_at s' n = node_at s n) /\
    match r with
    | Some p => map_get (nodes s') (hash_u32 nid) = Done (Some p) /\
        exists n, heap s' !! p = Some n /\ node_kept (node_at s nid) nid n
    | None => node_at s nid = None /\ node_at s' nid = None /\
        (plenty e -> map_size (nodes s) + 256 < 2 ^ 31 -> False)
    end).
Proof.
  intros H Hn. unfold node_get. acts.
  destruct (get_total (nodes s) (hash_u32 nid)) as [o G]; [apply H|].
  acts. destruct o as [p|]; acts.
  - destruct (node_ptr s nid p H G) as (nd & E & Hok & _ & Hat & _).
    split_and!; try done. exists nd. split; [done|]. by left.
  - assert (Hnone : node_at s nid = None) by (unfold node_at; by rewrite G).
    destruct (calloc e (allocs s) 1 sizeof_node) eqn:Ec; acts.
    2:{ pose proof (tick_ok s H). split_and!; try done. intros Hpl _.
        by rewrite (Hpl _ _ sizeof_node) in Ec. }
    set (p := allocs s).
    assert (Hfresh : heap s !! p = None).
    { destruct (heap s !! p) eqn:E; [|done]. apply (ok_heap s H) in E as [_ ?]. unfold p in *. lia. }
    destruct (reput_limited (calloc e (S p) sizeof_map_entry) (nodes s) (hash_u32 nid) p)
      as [(E & _ & Ec')|(m' & old & E & W & S' & G' & Hhas & Ht & Ho & Hu)];
      [apply H | apply H | apply Hlim | |]; (eapply runs_reput; [exact E|]); acts; cbn [Z.eqb negb];
      acts.
    + cbn. rewrite (delete_insert_id (heap s)) by done.
      split_and!; [apply (tick_ok _ (tick_ok s H)) | done..|].
      intros Hpl Hr. by rewrite Hpl in Ec'.
    + specialize (Ht (ok_tomb s H)).
      specialize (Hu (ok_unique s H) (no_tombstone_not_shadowed _ _ (ok_tomb s H))).
      split_and!; try done.
      * split; cbn; try done.
        -- intros k q [[-> ->]|Hq]%Hhas.
           ++ eexists. by rewrite lookup_insert_eq.
           ++ apply (ok_nodes s H) in Hq as (nd & Eq & ->). exists nd.
              rewrite lookup_insert_ne; [done|]. congruence.
        -- intros q nd [[<- <-]|[Hne Eq]]%lookup_insert_Some.
           ++ split; [by apply empty_node_ok | unfold p; lia].
           ++ apply (ok_heap s H) in Eq as [? ?]. split; [done|lia].
      * intros n Hn' Hne. unfold node_at. cbn. rewrite Ho; [|by right; apply H|].
        2:{ intros ?%hash_u32_injective; done. }
        destruct (map_get (nodes s) (hash_u32 n)) as [[q|]| |] eqn:Gq; try done.
        apply node_ptr in Gq as (nd & Eq & _); [|done]. rewrite lookup_insert_ne; [done|congruence].
      * cbn. eexists. rewrite lookup_insert_eq. split; [done|]. by right.
Qed.
Lemma remove_has {V} (m : cmap V) k m' rc k' v' :
  map_wf m -> map_remove m k = Done (m', rc) -> has m' k' v' -> has m k' v'.
Proof.
  intros Hwf E. destruct (remove_cases m k Hwf) as [(_ & _ & E')|(d & v & m1 & _ & _ & E' & _ & _ & -> & _)];
    rewrite E in E'; injection E' as -> ->; [done|].
  intros (i & Hi). cbn in Hi. apply list_lookup_insert_Some in Hi as [(_ & ? & _)|(_ & Hi)]; [done|].
  by exists i.
Qed.

Lemma server_del_spec s nid p n port :
  ns_ok s -> is_u32 nid -> is_u32 port ->
  map_get (nodes s) (hash_u32 nid) = Done (Some p) -> heap s !! p = Some n ->
  runs (server_del e p port) s (fun rc s' =>
    match server_at s nid port with
    | None => rc = - ENOENT /\ s' = s
    | Some srv => rc = 0 /\ exists m, map_remove (services n) (hash_u32 port) = Done (m, 0) /\
        s' = with_sent (sent s ++ bcast_note s QRTR_TYPE_DEL_SERVER srv ++ notes (lookups s) srv false)
               (with_services p n m s)
    end).
Proof.
  intros H Hn Hp G E. unfold server_del. acts.
  destruct (node_ptr s nid p H G) as (nd & E' & Hok & _ & Hat & _).
  assert (nd = n) as -> by congruence.
  unfold server_at. rewrite Hat.
  destruct (remove_cases (services n) (hash_u32 port)) as
    [(Eg & _ & _)|(d & v & m' & _ & Eg & Er & W & Sz & _)]; [apply Hok| |]; rewrite Eg.
  - acts. done.
  - acts. eapply runs_set_services; [done|]. acts.
    unfold service_announce_del, bcast_note. change (local_id _) with (local_id s).
    destruct (srv_node v =? local_id s); acts; apply runs_notify; acts; (split; [done|]);
      exists m'; (split; [done|]); unfold with_services, with_sent, with_heap; cbn; by rewrite <- ?app_assoc.
Qed.

(** Storing a server in the table of its node. *)
Lemma put_server_ok s p n svc inst port m' :
  ns_ok s -> heap s !! p = Some n -> is_u32 svc -> svc <> 0 -> is_u32 inst -> is_u32 port -> port <> 0 ->
  map_wf m' -> map_size m' < 2 ^ 31 ->
  (forall k' v', has m' k' v' ->
     (k' = hash_u32 port /\ v' = Server svc inst (id n) port) \/ has (services n) k' v') ->
  ns_ok (with_services p n m' s).
Proof.
  intros H E Hs Hs0 Hi Hp Hp0 W Sz Hhas. apply with_services_ok; [done|done|].
  pose proof (proj1 (ok_heap s H _ _ E)) as Hok. split; [done|done|apply Hok|].
  intros k v [[-> ->]|Hv]%Hhas; [by split|]. by apply Hok.
Qed.

Lemma node_at_services s n nd p :
  node_at s n = Some nd -> server_at s n p =
  match map_get (services nd) (hash_u32 p) with Done o => o | _ => None end.
Proof. unfold server_at. by intros ->. Qed.

Lemma server_at_table s n p :
  server_at s n p = match map_get (table_at s n) (hash_u32 p) with Done o => o | _ => None end.
Proof. unfold server_at, table_at. by destruct (node_at s n). Qed.

Lemma node_kept_table s nid n : node_kept (node_at s nid) nid n -> services n = table_at s nid.
Proof. unfold table_at. by intros [-> | [-> ->]]. Qed.

Lemma server_add_spec s svc inst nid port :
  ns_ok s -> is_u32 svc -> is_u32 inst -> is_u32 nid -> is_u32 port ->
  runs (server_add e svc inst nid port) s (fun r s' =>
    ns_ok s' /\ frame s s' /\
    (forall n, is_u32 n -> n <> nid -> node_at s' n = node_at s n) /\
    match r with
    | Some srv => srv = Server svc inst nid port /\ svc <> 0 /\ port <> 0 /\
        server_at s' nid port = Some srv /\
        (clean_at s nid -> forall p, is_u32 p -> p <> port -> server_at s' nid p = server_at s nid p) /\
        (clean_at s nid -> ~ shadowed (table_at s nid) (hash_u32 port) -> clean_at s' nid)
    | None => table_at s' nid = table_at s nid /\
        (plenty e -> roomy s nid -> svc = 0 \/ port = 0)
    end).
Proof.
  intros H Hs Hi Hn Hp. unfold server_add.
  destruct ((svc =? 0) || (port =? 0)) eqn:Ez; acts.
  { split_and!; try done. intros _ _. by apply orb_true_iff in Ez as [?%Z.eqb_eq|?%Z.eqb_eq]; auto. }
  apply orb_false_iff in Ez as [Es%Z.eqb_neq Ep%Z.eqb_neq].
  destruct (calloc e (allocs s) 1 sizeof_server) eqn:Ec; acts.
  2:{ split_and!; try done; [by apply tick_ok|]. intros Hpl _. by rewrite Hpl in Ec. }
  eapply runs_mono; [apply (node_get_spec (tick s) nid (tick_ok s H) Hn)|].
  intros [p|] s1 (H1 & F1 & N1 & R1).
  2:{ acts. destruct R1 as (R1 & R2 & R3). split_and!; try done.
      - by destruct F1.
      - unfold table_at. rewrite R2. change (node_at s nid) with (node_at (tick s) nid). by rewrite R1.
      - intros Hpl [Hr _]. by destruct (R3 Hpl Hr). }
  destruct R1 as (G1 & n & E1 & K1). cbv beta iota. acts.
  destruct (node_ptr s1 nid p H1 G1) as (nd & E1' & Hok & _ & A1 & Hid).
  assert (nd = n) as -> by congruence. specialize (Hid Hn). clear E1'.
  pose proof (node_kept_table (tick s) nid n K1) as Ht. change (table_at (tick s)) with (table_at s) in Ht.
  assert (Hfr : frame s s1) by by destruct F1.
  destruct (reput_limited (calloc e (allocs s1) sizeof_map_entry) (services n) (hash_u32 port)
     (Server svc inst nid port)) as [(E & _ & Ec')|(m' & old & E & W & S' & G' & Hhas & _ & Ho & Hu)];
    [apply Hok | apply Hok | apply Hlim | |]; (eapply runs_reput; [exact E|]); acts;
    (eapply runs_set_services; [exact E1|]); cbn [Z.eqb negb]; acts;
    fold (with_services p n (services n) (tick s1)) || fold (with_services p n m' (tick s1)).
  - destruct (with_services_at (tick s1) nid p n (services n)) as [A2 N2]; [by apply tick_ok|done..|].
    split_and!.
    + by apply with_services_ok; [apply tick_ok| |destruct n].
    + by destruct Hfr.
    + intros n' ? ?. rewrite N2 by done. by apply N1.
    + unfold table_at at 1. by rewrite A2.
    + intros Hpl [_ Hr]. rewrite Ht in Ec'. by rewrite Hpl in Ec'.
  - destruct (with_services_at (tick s1) nid p n m') as [A2 N2]; [by apply tick_ok|done..|].
    split_and!; try done.
    + apply (put_server_ok (tick s1) p n svc inst port); try done; [by apply tick_ok|].
      by rewrite Hid.
    + by destruct Hfr.
    + intros n' ? ?. rewrite N2 by done. by apply N1.
    + rewrite (node_at_services _ _ _ _ A2). cbn [services]. by rewrite G'.
    + unfold clean_at. rewrite <- Ht. intros Hc q Hq Hne.
      rewrite (node_at_services _ _ _ _ A2), server_at_table, <- Ht. cbn [services].
      rewrite Ho; [done|by right|]. by intros ?%hash_u32_injective.
    + unfold clean_at. rewrite <- Ht. intros Hc Hsh. unfold table_at. rewrite A2. auto.
Qed.


(** ** Handlers that touch one node *)

Record touches (nid : Z) (s s' : ns_state) : Prop := {
  tc_ok : ns_ok s';
  tc_local : local_node s' = local_node s;
  tc_sock : sock s' = sock s;
  tc_tables : forall n, is_u32 n -> n <> nid -> table_at s' n = table_at s n }.

Lemma touches_refl nid s : ns_ok s -> touches nid s s.
Proof. by split. Qed.
Lemma touches_trans nid s1 s2 s3 : touches nid s1 s2 -> touches nid s2 s3 -> touches nid s1 s3.
Proof.
  intros [_ L1 K1 T1] [O2 L2 K2 T2]. split; [done|congruence..|].
  intros n Hn Hne. by rewrite T2, T1.
Qed.
Lemma touches_sent nid s l : ns_ok s -> touches nid s (with_sent l s).
Proof. intros H. by split; [apply with_sent_ok|..]. Qed.
Lemma touches_lookups nid s l : ns_ok s -> touches nid s (with_lookups l s).
Proof. intros H. split; try done. by destruct H. Qed.
Lemma touches_tick nid s : ns_ok s -> touches nid s (tick s).
Proof. intros H. by split; [apply tick_ok|..]. Qed.

Lemma node_get_tables s nid :
  ns_ok s -> is_u32 nid ->
  runs (node_get e nid) s (fun r s' =>
    frame s s' /\ (forall k, touches k s s') /\ (forall n, is_u32 n -> table_at s' n = table_at s n) /\
    match r with
    | Some p => map_get (nodes s') (hash_u32 nid) = Done (Some p) /\
        exists n, heap s' !! p = Some n /\ services n = table_at s nid
    | None => node_at s nid = None /\ (plenty e -> map_size (nodes s) + 256 < 2 ^ 31 -> False)
    end).
Proof.
  intros H Hn. eapply runs_mono; [by apply node_get_spec|]. intros r s' (H' & F & N & R).
  assert (T : forall n, is_u32 n -> table_at s' n = table_at s n).
  { intros n Hn'. destruct (decide (n = nid)) as [->|Hne].
    - destruct r as [p|].
      + destruct R as (G & nd & E & K). rewrite <- (node_kept_table s nid nd K).
        destruct (node_ptr s' nid p H' G) as (nd' & E' & _ & _ & A & _).
        unfold table_at. rewrite A. congruence.
      + destruct R as (R1 & R2 & _). unfold table_at. by rewrite R1, R2.
    - unfold table_at. by rewrite N. }
  split_and!; try done.
  - intros k. split; [done|apply F|apply F|]. auto.
  - destruct r as [p|]; [|by destruct R as (? & _ & R)].
    destruct R as (G & nd & E & K). split; [done|]. exists nd. split; [done|].
    by apply node_kept_table.
Qed.

Definition del_msgs (s : ns_state) (srv : server) : list datagram :=
  bcast_note s QRTR_TYPE_DEL_SERVER srv ++ notes (lookups s) srv false.

Lemma remove_node_ok n k m rc :
  node_ok n -> map_remove (services n) k = Done (m, rc) -> node_ok (NsNode (id n) m).
Proof.
  intros Hok E. pose proof (remove_has (services n) k m rc) as Hh.
  destruct (remove_cases (services n) k) as
    [(_ & _ & E')|(d & v & m1 & _ & _ & E' & W & Sz & _)]; [apply Hok| |];
    rewrite E in E'; injection E' as -> ->.
  - by destruct n.
  - split; cbn [services id]; [done|rewrite Sz; apply Hok|apply Hok|].
    intros k' v' Hv. apply Hok, Hh; [apply Hok|done..].
Qed.

Lemma server_del_tables s nid p n port :
  ns_ok s -> is_u32 nid -> is_u32 port ->
  map_get (nodes s) (hash_u32 nid) = Done (Some p) -> heap s !! p = Some n ->
  runs (server_del e p port) s (fun rc s' =>
    touches nid s s' /\ lookups s' = lookups s /\
    map_get (nodes s') (hash_u32 nid) = Done (Some p) /\
    match map_get (services n) (hash_u32 port) with
    | Done (Some srv) => rc = 0 /\ sent s' = sent s ++ del_msgs s srv /\
        exists m, map_remove (services n) (hash_u32 port) = Done (m, 0) /\
          heap s' !! p = Some (NsNode nid m) /\ table_at s' nid = m
    | _ => rc = - ENOENT /\ s' = s
    end).
Proof.
  intros H Hn Hp G E. eapply runs_mono; [by apply (server_del_spec s nid p n port)|].
  destruct (node_ptr s nid p H G) as (nd & E' & Hok & _ & A & Hid).
  assert (nd = n) as -> by congruence. specialize (Hid Hn).
  rewrite (node_at_services _ _ _ _ A). destruct (get_total (services n) (hash_u32 port)) as [o ->]; [apply Hok|].
  intros rc s'. destruct o as [srv|].
  - intros (-> & m & Er & ->).
    destruct (with_services_at s nid p n m) as [A2 N2]; [done..|].
    split_and!; try done.
    + split; [|done..|].
      * apply with_sent_ok, with_services_ok; [done..|]. by eapply remove_node_ok.
      * intros n' Hn' Hne. unfold table_at.
        change (node_at (with_sent _ ?t)) with (node_at t). by rewrite N2.
    + exists m. split; [done|]. split.
      * cbn. by rewrite lookup_insert_eq, Hid.
      * unfold table_at. change (node_at (with_sent _ ?t)) with (node_at t). by rewrite A2.
  - intros [-> ->]. by split_and!; [apply touches_refl|..].
Qed.

Lemma remove_slot (m : cmap server) k v j m' :
  map_wf m -> map_unique m -> map_data m !! j = Some (Item k v) -> map_remove m k = Done (m', 0) ->
  map_unique m' /\ map_data m' = <[j := Deleted]> (map_data m).
Proof.
  intros Hwf Hun Hj Er. split; [by eapply remove_unique|].
  destruct (remove_cases m k Hwf) as [(_ & _ & E')|(d & w & m1 & (Hd & Hp & _) & _ & E' & _ & _ & -> & _)];
    rewrite Er in E'; [done|]. injection E' as ->. cbn.
  by rewrite (Hun _ _ _ _ _ Hj (probe_lookup _ _ _ _ Hp)).
Qed.


Lemma iter_from_spec (m : cmap server) (i : nat) :
  map_wf m -> (i <= length (map_data m))%nat ->
  exists r, map_iter_from m (Z.of_nat i) = Done r /\
    match r with
    | None => item_pairs (drop i (map_data m)) = []
    | Some j => exists k v (j' : nat), j = Z.of_nat j' /\ (i <= j')%nat /\
        map_data m !! j' = Some (Item k v) /\
        item_pairs (drop i (map_data m)) = (k, v) :: item_pairs (drop (S j') (map_data m))
    end.
Proof.
  intros Hwf Hi. unfold map_iter_from. apply iter_loop_spec.
  pose proof (wf_len _ Hwf) as Hl. unfold zlen in Hl. lia.
Qed.

Lemma remove_length (m : cmap server) k m' rc :
  map_wf m -> map_remove m k = Done (m', rc) -> length (map_data m') = length (map_data m).
Proof.
  intros Hwf Er. destruct (remove_cases m k Hwf) as [(_ & _ & E')|(d & w & m1 & _ & _ & E' & _ & _ & -> & _)];
    rewrite Er in E'; injection E' as -> ->; [done|]. cbn. by rewrite length_insert.
Qed.

(** Clearing the next item of a table extends the part without items. *)
Lemma clear_next (l : list (map_entry server)) (i j : nat) k v :
  l !! j = Some (Item k v) ->
  item_pairs (drop i l) = (k, v) :: item_pairs (drop (S j) l) ->
  item_pairs (take (S j) (<[j := Deleted]> l)) = item_pairs (take i l) /\
  item_pairs (drop (S j) (<[j := Deleted]> l)) = item_pairs (drop (S j) l).
Proof.
  intros Hj Hd. pose proof (lookup_lt_Some _ _ _ Hj) as Hlt. unfold item_pairs in *.
  rewrite (take_S_r _ _ Deleted) by (by rewrite list_lookup_insert_eq).
  rewrite take_insert_ge, drop_insert_lt, omap_app by lia. split; [|done].
  csimpl. rewrite app_nil_r.
  apply (app_inv_tail ((k, v) :: omap (fun e => match e with Item k v => Some (k, v) | _ => None end) (drop (S j) l))).
  rewrite <- Hd at 2. rewrite <- omap_app, take_drop.
  rewrite <- (take_drop_middle _ _ _ Hj) at 3. rewrite omap_app. by csimpl.
Qed.

(** The servers the loop of [ctrl_cmd_bye] still has to remove. *)
Definition rest_of (m : cmap server) (i : nat) : list server := (item_pairs (drop i (map_data m))).*2.

Lemma del_msgs_frame s s' srv :
  local_node s' = local_node s -> lookups s' = lookups s -> del_msgs s' srv = del_msgs s srv.
Proof. unfold del_msgs, bcast_note, local_id. by intros -> ->. Qed.

Lemma bye_loop_spec fuel s nid p n i r :
  ns_ok s -> is_u32 nid -> map_get (nodes s) (hash_u32 nid) = Done (Some p) -> heap s !! p = Some n ->
  (i <= length (map_data (services n)))%nat -> (length (map_data (services n)) - i < fuel)%nat ->
  map_iter_from (services n) (Z.of_nat i) = Done r ->
  runs (bye_loop e fuel p r) s (fun _ s' =>
    touches nid s s' /\ lookups s' = lookups s /\
    (map_unique (services n) ->
       sent s' = sent s ++ concat (map (del_msgs s) (rest_of (services n) i)) /\
       items (table_at s' nid) = item_pairs (take i (map_data (services n))))).
Proof.
  revert s n i r. induction fuel as [|fuel IH]; intros s n i r H Hn G E Hi Hf Er; [lia|].
  destruct (node_ptr s nid p H G) as (nd & E' & Hok & _ & A & Hid).
  assert (nd = n) as -> by congruence. specialize (Hid Hn). clear E'.
  destruct (iter_from_spec (services n) i (no_wf n Hok) Hi) as (r' & Er' & Hr).
  rewrite Er in Er'. injection Er' as <-. cbn [bye_loop].
  destruct r as [j|]; acts.
  2:{ split_and!; [by apply touches_refl|done|]. intros _. unfold rest_of. rewrite Hr. cbn.
      rewrite app_nil_r. split; [done|]. unfold table_at. rewrite A.
      rewrite <- (app_nil_r (item_pairs (take i _))), <- Hr. unfold item_pairs.
      by rewrite <- omap_app, take_drop. }
  destruct Hr as (k & v & j' & -> & Hij & Hj & Hrest).
  assert (Hlt := lookup_lt_Some _ _ _ Hj).
  pose proof (no_servers n Hok k v (ex_intro _ j' Hj)) as Hsrv.
  assert (Hit : map_iter_item (services n) (Z.of_nat j') = Done (Some v)).
  { unfold map_iter_item. by rewrite (get_entry_lookup (services n) j' (Item k v)). }
  acts.
  eapply runs_mono; [apply (server_del_tables s nid p n (srv_port v)); try done; apply Hsrv|].
  intros rc s1 (T1 & L1 & G1 & R1).
  rewrite <- (so_key _ _ _ Hsrv) in R1.
  destruct (get_cases (services n) k (no_wf n Hok)) as [(d & w & _ & _ & Eg)|(Hno & _)];
    [|by apply Hno in Hj].
  rewrite Eg in R1. destruct R1 as (_ & S1 & m & Er1 & E1 & Tb1).
  pose proof (remove_length _ _ _ _ (no_wf n Hok) Er1) as Hlen.
  pose proof (proj1 (ok_heap s1 (tc_ok _ _ _ T1) _ _ E1)) as Hok1.
  destruct (iter_from_spec m (S j') (no_wf _ Hok1) ltac:(lia)) as (r2 & Er2 & _).
  assert (En : map_iter_next m (Some (Z.of_nat j')) = Done r2).
  { cbn [map_iter_next]. by replace (Z.of_nat j' + 1) with (Z.of_nat (S j')) by lia. }
  acts.
  eapply runs_mono; [apply (IH s1 (NsNode nid m) (S j')); try done; cbn [services]; (apply T1 || lia)|].
  intros [] s2 (T2 & L2 & R2). split_and!; [by eapply touches_trans|congruence|].
  intros Hun. destruct (remove_slot _ _ _ _ _ (no_wf n Hok) Hun Hj Er1) as [Hun' Hdata].
  destruct (clear_next _ _ _ _ _ Hj Hrest) as [Htk Hdr].
  destruct (R2 Hun') as [S2 I2]. cbn [services] in *. unfold rest_of in *.
  rewrite Hdata in I2, S2. rewrite Hdr in S2. rewrite Htk in I2. split; [|done].
  assert (w = v) as ->.
  { assert (map_get (services n) k = Done (Some v)) as Eg'; [|congruence].
    apply get_unique_some; [apply Hok|done|]. by exists j'. }
  rewrite S2, S1, Hrest, <- app_assoc. cbn [fmap list_fmap map concat snd].
  do 3 f_equal. apply map_ext. intros x. apply del_msgs_frame; [apply T1|done].
Qed.


(** ** The handlers *)

(** The node and port a registration is about: for a local sender, its own. *)
Definition target (s : ns_state) (from : sockaddr_qrtr) (n p : Z) : Z * Z :=
  if sq_node from =? local_id s then (sq_node from, sq_port from) else (n, p).

Definition sq_ok (sq : sockaddr_qrtr) : Prop := is_u32 (sq_node sq) /\ is_u32 (sq_port sq).

Lemma target_ok s from n p : sq_ok from -> is_u32 n -> is_u32 p ->
  is_u32 (target s from n p).1 /\ is_u32 (target s from n p).2.
Proof. unfold target. intros [? ?] ? ?. by destruct (_ =? _). Qed.

(** Only the entry of [port] may differ, in a table without duplicates. *)
Definition only_port (nid port : Z) (s s' : ns_state) : Prop :=
  clean_at s nid -> forall p, is_u32 p -> p <> port -> server_at s' nid p = server_at s nid p.

Lemma only_port_tables nid port s s' : table_at s' nid = table_at s nid -> only_port nid port s s'.
Proof. intros E _ p _ _. by rewrite !server_at_table, E. Qed.

Lemma new_server_spec s from svc inst n p :
  ns_ok s -> sq_ok from -> is_u32 svc -> is_u32 inst -> is_u32 n -> is_u32 p ->
  let '(nid, port) := target s from n p in
  runs (ctrl_cmd_new_server e from svc inst n p) s (fun rc s' =>
    touches (sq_node from) s s' /\ lookups s' = lookups s /\ only_port nid port s s' /\
    let srv := Server svc inst nid port in
    (nid = sq_node from /\ svc <> 0 /\ port <> 0 /\
     server_at s' nid port = Some srv /\
     sent s' = sent s ++ bcast_note s QRTR_TYPE_NEW_SERVER srv ++ notes (lookups s) srv true /\
     (clean_at s nid -> ~ shadowed (table_at s nid) (hash_u32 port) -> clean_at s' nid)) \/
    (rc = - EINVAL /\ sent s' = sent s /\ table_at s' nid = table_at s nid /\
     (plenty e -> roomy s nid -> nid = sq_node from -> svc = 0 \/ port = 0))).
Proof.
  intros H Hf Hs Hi Hn Hp. destruct (target s from n p) as [nid port] eqn:Et.
  pose proof (target_ok s from n p Hf Hn Hp) as [Hnid Hport]. rewrite Et in Hnid, Hport. cbn in Hnid, Hport.
  unfold ctrl_cmd_new_server. acts. fold (target s from n p). rewrite Et.
  destruct (sq_node from =? nid) eqn:Ef; cbn [negb]; acts; reflect_bools.
  2:{ split_and!; [by apply touches_refl|done|by apply only_port_tables|]. right.
      split_and!; try done. }
  subst nid. eapply runs_mono; [by apply (server_add_spec s svc inst (sq_node from) port)|].
  intros r s1 (H1 & F1 & N1 & R1).
  assert (T1 : touches (sq_node from) s s1).
  { split; [done|apply F1|apply F1|]. intros k Hk Hne. unfold table_at. by rewrite N1. }
  destruct r as [srv|]; acts.
  2:{ destruct R1 as [Rt Rp]. split_and!; [done|apply F1|by apply only_port_tables|].
      right. split_and!; try done; [apply F1|]. intros; auto. }
  destruct R1 as (-> & Hs0 & Hp0 & Hat & Ho & Hc).
  assert (Hgoal : forall l, l = bcast_note s QRTR_TYPE_NEW_SERVER (Server svc inst (sq_node from) port) ->
    runs (notify_lookups e (Server svc inst (sq_node from) port) true) (with_sent (sent s1 ++ l) s1)
      (fun _ s' => touches (sq_node from) s s' /\ lookups s' = lookups s /\
         server_at s' (sq_node from) port = Some (Server svc inst (sq_node from) port) /\
         (forall k, table_at s' k = table_at s1 k) /\
         sent s' = sent s ++ bcast_note s QRTR_TYPE_NEW_SERVER (Server svc inst (sq_node from) port)
                   ++ notes (lookups s) (Server svc inst (sq_node from) port) true)).
  { intros l ->. apply runs_notify. rewrite with_sent_sent. split_and!; try done.
    - eapply touches_trans; [exact T1|]. by apply touches_sent.
    - apply F1.
    - cbn. by rewrite (fr_sent _ _ F1), (fr_lookups _ _ F1), <- app_assoc. }
  unfold bcast_note in Hgoal at 1. cbn [srv_node] in *. unfold service_announce_new.
  destruct (sq_node from =? local_id s); acts;
    [|rewrite <- (with_sent_id s1)]; (eapply runs_mono; [by apply Hgoal|]);
    intros [] s2 (T2 & L2 & A2 & Tb2 & S2); acts; (split_and!; [done|done| |left; split_and!; try done]).
  1, 3: (intros Hcl q Hq Hne; rewrite server_at_table, Tb2, <- server_at_table; by apply Ho).
  1, 2: (unfold clean_at at 2; rewrite Tb2; apply Hc).
Qed.


(** Removing the server of a port: what [map_remove] does to the table, and the
    announcements, when there is one. *)
Definition removed (nid port : Z) (s s' : ns_state) : Prop :=
  match server_at s nid port with
  | Some srv => sent s' = sent s ++ del_msgs s srv /\
      map_remove (table_at s nid) (hash_u32 port) = Done (table_at s' nid, 0)
  | None => sent s' = sent s /\ table_at s' nid = table_at s nid
  end.

Lemma table_wf s n : ns_ok s -> map_wf (table_at s n).
Proof.
  intros H. unfold table_at. destruct (node_at s n) eqn:E; [|apply create_wf].
  apply (node_at_ok s n _ H E).
Qed.

Lemma removed_only_port nid port s s' :
  ns_ok s -> is_u32 port -> removed nid port s s' -> only_port nid port s s'.
Proof.
  unfold removed. intros H Hp R. destruct (server_at s nid port).
  - destruct R as [_ R]. intros _ p Hp' Hne. rewrite !server_at_table.
    rewrite (remove_get_other _ _ (hash_u32 p) _ _ (table_wf s nid H) R); [done|].
    by intros ?%hash_u32_injective.
  - apply only_port_tables, R.
Qed.

Lemma removed_gone nid port s s' :
  ns_ok s -> clean_at s nid -> removed nid port s s' ->
  server_at s' nid port = None /\ clean_at s' nid.
Proof.
  unfold removed, clean_at. intros H Hc R. destruct (server_at s nid port) eqn:E.
  - destruct R as [_ R]. destruct (remove_unique _ _ _ _ (table_wf s nid H) Hc R) as [U G].
    split; [|done]. by rewrite server_at_table, G.
  - destruct R as [_ R]. by rewrite R, server_at_table, R, <- server_at_table.
Qed.

(** [node_get], and [server_del] when it returns a node. *)
Lemma get_del_spec s nid port :
  ns_ok s -> is_u32 nid -> is_u32 port ->
  let post (rc : Z) s' := touches nid s s' /\ lookups s' = lookups s /\ removed nid port s s' /\
    rc = match server_at s nid port with Some _ => 0 | None => - ENOENT end in
  runs (node_get e nid) s (fun r s' =>
    match r with
    | Some p => runs (server_del e p port) s' post
    | None => post (- ENOENT) s'
    end).
Proof.
  intros H Hn Hp post. eapply runs_mono; [by apply node_get_tables|].
  intros [p|] s1 (F1 & T1 & Tb1 & R1); specialize (T1 nid); specialize (Tb1 nid Hn).
  - destruct R1 as (G1 & n & E1 & Hs).
    eapply runs_mono; [by eapply (server_del_tables s1 nid p n port); [apply T1|..]|].
    intros rc s2 (T2 & L2 & G2 & R2). subst post. unfold removed.
    rewrite Hs in R2. rewrite server_at_table.
    destruct (get_total (table_at s nid) (hash_u32 port)) as [o Eo]; [by apply table_wf|].
    rewrite Eo in *. split; [by eapply touches_trans|]. split; [by rewrite L2; apply F1|].
    destruct o as [srv|].
    + destruct R2 as (-> & S2 & m & Er & _ & ->). split_and!; try done.
      rewrite S2, (fr_sent _ _ F1). f_equal. apply del_msgs_frame; apply F1.
    + destruct R2 as [-> ->]. split_and!; try done. apply F1.
  - subst post. destruct R1 as [R1 _]. unfold removed, server_at. rewrite R1.
    split_and!; try done; apply F1.
Qed.

Lemma del_server_spec s from svc inst n p :
  ns_ok s -> sq_ok from -> is_u32 n -> is_u32 p ->
  let '(nid, port) := target s from n p in
  runs (ctrl_cmd_del_server e from svc inst n p) s (fun rc s' =>
    touches (sq_node from) s s' /\ lookups s' = lookups s /\ only_port nid port s s' /\
    if sq_node from =? nid
    then removed nid port s s' /\ rc = match server_at s nid port with Some _ => 0 | None => - ENOENT end
    else rc = - EINVAL /\ s' = s).
Proof.
  intros H Hf Hn Hp. destruct (target s from n p) as [nid port] eqn:Et.
  pose proof (target_ok s from n p Hf Hn Hp) as [Hnid Hport]. rewrite Et in Hnid, Hport. cbn in Hnid, Hport.
  unfold ctrl_cmd_del_server. acts. fold (target s from n p). rewrite Et.
  destruct (sq_node from =? nid) eqn:Ef; cbn [negb]; acts; reflect_bools.
  2:{ by split_and!; [apply touches_refl| |apply only_port_tables|..]. }
  assert ((sq_node from =? local_id s) && negb (sq_port from =? port) = false) as ->.
  { unfold target in Et. destruct (sq_node from =? local_id s); [|done]. injection Et as <- <-.
    by rewrite Z.eqb_refl. }
  acts. subst nid. eapply runs_mono; [by apply (get_del_spec s (sq_node from) port)|].
  intros [q|] s1 R1; acts.
  - eapply runs_mono; [exact R1|]. intros rc s2 (T & L & R & ->).
    split_and!; try done. by apply removed_only_port.
  - destruct R1 as (T & L & R & Hrc). split_and!; try done. by apply removed_only_port.
Qed.

(** Sending the same packet to a list of servers. *)
Definition tell_msgs (bytes : list Z) (srvs : list server) : list datagram :=
  map (fun srv => (SockaddrQrtr AF_QIPCRTR (srv_node srv) (srv_port srv), bytes)) srvs.

Lemma runs_tell_local bytes srvs s Q :
  Q tt (with_sent (sent s ++ tell_msgs bytes srvs) s) -> runs (tell_local e bytes srvs) s Q.
Proof.
  intros HQ. unfold tell_local.
  apply (runs_for_each_send _ (fun srv => [(SockaddrQrtr AF_QIPCRTR (srv_node srv) (srv_port srv), bytes)])).
  - intros srv s0. by acts.
  - replace (concat _) with (tell_msgs bytes srvs); [done|].
    clear HQ. induction srvs as [|srv srvs IH]; [done|]. cbn. by rewrite <- IH.
Qed.

Definition table_servers (s : ns_state) (n : Z) : list server := (items (table_at s n)).*2.

Lemma local_id_u32 s : is_u32 (local_id s).
Proof. apply u32_range. Qed.

(** [node_get], and the walk over the table of the node it returns. *)
Lemma node_get_walk s nid :
  ns_ok s -> is_u32 nid ->
  runs (node_get e nid) s (fun r s' =>
    frame s s' /\ (forall k, touches k s s') /\ (forall n, is_u32 n -> table_at s' n = table_at s n) /\
    match r with
    | Some p => exists n, heap s' !! p = Some n /\ map_for_each (services n) = Done (table_servers s nid)
    | None => True
    end).
Proof.
  intros H Hn. eapply runs_mono; [by apply node_get_tables|].
  intros [p|] s1 (F1 & T1 & Tb1 & R1); split_and!; try done.
  destruct R1 as (_ & n & E1 & Hs). exists n. split; [done|].
  pose proof (proj1 (ok_heap s1 (tc_ok 0 _ _ (T1 0)) _ _ E1)) as Hok.
  unfold table_servers. rewrite <- Hs. apply for_each_items, Hok.
Qed.

Lemma bye_spec s from :
  ns_ok s -> sq_ok from ->
  runs (ctrl_cmd_bye e from) s (fun rc s' =>
    rc = 0 /\ touches (sq_node from) s s' /\ lookups s' = lookups s /\
    (clean_at s (sq_node from) -> items (table_at s' (sq_node from)) = [])).
Proof.
  intros H [Hn Hp]. unfold ctrl_cmd_bye. acts.
  eapply runs_mono; [by apply node_get_tables|].
  intros [p|] s1 (F1 & T1 & Tb1 & R1); acts.
  2:{ split_and!; try done; [apply F1|]. intros _. rewrite Tb1 by done.
      unfold table_at. by rewrite (proj1 R1). }
  destruct R1 as (G1 & n & E1 & Hs). acts.
  pose proof (tc_ok 0 _ _ (T1 0)) as H1.
  pose proof (proj1 (ok_heap s1 H1 _ _ E1)) as Hok.
  destruct (iter_from_spec (services n) 0 (no_wf n Hok) ltac:(lia)) as (r & Er & _).
  eapply runs_lift; [exact Er|]. acts.
  pose proof (wf_len _ (no_wf n Hok)) as Hlen. unfold zlen in Hlen.
  eapply runs_mono; [apply (bye_loop_spec _ s1 (sq_node from) p n 0 r); try done; lia|].
  intros [] s2 (T2 & L2 & R2). acts.
  eapply runs_mono; [apply node_get_walk; [apply T2|apply local_id_u32]|].
  intros [lp|] s3 (F3 & T3 & Tb3 & R3); acts.
  - destruct R3 as (nl & El & Efe). acts. apply runs_tell_local. acts. split_and!; try done.
    + eapply touches_trans; [apply T1|]. eapply touches_trans; [exact T2|].
      eapply touches_trans; [apply T3|]. apply touches_sent, (T3 0).
    + cbn. rewrite (fr_lookups _ _ F3), L2. apply F1.
    + intros Hc. change (table_at (with_sent _ s3)) with (table_at s3).
      rewrite Tb3 by done. rewrite (proj2 (R2 ltac:(by rewrite Hs))). done.
  - split_and!; try done.
    + eapply touches_trans; [apply T1|]. eapply touches_trans; [exact T2|]. apply T3.
    + rewrite (fr_lookups _ _ F3), L2. apply F1.
    + intros Hc. rewrite Tb3 by done. rewrite (proj2 (R2 ltac:(by rewrite Hs))). done.
Qed.

Definition drop_client (n p : Z) (lks : list lookup) : list lookup :=
  filter (fun lk => negb ((sq_node (lk_sq lk) =? n) && (sq_port (lk_sq lk) =? p)) = true) lks.

Lemma del_client_spec s from n p :
  ns_ok s -> sq_ok from -> is_u32 n -> is_u32 p ->
  runs (ctrl_cmd_del_client e from n p) s (fun rc s' =>
    touches (sq_node from) s s' /\
    if negb (sq_node from =? n) || (sq_node from =? local_id s) && negb (sq_port from =? p)
    then rc = - EINVAL /\ s' = s
    else rc = 0 /\ lookups s' = drop_client n p (lookups s) /\
      exists l l', sent s' = l ++ l' /\
        removed n p (with_lookups (drop_client n p (lookups s)) s) (with_sent l s') /\
        (l' = [] \/ exists w1 w2, l' = tell_msgs (pkt_bytes (CtrlPkt QRTR_TYPE_DEL_CLIENT n p w1 w2))
                                                (table_servers s' (local_id s)))).
Proof.
  intros H [Hn Hp] Hn' Hp'. unfold ctrl_cmd_del_client. acts.
  destruct (sq_node from =? n) eqn:Ef; cbn [negb orb]; acts; [|by split; [apply touches_refl|]].
  destruct (_ && _); acts; [by split; [apply touches_refl|]|]. reflect_bools. subst n.
  fold (drop_client (sq_node from) p (lookups s)).
  set (s1 := with_lookups _ s).
  pose proof (touches_lookups (sq_node from) s (drop_client (sq_node from) p (lookups s)) H) as T1.
  fold s1 in T1.
  assert (Hrest : forall s2, touches (sq_node from) s1 s2 -> lookups s2 = lookups s1 ->
    removed (sq_node from) p s1 s2 ->
    runs (node_get e (local_id s2)) s2 (fun local s3 => runs match local with
      | None => mret 0
      | Some lp =>
        s ← get;
        let '(w1, w2) := stack_words e (sent s) in
        n ← deref_node lp;
        srvs ← lift (map_for_each (services n));
        _ ← tell_local e (pkt_bytes (CtrlPkt QRTR_TYPE_DEL_CLIENT (sq_node from) p w1 w2)) srvs;
        mret 0
      end s3 (fun rc s' => touches (sq_node from) s s' /\ rc = 0 /\
        lookups s' = drop_client (sq_node from) p (lookups s) /\
        exists l l', sent s' = l ++ l' /\ removed (sq_node from) p s1 (with_sent l s') /\
        (l' = [] \/ exists w1 w2, l' = tell_msgs
            (pkt_bytes (CtrlPkt QRTR_TYPE_DEL_CLIENT (sq_node from) p w1 w2))
            (table_servers s' (local_id s)))))).
  { intros s2 T2 L2 R2. eapply runs_mono; [apply node_get_walk; [apply T2|apply local_id_u32]|].
    assert (El : local_id s2 = local_id s) by (unfold local_id; by rewrite (tc_local _ _ _ T2)).
    intros [lp|] s3 (F3 & T3 & Tb3 & R3); acts.
    - destruct (stack_words e (sent s3)) as [w1 w2]. destruct R3 as (nl & Enl & Efe). acts.
      apply runs_tell_local. acts. split_and!; try done.
      + eapply touches_trans; [exact T1|]. eapply touches_trans; [exact T2|].
        eapply touches_trans; [apply T3|]. apply touches_sent, (T3 0).
      + cbn. by rewrite (fr_lookups _ _ F3), L2.
      + exists (sent s3), (tell_msgs (pkt_bytes (CtrlPkt QRTR_TYPE_DEL_CLIENT (sq_node from) p w1 w2))
                  (table_servers s2 (local_id s2))). split_and!; [done| |].
        * unfold removed in *. rewrite with_sent_sent. cbn [sent with_sent].
          change (table_at (with_sent _ s3)) with (table_at s3).
          by rewrite Tb3, (fr_sent _ _ F3).
        * right. exists w1, w2. unfold table_servers. change (table_at (with_sent _ s3)) with (table_at s3).
          by rewrite Tb3, El by apply local_id_u32.
    - split_and!; try done.
      + eapply touches_trans; [exact T1|]. eapply touches_trans; [exact T2|]. apply T3.
      + by rewrite (fr_lookups _ _ F3), L2.
      + exists (sent s3), []. rewrite app_nil_r. split_and!; [done| |by left].
        unfold removed in *. change (table_at (with_sent _ s3)) with (table_at s3).
        cbn [sent with_sent]. by rewrite Tb3, (fr_sent _ _ F3). }
  eapply runs_mono; [apply (get_del_spec s1 (sq_node from) p); [apply T1|done..]|].
  intros [q|] s2 R2; acts.
  - eapply runs_mono; [exact R2|]. intros rc s3 (T & L & R & _). acts. by apply Hrest.
  - destruct R2 as (T & L & R & _). by apply Hrest.
Qed.


Lemma announce_loop_spec sq srvs s :
  runs (announce_loop e sq srvs) s (fun _ s' => exists k,
    s' = with_sent (sent s ++ map (fun srv => (sq, pkt_bytes (server_pkt QRTR_TYPE_NEW_SERVER srv)))
                                  (take k srvs)) s).
Proof.
  revert s. induction srvs as [|srv srvs IH]; intros s; cbn [announce_loop].
  - apply runs_ret. exists O. cbn. by rewrite with_sent_id.
  - unfold service_announce_new. acts. destruct (rc <? 0); acts; [by exists 1%nat|].
    eapply runs_mono; [apply IH|]. intros r s' [k ->]. exists (S k).
    rewrite with_sent_sent. cbn. by rewrite <- app_assoc.
Qed.

Lemma hello_spec s sq buf len :
  ns_ok s -> 0 <= len <= zlen buf ->
  runs (ctrl_cmd_hello e sq buf len) s (fun _ s' =>
    (forall k, touches k s s') /\ lookups s' = lookups s /\
    (forall n, is_u32 n -> table_at s' n = table_at s n)).
Proof.
  intros H Hl. unfold ctrl_cmd_hello. acts.
  assert (Hr : read_mem buf 0 len = Done (take (Z.to_nat len) (drop (Z.to_nat 0) buf))).
  { apply read_mem_done. split_and!; [lia..|done]. }
  eapply runs_lift; [exact Hr|]. acts.
  set (s1 := with_sent _ s). assert (H1 : ns_ok s1) by by apply with_sent_ok.
  destruct (0 <? rc); acts; [|by split_and!; [intros; apply touches_sent|..]].
  unfold annouce_servers. acts. eapply runs_mono; [apply node_get_walk; [done|apply local_id_u32]|].
  intros [p|] s2 (F2 & T2 & Tb2 & R2); acts.
  - destruct R2 as (n & E2 & Efe). acts. eapply runs_mono; [apply announce_loop_spec|].
    intros r s3 [k ->]. split_and!; try done; [|apply F2].
    intros j. eapply touches_trans; [by apply (touches_sent j s)|].
    eapply touches_trans; [apply T2|]. apply touches_sent, (T2 0).
  - split_and!; try done; [|apply F2].
    intros j. eapply touches_trans; [by apply (touches_sent j s)|]. apply T2.
Qed.

(** Every server of every node, in the order of the tables. *)
Definition node_servers (s : ns_state) (p : nat) : list server :=
  match heap s !! p with Some n => (items (services n)).*2 | None => [] end.
Definition all_servers (s : ns_state) : list server :=
  concat (map (node_servers s) (items (nodes s)).*2).

Definition matching (f : server_filter) (l : list server) : list server :=
  filter (fun srv => server_match srv f = true) l.

Lemma items_has {V} (m : cmap V) k v : (k, v) ∈ items m <-> has m k v.
Proof.
  unfold items, has. rewrite list_elem_of_omap. split.
  - intros ([| |k' v'] & Hin & E); try done. injection E as -> ->.
    apply list_elem_of_lookup in Hin as [i Hi]. by exists i.
  - intros [i Hi]. exists (Item k v). split; [by eapply list_elem_of_lookup_2|done].
Qed.

Lemma query_nodes_spec f ps s :
  ns_ok s -> (forall p, p ∈ ps -> is_Some (heap s !! p)) ->
  runs (query_nodes f ps) s (fun l s' => s' = s /\ l = matching f (concat (map (node_servers s) ps))).
Proof.
  intros H. induction ps as [|p ps IH]; intros Hps; cbn [query_nodes]; acts; [done|].
  destruct (Hps p ltac:(left)) as [n E]. unfold query_node. acts.
  pose proof (for_each_items _ (no_wf n (proj1 (ok_heap s H _ _ E)))) as Hfe.
  acts. eapply runs_mono; [apply IH; intros q Hq; apply Hps; by right|].
  intros l s' [-> ->]. acts. split; [done|]. unfold matching. cbn [map concat].
  rewrite filter_app. f_equal. unfold node_servers. by rewrite E.
Qed.

Lemma server_query_spec f s :
  ns_ok s ->
  runs (server_query f) s (fun r s' => s' = s /\ r.1 = matching f (all_servers s)).
Proof.
  intros H. unfold server_query. acts.
  pose proof (for_each_items _ (ok_wf s H)) as Hfe. acts.
  eapply runs_mono; [apply query_nodes_spec; [done|]|].
  - intros p ([k q] & -> & Hq)%list_elem_of_fmap. apply items_has, (ok_nodes s H) in Hq as (n & E & _).
    by eexists.
  - intros l s' [-> ->]. acts. done.
Qed.

Definition reply_msgs (to : sockaddr_qrtr) (srvs : list server) : list datagram :=
  map (fun srv => (to, pkt_bytes (notify_pkt (Some srv) true))) srvs ++
  [(to, pkt_bytes (notify_pkt None true))].

Lemma new_lookup_spec s from svc inst :
  ns_ok s ->
  runs (ctrl_cmd_new_lookup e from svc inst) s (fun rc s' =>
    (forall k, touches k s s') /\ (forall n, table_at s' n = table_at s n) /\
    (rc = - EINVAL /\ lookups s' = lookups s /\ sent s' = sent s /\
     (plenty e -> sq_node from <> local_id s) \/
     rc = 0 /\ sq_node from = local_id s /\
     lookups s' = lookups s ++ [Lookup svc inst from] /\
     sent s' = sent s ++ reply_msgs from (matching (ServerFilter svc inst 0) (all_servers s)))).
Proof.
  intros H. unfold ctrl_cmd_new_lookup. acts.
  destruct (sq_node from =? local_id s) eqn:Ef; cbn [negb]; acts; reflect_bools;
    [|by split_and!; [intros; apply touches_refl| |left]].
  destruct (calloc e (allocs s) 1 sizeof_lookup) eqn:Ec; acts.
  2:{ split_and!; [intros; by apply touches_tick|done|]. left. split_and!; try done.
      intros Hpl. by rewrite Hpl in Ec. }
  set (s1 := with_lookups _ (tick s)).
  assert (T1 : forall k, touches k s s1).
  { intros k. eapply touches_trans; [by apply touches_tick|]. by apply touches_lookups, tick_ok. }
  eapply runs_mono; [apply server_query_spec, (T1 0)|]. intros [l c] s' [-> Hl]. cbn [fst] in Hl. acts.
  apply (runs_for_each_send _ (fun srv => [(from, pkt_bytes (notify_pkt (Some srv) true))])).
  { intros srv s0. unfold lookup_notify. by acts. }
  unfold lookup_notify. acts. rewrite with_sent_sent. split_and!; try done.
  - intros k. eapply touches_trans; [apply T1|]. apply touches_sent, (T1 0).
  - right. split_and!; try done. cbn. rewrite <- app_assoc. f_equal. unfold reply_msgs. f_equal.
    rewrite Hl. change (all_servers s1) with (all_servers s).
    induction (matching _ (all_servers s)) as [|x xs IH]; [done|]. cbn. by rewrite IH.
Qed.

Lemma del_lookup_spec s from svc inst :
  ns_ok s ->
  runs (ctrl_cmd_del_lookup from svc inst) s (fun rc s' =>
    rc = 0 /\ (forall k, touches k s s') /\ (forall n, table_at s' n = table_at s n) /\ sent s' = sent s /\
    lookups s' = filter (fun lk => negb (lookup_of from svc inst lk) = true) (lookups s)).
Proof.
  intros H. unfold ctrl_cmd_del_lookup. acts. split_and!; try done. intros. by apply touches_lookups.
Qed.

End specs.
