(* ===== verification/NsProps.v ===== *)
(** * The QRTR name server: properties of the whole server

    [ctrl_port_fn] and the main loop, on every datagram and every environment:
    no fault, the invariant, isolation between nodes and between local ports,
    and what the commands do and announce. *)
From S2P Require Import Prelude CString Hash Map MapFacts Qrtr NameServer NsFacts.

(** What [recvfrom] can deliver into the 4096-byte buffer. *)
Record received_ok (r : received) : Prop := {
  rv_len : rc_len r <= sizeof_buf;
  rv_buf : zlen (rc_buf r) = sizeof_buf;
  rv_bytes : bytes_ok (rc_buf r);
  rv_sq : sq_ok (rc_sq r) }.

Lemma le32_to_cpu_u32 buf off :
  bytes_ok buf -> 0 <= off -> off + 4 <= zlen buf ->
  exists x, le32_to_cpu buf off = Done x /\ is_u32 x.
Proof.
  intros Hb Ho Hl. unfold le32_to_cpu, is_u32.
  assert (E : read_mem buf off 4 = Done (take (Z.to_nat 4) (drop (Z.to_nat off) buf))).
  { apply read_mem_done. split_and!; [lia..|done]. }
  pose proof (read_mem_bytes _ _ _ _ Hb E) as Hok. pose proof (read_mem_length _ _ _ _ E) as Hlen.
  rewrite E. eexists. split; [done|]. pose proof (le_value_range _ Hok).
  rewrite Hlen in *. lia.
Qed.

Section port.
Context (e : env) (Hlim : calloc_limit e).

(** One field of the message. *)
Lemma runs_field r off s Q :
  received_ok r -> 0 <= off <= 16 -> (forall x, is_u32 x -> Q x s) ->
  runs (lift (le32_to_cpu (rc_buf r) off)) s Q.
Proof.
  intros [_ Hb Hby _] Ho HQ. unfold sizeof_buf in Hb.
  destruct (le32_to_cpu_u32 (rc_buf r) off) as (x & E & Hx); [done|lia|lia|].
  eapply runs_lift; [exact E|]. auto.
Qed.

(** A local sender other than with a BYE changes no entry but its own. *)
Definition local_effect (c : Z) (from : sockaddr_qrtr) (s s' : ns_state) : Prop :=
  c <> QRTR_TYPE_BYE -> sq_node from = local_id s ->
  only_port (sq_node from) (sq_port from) s s'.

Lemma same_tables_effect c from s s' :
  sq_ok from -> (forall n, is_u32 n -> table_at s' n = table_at s n) -> local_effect c from s s'.
Proof. intros [Hn _] Ht _ _. by apply only_port_tables, Ht. Qed.

Lemma target_local s from n p :
  sq_node from = local_id s -> target s from n p = (sq_node from, sq_port from).
Proof. unfold target. intros ->. by rewrite Z.eqb_refl. Qed.

Ltac field := apply runs_field; [done | unfold off_service, off_instance, off_node, off_port; lia |]; intros ? ?.

Lemma dispatch_spec r c s :
  ns_ok s -> received_ok r -> 4 <= rc_len r ->
  runs (dispatch e r c) s (fun _ s' =>
    touches (sq_node (rc_sq r)) s s' /\ local_effect c (rc_sq r) s s').
Proof.
  intros H Hr Hl. pose proof (rv_sq r Hr) as Hsq. unfold dispatch.
  destruct (c =? QRTR_TYPE_HELLO).
  { eapply runs_mono; [apply hello_spec; [done|done|]|].
    - rewrite (rv_buf r Hr). pose proof (rv_len r Hr). lia.
    - intros rc s' (T & _ & Tb). split; [apply T|]. by apply same_tables_effect. }
  destruct (c =? QRTR_TYPE_BYE) eqn:Ebye; reflect_bools.
  { eapply runs_mono; [by apply bye_spec|]. intros rc s' (_ & T & _). split; [done|]. intros Hb. by destruct Hb. }
  destruct (c =? QRTR_TYPE_DEL_CLIENT).
  { acts. field. acts. field. eapply runs_mono; [by apply del_client_spec|].
    intros rc s' [T R]. split; [done|]. intros _ El. destruct (negb _ || _) eqn:Eg.
    - destruct R as [_ ->]. by apply only_port_tables.
    - destruct R as (_ & _ & l & l' & _ & R & _).
      apply orb_false_iff in Eg as [Eg1 Eg2]. rewrite El, Z.eqb_refl in Eg2. reflect_bools.
      destruct Eg2 as [?|Eg2]; [done|]. reflect_bools. subst.
      apply removed_only_port in R; [done|by apply (tc_ok 0 s), touches_lookups|done]. }
  destruct (c =? QRTR_TYPE_NEW_SERVER).
  { do 4 (acts; field). 
    pose proof (new_server_spec e Hlim s (rc_sq r) x x0 x1 x2) as Hspec.
    destruct (target s (rc_sq r) x1 x2) as [nid port] eqn:Et.
    eapply runs_mono; [by apply Hspec|]. intros rc s' (T & _ & O & _).
    split; [done|]. intros _ El. rewrite target_local in Et by done. by injection Et as <- <-. }
  destruct (c =? QRTR_TYPE_DEL_SERVER).
  { do 4 (acts; field).
    pose proof (del_server_spec e Hlim s (rc_sq r) x x0 x1 x2) as Hspec.
    destruct (target s (rc_sq r) x1 x2) as [nid port] eqn:Et.
    eapply runs_mono; [by apply Hspec|]. intros rc s' (T & _ & O & _).
    split; [done|]. intros _ El. rewrite target_local in Et by done. by injection Et as <- <-. }
  destruct (_ || _); acts; [by split; [apply touches_refl|apply same_tables_effect]|].
  destruct (c =? QRTR_TYPE_NEW_LOOKUP).
  { do 2 (acts; field). eapply runs_mono; [by apply new_lookup_spec|].
    intros rc s' (T & Tb & _). split; [done|]. by apply same_tables_effect. }
  destruct (c =? QRTR_TYPE_DEL_LOOKUP).
  { do 2 (acts; field). eapply runs_mono; [by apply del_lookup_spec|].
    intros rc s' (_ & T & Tb & _). split; [done|]. by apply same_tables_effect. }
  acts. by split; [apply touches_refl|apply same_tables_effect].
Qed.

(** The command of a datagram that is long enough to have one. *)
Definition command (r : received) : Z :=
  match le32_to_cpu (rc_buf r) off_cmd with Done c => c | _ => 0 end.

Lemma ctrl_port_fn_spec r s :
  ns_ok s -> received_ok r ->
  runs (ctrl_port_fn e r) s (fun _ s' =>
    ns_ok s' /\ local_node s' = local_node s /\
    (forall n, is_u32 n -> n <> sq_node (rc_sq r) -> table_at s' n = table_at s n) /\
    local_effect (command r) (rc_sq r) s s').
Proof.
  intros H Hr. unfold ctrl_port_fn.
  assert (Hid : ns_ok s /\ local_node s = local_node s /\
    (forall n, is_u32 n -> n <> sq_node (rc_sq r) -> table_at s n = table_at s n) /\
    local_effect (command r) (rc_sq r) s s).
  { split_and!; try done. }
  destruct (rc_len r <=? 0) eqn:E0; [eexists tt, _; split; [done|]; destruct H; done|].
  destruct (rc_len r <? 4) eqn:E4; reflect_bools; acts; [done|].
  destruct (le32_to_cpu_u32 (rc_buf r) off_cmd) as (c & Ec & Hc);
    [apply Hr|done|rewrite (rv_buf r Hr); done|].
  eapply runs_lift; [exact Ec|]. acts.
  eapply runs_mono; [by apply dispatch_spec|]. intros rc s' [[T1 T2 T3 T4] L]. acts.
  split_and!; try done. unfold command. by rewrite Ec.
Qed.

Lemma serve_spec rs s :
  ns_ok s -> Forall received_ok rs -> runs (serve e rs) s (fun _ s' => ns_ok s').
Proof.
  intros H Hrs. revert s H. induction Hrs as [|r rs Hr Hrs IH]; intros s H; cbn [serve]; acts;
    (destruct (sock s <? 0); acts; [done|]); [done|].
  eapply runs_mono; [by apply ctrl_port_fn_spec|]. intros [] s' (H' & _). by apply IH.
Qed.

Lemma ns_init_ok fd node : ns_ok (ns_init fd node).
Proof.
  split; cbn; [apply create_wf | done | apply create_no_tombstone | | |].
  - by intros i j k v w Hi.
  - intros k p []%has_empty.
  - intros p n E. by rewrite lookup_empty in E.
Qed.


(** A datagram that starts with the packet [pk]. *)
Definition carries (r : received) (pk : qrtr_ctrl_pkt) : Prop :=
  pkt_ok pk /\ 4 <= rc_len r /\ exists rest, rc_buf r = pkt_bytes pk ++ rest.

Lemma carries_fields r pk : carries r pk ->
  le32_to_cpu (rc_buf r) off_cmd = Done (cmd pk) /\
  le32_to_cpu (rc_buf r) off_service = Done (service pk) /\
  le32_to_cpu (rc_buf r) off_instance = Done (instance pk) /\
  le32_to_cpu (rc_buf r) off_node = Done (node pk) /\
  le32_to_cpu (rc_buf r) off_port = Done (port pk).
Proof. intros (Hok & _ & rest & ->). by apply pkt_fields. Qed.

(** The handler [m] is the one the command selects. *)
Lemma runs_port r pk s (m : act Z) Q :
  carries r pk -> dispatch e r (cmd pk) s = m s -> runs m s Q ->
  runs (ctrl_port_fn e r) s (fun _ s' => exists rc, Q rc s').
Proof.
  intros Hc Hd HQ. assert (HQ' : runs (dispatch e r (cmd pk)) s Q) by (unfold runs in *; by rewrite Hd).
  clear HQ. rename HQ' into HQ. pose proof (carries_fields r pk Hc) as (Ec & _). destruct Hc as (_ & Hl & _).
  unfold ctrl_port_fn. rewrite (proj2 (Z.leb_gt _ _)), (proj2 (Z.ltb_ge _ _)) by lia.
  acts. eapply runs_mono; [exact HQ|]. intros rc s' HQ'. acts. by exists rc.
Qed.

(** ** Which servers a lookup is told about *)

Definition wanted (svc inst : Z) (srv : server) : Prop :=
  (svc = 0 \/ svc = srv_service srv) /\ (inst = 0 \/ inst = srv_instance srv).

Lemma lookup_wants_spec srv lk :
  lookup_wants srv lk = true <-> wanted (lk_service lk) (lk_instance lk) srv.
Proof.
  unfold lookup_wants, wanted.
  destruct (Z.eqb_spec (lk_service lk) 0), (Z.eqb_spec (lk_service lk) (srv_service srv)),
    (Z.eqb_spec (lk_instance lk) 0), (Z.eqb_spec (lk_instance lk) (srv_instance srv)); cbn;
    (split; [intros; try done; auto | intros [[?|?] [?|?]]; done]).
Qed.

Lemma server_match_spec srv svc inst :
  is_u32 (srv_instance srv) ->
  server_match srv (ServerFilter svc inst 0) = true <-> wanted svc inst srv.
Proof.
  intros Hi. unfold server_match, wanted. cbn [f_service f_instance f_ifilter].
  destruct (Z.eqb_spec svc 0) as [->|Hs]; cbn [negb andb];
  destruct (Z.eqb_spec inst 0) as [->|Hn]; cbn [Z.eqb negb andb].
  1, 3: rewrite Z.land_0_r. 
  3, 4: change 0xffffffff with (Z.ones 32); rewrite Z.land_ones, Z.mod_small by (done || lia).
  - cbn. tauto.
  - destruct (Z.eqb_spec (srv_service srv) svc); cbn; intuition congruence.
  - rewrite Z.eqb_eq. intuition congruence.
  - destruct (Z.eqb_spec (srv_service srv) svc); cbn; rewrite ?Z.eqb_eq; intuition congruence.
Qed.

Definition clean (s : ns_state) : Prop := forall n, is_u32 n -> clean_at s n.

Lemma server_at_has s n p srv :
  ns_ok s -> server_at s n p = Some srv -> has (table_at s n) (hash_u32 p) srv.
Proof.
  intros H. rewrite server_at_table.
  destruct (map_get (table_at s n) (hash_u32 p)) as [o| |] eqn:E; try done. intros ->.
  apply get_has; [by apply table_wf|done].
Qed.

Lemma registered_ok s srv : ns_ok s -> server_at s (srv_node srv) (srv_port srv) = Some srv ->
  server_ok (srv_node srv) (hash_u32 (srv_port srv)) srv.
Proof.
  intros H Hat. apply server_at_has in Hat; [|done]. unfold table_at in Hat.
  destruct (node_at s (srv_node srv)) as [nd|] eqn:En; [|by apply has_empty in Hat].
  apply node_at_ok in En; [|done]. pose proof (no_servers nd En _ _ Hat) as Hok. pose proof (so_node _ _ _ Hok) as E. by rewrite E.
Qed.

Lemma all_servers_at s srv :
  ns_ok s -> clean s ->
  srv ∈ all_servers s <->
  server_at s (srv_node srv) (srv_port srv) = Some srv /\ is_u32 (srv_node srv).
Proof.
  intros H Hcl. unfold all_servers. rewrite list_elem_of_In, in_concat. split.
  - intros (l & Hl & Hin). apply in_map_iff in Hl as (p & <- & Hp).
    apply list_elem_of_In, list_elem_of_fmap in Hp as ([k p'] & -> & Hp). cbn [snd] in *.
    apply items_has in Hp as Hp'. apply (ok_nodes s H) in Hp' as (n & E & ->).
    pose proof (proj1 (ok_heap s H _ _ E)) as Hok.
    unfold node_servers in Hin. rewrite E in Hin.
    apply list_elem_of_In, list_elem_of_fmap in Hin as ([k srv'] & -> & Hk). cbn [snd].
    apply items_has in Hk. destruct (no_servers n Hok _ _ Hk) as [-> -> _ _ [Hpo _]].
    assert (At : node_at s (id n) = Some n).
    { unfold node_at. apply items_has in Hp.
      apply (get_unique_some _ _ _ (ok_wf s H) (ok_unique s H)) in Hp. by rewrite Hp. }
    split; [|apply Hok]. rewrite (node_at_services _ _ _ _ At).
    specialize (Hcl (id n) (no_id n Hok)). unfold clean_at, table_at in Hcl. rewrite At in Hcl.
    apply (get_unique_some _ _ _ (no_wf n Hok) Hcl) in Hk. by rewrite Hk.
  - intros [Hat Hn]. pose proof Hat as Hh. apply server_at_has in Hh; [|done].
    unfold server_at, node_at in Hat. unfold table_at, node_at in Hh.
    destruct (map_get (nodes s) (hash_u32 (srv_node srv))) as [[p|]| |] eqn:G; try done.
    destruct (heap s !! p) as [n|] eqn:E; [|done].
    exists (node_servers s p). split.
    + apply in_map_iff. exists p. split; [done|]. apply list_elem_of_In, list_elem_of_fmap.
      eexists (_, p). split; [done|]. apply items_has, get_has; [apply H|exact G].
    + unfold node_servers. rewrite E. apply list_elem_of_In, list_elem_of_fmap.
      eexists (_, srv). split; [done|]. apply items_has, Hh.
Qed.

End port.

(** The handler of a packet whose command and fields are known. *)
Ltac pick_handler :=
  match goal with Hcmd : cmd _ = _ |- _ => rewrite Hcmd end;
  unfold dispatch, lift, mbind, act_bind;
  repeat match goal with E : le32_to_cpu _ _ = _ |- _ => rewrite E end; reflexivity.

(** ** Properties *)

Lemma ns_main_ok (e : env) (fd node : Z) (rs : list received) :
  calloc_limit e -> Forall received_ok rs ->
  exists ok s, ns_main e fd node rs = Done (ok, s) /\ ns_ok s.
Proof.
  intros Hlim Hrs. unfold ns_main.
  assert (Hs : runs (say_hello e) (ns_init fd node) (fun _ s => ns_ok s)).
  { unfold say_hello. acts. apply with_sent_ok, ns_init_ok. }
  destruct Hs as (rc & s & E & H). rewrite E. run. destruct (negb (rc =? 0)); [by eexists _, _|].
  destruct (serve_spec e Hlim rs s H Hrs) as ([] & s' & E' & H'). rewrite E'. run. by eexists _, _.
Qed.

(** C1: the name server runs on every sequence of datagrams, from whatever
    senders and with whatever contents, without a fault and without a loop that
    does not end, whatever [sendto] and [calloc] answer; at every point its tables
    satisfy the invariant: each node entry points to a live node of that id, each
    server is filed under the hash of its port at the node it belongs to. *)
Theorem ns_main_safe (e : env) (fd node : Z) (rs : list received) :
  calloc_limit e -> Forall received_ok rs ->
  exists ok s, ns_main e fd node rs = Done (ok, s) /\ ns_ok s.
Proof. apply ns_main_ok. Qed.

(** C21: a datagram only changes the servers of the node it comes from.  When no port is
    registered twice in the table of the local node ([clean_at]), one from a local client,
    other than BYE, only changes the server of the client's own port; without that condition,
    which a deleted slot in front of an entry can break ([ns_stale_server]), this is not
    claimed. *)
Theorem ctrl_port_fn_isolates (e : env) (r : received) (s : ns_state) :
  calloc_limit e -> received_ok r -> ns_ok s ->
  exists s', ctrl_port_fn e r s = Done (tt, s') /\ ns_ok s' /\
    (forall n p, is_u32 n -> n <> sq_node (rc_sq r) -> server_at s' n p = server_at s n p) /\
    (command r <> QRTR_TYPE_BYE -> sq_node (rc_sq r) = local_id s -> clean_at s (local_id s) ->
     forall p, is_u32 p -> p <> sq_port (rc_sq r) ->
       server_at s' (local_id s) p = server_at s (local_id s) p).
Proof.
  intros Hlim Hr H. destruct (ctrl_port_fn_spec e Hlim r s H Hr) as ([] & s' & E & H' & _ & T & L).
  exists s'. split_and!; try done.
  - intros n p Hn Hne. by rewrite !server_at_table, T.
  - intros Hc Hl Hcl p Hp Hne. rewrite <- Hl in *. by apply L.
Qed.

(** C20: registering a server: a NEW_SERVER datagram of a non-zero service from a
    non-zero port is accepted when memory is available, the server can then be
    found under its node and port, and exactly these datagrams are sent, in this
    order: the broadcast when the server is local, and one notification to every
    lookup that wants the server. *)
Theorem new_server_registers (e : env) (r : received) (pk : qrtr_ctrl_pkt) (s : ns_state) :
  calloc_limit e -> plenty e -> received_ok r -> ns_ok s ->
  carries r pk -> cmd pk = QRTR_TYPE_NEW_SERVER ->
  let '(n, p) := target s (rc_sq r) (node pk) (port pk) in
  roomy s n -> n = sq_node (rc_sq r) -> service pk <> 0 -> p <> 0 ->
  let srv := Server (service pk) (instance pk) n p in
  exists s', ctrl_port_fn e r s = Done (tt, s') /\ server_at s' n p = Some srv /\
    lookups s' = lookups s /\
    sent s' = sent s ++ bcast_note s QRTR_TYPE_NEW_SERVER srv ++ notes (lookups s) srv true.
Proof.
  intros Hlim Hpl Hr H Hc Hcmd. destruct (target _ _ _ _) as [n p] eqn:Et.
  intros Hroom Hn Hs Hp srv.
  pose proof (carries_fields r pk Hc) as (_ & E1 & E2 & E3 & E4).
  pose proof (new_server_spec e Hlim s (rc_sq r) (service pk) (instance pk) (node pk) (port pk) H
    (rv_sq r Hr)) as Hspec. rewrite Et in Hspec.
  destruct (runs_port e r pk s _ _ Hc ltac:(pick_handler) (Hspec (ok_service _ (proj1 Hc))
    (ok_instance _ (proj1 Hc)) (ok_node _ (proj1 Hc)) (ok_port _ (proj1 Hc))))
    as ([] & s' & E & rc & _ & L & _ & R).
  exists s'. split; [done|]. destruct R as [(_ & _ & _ & ? & ? & _)|(_ & _ & _ & R)]; [done|].
  by destruct (R Hpl Hroom Hn).
Qed.

(** C36: removing a server: a DEL_SERVER datagram of a node in whose table no port is
    registered twice ([clean_at]) removes the server of the port (for a local client, its
    own port), and tells the other nodes, when the server is local, and every lookup
    that wants the server; a port without a server sends nothing and still has none.  In a
    table with a stale entry behind a deleted slot the server may come back
    ([ns_stale_server]): this is not claimed there. *)
Theorem del_server_removes (e : env) (r : received) (pk : qrtr_ctrl_pkt) (s : ns_state) :
  calloc_limit e -> received_ok r -> ns_ok s ->
  carries r pk -> cmd pk = QRTR_TYPE_DEL_SERVER ->
  let '(n, p) := target s (rc_sq r) (node pk) (port pk) in
  n = sq_node (rc_sq r) -> clean_at s n ->
  exists s', ctrl_port_fn e r s = Done (tt, s') /\
    server_at s' n p = None /\ clean_at s' n /\ lookups s' = lookups s /\
    sent s' = sent s ++ match server_at s n p with
                        | Some srv => bcast_note s QRTR_TYPE_DEL_SERVER srv ++ notes (lookups s) srv false
                        | None => []
                        end.
Proof.
  intros Hlim Hr H Hc Hcmd. destruct (target _ _ _ _) as [n p] eqn:Et. intros Hn Hcl.
  pose proof (carries_fields r pk Hc) as (_ & E1 & E2 & E3 & E4).
  pose proof (del_server_spec e Hlim s (rc_sq r) (service pk) (instance pk) (node pk) (port pk) H
    (rv_sq r Hr)) as Hspec. rewrite Et in Hspec.
  destruct (runs_port e r pk s _ _ Hc ltac:(pick_handler) (Hspec (ok_node _ (proj1 Hc)) (ok_port _ (proj1 Hc))))
    as ([] & s' & E & rc & _ & L & _ & R).
  rewrite (proj2 (Z.eqb_eq (sq_node (rc_sq r)) n)) in R by done. destruct R as [R _].
  exists s'. split; [done|]. destruct (removed_gone n p s s' H Hcl R) as [G C].
  split_and!; try done. unfold removed in R. destruct (server_at s n p); [by destruct R|].
  rewrite app_nil_r. by destruct R.
Qed.

(** A new lookup of a local client is answered with the registered servers
    that it wants, each of them and no other, followed by an empty packet, and the
    lookup is recorded; remote clients are refused without any effect. *)
Theorem new_lookup_answers (e : env) (r : received) (pk : qrtr_ctrl_pkt) (s : ns_state) :
  plenty e -> ns_ok s -> clean s -> carries r pk -> cmd pk = QRTR_TYPE_NEW_LOOKUP ->
  exists s', ctrl_port_fn e r s = Done (tt, s') /\
    if sq_node (rc_sq r) =? local_id s then
      lookups s' = lookups s ++ [Lookup (service pk) (instance pk) (rc_sq r)] /\
      exists reply, sent s' = sent s ++ reply_msgs (rc_sq r) reply /\
        forall srv, srv ∈ reply <->
          (server_at s (srv_node srv) (srv_port srv) = Some srv /\ is_u32 (srv_node srv)) /\
          wanted (service pk) (instance pk) srv
    else lookups s' = lookups s /\ sent s' = sent s.
Proof.
  intros Hpl H Hcl Hc Hcmd. pose proof (carries_fields r pk Hc) as (_ & E1 & E2 & E3 & E4).
  destruct (runs_port e r pk s _ _ Hc ltac:(pick_handler)
    (new_lookup_spec e s (rc_sq r) (service pk) (instance pk) H)) as ([] & s' & E & rc & HQ).
  exists s'. split; [done|]. destruct HQ as (_ & _ & [(_ & L & S & F)|(_ & F & L & S)]).
  - rewrite (proj2 (Z.eqb_neq _ _) (F Hpl)). done.
  - rewrite F, Z.eqb_refl. split; [done|]. eexists. split; [done|]. intros srv.
    unfold matching. rewrite list_elem_of_filter, all_servers_at by done.
    split.
    + intros [Hm Hat]. split; [done|]. apply server_match_spec in Hm; [done|]. by apply (registered_ok s srv H (proj1 Hat)).
    + intros [Hat Hw]. split; [|done]. apply server_match_spec; [|done]. by apply (registered_ok s srv H (proj1 Hat)).
Qed.

(** A DEL_CLIENT datagram that is not spoofed drops every lookup of the
    client, and only those, and its server. *)
Theorem del_client_forgets (e : env) (r : received) (pk : qrtr_ctrl_pkt) (s : ns_state) :
  calloc_limit e -> received_ok r -> ns_ok s -> carries r pk -> cmd pk = QRTR_TYPE_DEL_CLIENT ->
  let n := service pk in let p := instance pk in
  sq_node (rc_sq r) = n -> (n = local_id s -> sq_port (rc_sq r) = p) -> clean_at s n ->
  exists s', ctrl_port_fn e r s = Done (tt, s') /\ server_at s' n p = None /\
    forall lk, lk ∈ lookups s' <-> lk ∈ lookups s /\ (sq_node (lk_sq lk), sq_port (lk_sq lk)) <> (n, p).
Proof.
  intros Hlim Hr H Hc Hcmd n p Hn Hloc Hcl.
  pose proof (carries_fields r pk Hc) as (_ & E1 & E2 & _).
  pose proof (ok_service pk (proj1 Hc)) as Hns. pose proof (ok_instance pk (proj1 Hc)) as Hps.
  destruct (runs_port e r pk s _ _ Hc ltac:(pick_handler)
    (del_client_spec e Hlim s (rc_sq r) n p H (rv_sq r Hr) Hns Hps)) as ([] & s' & E & rc & HQ).
  exists s'. split; [done|]. rewrite Hn, Z.eqb_refl in HQ. cbn [negb orb] in HQ.
  assert (Eg : (n =? local_id s) && negb (sq_port (rc_sq r) =? p) = false).
  { destruct (n =? local_id s) eqn:El; reflect_bools; [|done]. by rewrite Hloc, Z.eqb_refl. }
  rewrite Eg in HQ. destruct HQ as (_ & _ & L & l & l' & _ & R & _). split.
  - apply removed_gone in R as [R _]; [done|by apply (tc_ok 0 s), touches_lookups|done].
  - intros lk. rewrite L. unfold drop_client. rewrite list_elem_of_filter, negb_true_iff, andb_false_iff.
    split.
    + intros [[?%Z.eqb_neq|?%Z.eqb_neq] Hin]; (split; [done|congruence]).
    + intros [Hin Hne]. split; [|done].
      destruct (Z.eqb_spec (sq_node (lk_sq lk)) n), (Z.eqb_spec (sq_port (lk_sq lk)) p); auto. congruence.
Qed.

(** After the BYE of a node none of its servers is left, when no port of it
    was registered twice. *)
Theorem bye_removes_all (e : env) (r : received) (pk : qrtr_ctrl_pkt) (s : ns_state) :
  calloc_limit e -> received_ok r -> ns_ok s -> carries r pk -> cmd pk = QRTR_TYPE_BYE ->
  clean_at s (sq_node (rc_sq r)) ->
  exists s', ctrl_port_fn e r s = Done (tt, s') /\
    forall p, server_at s' (sq_node (rc_sq r)) p = None.
Proof.
  intros Hlim Hr H Hc Hcmd Hcl.
  destruct (runs_port e r pk s _ _ Hc ltac:(pick_handler)
    (bye_spec e Hlim s (rc_sq r) H (rv_sq r Hr))) as ([] & s' & E & rc & HQ).
  exists s'. split; [done|]. intros p. destruct HQ as (_ & T & _ & HI).
  destruct (server_at s' (sq_node (rc_sq r)) p) eqn:Eat; [|done].
  apply server_at_has, items_has in Eat; [|apply T]. rewrite (HI Hcl) in Eat. by apply elem_of_nil in Eat.
Qed.

(** ** A server that cannot be removed

    A concrete run on an obliging kernel.  The local clients on the ports 1 and
    257 share a slot of the table of 256 entries; the first one unregisters in
    between. *)

Definition demo_env : env :=
  Env (fun _ _ b => zlen b) (fun _ _ size => size <? 2 ^ 31) (fun _ => (0, 0)).

Definition demo_recv (n p : Z) (pk : qrtr_ctrl_pkt) : received :=
  Received sizeof_ctrl_pkt (pkt_bytes pk ++ replicate 4076 0) (SockaddrQrtr AF_QIPCRTR n p).

Definition demo_new (p svc : Z) := demo_recv 1 p (CtrlPkt QRTR_TYPE_NEW_SERVER svc 1 0 0).
Definition demo_del (p svc : Z) := demo_recv 1 p (CtrlPkt QRTR_TYPE_DEL_SERVER svc 1 1 p).

(** After the client on port 257 has registered twice (which replaces its
    server) and unregistered, the name server still holds its first registration,
    and answers lookups with it: a deleted slot in front of the entry made the
    second registration a second entry. *)
Theorem ns_stale_server :
  exists s, ns_main demo_env 3 1
    [demo_new 1 10; demo_new 257 20; demo_del 1 10; demo_new 257 30; demo_del 257 30] =
    Done (true, s) /\
    server_at s 1 257 = Some (Server 20 1 1 257).
Proof. eexists. split; [vm_compute; reflexivity|vm_compute; reflexivity]. Qed.

(** The datagram is not checked to hold the fields that are read: a 4-byte
    NEW_SERVER datagram registers whatever service the stack buffer holds. *)
Theorem ns_short_packet_reads_stack (svc : Z) :
  0 < svc < 2 ^ 32 ->
  exists r s, rc_len r = 4 /\ take 4 (rc_buf r) = cpu_to_le32 QRTR_TYPE_NEW_SERVER /\
    ctrl_port_fn demo_env r (ns_init 3 1) = Done (tt, s) /\
    option_map srv_service (server_at s 1 5) = Some svc.
Proof.
  intros Hs.
  set (pk := CtrlPkt QRTR_TYPE_NEW_SERVER svc 0 0 0).
  set (r := Received 4 (pkt_bytes pk ++ replicate 4076 0) (SockaddrQrtr AF_QIPCRTR 1 5)).
  assert (Hpk : pkt_ok pk) by (split; subst pk; cbn; (done || lia)).
  assert (Hc : carries r pk) by (split; [done|]; split; [done|]; by eexists).
  pose proof (carries_fields r pk Hc) as (_ & E1 & E2 & E3 & E4).
  assert (Hlim : calloc_limit demo_env) by (intros n sl; cbn; apply Z.ltb_lt).
  assert (Hpl : plenty demo_env) by (intros n k sz; cbn; apply Z.ltb_lt).
  pose proof (new_server_spec demo_env Hlim (ns_init 3 1) (rc_sq r) svc 0 0 0 (ns_init_ok 3 1)) as Hspec.
  change (target (ns_init 3 1) (rc_sq r) 0 0) with (1, 5) in Hspec.
  assert (Hcmd : cmd pk = QRTR_TYPE_NEW_SERVER) by done.
  destruct (runs_port demo_env r pk (ns_init 3 1) _ _ Hc ltac:(pick_handler)
    (Hspec ltac:(repeat split; done) ltac:(unfold is_u32; lia) ltac:(done) ltac:(done) ltac:(done)))
    as ([] & s' & E & rc & _ & _ & _ & R).
  exists r, s'. split_and!; try done.
  destruct R as [(_ & _ & _ & -> & _)|(_ & _ & _ & R)]; [done|].
  destruct R; [done|done|done|lia|done].
Qed.

(** ** Witnesses: one registered server, on port 5, and one lookup, of port 9 *)

Lemma unique_of_nodup {V} (es : list (map_entry V)) :
  NoDup (item_pairs es).*1 ->
  forall i j k v w, es !! i = Some (Item k v) -> es !! j = Some (Item k w) -> i = j.
Proof.
  induction es as [|x es IH]; [by intros _ [] ? ? ? ? ?|].
  intros Hnd i j k v w Hi Hj. unfold item_pairs in *. 
  assert (Hin : forall n u, es !! n = Some (Item k u) -> k ∈ (item_pairs es).*1).
  { intros n u Hn. apply item_pairs_keys. exists u. by eapply list_elem_of_lookup_2. }
  destruct i as [|i], j as [|j]; cbn in Hi, Hj; try done.
  - injection Hi as ->. csimpl in Hnd. apply NoDup_cons in Hnd as [[] _]. by eapply Hin.
  - injection Hj as ->. csimpl in Hnd. apply NoDup_cons in Hnd as [[] _]. by eapply Hin.
  - f_equal. eapply IH; try done. destruct x; csimpl in Hnd; try done. by apply NoDup_cons in Hnd as [_ ?].
Qed.

Lemma demo_recv_ok n p pk : is_u32 n -> is_u32 p -> received_ok (demo_recv n p pk).
Proof.
  intros Hn Hp. split; [done|done| |by split].
  apply Forall_app. split; [apply pkt_bytes_ok|]. by apply Forall_replicate.
Qed.

Lemma demo_carries n p pk : pkt_ok pk -> carries (demo_recv n p pk) pk.
Proof. intros H. split; [done|]. split; [done|]. by eexists. Qed.

Lemma demo_limit : calloc_limit demo_env.
Proof. intros n sl. apply Z.ltb_lt. Qed.
Lemma demo_plenty : plenty demo_env.
Proof. intros n k sz. apply Z.ltb_lt. Qed.

Definition demo_lookup : received := demo_recv 1 9 (CtrlPkt QRTR_TYPE_NEW_LOOKUP 0 0 0 0).
Definition demo_state : ns_state :=
  match ns_main demo_env 3 1 [demo_new 5 10; demo_lookup] with
  | Done (_, s) => s
  | _ => ns_init 3 1
  end.

Lemma demo_state_ok : ns_ok demo_state.
Proof.
  destruct (ns_main_ok demo_env 3 1 [demo_new 5 10; demo_lookup] demo_limit) as (ok & s & E & H).
  - repeat (apply Forall_cons_2; [by apply demo_recv_ok|]). apply Forall_nil_2.
  - unfold demo_state. by rewrite E.
Qed.

Lemma demo_clean : clean_at demo_state 1.
Proof.
  unfold clean_at, map_unique. apply unique_of_nodup. 
  apply (bool_decide_unpack _). vm_compute. exact I.
Qed.

Lemma demo_local : local_id demo_state = 1.
Proof. by vm_compute. Qed.
Lemma demo_roomy : roomy demo_state 1.
Proof. by vm_compute. Qed.

Lemma demo_target p n q : target demo_state (SockaddrQrtr AF_QIPCRTR 1 p) n q = (1, p).
Proof. unfold target. by rewrite demo_local. Qed.

#[local] Opaque demo_state.

Ltac demo_side :=
  first [ apply demo_roomy | apply demo_limit | apply demo_plenty | apply demo_state_ok | apply ns_init_ok
        | apply demo_clean | by apply demo_recv_ok
        | apply demo_carries; split; done | done ].

Lemma ns_main_safe_witness :
  exists ok s, ns_main demo_env 3 1 [demo_new 5 10; demo_del 5 10] = Done (ok, s) /\ ns_ok s.
Proof.
  apply (ns_main_safe demo_env 3 1 [demo_new 5 10; demo_del 5 10]); [apply demo_limit|].
  repeat (apply Forall_cons_2; [by apply demo_recv_ok|]). apply Forall_nil_2.
Defined.

Lemma ctrl_port_fn_isolates_witness :
  exists s', ctrl_port_fn demo_env (demo_del 7 10) demo_state = Done (tt, s') /\ ns_ok s' /\
    (forall n p, is_u32 n -> n <> 1 -> server_at s' n p = server_at demo_state n p) /\
    (command (demo_del 7 10) <> QRTR_TYPE_BYE -> 1 = local_id demo_state ->
     clean_at demo_state (local_id demo_state) ->
     forall p, is_u32 p -> p <> 7 ->
       server_at s' (local_id demo_state) p = server_at demo_state (local_id demo_state) p).
Proof. apply (ctrl_port_fn_isolates demo_env (demo_del 7 10) demo_state); demo_side. Defined.

Lemma new_server_registers_witness :
  exists s', ctrl_port_fn demo_env (demo_new 6 11) demo_state = Done (tt, s') /\
    server_at s' 1 6 = Some (Server 11 1 1 6) /\ lookups s' = lookups demo_state /\
    sent s' = sent demo_state ++ bcast_note demo_state QRTR_TYPE_NEW_SERVER (Server 11 1 1 6)
                              ++ notes (lookups demo_state) (Server 11 1 1 6) true.
Proof.
  pose proof (new_server_registers demo_env (demo_new 6 11) (CtrlPkt QRTR_TYPE_NEW_SERVER 11 1 0 0) demo_state)
    as Hw.
  cbn [rc_sq demo_new demo_recv node port] in Hw. rewrite demo_target in Hw. apply Hw; demo_side.
Defined.

Lemma del_server_removes_witness :
  exists s', ctrl_port_fn demo_env (demo_del 5 10) demo_state = Done (tt, s') /\
    server_at s' 1 5 = None /\ clean_at s' 1 /\ lookups s' = lookups demo_state /\
    sent s' = sent demo_state ++ match server_at demo_state 1 5 with
      | Some srv => bcast_note demo_state QRTR_TYPE_DEL_SERVER srv ++ notes (lookups demo_state) srv false
      | None => [] end.
Proof.
  pose proof (del_server_removes demo_env (demo_del 5 10) (CtrlPkt QRTR_TYPE_DEL_SERVER 10 1 1 5) demo_state)
    as Hw.
  cbn [rc_sq demo_del demo_recv node port] in Hw. rewrite demo_target in Hw. apply Hw; demo_side.
Defined.

Lemma init_clean : clean (ns_init 3 1).
Proof. intros n _ i j k v w Hi. done. Qed.

Lemma new_lookup_answers_witness :
  exists s', ctrl_port_fn demo_env demo_lookup (ns_init 3 1) = Done (tt, s') /\
    if 1 =? local_id (ns_init 3 1) then
      lookups s' = [] ++ [Lookup 0 0 (SockaddrQrtr AF_QIPCRTR 1 9)] /\
      exists reply, sent s' = [] ++ reply_msgs (SockaddrQrtr AF_QIPCRTR 1 9) reply /\
        forall srv, srv ∈ reply <->
          (server_at (ns_init 3 1) (srv_node srv) (srv_port srv) = Some srv /\ is_u32 (srv_node srv)) /\
          wanted 0 0 srv
    else lookups s' = [] /\ sent s' = [].
Proof.
  apply (new_lookup_answers demo_env demo_lookup (CtrlPkt QRTR_TYPE_NEW_LOOKUP 0 0 0 0) (ns_init 3 1));
    first [apply init_clean | demo_side].
Defined.

Lemma del_client_forgets_witness :
  exists s', ctrl_port_fn demo_env (demo_recv 1 9 (client_pkt QRTR_TYPE_DEL_CLIENT 1 9)) demo_state = Done (tt, s') /\
    server_at s' 1 9 = None /\
    forall lk, lk ∈ lookups s' <->
      lk ∈ lookups demo_state /\ (sq_node (lk_sq lk), sq_port (lk_sq lk)) <> (1, 9).
Proof.
  apply (del_client_forgets demo_env (demo_recv 1 9 (client_pkt QRTR_TYPE_DEL_CLIENT 1 9))
    (client_pkt QRTR_TYPE_DEL_CLIENT 1 9) demo_state); demo_side.
Defined.

Lemma bye_removes_all_witness :
  exists s', ctrl_port_fn demo_env (demo_recv 1 9 (client_pkt QRTR_TYPE_BYE 0 0)) demo_state = Done (tt, s') /\
    forall p, server_at s' 1 p = None.
Proof.
  apply (bye_removes_all demo_env (demo_recv 1 9 (client_pkt QRTR_TYPE_BYE 0 0))
    (client_pkt QRTR_TYPE_BYE 0 0) demo_state); demo_side.
Defined.

Lemma ns_short_packet_reads_stack_witness :
  exists r s, rc_len r = 4 /\ take 4 (rc_buf r) = cpu_to_le32 QRTR_TYPE_NEW_SERVER /\
    ctrl_port_fn demo_env r (ns_init 3 1) = Done (tt, s) /\
    option_map srv_service (server_at s 1 5) = Some 77.
Proof. apply (ns_short_packet_reads_stack 77). lia. Defined.
