(* ===== verification/Qmi.v ===== *)
(** * The QMI codec (qrtr/lib/qmi.c): definitions

    Messages are C structures described by tables of [struct qmi_elem_info].  A
    table is a list of entries and a pointer into it is the remaining list, so
    that reading past its end is a fault.  The C structure and the message
    buffer are memories (lists of bytes) with an offset, every copy is checked
    against the size of the memory it touches, and the arithmetic on [uint32_t]
    wraps.  [qmi_encode] and [qmi_decode] call themselves for nested structures;
    their fuel is the nesting depth they may still enter, and their loops carry
    their own bound. *)
From S2P Require Import Prelude CString Hash Qrtr.

Definition EINVAL : Z := 22.
Definition EFAULT : Z := 14.

Inductive qmi_elem_type :=
  | QMI_EOTI | QMI_OPT_FLAG | QMI_DATA_LEN
  | QMI_UNSIGNED_1_BYTE | QMI_UNSIGNED_2_BYTE | QMI_UNSIGNED_4_BYTE | QMI_UNSIGNED_8_BYTE
  | QMI_SIGNED_1_BYTE_ENUM | QMI_SIGNED_2_BYTE_ENUM | QMI_SIGNED_4_BYTE_ENUM
  | QMI_STRUCT | QMI_STRING.
Inductive qmi_array_type := NO_ARRAY | STATIC_ARRAY | VAR_LEN_ARRAY.

Inductive qmi_elem_info := ElemInfo {
  data_type : qmi_elem_type;
  elem_len : Z;
  elem_size : Z;
  array_type : qmi_array_type;
  tlv_type : Z;
  offset : Z;
  ei_array : option (list qmi_elem_info) }.

#[global] Instance qmi_elem_type_eq_dec : EqDecision qmi_elem_type.
Proof. solve_decision. Defined.
#[global] Instance qmi_array_type_eq_dec : EqDecision qmi_array_type.
Proof. solve_decision. Defined.

(** The entry at a position of a table. *)
Definition ei_at (t : list qmi_elem_info) : outcome qmi_elem_info :=
  of_option OutOfBounds (head t).

Definition is_type (t : qmi_elem_type) (ei : qmi_elem_info) : bool :=
  bool_decide (data_type ei = t).

Definition TLV_LEN_SIZE : Z := 2.
Definition TLV_TYPE_SIZE : Z := 1.
Definition OPTIONAL_TLV_TYPE_START : Z := 0x10.

Definition QMI_ENCDEC_ENCODE_TLV (m : list Z) (type length p_dst : Z) : outcome (list Z) :=
  m ← write_mem m p_dst [type];
  m ← write_mem m (p_dst + 1) [Z.land length 0xff];
  write_mem m (p_dst + 2) [Z.land (Z.shiftr length 8) 0xff].

Definition QMI_ENCDEC_DECODE_TLV (m : list Z) (p_src : Z) : outcome (Z * Z) :=
  t ← read_mem m p_src 1;
  l ← read_mem m (p_src + 1) 1;
  h ← read_mem m (p_src + 2) 1;
  Done (le_value t, Z.lor (le_value l) (Z.shiftl (le_value h) 8)).

(** ** Walking the tables *)

(** The loop of [skip_to_next_elem] on the outermost level. *)
Fixpoint skip_same (ty : Z) (t : list qmi_elem_info) : outcome (list qmi_elem_info) :=
  match t with
  | [] => Fault OutOfBounds
  | ei :: t' => if tlv_type ei =? ty then skip_same (tlv_type ei) t' else Done t
  end.

Definition skip_to_next_elem (t : list qmi_elem_info) (level : Z) : outcome (list qmi_elem_info) :=
  if 1 <? level then Done (tail t)
  else ei ← ei_at t; skip_same (tlv_type ei) (tail t).

(** Width of the length in front of variable data. *)
Definition len_width (ei : qmi_elem_info) : Z := if elem_size ei =? 1 then 1 else 2.
Definition string_width (ei : qmi_elem_info) : Z := if elem_len ei <=? 256 then 1 else 2.

Fixpoint min_len_loop (rec : option (list qmi_elem_info) -> Z -> outcome Z) (n : nat)
    (t : list qmi_elem_info) (level acc : Z) : outcome Z :=
  match n with
  | O => OutOfFuel
  | S n' =>
      ei ← ei_at t;
      if is_type QMI_EOTI ei then Done acc
      else if is_type QMI_OPT_FLAG ei then
        t' ← skip_to_next_elem t level; min_len_loop rec n' t' level acc
      else if is_type QMI_DATA_LEN ei then
        min_len_loop rec n' (tail t) level (s32 (acc + len_width ei))
      else
        k ← (if is_type QMI_STRUCT ei then rec (ei_array ei) (level + 1)
             else if is_type QMI_STRING ei then
               Done ((if 1 <? level then string_width ei else 0) + u32 (elem_len ei * elem_size ei))
             else Done (u32 (elem_len ei * elem_size ei)));
        min_len_loop rec n' (tail t) level
          (s32 (acc + k + (if level =? 1 then TLV_TYPE_SIZE + TLV_LEN_SIZE else 0)))
  end.

Fixpoint qmi_calc_min_msg_len (fuel : nat) (t : option (list qmi_elem_info)) (level : Z) : outcome Z :=
  match fuel with
  | O => OutOfFuel
  | S fuel' =>
      match t with
      | None => Done 0
      | Some t => min_len_loop (qmi_calc_min_msg_len fuel') (S (length t)) t level 0
      end
  end.

(** ** Copies

    [n] elements of [size] bytes from [src] at [so] to [dst] at [d]. *)
Fixpoint copy_elems (n : nat) (dst : list Z) (d : Z) (src : list Z) (so size : Z) : outcome (list Z) :=
  match n with
  | O => Done dst
  | S n' =>
      b ← read_mem src so size;
      dst ← write_mem dst d b;
      copy_elems n' dst (d + size) src (so + size) size
  end.

(** Both the encoder and the decoder return the number of bytes copied. *)
Definition qmi_encode_basic_elem (dst : list Z) (d : Z) (src : list Z) (so elem_len elem_size : Z)
    : outcome (list Z * Z) :=
  m ← copy_elems (Z.to_nat elem_len) dst d src so elem_size;
  Done (m, s32 (elem_len * elem_size)).
Definition qmi_decode_basic_elem := qmi_encode_basic_elem.

(** Reading into the low bytes of a [uint32_t] variable. *)
Definition read_into_u32 (old : Z) (src : list Z) (so size : Z) : outcome Z :=
  '(v, _) ← qmi_decode_basic_elem (le_bytes 4 old) 0 src so 1 size;
  Done (le_value v).

(** ** Encoding *)

Definition encoder : Type :=
  option (list qmi_elem_info) -> list Z -> Z -> list Z -> Z -> Z -> Z -> outcome (list Z * Z).

Fixpoint struct_loop (enc : encoder) (ei : qmi_elem_info) (n : nat) (out : list Z) (d : Z)
    (src : list Z) (so out_buf_len level encoded : Z) : outcome (list Z * Z) :=
  match n with
  | O => Done (out, encoded)
  | S n' =>
      '(out, rc) ← enc (ei_array ei) out d src so (u32 (out_buf_len - encoded)) level;
      if rc <? 0 then Done (out, rc)
      else struct_loop enc ei n' out (d + rc) src (so + elem_size ei) out_buf_len level (encoded + rc)
  end.

Definition qmi_encode_struct_elem (enc : encoder) (ei : qmi_elem_info) (out : list Z) (d : Z)
    (src : list Z) (so elem_len out_buf_len level : Z) : outcome (list Z * Z) :=
  struct_loop enc ei (Z.to_nat elem_len) out d src so out_buf_len level 0.

(** [strlen] of the string at [so]. *)
Definition strlen_at (src : list Z) (so : Z) : outcome Z :=
  if (so <? 0) || (zlen src <? so) then Fault OutOfBounds
  else strlen (drop (Z.to_nat so) src).

Definition qmi_encode_string_elem (ei : qmi_elem_info) (out : list Z) (d : Z) (src : list Z) (so : Z)
    (out_buf_len level : Z) : outcome (list Z * Z) :=
  l ← strlen_at src so;
  let string_len := u32 l in
  let string_len_sz := string_width ei in
  if elem_len ei <? string_len then Done (out, - EINVAL)
  else if level =? 1 then
    if out_buf_len <? string_len + TLV_LEN_SIZE + TLV_TYPE_SIZE then Done (out, - EINVAL)
    else '(out, rc) ← qmi_encode_basic_elem out d src so string_len (elem_size ei); Done (out, rc)
  else
    if out_buf_len <? u32 (string_len + string_len_sz) then Done (out, - EINVAL)
    else
      '(out, rc) ← qmi_encode_basic_elem out d (le_bytes 4 string_len) 0 1 string_len_sz;
      '(out, rc2) ← qmi_encode_basic_elem out (d + rc) src so string_len (elem_size ei);
      Done (out, rc + rc2).

(** The variables of the loop of [qmi_encode]. *)
Record enc_state := EncState {
  e_out : list Z;
  e_ei : list qmi_elem_info;
  e_dlen : Z;
  e_dst : Z;
  e_tlv : Z;
  e_tlvlen : Z;
  e_bytes : Z;
  e_flag : bool }.

(** [UPDATE_ENCODE_VARIABLES] *)
Definition enc_update (st : enc_state) (out : list Z) (rc : Z) : enc_state :=
  EncState out (tail (e_ei st)) (e_dlen st) (e_dst st + rc) (e_tlv st)
    (u32 (e_tlvlen st + rc)) (u32 (e_bytes st + rc)) true.
Definition enc_goto (st : enc_state) (t : list qmi_elem_info) (flag : bool) : enc_state :=
  EncState (e_out st) t (e_dlen st) (e_dst st) (e_tlv st) (e_tlvlen st) (e_bytes st) flag.
Definition enc_set_dlen (st : enc_state) (v : Z) : enc_state :=
  EncState (e_out st) (e_ei st) v (e_dst st) (e_tlv st) (e_tlvlen st) (e_bytes st) (e_flag st).

(** The number of elements of an entry; [None] is the error of an array with a
    missing or too large length. *)
Definition enc_count (ei : qmi_elem_info) (dlen : Z) : option Z :=
  match array_type ei with
  | NO_ARRAY => Some 1
  | STATIC_ARRAY => Some (elem_len ei)
  | VAR_LEN_ARRAY => if (dlen <=? 0) || (elem_len ei <? dlen) then None else Some dlen
  end.

(** The [switch] of [qmi_encode]: the next state, or the error returned with the
    buffer as it was left. *)
Definition enc_elem (enc : encoder) (st : enc_state) (ei : qmi_elem_info) (src : list Z)
    (so out_buf_len level : Z) : outcome (enc_state + list Z * Z) :=
  match data_type ei with
  | QMI_EOTI => Done (inr (e_out st, - EINVAL))
  | QMI_OPT_FLAG =>
      b ← read_mem src so 1;
      if negb (le_value b =? 0) then Done (inl (enc_goto st (tail (e_ei st)) (e_flag st)))
      else t ← skip_to_next_elem (e_ei st) level; Done (inl (enc_goto st t (e_flag st)))
  | QMI_DATA_LEN =>
      v ← read_into_u32 (e_dlen st) src so (elem_size ei);
      let sz := len_width ei in
      if out_buf_len <? u32 (sz + e_bytes st) + TLV_LEN_SIZE + TLV_TYPE_SIZE
      then Done (inr (e_out st, - EINVAL))
      else
        '(out, rc) ← qmi_encode_basic_elem (e_out st) (e_dst st) (le_bytes 4 v) 0 1 sz;
        let st := enc_update (enc_set_dlen st v) out rc in
        if v =? 0 then t ← skip_to_next_elem (e_ei st) level; Done (inl (enc_goto st t true))
        else Done (inl (enc_goto st (e_ei st) false))
  | QMI_STRUCT =>
      '(out, rc) ← qmi_encode_struct_elem enc ei (e_out st) (e_dst st) src so (e_dlen st)
                     (u32 (out_buf_len - e_bytes st)) (level + 1);
      if rc <? 0 then Done (inr (out, rc)) else Done (inl (enc_update st out rc))
  | QMI_STRING =>
      '(out, rc) ← qmi_encode_string_elem ei (e_out st) (e_dst st) src so
                     (u32 (out_buf_len - e_bytes st)) level;
      if rc <? 0 then Done (inr (out, rc)) else Done (inl (enc_update st out rc))
  | _ =>
      if out_buf_len <? u32 (u32 (e_dlen st * elem_size ei) + e_bytes st) + TLV_LEN_SIZE + TLV_TYPE_SIZE
      then Done (inr (e_out st, - EINVAL))
      else
        '(out, rc) ← qmi_encode_basic_elem (e_out st) (e_dst st) src so (e_dlen st) (elem_size ei);
        Done (inl (enc_update st out rc))
  end.

(** Completing a TLV on the outermost level. *)
Definition enc_tlv (st : enc_state) (ty level : Z) : outcome enc_state :=
  if e_flag st && (level =? 1) then
    out ← QMI_ENCDEC_ENCODE_TLV (e_out st) ty (e_tlvlen st) (e_tlv st);
    Done (EncState out (e_ei st) (e_dlen st) (e_dst st + TLV_LEN_SIZE + TLV_TYPE_SIZE) (e_dst st) 0
            (u32 (e_bytes st + (TLV_TYPE_SIZE + TLV_LEN_SIZE))) false)
  else Done st.

(** The [while] loop of [qmi_encode]; every iteration advances in the table. *)
Fixpoint encode_loop (enc : encoder) (n : nat) (st : enc_state) (src : list Z)
    (s0 out_buf_len level : Z) : outcome (list Z * Z) :=
  match n with
  | O => OutOfFuel
  | S n' =>
      ei ← ei_at (e_ei st);
      if is_type QMI_EOTI ei then Done (e_out st, s32 (e_bytes st))
      else
        match enc_count ei (e_dlen st) with
        | None => Done (e_out st, - EINVAL)
        | Some dlen =>
            r ← enc_elem enc (enc_set_dlen st dlen) ei src (s0 + offset ei) out_buf_len level;
            match r with
            | inr r => Done r
            | inl st' => st' ← enc_tlv st' (tlv_type ei) level;
                         encode_loop enc n' st' src s0 out_buf_len level
            end
        end
  end.

Fixpoint qmi_encode (fuel : nat) (t : option (list qmi_elem_info)) (out : list Z) (d : Z)
    (src : list Z) (so out_buf_len level : Z) : outcome (list Z * Z) :=
  match fuel with
  | O => OutOfFuel
  | S fuel' =>
      match t with
      | None => Done (out, 0)
      | Some t =>
          let dst := if level =? 1 then d + (TLV_LEN_SIZE + TLV_TYPE_SIZE) else d in
          encode_loop (qmi_encode fuel') (S (length t)) (EncState out t 0 dst d 0 0 false)
            src so out_buf_len level
      end
  end.

(** ** Decoding *)

Definition decoder : Type :=
  option (list qmi_elem_info) -> list Z -> Z -> list Z -> Z -> Z -> Z -> outcome (list Z * Z).

(** The loop over the elements of an array of structures: the memory, the result
    code and the number of elements decoded. *)
Fixpoint dec_struct_loop (dec : decoder) (ei : qmi_elem_info) (n : nat) (i : Z) (out : list Z) (d : Z)
    (src : list Z) (so tlv_len level decoded : Z) : outcome (list Z * Z * Z) :=
  match n with
  | O => Done (out, decoded, i)
  | S n' =>
      if decoded <? tlv_len then
        '(out, rc) ← dec (ei_array ei) out d src so (u32 (tlv_len - decoded)) level;
        if rc <? 0 then Done (out, rc, i)
        else dec_struct_loop dec ei n' (i + 1) out (d + elem_size ei) src (so + rc) tlv_len level (decoded + rc)
      else Done (out, decoded, i)
  end.

Definition qmi_decode_struct_elem (dec : decoder) (ei : qmi_elem_info) (out : list Z) (d : Z)
    (src : list Z) (so elem_len tlv_len level : Z) : outcome (list Z * Z) :=
  '(out, decoded, i) ← dec_struct_loop dec ei (Z.to_nat elem_len) 0 out d src so tlv_len level 0;
  if decoded <? 0 then Done (out, decoded)
  else if ((level <=? 2) && negb (decoded =? tlv_len))
          || ((2 <? level) && ((i <? elem_len) || (tlv_len <? decoded)))
  then Done (out, - EFAULT)
  else Done (out, decoded).

Definition qmi_decode_string_elem (ei : qmi_elem_info) (out : list Z) (d : Z) (src : list Z)
    (so tlv_len level : Z) : outcome (list Z * Z) :=
  '(string_len, decoded) ←
    (if level =? 1 then Done (tlv_len, 0)
     else v ← read_into_u32 0 src so (string_width ei); Done (v, string_width ei));
  if elem_len ei <? string_len then Done (out, - EINVAL)
  else if tlv_len <? string_len then Done (out, - EFAULT)
  else
    '(out, rc) ← qmi_decode_basic_elem out d src (so + decoded) string_len (elem_size ei);
    out ← write_mem out (d + string_len) [0];
    Done (out, decoded + rc).

Fixpoint find_ei (t : list qmi_elem_info) (type : Z) : outcome (option (list qmi_elem_info)) :=
  match t with
  | [] => Fault OutOfBounds
  | ei :: t' => if is_type QMI_EOTI ei then Done None
                else if tlv_type ei =? u8 type then Done (Some t)
                else find_ei t' type
  end.

(** The variables of the loop of [qmi_decode]. *)
Record dec_state := DecState {
  d_out : list Z;
  d_ei : list qmi_elem_info;
  d_dlen : Z;
  d_src : Z;
  d_tlvlen : Z;
  d_bytes : Z }.

(** [UPDATE_DECODE_VARIABLES] *)
Definition dec_update (st : dec_state) (out : list Z) (rc : Z) : dec_state :=
  DecState out (d_ei st) (d_dlen st) (d_src st + rc) (d_tlvlen st) (u32 (d_bytes st + rc)).
Definition dec_next (st : dec_state) : dec_state :=
  DecState (d_out st) (tail (d_ei st)) (d_dlen st) (d_src st) (d_tlvlen st) (d_bytes st).
Definition dec_set_dlen (st : dec_state) (v : Z) : dec_state :=
  DecState (d_out st) (d_ei st) v (d_src st) (d_tlvlen st) (d_bytes st).

(** Outermost level: the header of the next TLV selects the entry.  The result is
    the state, and [true] when the TLV is an unknown optional one to be skipped;
    or the error to return. *)
Definition dec_header (t0 : list qmi_elem_info) (st : dec_state) (src : list Z)
    : outcome (dec_state * bool + Z) :=
  '(ty, tlen) ← QMI_ENCDEC_DECODE_TLV src (d_src st);
  let st := DecState (d_out st) (d_ei st) (d_dlen st) (d_src st + (TLV_TYPE_SIZE + TLV_LEN_SIZE)) tlen
              (u32 (d_bytes st + (TLV_TYPE_SIZE + TLV_LEN_SIZE))) in
  t ← find_ei t0 ty;
  match t with
  | None => if ty <? OPTIONAL_TLV_TYPE_START then Done (inr (- EINVAL))
            else Done (inl (dec_update st (d_out st) tlen, true))
  | Some t => Done (inl (DecState (d_out st) t (d_dlen st) (d_src st) tlen (d_bytes st), false))
  end.

(** The flag of an optional element. *)
Definition dec_opt_flag (st : dec_state) (o0 : Z) : outcome dec_state :=
  ei ← ei_at (d_ei st);
  if is_type QMI_OPT_FLAG ei then
    out ← write_mem (d_out st) (o0 + offset ei) [1];
    Done (DecState out (tail (d_ei st)) (d_dlen st) (d_src st) (d_tlvlen st) (d_bytes st))
  else Done st.

(** The length in front of variable data; the field of the structure receives
    four bytes whatever the width on the wire. *)
Definition dec_data_len (st : dec_state) (o0 : Z) (src : list Z) : outcome dec_state :=
  ei ← ei_at (d_ei st);
  if is_type QMI_DATA_LEN ei then
    let sz := len_width ei in
    v ← read_into_u32 (d_dlen st) src (d_src st) sz;
    out ← write_mem (d_out st) (o0 + offset ei) (le_bytes 4 v);
    Done (DecState out (tail (d_ei st)) v (d_src st + sz) (u32 (d_tlvlen st - sz)) (u32 (d_bytes st + sz)))
  else Done st.

Definition dec_count (ei : qmi_elem_info) (dlen : Z) : option Z :=
  match array_type ei with
  | NO_ARRAY => Some 1
  | STATIC_ARRAY => Some (elem_len ei)
  | VAR_LEN_ARRAY => if elem_len ei <? dlen then None else Some dlen
  end.

(** The [switch] of [qmi_decode]. *)
Definition dec_elem (dec : decoder) (st : dec_state) (ei : qmi_elem_info) (o0 : Z) (src : list Z)
    (level : Z) : outcome (dec_state + list Z * Z) :=
  let d := o0 + offset ei in
  match data_type ei with
  | QMI_STRUCT =>
      '(out, rc) ← qmi_decode_struct_elem dec ei (d_out st) d src (d_src st) (d_dlen st) (d_tlvlen st) (level + 1);
      if rc <? 0 then Done (inr (out, rc)) else Done (inl (dec_update st out rc))
  | QMI_STRING =>
      '(out, rc) ← qmi_decode_string_elem ei (d_out st) d src (d_src st) (d_tlvlen st) level;
      if rc <? 0 then Done (inr (out, rc)) else Done (inl (dec_update st out rc))
  | QMI_EOTI | QMI_OPT_FLAG | QMI_DATA_LEN => Done (inr (d_out st, - EINVAL))
  | _ =>
      '(out, rc) ← qmi_decode_basic_elem (d_out st) d src (d_src st) (d_dlen st) (elem_size ei);
      Done (inl (dec_update st out rc))
  end.

(** One entry, behind its header: flag, length, data. *)
Definition dec_entry (dec : decoder) (st : dec_state) (o0 : Z) (src : list Z) (level : Z)
    : outcome (dec_state + list Z * Z) :=
  st ← dec_opt_flag st o0;
  st ← dec_data_len st o0 src;
  ei ← ei_at (d_ei st);
  match dec_count ei (d_dlen st) with
  | None => Done (inr (d_out st, - EINVAL))
  | Some n =>
      r ← dec_elem dec (dec_set_dlen st n) ei o0 src level;
      Done (match r with inl st => inl (dec_next st) | inr x => inr x end)
  end.

Fixpoint decode_loop (dec : decoder) (n : nat) (t0 : list qmi_elem_info) (st : dec_state) (o0 : Z)
    (src : list Z) (in_buf_len level : Z) : outcome (list Z * Z) :=
  match n with
  | O => OutOfFuel
  | S n' =>
      if negb (d_bytes st <? in_buf_len) then Done (d_out st, s32 (d_bytes st))
      else
        stop ← (if 2 <=? level then ei ← ei_at (d_ei st); Done (is_type QMI_EOTI ei) else Done false);
        if (stop : bool) then Done (d_out st, s32 (d_bytes st))
        else
          h ← (if level =? 1 then dec_header t0 st src
               else Done (inl (DecState (d_out st) (d_ei st) (d_dlen st) (d_src st)
                                 (u32 (in_buf_len - d_bytes st)) (d_bytes st), false)));
          match h with
          | inr rc => Done (d_out st, rc)
          | inl (st, true) => decode_loop dec n' t0 st o0 src in_buf_len level
          | inl (st, false) =>
              r ← dec_entry dec st o0 src level;
              match r with
              | inr x => Done x
              | inl st => decode_loop dec n' t0 st o0 src in_buf_len level
              end
          end
  end.

(** Every iteration consumes a header on the outermost level and an entry of the
    table on the inner ones. *)
Definition decode_fuel (t : list qmi_elem_info) (in_buf_len level : Z) : nat :=
  if level =? 1 then S (Z.to_nat in_buf_len) else S (length t).

Fixpoint qmi_decode (fuel : nat) (t : option (list qmi_elem_info)) (out : list Z) (o0 : Z)
    (src : list Z) (so in_buf_len level : Z) : outcome (list Z * Z) :=
  match fuel with
  | O => OutOfFuel
  | S fuel' =>
      match t with
      | None => if 0 <? in_buf_len then Fault NullPointer else Done (out, 0)
      | Some t => decode_loop (qmi_decode fuel') (decode_fuel t in_buf_len level) t (DecState out t 0 so 0 0) o0
                    src in_buf_len level
      end
  end.

(** ** Messages *)

Definition sizeof_header : Z := 7.

(** The packed header: type, transaction, message and length. *)
Definition header_bytes (type txn_id msg_id msg_len : Z) : list Z :=
  le_bytes 1 type ++ le_bytes 2 txn_id ++ le_bytes 2 msg_id ++ le_bytes 2 msg_len.

Definition read_u16 (m : list Z) (off : Z) : outcome Z := b ← read_mem m off 2; Done (le_value b).
Definition read_u8 (m : list Z) (off : Z) : outcome Z := b ← read_mem m off 1; Done (le_value b).

(** [data] is the buffer of the packet and [data_len] the length announced in it;
    the result is the buffer, the new length and the value returned. *)
Definition qmi_encode_message (fuel : nat) (data : list Z) (data_len type msg_id txn_id : Z)
    (c_struct : option (list Z)) (ei : option (list qmi_elem_info)) : outcome (list Z * Z * Z) :=
  chk ← match c_struct with
        | None => qmi_calc_min_msg_len fuel ei 1
        | Some _ => Done 0
        end;
  if negb (chk =? 0) then Done (data, data_len, - EINVAL)
  else if data_len <? sizeof_header then Done (data, data_len, - EMSGSIZE)
  else
    '(data, msglen) ← match c_struct with
                      | Some c => qmi_encode fuel ei data sizeof_header c 0
                                    (u32 (data_len - sizeof_header)) 1
                      | None => Done (data, 0)
                      end;
    if msglen <? 0 then Done (data, data_len, msglen)
    else
      data ← write_mem data 0 (header_bytes type txn_id msg_id msglen);
      Done (data, sizeof_header + msglen, sizeof_header + msglen).

Definition qmi_decode_header (data : list Z) (data_len : Z) : outcome (Z * option Z) :=
  l ← read_u16 data 5;
  if negb (l =? u64 (data_len - sizeof_header)) then Done (- EINVAL, None)
  else id ← read_u16 data 3; Done (0, Some id).

(** The structure, the value returned and the transaction id stored. *)
Definition qmi_decode_message (fuel : nat) (c_struct data : list Z) (data_len type id : Z)
    (ei : option (list qmi_elem_info)) : outcome (list Z * Z * option Z) :=
  match ei with
  | None => Done (c_struct, - EINVAL, None)
  | Some _ =>
      if data_len =? 0 then Done (c_struct, - EINVAL, None)
      else
        ty ← read_u8 data 0;
        if negb (ty =? type) then Done (c_struct, - EINVAL, None)
        else
          mid ← read_u16 data 3;
          if negb (mid =? id) then Done (c_struct, - EINVAL, None)
          else
            txn ← read_u16 data 1;
            '(out, rc) ← qmi_decode fuel ei c_struct 0 data sizeof_header
                           (u32 (data_len - sizeof_header)) 1;
            Done (out, rc, Some txn)
  end.

(** The table of the common response header. *)
Definition QMI_COMMON_TLV_TYPE : Z := 0.
Definition qmi_response_type_v01_ei : list qmi_elem_info :=
  [ElemInfo QMI_SIGNED_2_BYTE_ENUM 1 2 NO_ARRAY QMI_COMMON_TLV_TYPE 0 None;
   ElemInfo QMI_SIGNED_2_BYTE_ENUM 1 2 NO_ARRAY QMI_COMMON_TLV_TYPE 2 None;
   ElemInfo QMI_EOTI 0 0 NO_ARRAY QMI_COMMON_TLV_TYPE 0 None].

(** ** For the tables of the services *)

Definition QMI_REQUEST : Z := 0.
Definition QMI_RESPONSE : Z := 2.
Definition QMI_INDICATION : Z := 4.

(** The entry of zeros that ends a table, and an entry that is not an array. *)
Definition EI_END : qmi_elem_info := ElemInfo QMI_EOTI 0 0 NO_ARRAY 0 0 None.
Definition EI (t : qmi_elem_type) (size tlv off : Z) : qmi_elem_info :=
  ElemInfo t 1 size NO_ARRAY tlv off None.

(** The nesting of the tables is two; the fuel of the codec is one more. *)
Definition msg_fuel : nat := 3.
