(* ===== verification/QmiRef.v ===== *)
(** * The QMI encoder and a reference encoder

    The reference computes the bytes of a message from the table and the structure,
    without a destination buffer, offsets into it, or remaining space.  [qmi_encode]
    is shown to write exactly these bytes whenever they fit. *)
From S2P Require Import Prelude CString Hash Qrtr Qmi.
#[local] Open Scope Z_scope.

(** [n] bytes of the structure. *)
Definition peek (c : list Z) (off n : Z) : option (list Z) :=
  if (0 <=? off) && (0 <=? n) && (off + n <=? zlen c)
  then Some (take (Z.to_nat n) (drop (Z.to_nat off) c)) else None.
Definition peek_string (c : list Z) (off : Z) : option Z :=
  match strlen_at c off with Done l => Some l | _ => None end.

(** A TLV on the outermost level, the bare data below it. *)
Definition tlv (level ty : Z) (data : list Z) : list Z :=
  if level =? 1 then [ty; Z.land (zlen data) 0xff; Z.land (Z.shiftr (zlen data) 8) 0xff] ++ data else data.

Definition nested_wire : Type := option (list qmi_elem_info) -> Z -> Z -> option (list Z).

(** The structures of an array, one after the other. *)
Fixpoint wire_structs (sub : nested_wire) (t : option (list qmi_elem_info)) (n : nat) (so size level : Z)
    : option (list Z) :=
  match n with
  | O => Some []
  | S n' => w ← sub t so level; ws ← wire_structs sub t n' (so + size) size level; Some (w ++ ws)
  end.

(** The data of one entry: [n] elements at [so]; strings consist of bytes. *)
Definition wire_data (sub : nested_wire) (ei : qmi_elem_info) (n : Z) (c : list Z) (so level : Z) : option (list Z) :=
  if n <? 0 then None else
  match data_type ei with
  | QMI_STRUCT => wire_structs sub (ei_array ei) (Z.to_nat n) so (elem_size ei) (level + 1)
  | QMI_STRING =>
      l ← peek_string c so;
      if (elem_len ei <? l) || negb (elem_size ei =? 1) then None
      else s ← peek c so l;
           Some ((if level =? 1 then [] else le_bytes (Z.to_nat (string_width ei)) l) ++ s)
  | QMI_EOTI | QMI_OPT_FLAG | QMI_DATA_LEN => None
  | _ => peek c so (n * elem_size ei)
  end.

(** The entries of a table; [pre] is the length already written for the next one. *)
Fixpoint wire_fields (sub : nested_wire) (n : nat) (t : list qmi_elem_info) (dlen : Z) (pre : list Z)
    (c : list Z) (s0 level : Z) : option (list Z) :=
  match n with
  | O => None
  | S n' =>
      ei ← head t;
      if is_type QMI_EOTI ei then match pre with [] => Some [] | _ => None end
      else
        dlen ← enc_count ei dlen;
        let so := s0 + offset ei in
        match data_type ei with
        | QMI_OPT_FLAG =>
            b ← peek c so 1;
            if negb (le_value b =? 0) then wire_fields sub n' (tail t) dlen pre c s0 level
            else match skip_to_next_elem t level with
                 | Done t' => wire_fields sub n' t' dlen pre c s0 level
                 | _ => None
                 end
        | QMI_DATA_LEN =>
            b ← peek c so (elem_size ei);
            if 4 <? elem_size ei then None
            else
              let v := le_value (b ++ drop (length b) (le_bytes 4 dlen)) in
              let l := pre ++ le_bytes (Z.to_nat (len_width ei)) v in
              if v =? 0 then
                match skip_to_next_elem (tail t) level with
                | Done t' => w ← wire_fields sub n' t' v [] c s0 level; Some (tlv level (tlv_type ei) l ++ w)
                | _ => None
                end
              else if level =? 1 then wire_fields sub n' (tail t) v l c s0 level
              else w ← wire_fields sub n' (tail t) v [] c s0 level; Some (l ++ w)
        | _ =>
            d ← wire_data sub ei dlen c so level;
            w ← wire_fields sub n' (tail t) dlen [] c s0 level;
            Some (tlv level (tlv_type ei) (pre ++ d) ++ w)
        end
  end.

(** The bytes of the structure at [so]. *)
Fixpoint wire (fuel : nat) (c : list Z) (t : option (list qmi_elem_info)) (so level : Z) : option (list Z) :=
  match fuel with
  | O => None
  | S fuel' =>
      match t with
      | None => Some []
      | Some t => wire_fields (wire fuel' c) (S (length t)) t 0 [] c so level
      end
  end.

(** ** Single steps of the reference encoder *)

Lemma wire_unfold fuel c t so level :
  wire (S fuel) c (Some t) so level = wire_fields (wire fuel c) (S (length t)) t 0 [] c so level.
Proof. done. Qed.

Section Steps.
Context (sub : nested_wire) (n : nat) (ei : qmi_elem_info) (t : list qmi_elem_info) (c : list Z) (s0 level : Z).

Lemma wire_end dlen : data_type ei = QMI_EOTI -> wire_fields sub (S n) (ei :: t) dlen [] c s0 level = Some [].
Proof. intros E. cbn [wire_fields head mbind option_bind]. unfold is_type. by rewrite E. Qed.
Lemma wire_flag dlen pre b t' : data_type ei = QMI_OPT_FLAG -> array_type ei = NO_ARRAY ->
  peek c (s0 + offset ei) 1 = Some [b] -> skip_to_next_elem (ei :: t) level = Done t' ->
  wire_fields sub (S n) (ei :: t) dlen pre c s0 level =
  wire_fields sub n (if b =? 0 then t' else t) 1 pre c s0 level.
Proof.
  intros E Ea Hp Hs. cbn [wire_fields head mbind option_bind]. unfold is_type, enc_count. rewrite E, Ea.
  cbn [mbind option_bind]. change (bool_decide _) with false. cbn [mbind option_bind]. rewrite Hp, Hs.
  cbn [mbind option_bind le_value tail]. rewrite Z.mul_0_r, Z.add_0_r. by destruct (b =? 0).
Qed.
Lemma wire_entry_data dlen k pre d : is_type QMI_EOTI ei = false -> is_type QMI_OPT_FLAG ei = false ->
  is_type QMI_DATA_LEN ei = false -> enc_count ei dlen = Some k ->
  wire_data sub ei k c (s0 + offset ei) level = Some d ->
  wire_fields sub (S n) (ei :: t) dlen pre c s0 level =
  (w ← wire_fields sub n t k [] c s0 level; Some (tlv level (tlv_type ei) (pre ++ d) ++ w)).
Proof.
  intros E1 E2 E3 Hc Hd. cbn [wire_fields head mbind option_bind]. rewrite E1, Hc. cbn [mbind option_bind tail].
  unfold is_type in *. destruct (data_type ei) eqn:Et; try done; by rewrite Hd.
Qed.
Lemma wire_len dlen pre b v : level = 1 -> data_type ei = QMI_DATA_LEN -> array_type ei = NO_ARRAY ->
  elem_size ei = 1 -> peek c (s0 + offset ei) 1 = Some [b] -> b = v -> v <> 0 ->
  wire_fields sub (S n) (ei :: t) dlen pre c s0 level = wire_fields sub n t v (pre ++ le_bytes 1 v) c s0 level.
Proof.
  intros -> E Ea Hs Hp -> Hv. cbn [wire_fields head mbind option_bind]. unfold is_type, enc_count. rewrite E, Ea.
  cbn [mbind option_bind]. change (bool_decide _) with false. cbn [mbind option_bind]. unfold len_width. rewrite Hs, Hp.
  cbn [mbind option_bind Z.ltb Z.compare Pos.compare Pos.compare_cont].
  assert (Hle : le_value ([v] ++ drop (length [v]) (le_bytes 4 1)) = v).
  { change (drop (length [v]) (le_bytes 4 1)) with [0; 0; 0]. cbn [app le_value]. lia. }
  rewrite Hle, (proj2 (Z.eqb_neq v 0)) by done. done.
Qed.
End Steps.

(** ** Reading and writing through both views *)

Lemma peek_read c off n b : peek c off n = Some b -> read_mem c off n = Done b.
Proof. unfold peek, read_mem. case_scrut; [|done]. by intros [= ->]. Qed.
Lemma peek_string_done c off l : peek_string c off = Some l -> strlen_at c off = Done l.
Proof. unfold peek_string. case_scrut; [|done..]. by intros [= ->]. Qed.
Lemma strlen_at_range c off l : strlen_at c off = Done l -> 0 <= l < zlen c.
Proof.
  unfold strlen_at. destruct ((off <? 0) || (zlen c <? off)) eqn:E; [done|].
  intros H%strlen_range. unfold zlen in *. rewrite length_drop in H. lia.
Qed.
Lemma peek_length c off n b : peek c off n = Some b -> zlen b = n.
Proof. intros H%peek_read. by eapply read_mem_length. Qed.

(** A field at a known place. *)
Lemma peek_at c X b Y off n : c = X ++ b ++ Y -> off = zlen X -> n = zlen b -> peek c off n = Some b.
Proof.
  intros -> -> ->. unfold peek, zlen. rewrite !length_app, !Nat2Z.id.
  rewrite (proj2 (Z.leb_le 0 _)), (proj2 (Z.leb_le 0 _)), (proj2 (Z.leb_le (_ + _) _)) by lia.
  by rewrite drop_app_length, take_app_length.
Qed.
Lemma strlen_at_field c X s Y off : c = X ++ s ++ 0 :: Y -> off = zlen X -> Forall (fun b => b <> 0) s ->
  peek_string c off = Some (zlen s).
Proof.
  intros -> -> Hs. unfold peek_string, strlen_at. unfold zlen at 1 2 3 4. rewrite length_app.
  rewrite (proj2 (Z.ltb_ge _ _)), (proj2 (Z.ltb_ge _ _)) by lia. cbn [orb].
  by rewrite Nat2Z.id, drop_app_length, strlen_terminated.
Qed.

Lemma write_prefix X Y bs d : d = zlen X -> zlen bs <= zlen Y ->
  write_mem (X ++ Y) d bs = Done (X ++ bs ++ drop (length bs) Y).
Proof.
  intros -> Hl. rewrite <- (take_drop (length bs) Y) at 1. apply write_at; [done|].
  unfold zlen in *. rewrite length_take. lia.
Qed.

(** A whole array is copied as its bytes. *)
Lemma copy_elems_bytes n X Y c so size b d : d = zlen X -> peek c so (Z.of_nat n * size) = Some b -> 0 <= size ->
  zlen b <= zlen Y -> copy_elems n (X ++ Y) d c so size = Done (X ++ b ++ drop (length b) Y).
Proof.
  intros Hd Hp Hs. revert X Y so b d Hd Hp. induction n as [|n IH]; intros X Y so b d -> Hp Hl; cbn [copy_elems].
  { pose proof (peek_length _ _ _ _ Hp) as Hb. unfold zlen in Hb. destruct b; [done|cbn in Hb; lia]. }
  pose proof (peek_length _ _ _ _ Hp) as Hb.
  unfold peek in Hp. destruct (_ && _) eqn:E; [|done]. reflect_bools. injection Hp as Hp.
  destruct (read_mem_ok c so size) as [b1 Hb1]; [lia..|]. rewrite Hb1. run.
  pose proof (read_mem_length _ _ _ _ Hb1) as Hl1. apply read_mem_done in Hb1 as (_ & _ & _ & Eb1).
  rewrite write_prefix by lia. run.
  assert (Hb2 : exists b2, peek c (so + size) (Z.of_nat n * size) = Some b2 /\ b = b1 ++ b2).
  { unfold peek. rewrite (proj2 (Z.leb_le 0 (so + size))), (proj2 (Z.leb_le 0 _)), (proj2 (Z.leb_le _ (zlen c))) by lia.
    eexists. split; [done|]. subst. rewrite <- (take_drop (Z.to_nat size) (take (Z.to_nat (Z.of_nat (S n) * size)) _)).
    rewrite take_take, skipn_firstn_comm, drop_drop. f_equal.
    - f_equal. lia.
    - f_equal; [lia|]. f_equal. lia. }
  destruct Hb2 as (b2 & Hp2 & ->). rewrite app_assoc. rewrite (IH (X ++ b1) _ (so + size) b2).
  - rewrite <- !app_assoc, drop_drop, length_app. done.
  - unfold zlen in *. rewrite length_app. lia.
  - done.
  - unfold zlen in *. rewrite length_drop. rewrite length_app in Hl. lia.
Qed.
Lemma basic_bytes X Y c so n size b d : d = zlen X -> peek c so (n * size) = Some b -> 0 <= n -> zlen b <= zlen Y ->
  zlen b < 2 ^ 30 -> qmi_encode_basic_elem (X ++ Y) d c so n size = Done (X ++ b ++ drop (length b) Y, zlen b).
Proof.
  intros Hd Hp Hn Hl H30. pose proof (peek_length _ _ _ _ Hp) as Hb. unfold qmi_encode_basic_elem.
  rewrite s32_small, <- Hb by (unfold zlen in *; lia).
  assert (E : copy_elems (Z.to_nat n) (X ++ Y) d c so size = Done (X ++ b ++ drop (length b) Y)); [|by rewrite E].
  destruct (Z.le_gt_cases 0 size) as [Hs|Hs].
  - apply copy_elems_bytes; [done| |done|done]. by rewrite Z2Nat.id.
  - assert (n = 0) as ->. { assert (0 <= n * size) by (unfold zlen in *; lia). nia. }
    destruct b; [done|]. unfold zlen in *. cbn in *. lia.
Qed.

(** The low bytes of a word that is in memory. *)
Lemma le_bytes_take n m z : (n <= m)%nat -> take n (le_bytes m z) = le_bytes n z.
Proof.
  revert m z. induction n as [|n IH]; intros [|m] z Hn; try lia; [done..|]. cbn [le_bytes take]. by rewrite IH by lia.
Qed.
Lemma peek_word v sz : 0 <= sz <= 4 -> peek (le_bytes 4 v) 0 (1 * sz) = Some (le_bytes (Z.to_nat sz) v).
Proof.
  intros Hs. unfold peek, zlen. rewrite length_le_bytes.
  rewrite (proj2 (Z.leb_le 0 (1 * sz))), (proj2 (Z.leb_le (0 + _) _)) by lia. cbn [andb Z.leb Z.compare].
  change (drop (Z.to_nat 0) (le_bytes 4 v)) with (le_bytes 4 v). rewrite le_bytes_take by lia. do 2 f_equal. lia.
Qed.
Lemma word_bytes X Y v sz d : d = zlen X -> 0 <= sz <= 4 -> sz <= zlen Y ->
  qmi_encode_basic_elem (X ++ Y) d (le_bytes 4 v) 0 1 sz =
  Done (X ++ le_bytes (Z.to_nat sz) v ++ drop (Z.to_nat sz) Y, sz).
Proof.
  intros Hd Hs Hl. assert (Hz : zlen (le_bytes (Z.to_nat sz) v) = sz) by (unfold zlen; rewrite length_le_bytes; lia).
  rewrite (basic_bytes X Y _ 0 1 sz _ d Hd (peek_word v sz Hs)) by lia. by rewrite Hz, length_le_bytes.
Qed.
Lemma read_word old c so size b : peek c so size = Some b -> 0 <= size <= 4 ->
  read_into_u32 old c so size = Done (le_value (b ++ drop (length b) (le_bytes 4 old))).
Proof.
  intros Hp Hs. pose proof (peek_length _ _ _ _ Hp) as Hb. unfold read_into_u32, qmi_decode_basic_elem.
  pose proof (basic_bytes [] (le_bytes 4 old) c so 1 size b 0 eq_refl) as E.
  rewrite Z.mul_1_l in E. cbn [app] in E. rewrite E; [done|done|lia|..].
  - unfold zlen in *. rewrite length_le_bytes. lia.
  - lia.
Qed.
Lemma len_width_range ei : len_width ei = 1 \/ len_width ei = 2.
Proof. unfold len_width. case_scrut; auto. Qed.
Lemma string_width_range ei : string_width ei = 1 \/ string_width ei = 2.
Proof. unfold string_width. case_scrut; auto. Qed.

(** ** Nested structures *)

Definition header_room (level : Z) : Z := if level =? 1 then 3 else 0.

(** The encoder appends [w] at the end of [X]. *)
Definition appends (enc : encoder) (sub : nested_wire) (level : Z) (c : list Z) : Prop :=
  forall t so w X Y obl, sub t so level = Some w -> zlen w <= zlen Y -> zlen w + 3 <= obl -> obl < 2 ^ 30 ->
    enc t (X ++ Y) (zlen X) c so obl level = Done (X ++ w ++ drop (length w) Y, zlen w).

Lemma struct_loop_appends enc sub level c ei n so ws X Y obl encoded :
  appends enc sub level c -> wire_structs sub (ei_array ei) n so (elem_size ei) level = Some ws ->
  zlen ws <= zlen Y -> 0 <= encoded -> encoded + zlen ws + 3 <= obl -> obl < 2 ^ 30 ->
  struct_loop enc ei n (X ++ Y) (zlen X) c so obl level encoded =
  Done (X ++ ws ++ drop (length ws) Y, encoded + zlen ws).
Proof.
  intros Henc. revert so ws X Y encoded. induction n as [|n IH]; intros so ws X Y encoded Hw HY He Hobl H30;
    cbn [wire_structs struct_loop] in *.
  { injection Hw as <-. unfold zlen. cbn. by rewrite Z.add_0_r. }
  destruct (sub (ei_array ei) so level) as [w|] eqn:Ew; [|done]. cbn [mbind option_bind] in Hw.
  destruct (wire_structs sub (ei_array ei) n (so + elem_size ei) (elem_size ei) level) as [w'|] eqn:Ew'; [|done].
  injection Hw as <-. unfold zlen in *. rewrite length_app in *.
  rewrite u32_small by lia. rewrite (Henc _ _ w) by (unfold zlen; (done || lia)). run. unfold zlen.
  rewrite (proj2 (Z.ltb_ge _ _)) by lia. rewrite app_assoc.
  replace (Z.of_nat (length X) + Z.of_nat (length w)) with (Z.of_nat (length (X ++ w))) by (rewrite length_app; lia).
  rewrite (IH _ w') by (rewrite ?length_drop; (done || lia)).
  rewrite <- !app_assoc, drop_drop. do 2 f_equal. lia.
Qed.

(** ** The data of one entry *)

(** What the encoder does to the state after data [b]. *)
Section Loop.
Context (enc : encoder) (sub : nested_wire) (level : Z) (c : list Z) (s0 obl : Z).
Hypothesis Hsub : appends enc sub (level + 1) c.
Hypothesis Hobl : 0 <= obl < 2 ^ 30.

(** The state has [A] behind it, [pre] behind the space for a header, and [Q] is the
    rest of the memory from the end of [A] on; [d] is where the message starts. *)
Record at_state (d : Z) (A pre Q : list Z) (st : enc_state) : Prop := {
  at_out : e_out st = A ++ Q;
  at_dst : e_dst st = zlen A + header_room level + zlen pre;
  at_bytes : e_bytes st = zlen A - d + zlen pre;
  at_tlv : level = 1 -> e_tlv st = zlen A /\ e_tlvlen st = zlen pre /\ e_flag st = false;
  at_pre : pre = [] \/ exists H R, Q = H ++ pre ++ R /\ zlen H = header_room level;
  at_start : 0 <= d <= zlen A }.

(** The room left is at least [w], which includes [pre] and the header. *)
Definition fits (d : Z) (A Q w : list Z) : Prop :=
  zlen w <= zlen Q /\ zlen A - d + zlen w + (if level =? 1 then 0 else 3) <= obl.

Lemma at_split d A pre Q st n : at_state d A pre Q st -> header_room level + zlen pre + n <= zlen Q -> 0 <= n ->
  exists H R, Q = H ++ pre ++ R /\ zlen H = header_room level /\ n <= zlen R.
Proof.
  intros Hst Hfit Hn. destruct (at_pre _ _ _ _ _ Hst) as [->|(H & R & -> & HH)].
  - exists (take (Z.to_nat (header_room level)) Q), (drop (Z.to_nat (header_room level)) Q).
    assert (0 <= header_room level) by (unfold header_room; case_scrut; lia).
    cbn [app]. rewrite take_drop. split; [done|]. unfold zlen in *. cbn in Hfit. rewrite length_take, length_drop. lia.
  - exists H, R. split; [done|]. split; [done|]. unfold zlen in *. rewrite !length_app in Hfit. lia.
Qed.

Lemma encode_tlv_bytes A H Z ty len d : zlen H = 3 -> d = zlen A ->
  QMI_ENCDEC_ENCODE_TLV (A ++ H ++ Z) ty len d =
  Done (A ++ [ty; Z.land len 0xff; Z.land (Z.shiftr len 8) 0xff] ++ Z).
Proof.
  intros HH ->. destruct H as [|h1 [|h2 [|h3 [|]]]]; cbv [zlen length] in HH; try lia.
  unfold QMI_ENCDEC_ENCODE_TLV. set (l0 := Z.land len 255). set (l1 := Z.land (Z.shiftr len 8) 255).
  change ([h1; h2; h3] ++ Z) with ([h1] ++ [h2; h3] ++ Z). rewrite write_at by done. run.
  replace (A ++ [ty] ++ [h2; h3] ++ Z) with ((A ++ [ty]) ++ [h2] ++ [h3] ++ Z) by (rewrite <- !app_assoc; done).
  rewrite write_at by (unfold zlen; rewrite ?length_app; cbn [length]; lia). run.
  replace ((A ++ [ty]) ++ [l0] ++ [h3] ++ Z) with ((A ++ [ty; l0]) ++ [h3] ++ Z) by (rewrite <- !app_assoc; done).
  rewrite write_at by (unfold zlen; rewrite ?length_app; cbn [length]; lia). by rewrite <- !app_assoc.
Qed.
Lemma tlv_length ty b : zlen (tlv level ty b) = header_room level + zlen b.
Proof. unfold tlv, header_room, zlen. destruct (level =? 1); cbn [length app]; lia. Qed.

(** The update of the encoder after data [b] was written behind [pre]. *)
Definition written (st : enc_state) (out : list Z) (b : list Z) (dlen : Z) : enc_state :=
  enc_update (enc_set_dlen st dlen) out (zlen b).

Lemma tlv_step d A pre Q st b ty dlen : at_state d A pre Q st ->
  fits d A Q (tlv level ty (pre ++ b)) ->
  exists H R, e_out st = (A ++ H ++ pre) ++ R /\ zlen H = header_room level /\ zlen b <= zlen R /\
    e_dst st = zlen (A ++ H ++ pre) /\
    exists st', enc_tlv (written st ((A ++ H ++ pre) ++ b ++ drop (length b) R) b dlen) ty level = Done st' /\
      at_state d (A ++ tlv level ty (pre ++ b)) [] (drop (length (tlv level ty (pre ++ b))) Q) st' /\
      e_ei st' = tail (e_ei st) /\ e_dlen st' = dlen.
Proof.
  intros Hst [Hf1 Hf2]. rewrite tlv_length in Hf1, Hf2. unfold zlen in Hf1, Hf2. rewrite length_app in Hf1, Hf2.
  destruct (at_split d A pre Q st (zlen b) Hst) as (H & R & EQ & HH & HR); [unfold zlen; lia..|].
  exists H, R. rewrite (at_out _ _ _ _ _ Hst), (at_dst _ _ _ _ _ Hst), EQ, <- !app_assoc.
  split_and!; [done|done|done|unfold zlen in *; rewrite !length_app; lia|].
  pose proof (at_bytes _ _ _ _ _ Hst) as Hb. pose proof (at_start _ _ _ _ _ Hst) as Hd.
  assert (Hrest : drop (length (tlv level ty (pre ++ b))) Q = drop (length b) R).
  { pose proof (tlv_length ty (pre ++ b)) as Hl. unfold zlen in *. rewrite length_app in Hl. subst Q.
    rewrite app_assoc, drop_app_ge by (rewrite length_app; lia). rewrite length_app. f_equal. lia. }
  unfold enc_tlv, written, enc_update, enc_set_dlen. cbn [e_flag e_out e_ei e_dlen e_dst e_tlv e_tlvlen e_bytes andb].
  unfold tlv, header_room in *. destruct (Z.eqb_spec level 1) as [E1|E1].
  - destruct (at_tlv _ _ _ _ _ Hst E1) as (Ht1 & Ht2 & Ht3).
    assert (Hz : u32 (e_tlvlen st + zlen b) = zlen (pre ++ b)).
    { unfold zlen in *. rewrite length_app. rewrite u32_small; lia. }
    assert (Hbl : u32 (e_bytes st + zlen b) = zlen A - d + zlen pre + zlen b) by (rewrite u32_small; unfold zlen in *; lia).
    rewrite Hz, Hbl, Ht1. rewrite encode_tlv_bytes by done. run.
    eexists. split; [done|]. split; [|done]. split; cbn [e_out e_dst e_bytes e_tlv e_tlvlen e_flag].
    + rewrite <- EQ, Hrest. by rewrite <- !app_assoc.
    + rewrite (at_dst _ _ _ _ _ Hst). unfold zlen, TLV_LEN_SIZE, TLV_TYPE_SIZE, header_room. rewrite !length_app. cbn [length].
      rewrite (proj2 (Z.eqb_eq _ _) E1). lia.
    + unfold TLV_LEN_SIZE, TLV_TYPE_SIZE. unfold zlen in *. rewrite !length_app. cbn [length]. rewrite u32_small; lia.
    + intros _. split_and!; [|done..]. rewrite (at_dst _ _ _ _ _ Hst). unfold zlen, header_room. rewrite !length_app. cbn [length].
      rewrite (proj2 (Z.eqb_eq _ _) E1). lia.
    + by left.
    + unfold zlen in *. rewrite length_app. lia.
  - destruct H; [|cbv [zlen length] in HH; lia]. eexists. split; [done|]. split; [|done].
    split; cbn [e_out e_dst e_bytes e_tlv e_tlvlen e_flag app].
    + cbn [app] in EQ. rewrite <- EQ, Hrest. by rewrite <- !app_assoc.
    + rewrite (at_dst _ _ _ _ _ Hst). unfold zlen, header_room. rewrite (proj2 (Z.eqb_neq _ _) E1), !length_app. cbn [length]. lia.
    + rewrite u32_small; unfold zlen in *; rewrite ?length_app; cbn [length]; lia.
    + done.
    + by left.
    + unfold zlen in *. rewrite !length_app. lia.
Qed.

(** Strings, with the length in front of them below the outermost level. *)
Lemma string_step ei so b X R room : data_type ei = QMI_STRING -> forall n, wire_data sub ei n c so level = Some b ->
  zlen b <= zlen R -> zlen b + (if level =? 1 then 3 else 0) <= room < 2 ^ 30 ->
  qmi_encode_string_elem ei (X ++ R) (zlen X) c so room level = Done (X ++ b ++ drop (length b) R, zlen b).
Proof.
  intros Et n Hw HR Hroom. unfold wire_data in Hw. rewrite Et in Hw. destruct (n <? 0); [done|].
  destruct (peek_string c so) as [l|] eqn:El; [|done]. cbn [mbind option_bind] in Hw.
  destruct (_ || _) eqn:E1; [done|]. reflect_bools.
  assert (Hsz : elem_size ei = 1) by lia.
  destruct (peek c so l) as [s|] eqn:Es; [|done]. cbn [mbind option_bind] in Hw. injection Hw as Hw.
  pose proof (peek_length _ _ _ _ Es) as Hl.
  assert (Hls : l <= zlen b) by (rewrite <- Hw, <- Hl; unfold zlen; rewrite length_app; lia).
  assert (Hl0 : 0 <= l) by (apply peek_string_done, strlen_at_range in El; lia).
  unfold qmi_encode_string_elem. rewrite (peek_string_done _ _ _ El). run.
  rewrite (u32_small l) by (destruct (level =? 1); lia).
  rewrite (proj2 (Z.ltb_ge (elem_len ei) l)), Hsz by lia.
  assert (Hb1 : forall W Z, l <= zlen Z -> qmi_encode_basic_elem (W ++ Z) (zlen W) c so l 1 = Done (W ++ s ++ drop (length s) Z, l)).
  { intros W Z HZ. rewrite (basic_bytes W Z c so l 1 s) by (rewrite ?Z.mul_1_r; (done || (destruct (level =? 1); lia))).
    by rewrite Hl. }
  destruct (level =? 1).
  - cbn [app] in Hw. subst s. rewrite (proj2 (Z.ltb_ge _ _)) by (unfold TLV_LEN_SIZE, TLV_TYPE_SIZE; lia).
    rewrite Hb1 by lia. run. by rewrite <- Hl.
  - pose proof (string_width_range ei) as Hsw. set (sz := string_width ei) in *.
    assert (Hbl : zlen b = sz + l).
    { rewrite <- Hw. unfold zlen in *. rewrite length_app, length_le_bytes. lia. }
    rewrite (u32_small (l + sz)), (proj2 (Z.ltb_ge _ _)) by lia.
    rewrite word_bytes by (done || lia). run.
    rewrite app_assoc. replace (zlen X + sz) with (zlen (X ++ le_bytes (Z.to_nat sz) l))
      by (unfold zlen; rewrite length_app, length_le_bytes; lia).
    rewrite Hb1 by (unfold zlen in *; rewrite length_drop; lia). run.
    rewrite <- Hbl, <- Hw, <- !app_assoc, drop_drop, length_app, length_le_bytes. done.
Qed.

(** The data of one entry, written at the end of [X]. *)
Lemma elem_step d A pre Q st ei n so b out X R : at_state d A pre Q st -> is_type QMI_EOTI ei = false ->
  is_type QMI_OPT_FLAG ei = false -> is_type QMI_DATA_LEN ei = false ->
  wire_data sub ei n c so level = Some b -> fits d A Q (tlv level (tlv_type ei) (pre ++ b)) ->
  e_out st = X ++ R -> e_dst st = zlen X -> zlen b <= zlen R -> out = X ++ b ++ drop (length b) R ->
  enc_elem enc (enc_set_dlen st n) ei c so obl level = Done (inl (written st out b n)).
Proof.
  intros Hst T1 T2 T3 Hw [_ Hf] Hout Hdst HR ->. rewrite tlv_length in Hf. unfold is_type in *.
  assert (Hroom : e_bytes st + zlen b + 3 <= obl).
  { rewrite (at_bytes _ _ _ _ _ Hst). unfold header_room, zlen in *. rewrite length_app in Hf. destruct (level =? 1); lia. }
  assert (Hpos : 0 <= e_bytes st).
  { rewrite (at_bytes _ _ _ _ _ Hst). pose proof (at_start _ _ _ _ _ Hst). unfold zlen in *. lia. }
  assert (0 <= zlen b) by (unfold zlen; lia).
  unfold enc_elem, written. cbn [enc_set_dlen e_out e_dst e_dlen e_bytes e_ei e_flag].
  rewrite (u32_small (obl - e_bytes st)) by lia. rewrite Hout, Hdst.
  pose proof Hw as Hw'. unfold wire_data in Hw. destruct (n <? 0) eqn:En; [done|]. reflect_bools.
  assert (Hbasic : peek c so (n * elem_size ei) = Some b ->
    (if obl <? u32 (u32 (n * elem_size ei) + e_bytes st) + TLV_LEN_SIZE + TLV_TYPE_SIZE
     then Done (inr (X ++ R, - EINVAL))
     else '(out, rc) ← qmi_encode_basic_elem (X ++ R) (zlen X) c so n (elem_size ei);
          Done (inl (enc_update (enc_set_dlen st n) out rc))) =
    Done (inl (enc_update (enc_set_dlen st n) (X ++ b ++ drop (length b) R) (zlen b)) : enc_state + list Z * Z)).
  { intros Hp. pose proof (peek_length _ _ _ _ Hp) as Hl. rewrite <- Hl, !u32_small by (rewrite ?u32_small; lia).
    rewrite (proj2 (Z.ltb_ge _ _)) by (unfold TLV_LEN_SIZE, TLV_TYPE_SIZE; lia).
    rewrite (basic_bytes X R c so n (elem_size ei) b _ eq_refl Hp) by lia. done. }
  destruct (data_type ei) eqn:Et; try done; try (by apply Hbasic).
  - unfold qmi_encode_struct_elem. rewrite (struct_loop_appends enc sub (level + 1) c ei _ so b) by (done || lia).
    rewrite Z.add_0_l. run. rewrite (proj2 (Z.ltb_ge _ _)) by lia. done.
  - rewrite (string_step ei so b X R _ Et n Hw') by (destruct (level =? 1); lia). run.
    rewrite (proj2 (Z.ltb_ge _ _)) by lia. done.
Qed.

Lemma at_goto d A pre Q st t f : at_state d A pre Q st -> (level = 1 -> f = false) -> at_state d A pre Q (enc_goto st t f).
Proof. intros [H1 H2 H3 H4 H5 H6] Hf. split; cbn; try done. intros E. destruct (H4 E) as (? & ? & _). auto. Qed.
Lemma at_dlen d A pre Q st v : at_state d A pre Q st -> at_state d A pre Q (enc_set_dlen st v).
Proof. by intros [H1 H2 H3 H4 H5 H6]. Qed.
Lemma enc_tlv_unflagged st ty : (level = 1 -> e_flag st = false) -> enc_tlv st ty level = Done st.
Proof.
  intros H. unfold enc_tlv. destruct (Z.eqb_spec level 1) as [E|E]; [by rewrite (H E)|by rewrite andb_false_r].
Qed.
Lemma enc_tlv_goto st t ty : enc_tlv (enc_goto st t (e_flag st)) ty level =
  (x ← enc_tlv st ty level; Done (enc_goto x t (e_flag x))).
Proof.
  unfold enc_tlv. cbn [enc_goto e_flag e_out e_tlvlen e_tlv]. destruct (e_flag st && (level =? 1)); [|done].
  by destruct (QMI_ENCDEC_ENCODE_TLV (e_out st) ty (e_tlvlen st) (e_tlv st)).
Qed.

(** A pending length and its header are part of what follows. *)
Lemma wire_pre n t dlen pre w : wire_fields sub n t dlen pre c s0 level = Some w -> pre <> [] ->
  header_room level + zlen pre <= zlen w.
Proof.
  revert t dlen pre w. induction n as [|n IH]; intros t dlen pre w Hw Hp; cbn [wire_fields] in Hw; [done|].
  destruct (head t) as [ei|]; [|done]. cbn [mbind option_bind] in Hw.
  destruct (is_type QMI_EOTI ei); [by destruct pre|]. destruct (enc_count ei dlen) as [dl|]; [|done].
  cbn [mbind option_bind] in Hw. set (so := s0 + offset ei) in *.
  assert (Hdata : forall d, (w' ← wire_fields sub n (tail t) dl [] c s0 level;
      Some (tlv level (tlv_type ei) (pre ++ d) ++ w')) = Some w -> header_room level + zlen pre <= zlen w).
  { intros d Hd. destruct (wire_fields _ _ _ _ _ _ _ _) as [w'|]; [|done]. injection Hd as <-.
    pose proof (tlv_length (tlv_type ei) (pre ++ d)) as Hl. unfold zlen in *. rewrite length_app in *. lia. }
  destruct (data_type ei); try (destruct (wire_data sub ei dl c so level) as [d|]; [by apply Hdata in Hw|done]).
  - destruct (peek c so 1) as [b|]; [|done]. cbn [mbind option_bind] in Hw.
    destruct (negb _); [by eapply IH|]. destruct (skip_to_next_elem t level); [by eapply IH|done..].
  - destruct (peek c so (elem_size ei)) as [b|]; [|done]. cbn [mbind option_bind] in Hw.
    destruct (4 <? elem_size ei); [done|]. set (v := le_value _) in *. set (l := pre ++ _) in *.
    assert (Hl : zlen pre <= zlen l) by (unfold l, zlen; rewrite length_app; lia).
    destruct (v =? 0).
    + destruct (skip_to_next_elem (tail t) level); [|done..].
      destruct (wire_fields _ _ _ _ _ _ _ _) as [w'|]; [|done]. injection Hw as <-.
      pose proof (tlv_length (tlv_type ei) l). unfold zlen in *. rewrite length_app. lia.
    + destruct (Z.eqb_spec level 1) as [E|E].
      * apply IH in Hw; [lia|]. unfold l. by destruct pre.
      * destruct (wire_fields _ _ _ _ _ _ _ _) as [w'|]; [|done]. injection Hw as <-.
        unfold header_room. rewrite (proj2 (Z.eqb_neq _ _) E). unfold zlen in *. rewrite length_app. lia.
Qed.

(** The value of a length and its bytes. *)
Definition len_value (dlen : Z) (b : list Z) : Z := le_value (b ++ drop (length b) (le_bytes 4 dlen)).
Definition len_bytes (ei : qmi_elem_info) (v : Z) : list Z := le_bytes (Z.to_nat (len_width ei)) v.
Lemma len_bytes_length ei v : zlen (len_bytes ei v) = len_width ei.
Proof. unfold len_bytes, zlen. rewrite length_le_bytes. destruct (len_width_range ei); lia. Qed.

Lemma fits_smaller d A Q w w' : fits d A Q w -> zlen w' <= zlen w -> fits d A Q w'.
Proof. unfold fits. lia. Qed.

Lemma len_step d A pre Q st ei n so b X R : at_state d A pre Q st -> data_type ei = QMI_DATA_LEN ->
  peek c so (elem_size ei) = Some b -> (4 <? elem_size ei) = false ->
  let v := len_value n b in let lb := len_bytes ei v in
  fits d A Q (tlv level (tlv_type ei) (pre ++ lb)) ->
  e_out st = X ++ R -> e_dst st = zlen X -> zlen lb <= zlen R ->
  let st1 := written st (X ++ lb ++ drop (length lb) R) lb v in
  enc_elem enc (enc_set_dlen st n) ei c so obl level =
  if v =? 0 then t ← skip_to_next_elem (tail (e_ei st)) level; Done (inl (enc_goto st1 t true))
  else Done (inl (enc_goto st1 (tail (e_ei st)) false)).
Proof.
  intros Hst Et Hp H4 v lb [_ Hf] Hout Hdst HR st1. rewrite tlv_length in Hf. reflect_bools.
  pose proof (len_bytes_length ei v) as Hlb. fold lb in Hlb. pose proof (len_width_range ei) as Hlw.
  pose proof (peek_length _ _ _ _ Hp) as Hb. pose proof (at_start _ _ _ _ _ Hst) as Hd.
  unfold enc_elem. rewrite Et. cbn [enc_set_dlen e_out e_dst e_dlen e_bytes e_ei].
  rewrite (read_word n c so _ b Hp) by (unfold zlen in *; lia). run. fold (len_value n b). fold v.
  rewrite (at_bytes _ _ _ _ _ Hst). unfold zlen in *. rewrite length_app in Hf.
  rewrite u32_small by (unfold header_room in *; destruct (level =? 1); lia).
  rewrite (proj2 (Z.ltb_ge _ _))
    by (unfold TLV_LEN_SIZE, TLV_TYPE_SIZE, header_room in *; destruct (level =? 1); lia).
  rewrite Hout, Hdst, word_bytes by (unfold zlen; (done || lia)). run.
  assert (Hn : Z.to_nat (len_width ei) = length lb) by (unfold lb, len_bytes; by rewrite length_le_bytes).
  fold (len_bytes ei v). fold lb. rewrite Hn. replace (len_width ei) with (zlen lb) by (unfold zlen; lia). done.
Qed.

(** A length on the outermost level stays pending. *)
Lemma len_pending d A pre st lb v H R : at_state d A pre (H ++ pre ++ R) st -> level = 1 ->
  zlen H = 3 -> zlen lb <= zlen R -> 0 <= zlen A - d + zlen pre + zlen lb < 2 ^ 30 ->
  at_state d A (pre ++ lb) (H ++ (pre ++ lb) ++ drop (length lb) R)
    (enc_goto (written st ((A ++ H ++ pre) ++ lb ++ drop (length lb) R) lb v) (tail (e_ei st)) false).
Proof.
  intros Hst E1 HH HR Hb. destruct (at_tlv _ _ _ _ _ Hst E1) as (Ht1 & Ht2 & _).
  pose proof (at_start _ _ _ _ _ Hst) as Hd.
  split; cbn [written enc_goto enc_update enc_set_dlen e_out e_dst e_bytes e_tlv e_tlvlen e_flag].
  - by rewrite <- !app_assoc.
  - rewrite (at_dst _ _ _ _ _ Hst). unfold zlen. rewrite length_app. lia.
  - rewrite (at_bytes _ _ _ _ _ Hst), u32_small by lia. unfold zlen. rewrite length_app. lia.
  - intros _. rewrite Ht2, u32_small by (unfold zlen in *; lia). unfold zlen. rewrite length_app. split_and!; [done|lia|done].
  - right. exists H, (drop (length lb) R). rewrite HH. unfold header_room. rewrite (proj2 (Z.eqb_eq _ _) E1). done.
  - done.
Qed.

(** ** The loop *)

Definition encodes (n : nat) : Prop := forall d A pre Q st w, at_state d A pre Q st -> level = 1 \/ pre = [] ->
  wire_fields sub n (e_ei st) (e_dlen st) pre c s0 level = Some w -> fits d A Q w ->
  encode_loop enc n st c s0 obl level = Done (A ++ w ++ drop (length w) Q, zlen A - d + zlen w).

Lemma fits_rest d A Q x w : fits d A Q (x ++ w) -> fits d (A ++ x) (drop (length x) Q) w.
Proof. unfold fits, zlen. rewrite !length_app, length_drop. lia. Qed.
Lemma fits_part d A Q x w : fits d A Q (x ++ w) -> fits d A Q x.
Proof. intros H. eapply fits_smaller; [exact H|]. unfold zlen. rewrite length_app. lia. Qed.
Lemma app_rest (A x w Q : list Z) : (A ++ x) ++ w ++ drop (length w) (drop (length x) Q) = A ++ (x ++ w) ++ drop (length (x ++ w)) Q.
Proof. by rewrite drop_drop, length_app, <- !app_assoc. Qed.
Lemma zlen_rest d (A x w : list Z) : zlen (A ++ x) - d + zlen w = zlen A - d + zlen (x ++ w).
Proof. unfold zlen. rewrite !length_app. lia. Qed.

Lemma len_app_nonempty (pre : list Z) ei v : pre ++ len_bytes ei v <> [].
Proof.
  intros E%(f_equal length). rewrite length_app in E. cbn [length] in E.
  pose proof (len_bytes_length ei v) as Hl. pose proof (len_width_range ei). unfold zlen in Hl. lia.
Qed.
(** Behind the pending length the memory is as it was. *)
Lemma drop_pending (H pre lb R : list Z) n : (length H + length pre + length lb <= n)%nat -> (length lb <= length R)%nat ->
  drop n (H ++ (pre ++ lb) ++ drop (length lb) R) = drop n (H ++ pre ++ R).
Proof.
  intros Hn HR. rewrite !drop_app_ge by (rewrite ?length_app; lia). rewrite drop_drop, length_app. f_equal. lia.
Qed.

(** One entry that holds data. *)
Lemma encodes_data n d A pre Q st ei dl b w : encodes n -> at_state d A pre Q st ->
  is_type QMI_EOTI ei = false -> is_type QMI_OPT_FLAG ei = false -> is_type QMI_DATA_LEN ei = false ->
  wire_data sub ei dl c (s0 + offset ei) level = Some b ->
  wire_fields sub n (tail (e_ei st)) dl [] c s0 level = Some w ->
  fits d A Q (tlv level (tlv_type ei) (pre ++ b) ++ w) ->
  (r ← enc_elem enc (enc_set_dlen st dl) ei c (s0 + offset ei) obl level;
   match r with
   | inr r => Done r
   | inl st' => st' ← enc_tlv st' (tlv_type ei) level; encode_loop enc n st' c s0 obl level
   end) = Done (A ++ (tlv level (tlv_type ei) (pre ++ b) ++ w) ++ drop (length (tlv level (tlv_type ei) (pre ++ b) ++ w)) Q,
                zlen A - d + zlen (tlv level (tlv_type ei) (pre ++ b) ++ w)).
Proof.
  intros IH Hst T1 T2 T3 Hb Hw Hf.
  destruct (tlv_step d A pre Q st b (tlv_type ei) dl Hst (fits_part _ _ _ _ _ Hf))
    as (H & R & Hout & _ & HR & Hdst & st' & Htlv & Hst' & Hei & Hdl).
  rewrite (elem_step d A pre Q st ei dl _ b _ (A ++ H ++ pre) R Hst T1 T2 T3 Hb (fits_part _ _ _ _ _ Hf) Hout Hdst HR eq_refl).
  run. rewrite Htlv. run. rewrite (IH _ _ _ _ st' w Hst'); [|by right|congruence|by apply fits_rest].
  by rewrite app_rest, zlen_rest.
Qed.

(** A length, whatever it announces. *)
Lemma encodes_len n d A pre Q st ei dl b w : encodes n -> at_state d A pre Q st -> level = 1 \/ pre = [] ->
  data_type ei = QMI_DATA_LEN ->
  peek c (s0 + offset ei) (elem_size ei) = Some b -> (4 <? elem_size ei) = false ->
  let v := len_value dl b in let l := pre ++ len_bytes ei v in
  (if v =? 0 then
     match skip_to_next_elem (tail (e_ei st)) level with
     | Done t' => w ← wire_fields sub n t' v [] c s0 level; Some (tlv level (tlv_type ei) l ++ w)
     | _ => None
     end
   else if level =? 1 then wire_fields sub n (tail (e_ei st)) v l c s0 level
   else w ← wire_fields sub n (tail (e_ei st)) v [] c s0 level; Some (l ++ w)) = Some w ->
  fits d A Q w ->
  (r ← enc_elem enc (enc_set_dlen st dl) ei c (s0 + offset ei) obl level;
   match r with
   | inr r => Done r
   | inl st' => st' ← enc_tlv st' (tlv_type ei) level; encode_loop enc n st' c s0 obl level
   end) = Done (A ++ w ++ drop (length w) Q, zlen A - d + zlen w).
Proof.
  intros IH Hst Hpre Et Hp H4 v l Hw Hf.
  assert (Hfit : fits d A Q (tlv level (tlv_type ei) l)).
  { destruct (v =? 0).
    { destruct (skip_to_next_elem _ _); [|done..]. destruct (wire_fields _ _ _ _ _ _ _ _); [|done].
      injection Hw as <-. by eapply fits_part. }
    destruct (Z.eqb_spec level 1) as [E|E].
    - eapply fits_smaller; [exact Hf|]. rewrite tlv_length. eapply wire_pre; [exact Hw|].
      apply len_app_nonempty.
    - destruct (wire_fields _ _ _ _ _ _ _ _); [|done]. injection Hw as <-. apply fits_part in Hf.
      unfold tlv. by rewrite (proj2 (Z.eqb_neq _ _) E). }
  destruct (tlv_step d A pre Q st (len_bytes ei v) (tlv_type ei) v Hst Hfit)
    as (H & R & Hout & HH & HR & Hdst & st' & Htlv & Hst' & Hei & Hdl). fold l in Htlv, Hst'.
  rewrite (len_step d A pre Q st ei dl _ b (A ++ H ++ pre) R Hst Et Hp H4 Hfit Hout Hdst HR). fold v.
  set (st1 := written _ _ _ _) in *. destruct (v =? 0).
  - destruct (skip_to_next_elem (tail (e_ei st)) level) as [t'| |]; [|done..]. run.
    change true with (e_flag st1). rewrite enc_tlv_goto, Htlv. run.
    destruct (wire_fields sub n t' v [] c s0 level) as [w'|] eqn:Ew; [|done]. injection Hw as <-.
    rewrite (IH _ _ _ _ _ w' (at_goto _ _ _ _ _ t' _ Hst' (fun E => proj2 (proj2 (at_tlv _ _ _ _ _ Hst' E)))));
      [by rewrite app_rest, zlen_rest|by right|by cbn; rewrite Hdl|by apply fits_rest].
  - run. rewrite enc_tlv_unflagged by done. run. destruct (Z.eqb_spec level 1) as [E|E].
    + unfold header_room in HH. rewrite (proj2 (Z.eqb_eq _ _) E) in HH.
      rewrite (at_out _ _ _ _ _ Hst), <- !app_assoc in Hout. apply app_inv_head in Hout. subst Q.
      assert (Hlen : header_room level + zlen l <= zlen w) by (eapply wire_pre; [exact Hw|apply len_app_nonempty]).
      unfold header_room in Hlen. rewrite (proj2 (Z.eqb_eq _ _) E) in Hlen.
      assert (Hll : zlen l = zlen pre + zlen (len_bytes ei v)) by (unfold l, zlen; rewrite length_app; lia).
      destruct Hf as [Hf1 Hf2]. rewrite (proj2 (Z.eqb_eq _ _) E) in Hf2. pose proof (at_start _ _ _ _ _ Hst).
      pose proof (len_pending d A pre st (len_bytes ei v) v H R Hst E HH HR ltac:(unfold zlen in *; lia)) as Hst1.
      fold st1 in Hst1.
      rewrite (IH _ _ _ _ _ w Hst1); [|by left|done|].
      * do 3 f_equal. f_equal. apply drop_pending; unfold zlen in *; lia.
      * split; [|by rewrite (proj2 (Z.eqb_eq _ _) E)]. unfold zlen in *. rewrite !length_app, length_drop in *. lia.
    + destruct (wire_fields _ _ _ _ _ _ _ _) as [w'|] eqn:Ew; [|done]. injection Hw as <-.
      rewrite enc_tlv_unflagged in Htlv by done. injection Htlv as <-. unfold tlv in Hst'. rewrite (proj2 (Z.eqb_neq _ _) E) in Hst'.
      rewrite (IH _ _ _ _ _ w' (at_goto _ _ _ _ _ (tail (e_ei st)) false Hst' (fun _ => eq_refl)));
        [by rewrite app_rest, zlen_rest|by right|done|by apply fits_rest].
Qed.

Lemma encode_loop_wire n : encodes n.
Proof.
  induction n as [|n IH]; intros d A pre Q st w Hst Hpre Hw Hf; cbn [wire_fields encode_loop] in *; [done|].
  unfold ei_at. destruct (head (e_ei st)) as [ei|]; [|done]. cbn [mbind option_bind] in Hw. run.
  destruct (is_type QMI_EOTI ei) eqn:T1.
  { destruct pre; [|done]. injection Hw as <-. rewrite (at_out _ _ _ _ _ Hst), (at_bytes _ _ _ _ _ Hst).
    pose proof (at_start _ _ _ _ _ Hst). destruct Hf as [_ Hf]. unfold zlen in *. cbn [length app drop] in *.
    rewrite s32_small by (destruct (level =? 1); lia). do 2 f_equal; lia. }
  destruct (enc_count ei (e_dlen st)) as [dl|]; [|done]. cbn [mbind option_bind] in Hw.
  assert (Hdata : is_type QMI_OPT_FLAG ei = false -> is_type QMI_DATA_LEN ei = false ->
    (b ← wire_data sub ei dl c (s0 + offset ei) level; w' ← wire_fields sub n (tail (e_ei st)) dl [] c s0 level;
     Some (tlv level (tlv_type ei) (pre ++ b) ++ w')) = Some w -> 
    (r ← enc_elem enc (enc_set_dlen st dl) ei c (s0 + offset ei) obl level;
     match r with
     | inr r => Done r
     | inl st' => st' ← enc_tlv st' (tlv_type ei) level; encode_loop enc n st' c s0 obl level
     end) = Done (A ++ w ++ drop (length w) Q, zlen A - d + zlen w)).
  { intros T2 T3 Hd. destruct (wire_data sub ei dl c (s0 + offset ei) level) as [b|] eqn:Eb; [|done].
    cbn [mbind option_bind] in Hd. destruct (wire_fields _ _ _ _ _ _ _ _) as [w'|] eqn:Ew; [|done]. injection Hd as <-.
    by apply encodes_data. }
  destruct (data_type ei) eqn:Et; try (apply Hdata; [unfold is_type; by rewrite Et..|exact Hw]); try done.
  - destruct (peek c (s0 + offset ei) 1) as [b|] eqn:Eb; [|done]. cbn [mbind option_bind] in Hw.
    unfold enc_elem. rewrite Et. cbn [enc_set_dlen e_ei e_flag]. rewrite (peek_read _ _ _ _ Eb). run.
    assert (Hgo : forall t, wire_fields sub n t dl pre c s0 level = Some w ->
      (st' ← enc_tlv (enc_goto (enc_set_dlen st dl) t (e_flag st)) (tlv_type ei) level; encode_loop enc n st' c s0 obl level) =
      Done (A ++ w ++ drop (length w) Q, zlen A - d + zlen w)).
    { intros t Ht. rewrite enc_tlv_unflagged; run.
      - apply (IH d A pre Q (enc_goto (enc_set_dlen st dl) t (e_flag st)) w); [|done..]. apply at_goto; [by apply at_dlen|]. intros E. by destruct (at_tlv _ _ _ _ _ Hst E) as (_ & _ & ?).
      - intros E. by destruct (at_tlv _ _ _ _ _ Hst E) as (_ & _ & ?). }
    destruct (negb _); [by apply Hgo|]. destruct (skip_to_next_elem (e_ei st) level) as [t| |]; [|done..]. by apply Hgo.
  - destruct (peek c (s0 + offset ei) (elem_size ei)) as [b|] eqn:Eb; [|done]. cbn [mbind option_bind] in Hw.
    destruct (4 <? elem_size ei) eqn:E4; [done|]. by apply (encodes_len n d A pre Q st ei dl b w).
Qed.
End Loop.

(** ** Messages *)

Lemma at_begin level X Y t : at_state level (zlen X) X [] Y (EncState (X ++ Y) t 0 (zlen X + header_room level) (zlen X) 0 0 false).
Proof.
  split; cbn [e_out e_dst e_bytes e_tlv e_tlvlen e_flag]; unfold zlen; cbn [length]; try done; try lia. by left.
Qed.

(** Nested structures are appended. *)
Lemma qmi_encode_appends fuel c level : 2 <= level -> appends (qmi_encode fuel) (wire fuel c) level c.
Proof.
  revert level. induction fuel as [|fuel IH]; intros level Hl t so w X Y obl Hw HY Hobl H30; [done|].
  cbn [wire qmi_encode] in *. destruct t as [t|]; [|injection Hw as <-; done].
  pose proof (at_begin level X Y t) as Hst. unfold header_room in Hst.
  rewrite (proj2 (Z.eqb_neq level 1)), Z.add_0_r in * by lia.
  assert (0 <= zlen w) by (unfold zlen; lia).
  rewrite (encode_loop_wire _ _ level c so obl (IH (level + 1) ltac:(lia)) ltac:(lia) _ _ _ _ _ _ w Hst); [|by right|done|].
  - do 2 f_equal. lia.
  - split; [done|]. rewrite (proj2 (Z.eqb_neq level 1)) by lia. lia.
Qed.

(** A whole structure. *)
Lemma qmi_encode_wire fuel t c X Y w obl : wire fuel c (Some t) 0 1 = Some w -> zlen w <= zlen Y -> zlen w <= obl < 2 ^ 30 ->
  qmi_encode fuel (Some t) (X ++ Y) (zlen X) c 0 obl 1 = Done (X ++ w ++ drop (length w) Y, zlen w).
Proof.
  intros Hw HY Hobl. assert (0 <= zlen w) by (unfold zlen; lia). destruct fuel as [|fuel]; [done|]. cbn [wire qmi_encode] in *.
  cbn [Z.eqb Pos.eqb]. change (TLV_LEN_SIZE + TLV_TYPE_SIZE) with (header_room 1).
  rewrite (encode_loop_wire _ _ 1 c 0 obl (qmi_encode_appends fuel c (1 + 1) ltac:(lia)) ltac:(lia) _ _ _ _ _ _ w (at_begin 1 X Y t));
    [|by right|done|].
  - do 2 f_equal. lia.
  - split; [done|]. cbn [Z.eqb Pos.eqb]. lia.
Qed.

Lemma qmi_encode_message_wire fuel t (c data w : list Z) type msg_id txn :
  wire fuel c (Some t) 0 1 = Some w -> sizeof_header + zlen w <= zlen data < 2 ^ 30 ->
  let msg := header_bytes type txn msg_id (zlen w) ++ w in
  qmi_encode_message fuel data (zlen data) type msg_id txn (Some c) (Some t) =
  Done (msg ++ drop (length msg) data, zlen msg, zlen msg).
Proof.
  intros Hw Hd msg. unfold sizeof_header in Hd. assert (0 <= zlen w) by (unfold zlen; lia).
  assert (Hm : zlen msg = 7 + zlen w) by (unfold msg, zlen; rewrite length_app; cbn [length header_bytes le_bytes app]; lia).
  unfold qmi_encode_message, sizeof_header. run. cbn [negb Z.eqb]. rewrite (proj2 (Z.ltb_ge _ _)), u32_small by lia.
  rewrite <- (take_drop 7 data) at 1. assert (H7 : zlen (take 7 data) = 7) by (unfold zlen in *; rewrite length_take; lia).
  rewrite <- H7 at 1. rewrite (qmi_encode_wire fuel t c (take 7 data) (drop 7 data) w) by
    (try done; unfold zlen in *; rewrite ?length_drop; lia).
  run. rewrite (proj2 (Z.ltb_ge _ _)) by lia.
  pose proof (write_at [] (take 7 data) (w ++ drop (length w) (drop 7 data)) (header_bytes type txn msg_id (zlen w)) 0 eq_refl) as Ew.
  cbn [app] in Ew. rewrite Ew by (rewrite H7; done). run. rewrite Hm. do 3 f_equal.
  unfold msg. rewrite drop_drop, length_app, <- app_assoc. done.
Qed.

(** C6: the encoder is the reference encoder: whenever the reference gives the bytes
    [w] for a structure and the message fits the packet, [qmi_encode_message] writes
    the header and exactly [w] in front of what the packet held, and returns the
    length of both. *)
Theorem qmi_encode_message_reference fuel t (c data w : list Z) type msg_id txn :
  wire fuel c (Some t) 0 1 = Some w -> sizeof_header + zlen w <= zlen data < 2 ^ 30 ->
  let msg := header_bytes type txn msg_id (zlen w) ++ w in
  qmi_encode_message fuel data (zlen data) type msg_id txn (Some c) (Some t) =
  Done (msg ++ drop (length msg) data, zlen msg, zlen msg).
Proof. exact (qmi_encode_message_wire fuel t c data w type msg_id txn). Qed.
