(* ===== verification/QmiFacts.v ===== *)
(** * The QMI codec: descriptors that are safe to encode, memory safety

    [table_ok] is a decidable condition on a descriptor table; every table of the
    programs satisfies it.  Encoding with such a table never leaves the output
    buffer, never reads outside the C structure and always returns; decoding
    always returns and never writes outside the structure, but may read a bounded
    number of bytes behind the message. *)
From S2P Require Import Prelude CString Hash Qrtr Qmi.

(** ** Copies *)

Lemma copy_elems_spec n dst d src so size :
  0 <= size -> 0 <= d -> 0 <= so ->
  d + Z.of_nat n * size <= zlen dst -> so + Z.of_nat n * size <= zlen src ->
  returns (copy_elems n dst d src so size) (fun dst' =>
    same_outside d (d + Z.of_nat n * size) dst dst' /\ (bytes_ok dst -> bytes_ok src -> bytes_ok dst')).
Proof.
  revert dst d so. induction n as [|n IH]; intros dst d so Hs Hd Hso Hdst Hsrc; cbn [copy_elems].
  - apply returns_done. split; [apply same_outside_refl|done].
  - apply returns_bind, returns_read; [lia..|]. intros b Hb Hbok _.
    apply returns_bind, returns_write; [lia..|]. intros m Hm Hmok _.
    pose proof (so_len _ _ _ _ Hm) as Hl.
    eapply returns_mono; [apply IH; lia|]. intros m' [Hm' Hok']. split.
    + eapply same_outside_trans; eapply same_outside_wider; try done; lia.
    + intros ? ?. apply Hok'; auto.
Qed.

Lemma basic_elem_spec dst d src so n size :
  0 <= size -> 0 <= n -> n * size < 2 ^ 31 -> 0 <= d -> 0 <= so ->
  d + n * size <= zlen dst -> so + n * size <= zlen src ->
  returns (qmi_encode_basic_elem dst d src so n size) (fun r =>
    r.2 = n * size /\ same_outside d (d + n * size) dst r.1 /\
    (bytes_ok dst -> bytes_ok src -> bytes_ok r.1)).
Proof.
  intros Hs Hn Hb Hd Hso Hdst Hsrc. unfold qmi_encode_basic_elem.
  apply returns_bind. eapply returns_mono; [apply copy_elems_spec; rewrite ?Z2Nat.id by lia; lia|].
  intros m Hm. rewrite Z2Nat.id in Hm by lia. apply returns_done. cbn.
  rewrite s32_small by nia. done.
Qed.

Lemma read_into_u32_spec old src so size :
  0 <= size <= 4 -> 0 <= so -> so + size <= zlen src ->
  returns (read_into_u32 old src so size) (fun v => bytes_ok src -> 0 <= v < 2 ^ 32).
Proof.
  intros Hs Hso Hsrc. unfold read_into_u32, qmi_decode_basic_elem.
  apply returns_bind. eapply returns_mono.
  { apply basic_elem_spec; [lia|lia|lia|lia|lia| |lia]. unfold zlen. rewrite length_le_bytes. lia. }
  intros [v rc] (_ & Hv & Hok). cbn [fst snd] in *. apply returns_done. intros Hb.
  assert (bytes_ok v) as Hvok by (apply Hok; [apply le_bytes_ok|done]).
  pose proof (le_value_range v Hvok). pose proof (so_len _ _ _ _ Hv) as Hl.
  unfold zlen at 2 in Hl. rewrite length_le_bytes in Hl. rewrite Hl in *. lia.
Qed.

(** ** Well-formed tables *)

(** Whether a position of a table can be skipped the way the code skips it. *)
Definition skip_ok (level : Z) (t : list qmi_elem_info) : bool :=
  match t with
  | [] => false
  | ei :: t' =>
      match data_type ei with
      | QMI_OPT_FLAG => is_done (skip_to_next_elem t level)
      | QMI_DATA_LEN => match t' with
                        | [] => false
                        | nxt :: _ => negb (is_type QMI_EOTI nxt) && is_done (skip_to_next_elem t' level)
                        end
      | _ => true
      end
  end.

(** The bytes of the structure an entry covers. *)
Definition extent (ei : qmi_elem_info) : Z :=
  match array_type ei with NO_ARRAY => elem_size ei | _ => elem_len ei * elem_size ei end.

Definition entry_ok (nested : Z -> Z -> list qmi_elem_info -> bool) (level size : Z) (ei : qmi_elem_info) : bool :=
  (0 <=? offset ei) && (0 <=? elem_len ei) && (0 <=? elem_size ei) &&
  (offset ei + extent ei <=? size) && (elem_len ei * elem_size ei <? 2 ^ 30) && (elem_size ei <? 2 ^ 30) && (elem_len ei <? 2 ^ 30) &&
  (0 <=? tlv_type ei) && (tlv_type ei <? 256) &&
  match data_type ei with
  | QMI_OPT_FLAG => offset ei + 1 <=? size
  | QMI_DATA_LEN => (elem_size ei <=? 4) && (offset ei + 4 <=? size)
  | QMI_STRUCT =>
      match ei_array ei with
      | Some t => nested (level + 1) (elem_size ei) t && (1 <=? elem_len ei) &&
                  match t with
                  | first :: _ => negb (is_type QMI_EOTI first) && negb (is_type QMI_OPT_FLAG first)
                  | [] => false
                  end
      | None => false
      end
  | QMI_STRING => (level =? 1) && (elem_size ei =? 1)
  | _ => negb (bool_decide (array_type ei = STATIC_ARRAY)) || (1 <=? elem_len ei)
  end.

Fixpoint entries_ok (entry : qmi_elem_info -> bool) (level : Z) (t : list qmi_elem_info) : bool :=
  match t with
  | [] => false
  | ei :: t' => if is_type QMI_EOTI ei then bool_decide (t' = [])
                else entry ei && skip_ok level t && entries_ok entry level t'
  end.

(** [table_ok fuel level size t]: the table [t], nested at most [fuel] deep,
    describes a structure of [size] bytes. *)
Fixpoint table_ok (fuel : nat) (level size : Z) (t : list qmi_elem_info) : bool :=
  match fuel with
  | O => false
  | S fuel' => entries_ok (entry_ok (table_ok fuel') level size) level t
  end.

(** ** Walking a well-formed table *)

Lemma entries_ok_cons entry level t :
  entries_ok entry level t = true ->
  exists ei t', t = ei :: t' /\
    (is_type QMI_EOTI ei = false ->
     entry ei = true /\ skip_ok level t = true /\ entries_ok entry level t' = true).
Proof.
  destruct t as [|ei t']; cbn [entries_ok]; [done|]. intros H. exists ei, t'. split; [done|].
  intros Hei. rewrite Hei in H. apply andb_true_iff in H as [[H1 H2]%andb_true_iff H3]. done.
Qed.

Lemma skip_same_ok entry level ty t t' :
  entries_ok entry level t = true -> skip_same ty t = Done t' ->
  entries_ok entry level t' = true /\ (length t' <= length t)%nat /\ (forall x, x ∈ t' -> x ∈ t).
Proof.
  revert ty. induction t as [|ei t IH]; intros ty H E; cbn [skip_same] in E; [done|].
  destruct (tlv_type ei =? ty); [|by injection E as <-].
  destruct (is_type QMI_EOTI ei) eqn:Ee.
  - cbn [entries_ok] in H. rewrite Ee in H. apply bool_decide_eq_true in H as ->. done.
  - apply entries_ok_cons in H as (? & ? & [= <- <-] & Hk). destruct (Hk Ee) as (_ & _ & Ht).
    destruct (IH _ Ht E) as (H1 & H2 & H3). split; [done|]. split; [cbn; lia|].
    intros x Hx. right. by apply H3.
Qed.

Lemma skip_next_ok entry level ei t t' :
  entries_ok entry level (ei :: t) = true -> is_type QMI_EOTI ei = false ->
  skip_to_next_elem (ei :: t) level = Done t' ->
  entries_ok entry level t' = true /\ (length t' <= length t)%nat /\ (forall x, x ∈ t' -> x ∈ t).
Proof.
  intros H He E. apply entries_ok_cons in H as (? & ? & [= <- <-] & Hk).
  destruct (Hk He) as (_ & _ & Ht). unfold skip_to_next_elem in E.
  destruct (1 <? level); [injection E as <-; done|].
  cbn [ei_at head of_option tail] in E. by eapply skip_same_ok.
Qed.

Lemma is_done_inv {A} (o : outcome A) : is_done o = true -> exists a, o = Done a.
Proof. destruct o; eauto; done. Qed.

(** ** The encoder stays in its buffer *)

(** Room reserved for the header of the TLV being encoded. *)
Definition hdr (level : Z) : Z := if level =? 1 then 3 else 0.

(** What encoding leaves: nothing changed outside the window, and either an error
    or the number of bytes encoded, [slack] below the space available. *)
Definition enc_post (d lim obl slack : Z) (out : list Z) (r : list Z * Z) : Prop :=
  same_outside d lim out r.1 /\ (r.2 < 0 \/ 0 <= r.2 /\ r.2 + slack <= obl).

Definition starts_solid (t : list qmi_elem_info) : bool :=
  match t with
  | first :: _ => negb (is_type QMI_EOTI first) && negb (is_type QMI_OPT_FLAG first)
  | [] => false
  end.

(** A nested encoder works on every table of its depth. *)
Definition nested_safe (enc : encoder) (nested : Z -> Z -> list qmi_elem_info -> bool) (level : Z) : Prop :=
  forall size t out d src so obl lim,
    nested level size t = true -> starts_solid t = true ->
    0 <= so -> so + size <= zlen src -> zlen src < 2 ^ 30 -> bytes_ok src ->
    0 <= obl < 2 ^ 30 -> 0 <= d -> d + obl - 3 <= lim -> lim <= zlen out ->
    returns (enc (Some t) out d src so obl level) (enc_post d lim obl 3 out).

Definition strings_ok (t : list qmi_elem_info) (src : list Z) (s0 : Z) : Prop :=
  forall ei, ei ∈ t -> data_type ei = QMI_STRING -> exists n, strlen_at src (s0 + offset ei) = Done n.

Lemma struct_loop_spec enc nested level ei t n out d src so obl lim encoded :
  nested_safe enc nested level -> ei_array ei = Some t -> nested level (elem_size ei) t = true ->
  starts_solid t = true -> 0 <= elem_size ei -> 0 <= so -> so + Z.of_nat n * elem_size ei <= zlen src ->
  zlen src < 2 ^ 30 -> bytes_ok src -> 0 <= encoded <= obl -> 0 <= obl < 2 ^ 30 -> 0 <= d ->
  d - encoded + obl - 3 <= lim -> lim <= zlen out ->
  ((0 < n)%nat \/ encoded + 3 <= obl) ->
  returns (struct_loop enc ei n out d src so obl level encoded)
    (fun r => same_outside d lim out r.1 /\ (r.2 < 0 \/ 0 <= r.2 /\ r.2 + 3 <= obl)).
Proof.
  intros Henc Et Hok Hst Hsz. revert out d so encoded.
  induction n as [|n IH]; intros out d so encoded Hso Hsrc Hs30 Hby Henco Hobl Hd Hlim Hout Hn; cbn [struct_loop].
  - apply returns_done. split; [apply same_outside_refl|]. cbn. lia.
  - rewrite Et, u32_small by lia. apply returns_bind.
    eapply returns_mono; [apply (Henc (elem_size ei) t out d src so (obl - encoded) lim); try done; lia|].
    intros [m rc] [Hm Hrc]. cbn [fst snd] in *. destruct (rc <? 0) eqn:Er; reflect_bools.
    + apply returns_done. cbn. split; [done|]. by left.
    + destruct Hrc as [?|[_ Hrc]]; [lia|]. pose proof (so_len _ _ _ _ Hm) as Hlen.
      eapply returns_mono; [apply (IH m (d + rc) (so + elem_size ei) (encoded + rc)); done || lia|].
      intros [m' rc'] [Hm' Hrc']. cbn [fst snd] in *. split; [|done].
      eapply same_outside_trans; [exact Hm|]. eapply same_outside_wider; [exact Hm'|lia|lia].
Qed.

(** The loop of [qmi_encode] at [d] in the buffer [out0], [obl] bytes available. *)
Record enc_inv (level d lim obl : Z) (out0 : list Z) (st : enc_state) : Prop := {
  ei_out : same_outside d lim out0 (e_out st);
  ei_dst : e_dst st = d + e_bytes st + hdr level;
  ei_tlv : d <= e_tlv st;
  ei_tlvlen : e_tlv st + e_tlvlen st = d + e_bytes st;
  ei_pos : 0 <= e_tlvlen st;
  ei_bytes : 0 <= e_bytes st <= obl;
  ei_dlen : 0 <= e_dlen st < 2 ^ 32 }.

(** An entry that was encoded: the next state, its position further in the table. *)
Definition enc_step (entry : qmi_elem_info -> bool) (level d lim obl : Z) (out0 : list Z)
    (t : list qmi_elem_info) (solid : Prop) (r : enc_state + list Z * Z) : Prop :=
  match r with
  | inl st => enc_inv level d lim obl out0 st /\
      entries_ok entry level (e_ei st) = true /\ (length (e_ei st) < length t)%nat /\
      (forall x, x ∈ e_ei st -> x ∈ t) /\
      (e_flag st = true -> level = 1 -> e_bytes st + 3 <= obl) /\
      (level <> 1 -> solid -> e_bytes st + 3 <= obl)
  | inr (out, rc) => same_outside d lim out0 out /\ rc < 0
  end.

(** Data copied to the destination pointer keeps the invariant. *)
Lemma enc_update_inv level d lim obl out0 st out rc :
  enc_inv level d lim obl out0 st -> 0 <= obl < 2 ^ 30 -> 0 <= rc -> rc + e_bytes st + 3 <= obl ->
  same_outside d lim out0 out -> enc_inv level d lim obl out0 (enc_update st out rc).
Proof.
  intros [H1 H2 H3 H4 H5 H6 H7] Ho Hrc Hle Hout. unfold enc_update.
  split; cbn; try done; rewrite ?u32_small by lia; lia.
Qed.

Lemma enc_goto_inv level d lim obl out0 st t f :
  enc_inv level d lim obl out0 st -> enc_inv level d lim obl out0 (enc_goto st t f).
Proof. by intros []. Qed.
Lemma enc_set_dlen_inv level d lim obl out0 st v :
  enc_inv level d lim obl out0 st -> 0 <= v < 2 ^ 32 -> enc_inv level d lim obl out0 (enc_set_dlen st v).
Proof. by intros []. Qed.

Section encode.
Context (enc : encoder) (nested : Z -> Z -> list qmi_elem_info -> bool).
Context (level size d lim obl s0 : Z) (src out0 : list Z).
Context (Henc : nested_safe enc nested (level + 1)).
Context (Hlev : 1 <= level) (Hs0 : 0 <= s0) (Hsize : s0 + size <= zlen src).
Context (Hsrc : zlen src < 2 ^ 30) (Hbytes : bytes_ok src).
Context (Hobl : 0 <= obl < 2 ^ 30) (Hd : 0 <= d).
Context (Hlim : d + obl + hdr level - 3 <= lim) (Hout0 : lim <= zlen out0).

Let entry := entry_ok nested level size.
Let inv := enc_inv level d lim obl out0.

(** What [entry_ok] says, as propositions. *)
Lemma entry_ok_inv ei : entry ei = true ->
  0 <= offset ei /\ 0 <= elem_len ei /\ 0 <= elem_size ei /\ offset ei + extent ei <= size /\
  elem_len ei * elem_size ei < 2 ^ 30 /\ elem_size ei < 2 ^ 30 /\ elem_len ei < 2 ^ 30 /\ 0 <= tlv_type ei < 256.
Proof.
  unfold entry, entry_ok. rewrite !andb_true_iff, !Z.leb_le, !Z.ltb_lt. tauto.
Qed.

(** Writing [n] bytes at the destination pointer. *)
Lemma enc_window st n :
  inv st -> 0 <= n -> n + e_bytes st + 3 <= obl ->
  0 <= e_dst st /\ d <= e_dst st /\ e_dst st + n <= lim /\ e_dst st + n <= zlen (e_out st).
Proof.
  intros [H1 H2 H3 H4 H5 H6 H7] Hn Hle. pose proof (so_len _ _ _ _ H1).
  assert (0 <= hdr level) by (unfold hdr; case_scrut; lia). lia.
Qed.

Lemma enc_basic st ei n :
  inv st -> entry ei = true -> 0 <= n -> n * elem_size ei <= extent ei -> n * elem_size ei < 2 ^ 30 ->
  n * elem_size ei + e_bytes st + 3 <= obl ->
  returns (qmi_encode_basic_elem (e_out st) (e_dst st) src (s0 + offset ei) n (elem_size ei)) (fun r =>
    r.2 = n * elem_size ei /\ inv (enc_update st r.1 r.2)).
Proof.
  intros Hinv He Hn Hx Hb Hle. destruct (entry_ok_inv ei He) as (E1 & E2 & E3 & E4 & E5 & E6 & E7 & _).
  destruct (enc_window st (n * elem_size ei) Hinv ltac:(nia) Hle) as (W1 & W2 & W3 & W4).
  eapply returns_mono; [apply basic_elem_spec; lia|].
  intros [m rc] (-> & Hm & _). cbn [fst snd] in *. split; [done|].
  apply enc_update_inv; try done; [nia|].
  eapply same_outside_trans; [apply Hinv|]. eapply same_outside_wider; [exact Hm|lia|lia].
Qed.

(** The number of elements is what the structure has room for. *)
Lemma enc_count_ok st ei n :
  inv st -> entry ei = true -> enc_count ei (e_dlen st) = Some n ->
  0 <= n < 2 ^ 32 /\ n * elem_size ei <= extent ei /\ n * elem_size ei < 2 ^ 30 /\
  (data_type ei = QMI_STRUCT -> 1 <= n).
Proof.
  intros Hinv He. destruct (entry_ok_inv ei He) as (E1 & E2 & E3 & E4 & E5 & E6 & E7 & _).
  pose proof (ei_dlen _ _ _ _ _ _ Hinv) as Hdl.
  unfold enc_count, extent. unfold entry, entry_ok in He. rewrite !andb_true_iff in He. destruct He as [_ He].
  destruct (array_type ei) eqn:Ea.
  - intros [= <-]. split_and!; lia.
  - intros [= <-]. split_and!; [lia..|]. intros Et. rewrite Et in He.
    destruct (ei_array ei); [|done]. rewrite !andb_true_iff, !Z.leb_le in He. lia.
  - destruct ((e_dlen st <=? 0) || (elem_len ei <? e_dlen st)) eqn:Eb; [intros; discriminate|]. reflect_bools. intros [= <-]. split_and!; nia.
Qed.

Lemma entry_ok_struct ei :
  entry ei = true -> data_type ei = QMI_STRUCT ->
  exists t, ei_array ei = Some t /\ nested (level + 1) (elem_size ei) t = true /\ starts_solid t = true.
Proof.
  intros He Et. unfold entry, entry_ok in He. rewrite Et, !andb_true_iff in He. destruct He as [_ He].
  destruct (ei_array ei) as [t|]; [|done]. rewrite !andb_true_iff in He. exists t.
  split_and!; [done|apply He|]. destruct t; [by destruct He|]. apply He.
Qed.

Lemma enc_struct st ei n :
  inv st -> entry ei = true -> data_type ei = QMI_STRUCT ->
  1 <= n < 2 ^ 32 -> n * elem_size ei <= extent ei ->
  returns (qmi_encode_struct_elem enc ei (e_out st) (e_dst st) src (s0 + offset ei) n
             (u32 (obl - e_bytes st)) (level + 1)) (fun r =>
    if r.2 <? 0 then same_outside d lim out0 r.1
    else r.2 + e_bytes st + 3 <= obl /\ inv (enc_update st r.1 r.2)).
Proof.
  intros Hinv He Et Hn Hx. destruct (entry_ok_inv ei He) as (E1 & E2 & E3 & E4 & E5 & E6 & E7 & _).
  destruct (entry_ok_struct ei He Et) as (t & Ea & Hok & Hst).
  pose proof Hinv as [H1 H2 H3 H4 H5 H6 H7]. pose proof (so_len _ _ _ _ H1) as Hlen.
  assert (0 <= hdr level) by (unfold hdr; case_scrut; lia).
  rewrite u32_small by lia. unfold qmi_encode_struct_elem.
  eapply returns_mono.
  { apply (struct_loop_spec enc nested (level + 1) ei t (Z.to_nat n) (e_out st) (e_dst st) src
      (s0 + offset ei) (obl - e_bytes st) lim 0); try done; rewrite ?Z2Nat.id by lia; lia. }
  intros [m rc] [Hm Hrc]. cbn [fst snd] in *.
  assert (Hm0 : same_outside d lim out0 m).
  { eapply same_outside_trans; [exact H1|]. eapply same_outside_wider; [exact Hm|lia|lia]. }
  destruct (rc <? 0) eqn:Er; reflect_bools; [done|]. split; [lia|]. apply enc_update_inv; try done; lia.
Qed.

Lemma enc_string st ei :
  inv st -> entry ei = true -> data_type ei = QMI_STRING ->
  (exists n, strlen_at src (s0 + offset ei) = Done n) ->
  returns (qmi_encode_string_elem ei (e_out st) (e_dst st) src (s0 + offset ei)
             (u32 (obl - e_bytes st)) level) (fun r =>
    if r.2 <? 0 then same_outside d lim out0 r.1
    else r.2 + e_bytes st + 3 <= obl /\ inv (enc_update st r.1 r.2)).
Proof.
  intros Hinv He Et [n En]. destruct (entry_ok_inv ei He) as (E1 & E2 & E3 & E4 & E5 & E6 & E7 & _).
  unfold entry, entry_ok in He. rewrite Et, !andb_true_iff, !Z.eqb_eq in He. destruct He as [_ [Hl1 Hsz]].
  pose proof Hinv as [H1 H2 H3 H4 H5 H6 H7].
  assert (Hn : 0 <= n /\ s0 + offset ei + n < zlen src).
  { unfold strlen_at in En. destruct (_ || _) eqn:Eb; [done|]. reflect_bools.
    apply strlen_range in En. unfold zlen in *. rewrite length_drop in En. lia. }
  unfold qmi_encode_string_elem. rewrite En. run. rewrite !u32_small by lia.
  destruct (elem_len ei <? n) eqn:Eel; reflect_bools; [apply returns_done; cbn; apply H1|].
  rewrite (proj2 (Z.eqb_eq _ _) Hl1).
  destruct (_ <? _) eqn:Eo; reflect_bools; [apply returns_done; cbn; apply H1|].
  unfold TLV_LEN_SIZE, TLV_TYPE_SIZE in Eo. rewrite Hsz.
  destruct (enc_window st n Hinv ltac:(lia) ltac:(lia)) as (W1 & W2 & W3 & W4).
  apply returns_bind. eapply returns_mono; [apply basic_elem_spec; lia|].
  intros [m rc]. cbn [fst snd]. intros (-> & Hm & _). apply returns_done. cbn [fst snd].
  rewrite Z.mul_1_r in *.
  rewrite (proj2 (Z.ltb_ge _ _)) by lia. split; [lia|]. apply enc_update_inv; [done|done|lia|lia|].
  eapply same_outside_trans; [exact H1|]. eapply same_outside_wider; [exact Hm|lia|lia].
Qed.


(** One entry of the table. *)
Lemma enc_elem_spec st ei t n :
  inv st -> e_ei st = ei :: t -> entries_ok entry level (e_ei st) = true ->
  is_type QMI_EOTI ei = false -> enc_count ei (e_dlen st) = Some n ->
  (level = 1 -> strings_ok (e_ei st) src s0) -> (level = 1 -> e_flag st = false) ->
  returns (enc_elem enc (enc_set_dlen st n) ei src (s0 + offset ei) obl level)
    (enc_step entry level d lim obl out0 (e_ei st)
       (e_bytes st + 3 <= obl \/ data_type ei <> QMI_OPT_FLAG)).
Proof.
  intros Hinv Ht Hes Heo Hc Hstr Hfl.
  pose proof Hes as Hes'. rewrite Ht in Hes'.
  apply entries_ok_cons in Hes' as (ei' & t' & [= <- <-] & Hk). destruct (Hk Heo) as (He & Hskip & Htl).
  destruct (enc_count_ok st ei n Hinv He Hc) as (N1 & N2 & N3 & N4).
  destruct (entry_ok_inv ei He) as (E1 & E2 & E3 & E4 & E5 & E6 & E7 & _).
  pose proof (enc_set_dlen_inv _ _ _ _ _ _ n Hinv N1) as Hinv1.
  assert (Hupd : forall out rc, rc + e_bytes st + 3 <= obl -> 0 <= rc -> inv (enc_update (enc_set_dlen st n) out rc) ->
    enc_step entry level d lim obl out0 (e_ei st) (e_bytes st + 3 <= obl \/ data_type ei <> QMI_OPT_FLAG)
      (inl (enc_update (enc_set_dlen st n) out rc))).
  { intros out rc Hrc Hrc0 Hi. split_and!; try done; cbn [e_ei enc_update enc_set_dlen]; rewrite ?Ht; cbn [tail length]; try done.
    - lia.
    - intros x Hx. by right.
    - intros _ _. cbn. rewrite u32_small by (destruct Hinv; lia). lia.
    - intros _ _. cbn. rewrite u32_small by (destruct Hinv; lia). lia. }
  assert (Hbasic : returns
    (if obl <? u32 (u32 (e_dlen (enc_set_dlen st n) * elem_size ei) + e_bytes (enc_set_dlen st n))
               + TLV_LEN_SIZE + TLV_TYPE_SIZE
     then Done (inr (e_out (enc_set_dlen st n), - EINVAL))
     else '(out, rc) ← qmi_encode_basic_elem (e_out (enc_set_dlen st n)) (e_dst (enc_set_dlen st n)) src
             (s0 + offset ei) (e_dlen (enc_set_dlen st n)) (elem_size ei);
          Done (inl (enc_update (enc_set_dlen st n) out rc)))
    (enc_step entry level d lim obl out0 (e_ei st) (e_bytes st + 3 <= obl \/ data_type ei <> QMI_OPT_FLAG))).
  { cbn [e_dlen enc_set_dlen e_bytes e_out e_dst]. unfold TLV_LEN_SIZE, TLV_TYPE_SIZE.
    rewrite (u32_small (n * elem_size ei)) by nia. rewrite u32_small by (destruct Hinv; nia).
    destruct (_ <? _) eqn:Eo; reflect_bools; [apply returns_done; split; [apply Hinv|done]|].
    apply returns_bind. eapply returns_mono; [apply (enc_basic (enc_set_dlen st n) ei n); try done; cbn; lia|].
    intros [m rc]. cbn [fst snd]. intros [-> Hi]. apply returns_done. apply Hupd; [lia|nia|done]. }
  unfold enc_elem. destruct (data_type ei) eqn:Ety; try exact Hbasic; clear Hbasic.
  - unfold is_type in Heo. rewrite Ety in Heo. by apply bool_decide_eq_false in Heo.
  - assert (Hoff : offset ei + 1 <= size).
    { unfold entry, entry_ok in He. rewrite Ety, !andb_true_iff in He. by apply Z.leb_le, He. }
    apply returns_bind, returns_read; [lia..|]. intros b _ _ _.
    assert (Hgo : forall t'', entries_ok entry level t'' = true -> (length t'' <= length t)%nat ->
      (forall x, x ∈ t'' -> x ∈ t) ->
      enc_step entry level d lim obl out0 (ei :: t) (e_bytes st + 3 <= obl \/ QMI_OPT_FLAG <> QMI_OPT_FLAG)
        (inl (enc_goto (enc_set_dlen st n) t'' (e_flag (enc_set_dlen st n))))).
    { intros t'' H1 H2 H3. split_and!; [by apply enc_goto_inv|done|cbn; lia|intros x Hx; right; auto| |].
      - cbn. intros Hf ->. by rewrite Hfl in Hf.
      - intros _ [?|?]; done. }
    destruct (negb _).
    + apply returns_done. cbn [e_ei enc_set_dlen]. rewrite Ht. by apply Hgo.
    + unfold skip_ok in Hskip. rewrite Ety in Hskip. apply is_done_inv in Hskip as [t'' E].
      cbn [e_ei enc_set_dlen]. rewrite Ht, E. run. apply returns_done.
      rewrite Ht in Hes. destruct (skip_next_ok entry level ei t t'' Hes Heo E) as (? & ? & ?).
      by apply Hgo.
  - assert (Hsz : elem_size ei <= 4 /\ offset ei + 4 <= size).
    { unfold entry, entry_ok in He. rewrite Ety, !andb_true_iff in He.
      split; apply Z.leb_le, He. }
    destruct Hsz as [Hsz Hoff].
    cbn [e_dlen e_bytes e_out e_dst e_ei enc_set_dlen].
    apply returns_bind. eapply returns_mono; [apply read_into_u32_spec; lia|].
    intros v Hv. specialize (Hv Hbytes).
    assert (Hw : 1 <= len_width ei <= 2) by (unfold len_width; case_scrut; lia).
    unfold TLV_LEN_SIZE, TLV_TYPE_SIZE. rewrite u32_small by (destruct Hinv; lia).
    destruct (_ <? _) eqn:Eo; reflect_bools; [apply returns_done; split; [apply Hinv|done]|].
    destruct (enc_window st (len_width ei) Hinv ltac:(lia) ltac:(lia)) as (W1 & W2 & W3 & W4).
    apply returns_bind. eapply returns_mono.
    { apply basic_elem_spec; [lia|lia|lia|lia|lia|lia|]. unfold zlen. rewrite length_le_bytes. lia. }
    intros [m rc]. cbn [fst snd]. rewrite Z.mul_1_l. intros (-> & Hm & _).
    set (st1 := enc_update (enc_set_dlen (enc_set_dlen st n) v) m (len_width ei)).
    assert (Hinv2 : inv st1).
    { apply enc_update_inv; cbn; try done; [by apply enc_set_dlen_inv|lia|lia|].
      eapply same_outside_trans; [apply Hinv|]. eapply same_outside_wider; [exact Hm|lia|lia]. }
    assert (Hb1 : e_bytes st1 + 3 <= obl) by (cbn; rewrite u32_small by (destruct Hinv; lia); lia).
    assert (Et1 : e_ei st1 = t) by (cbn; by rewrite Ht).
    unfold skip_ok in Hskip. rewrite Ety in Hskip. destruct t as [|nxt t2]; [done|].
    apply andb_true_iff in Hskip as [Hne%negb_true_iff Hskip]. rewrite Et1.
    destruct (v =? 0).
    + apply is_done_inv in Hskip as [t3 E]. rewrite E. run. apply returns_done.
      destruct (skip_next_ok entry level nxt t2 t3 Htl Hne E) as (? & ? & ?).
      split_and!; try done; [by apply enc_goto_inv|cbn; rewrite Ht; cbn; lia|].
      intros x Hx. rewrite Ht. right; right. auto.
    + apply returns_done. split_and!; try done; [by apply enc_goto_inv|cbn; rewrite Ht; cbn; lia|].
      intros x Hx. rewrite Ht. by right.
  - specialize (N4 eq_refl).
    apply returns_bind. eapply returns_mono; [apply (enc_struct (enc_set_dlen st n) ei n); try done; lia|].
    intros [m rc]. cbn [fst snd]. intros Hr. destruct (rc <? 0) eqn:Er; reflect_bools; apply returns_done.
    + by split; [|lia].
    + destruct Hr as [Hr Hi]. by apply Hupd.
  - apply returns_bind. eapply returns_mono.
    { apply (enc_string (enc_set_dlen st n) ei); try done.
      assert (Hl1 : level = 1).
      { unfold entry, entry_ok in He. rewrite Ety, !andb_true_iff, !Z.eqb_eq in He. apply He. }
      apply (Hstr Hl1); [rewrite Ht; left|done]. }
    intros [m rc]. cbn [fst snd]. intros Hr. destruct (rc <? 0) eqn:Er; reflect_bools; apply returns_done.
    + by split; [|lia].
    + destruct Hr as [Hr Hi]. by apply Hupd.
Qed.

(** Closing a TLV writes its header into the room kept for it. *)
Lemma enc_tlv_spec st ty t solid :
  enc_step entry level d lim obl out0 t solid (inl st) -> 0 <= ty < 256 ->
  returns (enc_tlv st ty level) (fun st' =>
    enc_step entry level d lim obl out0 t solid (inl st') /\ (level = 1 -> e_flag st' = false)).
Proof.
  intros (Hinv & Hes & Hlt & Hin & Hfl & Hsol) Hty. unfold enc_tlv.
  destruct (e_flag st && (level =? 1)) eqn:Ef.
  2:{ apply returns_done. split; [by split_and!|]. intros ->. by rewrite andb_true_r in Ef. }
  apply andb_true_iff in Ef as [Ef El]. reflect_bools. specialize (Hfl Ef El).
  destruct Hinv as [H1 H2 H3 H4 H5 H6 H7]. pose proof (so_len _ _ _ _ H1) as Hlen.
  unfold hdr in H2, Hlim. rewrite El in H2, Hlim. cbn [Z.eqb Pos.eqb] in H2, Hlim.
  unfold QMI_ENCDEC_ENCODE_TLV, TLV_LEN_SIZE, TLV_TYPE_SIZE. 
  assert (Hw : forall m p b (Q : list Z -> Prop), same_outside d lim out0 m -> d <= p -> p < lim ->
    (forall m', same_outside d lim out0 m' -> Q m') -> returns (write_mem m p [b]) Q).
  { intros m p b Q Hm Hp1 Hp2 HQ. pose proof (so_len _ _ _ _ Hm).
    apply returns_write; [lia|unfold zlen in *; cbn; lia|]. intros m' Hm' _ _. apply HQ.
    eapply same_outside_trans; [exact Hm|]. eapply same_outside_wider; [exact Hm'|lia|unfold zlen; cbn; lia]. }
  apply returns_bind, returns_bind, Hw; [done|lia|lia|]. intros m1 Hm1.
  apply returns_bind, Hw; [done|lia|lia|]. intros m2 Hm2. apply Hw; [done|lia|lia|]. intros m3 Hm3.
  apply returns_done. split; [|done]. split_and!; try done.
  split; cbn; rewrite ?u32_small by lia; unfold hdr; rewrite ?El; cbn; try done; lia.
Qed.

(** The whole table. *)
Lemma encode_loop_spec k st :
  inv st -> entries_ok entry level (e_ei st) = true -> (length (e_ei st) <= k)%nat ->
  (level = 1 -> strings_ok (e_ei st) src s0) -> (level = 1 -> e_flag st = false) ->
  (level <> 1 -> e_bytes st + 3 <= obl \/ starts_solid (e_ei st) = true) ->
  returns (encode_loop enc (S k) st src s0 obl level)
    (enc_post d lim obl (if level =? 1 then 0 else 3) out0).
Proof.
  revert st. induction k as [|k IH]; intros st Hinv Hes Hk Hstr Hfl Hsol.
  { apply entries_ok_cons in Hes as (ei & t & E & _). rewrite E in Hk. cbn in Hk. lia. }
  remember (S k) as k'. cbn [encode_loop]. subst k'.
  pose proof Hes as Hes'. apply entries_ok_cons in Hes' as (ei & t & Et & Hei). unfold ei_at. rewrite Et at 1. cbn [head]. run.
  destruct (is_type QMI_EOTI ei) eqn:Heo.
  { apply returns_done. split; [apply Hinv|]. right. cbn [snd]. destruct Hinv as [_ _ _ _ _ Hb _].
    rewrite s32_small by lia. destruct (level =? 1) eqn:El; reflect_bools; [lia|].
    destruct (Hsol El) as [?|Hs]; [lia|]. rewrite Et in Hs. cbn in Hs. by rewrite Heo in Hs. }
  destruct (enc_count ei (e_dlen st)) as [n|] eqn:Ec.
  2:{ apply returns_done. split; [apply Hinv|]. by left. }
  apply returns_bind. eapply returns_mono; [by apply (enc_elem_spec st ei t n)|].
  intros [st1|[out rc]] Hst1; [|apply returns_done; destruct Hst1; split; [done|by left]].
  destruct (Hei eq_refl) as (He & _). apply entry_ok_inv in He as (_ & _ & _ & _ & _ & _ & _ & Hty).
  apply returns_bind. eapply returns_mono; [by eapply enc_tlv_spec|].
  intros st2 [(H1 & H2 & H3 & H4 & H5 & H6) Hf2]. apply IH; try done; [lia| |].
  - intros El x Hx Hxs. apply (Hstr El); auto.
  - intros El. left. apply H6; [done|]. destruct (Hsol El) as [?|Hs]; [by left|]. right.
    rewrite Et in Hs. cbn in Hs. apply andb_true_iff in Hs as [_ Hs%negb_true_iff].
    unfold is_type in Hs. by apply bool_decide_eq_false in Hs.
Qed.

End encode.

Lemma nested_encode_safe fuel level :
  2 <= level -> nested_safe (qmi_encode fuel) (table_ok fuel) level.
Proof.
  revert level. induction fuel as [|fuel IH]; intros level Hl size t out d src so obl lim Hok Hst Hso Hsize Hs30 Hby Hobl Hd Hlim Hout;
    [done|]. cbn [table_ok] in Hok. cbn [qmi_encode].
  assert ((level =? 1) = false) as El by (apply Z.eqb_neq; lia). rewrite El.
  eapply returns_mono.
  - eapply (encode_loop_spec (qmi_encode fuel) (table_ok fuel) level size d lim obl so src out); try done.
    + apply IH. lia.
    + lia.
    + unfold hdr. rewrite El. lia.
    + split; cbn; unfold hdr; rewrite ?El; try done; lia.
    + intros; lia.
    + by right.
  - intros r. by rewrite El.
Qed.

Lemma qmi_encode_fits fuel size t out d src so obl :
  table_ok fuel 1 size t = true -> strings_ok t src so -> bytes_ok src ->
  0 <= so -> so + size <= zlen src -> zlen src < 2 ^ 30 ->
  0 <= obl < 2 ^ 30 -> 0 <= d -> d + obl <= zlen out ->
  returns (qmi_encode fuel (Some t) out d src so obl 1) (enc_post d (d + obl) obl 0 out).
Proof.
  destruct fuel as [|fuel]; [done|]. intros Hok Hstr Hby Hso Hsize Hs30 Hobl Hd Hout.
  cbn [table_ok] in Hok. cbn [qmi_encode Z.eqb Pos.eqb].
  eapply (encode_loop_spec (qmi_encode fuel) (table_ok fuel) 1 size d (d + obl) obl so src out); try done.
  - by apply nested_encode_safe.
  - unfold hdr. cbn. lia.
  - split; unfold TLV_LEN_SIZE, TLV_TYPE_SIZE, hdr; cbn; try done; lia.
Qed.
