(* ===== verification/QmiDecode.v ===== *)
(** * The QMI codec: what decoding reads and writes

    The decoder does not compare the lengths in a message with the length of the
    message, so it can read behind it.  For a table that satisfies [dtable_ok] the
    excess is bounded by [3 + wire_table], whatever the message, and nothing is
    ever written outside the structure. *)
From S2P Require Import Prelude CString Hash Qrtr Qmi QmiFacts.

(** ** Tables that are safe to decode with *)

(** Largest number of elements of an entry. *)
Definition count_max (ei : qmi_elem_info) : Z :=
  match array_type ei with NO_ARRAY => 1 | _ => elem_len ei end.

Definition dentry_ok (nested : Z -> list qmi_elem_info -> bool) (size : Z) (ei : qmi_elem_info) : bool :=
  (0 <=? offset ei) && (0 <=? elem_len ei) && (elem_len ei <? 2 ^ 16) &&
  (0 <=? elem_size ei) && (elem_size ei <? 2 ^ 16) && (offset ei + count_max ei * elem_size ei <=? size) &&
  (count_max ei * elem_size ei <? 2 ^ 30) &&
  match data_type ei with
  | QMI_EOTI => true
  | QMI_OPT_FLAG => offset ei + 1 <=? size
  | QMI_DATA_LEN => offset ei + 4 <=? size
  | QMI_STRUCT => match ei_array ei with Some t => nested (elem_size ei) t | None => false end
  | QMI_STRING => (elem_size ei =? 1) && (offset ei + elem_len ei + 1 <=? size)
  | _ => true
  end.

Fixpoint dentries_ok (entry : qmi_elem_info -> bool) (t : list qmi_elem_info) : bool :=
  match t with
  | [] => false
  | ei :: t' => if is_type QMI_EOTI ei then true else entry ei && dentries_ok entry t'
  end.

(** The bytes of a message an entry, or a table, can ask for. *)
Definition wire_entry (nested : list qmi_elem_info -> Z) (ei : qmi_elem_info) : Z :=
  match data_type ei with
  | QMI_EOTI | QMI_OPT_FLAG => 0
  | QMI_DATA_LEN => 2
  | QMI_STRUCT => match ei_array ei with Some t => count_max ei * nested t | None => 0 end
  | QMI_STRING => 2 + elem_len ei
  | _ => count_max ei * elem_size ei
  end.

Fixpoint wire_entries (entry : qmi_elem_info -> Z) (t : list qmi_elem_info) : Z :=
  match t with
  | [] => 0
  | ei :: t' => if is_type QMI_EOTI ei then 0 else entry ei + wire_entries entry t'
  end.

Fixpoint wire_table (fuel : nat) (t : list qmi_elem_info) : Z :=
  match fuel with
  | O => 0
  | S fuel' => wire_entries (wire_entry (wire_table fuel')) t
  end.

(** The table [t], nested at most [fuel] deep, describes a structure of [size]
    bytes; its nested structures take less than 2^14 bytes of a message. *)
Fixpoint dtable_ok (fuel : nat) (size : Z) (t : list qmi_elem_info) : bool :=
  match fuel with
  | O => false
  | S fuel' =>
      dentries_ok (dentry_ok (fun sz t' => dtable_ok fuel' sz t' && (wire_table fuel' t' <? 2 ^ 14)) size) t
  end.

Lemma dentries_ok_cons entry t :
  dentries_ok entry t = true ->
  exists ei t', t = ei :: t' /\
    (is_type QMI_EOTI ei = false -> entry ei = true /\ dentries_ok entry t' = true).
Proof.
  destruct t as [|ei t']; cbn [dentries_ok]; [done|]. intros H. exists ei, t'. split; [done|].
  intros Hei. rewrite Hei in H. by apply andb_true_iff in H.
Qed.

Lemma is_type_false ty ty' ei : data_type ei = ty' -> ty <> ty' -> is_type ty ei = false.
Proof. intros E Hne. apply bool_decide_eq_false. congruence. Qed.

(** ** Nested decoding *)

Definition dec_post (o0 size most : Z) (out : list Z) (r : list Z * Z) : Prop :=
  same_outside o0 (o0 + size) out r.1 /\ (r.2 < 0 \/ 0 <= r.2 <= most).

Definition nested_dsafe (dec : decoder) (nested : Z -> list qmi_elem_info -> bool)
    (wire : list qmi_elem_info -> Z) (level : Z) : Prop :=
  forall size t out o0 src so in_len,
    nested size t = true -> 0 <= wire t < 2 ^ 30 -> 0 <= o0 -> o0 + size <= zlen out -> 0 <= so ->
    so + wire t <= zlen src -> bytes_ok src -> 0 <= in_len ->
    returns (dec (Some t) out o0 src so in_len level) (dec_post o0 size (wire t) out).

Lemma dec_struct_loop_spec dec nested wire level ei t n i out d src so tlv_len decoded :
  nested_dsafe dec nested wire level -> ei_array ei = Some t -> nested (elem_size ei) t = true ->
  0 <= wire t -> decoded + Z.of_nat n * wire t < 2 ^ 30 -> 0 <= decoded ->
  0 <= elem_size ei -> 0 <= d -> d + Z.of_nat n * elem_size ei <= zlen out -> 0 <= so ->
  so + Z.of_nat n * wire t <= zlen src -> bytes_ok src ->
  returns (dec_struct_loop dec ei n i out d src so tlv_len level decoded) (fun r =>
    same_outside d (d + Z.of_nat n * elem_size ei) out r.1.1 /\
    (r.1.2 < 0 \/ 0 <= r.1.2 <= decoded + Z.of_nat n * wire t)).
Proof.
  intros Hdec Et Hok Hw. revert i out d so decoded.
  induction n as [|n IH]; intros i out d so decoded Hb Hdc Hsz Hd Hout Hso Hsrc Hby; cbn [dec_struct_loop].
  - apply returns_done. split; [apply same_outside_refl|]. cbn. lia.
  - destruct (decoded <? tlv_len); [|apply returns_done; split; [apply same_outside_refl|]; cbn [fst snd]; nia].
    rewrite Et. apply returns_bind. eapply returns_mono.
    { apply (Hdec (elem_size ei) t out d src so); try done; try nia. apply u32_range. }
    intros [m rc] [Hm Hrc]. cbn [fst snd] in *. pose proof (so_len _ _ _ _ Hm) as Hl.
    destruct (rc <? 0) eqn:Er; reflect_bools.
    + apply returns_done. cbn. split; [|by left]. eapply same_outside_wider; [exact Hm|lia|nia].
    + eapply returns_mono; [apply IH; try done; nia|].
      intros [[m' rc'] i'] [Hm' Hrc']. cbn [fst snd] in *. split; [|nia].
      eapply same_outside_trans; eapply same_outside_wider; try done; nia.
Qed.

(** ** The decoding loop *)

Record dec_inv (size o0 : Z) (out0 : list Z) (st : dec_state) : Prop := {
  di_out : same_outside o0 (o0 + size) out0 (d_out st);
  di_dlen : 0 <= d_dlen st < 2 ^ 32;
  di_bytes : 0 <= d_bytes st;
  di_src : 0 <= d_src st;
  di_tlv : 0 <= d_tlvlen st }.

Section decode.
Context (dec : decoder) (nested : Z -> list qmi_elem_info -> bool) (wire : list qmi_elem_info -> Z).
Context (size o0 : Z) (src out0 : list Z).
Context (Hwire : forall t sz, nested sz t = true -> 0 <= wire t < 2 ^ 14).
Context (Hby : bytes_ok src) (Ho : 0 <= o0) (Hout0 : o0 + size <= zlen out0).

Let entry := dentry_ok nested size.
Let inv := dec_inv size o0 out0.

Lemma dentry_inv ei : entry ei = true ->
  0 <= offset ei /\ 0 <= elem_len ei < 2 ^ 16 /\ 0 <= elem_size ei < 2 ^ 16 /\
  offset ei + count_max ei * elem_size ei <= size /\ 0 <= count_max ei < 2 ^ 16 /\
  count_max ei * elem_size ei < 2 ^ 30.
Proof.
  unfold entry, dentry_ok, count_max. rewrite !andb_true_iff, !Z.leb_le, !Z.ltb_lt.
  intros H. destruct (array_type ei); lia.
Qed.

Lemma wire_entry_pos ei : entry ei = true -> 0 <= wire_entry wire ei <= 2 ^ 30.
Proof.
  intros He. pose proof (dentry_inv ei He) as (H1 & H2 & H3 & H4 & H5 & H6).
  unfold entry, dentry_ok in He. rewrite !andb_true_iff in He. destruct He as [_ He]. unfold wire_entry.
  destruct (data_type ei); try nia. destruct (ei_array ei) as [t|]; [|done]. apply Hwire in He. nia.
Qed.

Lemma wire_entries_pos t : dentries_ok entry t = true -> 0 <= wire_entries (wire_entry wire) t.
Proof.
  induction t as [|ei t IH]; cbn [dentries_ok wire_entries]; [done|].
  destruct (is_type QMI_EOTI ei); [done|]. intros [He Ht]%andb_true_iff.
  pose proof (wire_entry_pos ei He). specialize (IH Ht). lia.
Qed.

(** A decoder step that read [k] bytes and moved on in the table. *)
Definition consumed (st st' : dec_state) : Prop :=
  inv st' /\ dentries_ok entry (d_ei st') = true /\ (length (d_ei st') <= length (d_ei st))%nat /\
  exists k, 0 <= k /\ d_src st' = d_src st + k /\ d_bytes st' = d_bytes st + k /\
    k + wire_entries (wire_entry wire) (d_ei st') <= wire_entries (wire_entry wire) (d_ei st).

(** There is as much in the buffer as the rest of the table can ask for. *)
Definition enough (st : dec_state) : Prop :=
  d_src st + wire_entries (wire_entry wire) (d_ei st) <= zlen src /\
  d_bytes st + wire_entries (wire_entry wire) (d_ei st) < 2 ^ 31.

Lemma consumed_enough st st' : enough st -> consumed st st' -> enough st'.
Proof. intros [E1 E2] (_ & _ & _ & k & Hk & S & B & W). unfold enough. lia. Qed.

Lemma consumed_trans st1 st2 st3 : consumed st1 st2 -> consumed st2 st3 -> consumed st1 st3.
Proof.
  intros (_ & _ & L1 & k1 & K1 & S1 & B1 & W1) (I2 & O2 & L2 & k2 & K2 & S2 & B2 & W2).
  split_and!; [done|done|lia|]. exists (k1 + k2). lia.
Qed.

Lemma consumed_refl st : inv st -> dentries_ok entry (d_ei st) = true -> consumed st st.
Proof. intros. split_and!; try done. exists 0. lia. Qed.

Lemma write_inv st o (bs : list Z) out :
  inv st -> o0 <= o -> o + zlen bs <= o0 + size -> same_outside o (o + zlen bs) (d_out st) out ->
  same_outside o0 (o0 + size) out0 out.
Proof.
  intros [H1 _ _ _ _] Hlo Hhi Hout. eapply same_outside_trans; [exact H1|].
  eapply same_outside_wider; [exact Hout|lia|lia].
Qed.

Lemma dec_opt_flag_spec st :
  inv st -> dentries_ok entry (d_ei st) = true -> returns (dec_opt_flag st o0) (consumed st).
Proof.
  intros Hinv Hok. destruct (dentries_ok_cons entry _ Hok) as (ei & t & Et & Hei).
  unfold dec_opt_flag, ei_at. rewrite Et at 1. cbn [head]. run.
  destruct (is_type QMI_OPT_FLAG ei) eqn:Ef; [|apply returns_done; by apply consumed_refl].
  assert (Ety : data_type ei = QMI_OPT_FLAG) by (by apply bool_decide_eq_true in Ef).
  assert (Hne : is_type QMI_EOTI ei = false) by (by eapply is_type_false).
  destruct (Hei Hne) as [He Htl].
  pose proof (dentry_inv ei He) as (H1 & H2 & H3 & H4 & H5 & H6).
  assert (Hsz : offset ei + 1 <= size).
  { unfold entry, dentry_ok in He. rewrite Ety, !andb_true_iff in He. by apply Z.leb_le, He. }
  pose proof (so_len _ _ _ _ (di_out _ _ _ _ Hinv)) as Hl.
  apply returns_bind, returns_write; [lia|unfold zlen in *; cbn; lia|]. intros out Hout _ _.
  apply returns_done. split; [|cbn; rewrite Et; cbn [tail]; split_and!; [done|cbn; lia|]].
  - split; cbn; try apply Hinv. apply (write_inv st (o0 + offset ei) [1]); try done; unfold zlen; cbn; lia.
  - exists 0. cbn [wire_entries]. rewrite Hne. unfold wire_entry at 2. rewrite Ety. lia.
Qed.


Lemma dec_data_len_spec st :
  inv st -> dentries_ok entry (d_ei st) = true -> enough st ->
  returns (dec_data_len st o0 src) (consumed st).
Proof.
  intros Hinv Hok Hen. destruct (dentries_ok_cons entry _ Hok) as (ei & t & Et & Hei).
  unfold dec_data_len, ei_at. rewrite Et at 1. cbn [head]. run.
  destruct (is_type QMI_DATA_LEN ei) eqn:Ef; [|apply returns_done; by apply consumed_refl].
  assert (Ety : data_type ei = QMI_DATA_LEN) by (by apply bool_decide_eq_true in Ef).
  assert (Hne : is_type QMI_EOTI ei = false) by (by eapply is_type_false).
  destruct (Hei Hne) as [He Htl].
  pose proof (dentry_inv ei He) as (H1 & H2 & H3 & H4 & H5 & H6).
  assert (Hsz : offset ei + 4 <= size).
  { unfold entry, dentry_ok in He. rewrite Ety, !andb_true_iff in He. by apply Z.leb_le, He. }
  destruct Hinv as [I1 I2 I3 I4 I5]. destruct Hen as [E1 E2].
  pose proof (wire_entries_pos t Htl) as Hwt.
  rewrite Et in E1, E2. cbn [wire_entries] in E1, E2. rewrite Hne in E1, E2.
  unfold wire_entry at 1 in E1. unfold wire_entry at 1 in E2. rewrite Ety in E1, E2.
  assert (Hw : 1 <= len_width ei <= 2) by (unfold len_width; case_scrut; lia).
  apply returns_bind. eapply returns_mono; [apply read_into_u32_spec; lia|].
  intros v Hv. specialize (Hv Hby). pose proof (so_len _ _ _ _ I1) as Hl.
  assert (Hz : zlen (le_bytes 4 v) = 4) by (unfold zlen; by rewrite length_le_bytes).
  apply returns_bind, returns_write; [lia|lia|]. intros out Hout _ _.
  apply returns_done. split; [|cbn; rewrite Et; cbn [tail]; split_and!; [done|cbn; lia|]].
  - split; cbn; try done; [|rewrite u32_small by lia; lia|lia|apply u32_range].
    apply (write_inv st (o0 + offset ei) (le_bytes 4 v)); [by split|lia|lia|done].
  - exists (len_width ei). cbn [wire_entries]. rewrite Hne, u32_small by lia.
    unfold wire_entry at 2. rewrite Ety. lia.
Qed.

Section elem.
Context (level : Z) (Hdec : nested_dsafe dec nested wire (level + 1)).

(** The bytes of the structure written, and of the message read, by one entry. *)
Definition elem_post (st : dec_state) (ei : qmi_elem_info) (r : dec_state + list Z * Z) : Prop :=
  match r with
  | inl st' => inv st' /\ d_ei st' = d_ei st /\
      exists k, 0 <= k <= wire_entry wire ei /\ d_src st' = d_src st + k /\ d_bytes st' = d_bytes st + k
  | inr (out, rc) => same_outside o0 (o0 + size) out0 out /\ rc < 0
  end.

Lemma dec_update_post st ei out rc :
  inv st -> same_outside o0 (o0 + size) out0 out -> 0 <= rc <= wire_entry wire ei ->
  d_bytes st + wire_entry wire ei < 2 ^ 31 -> elem_post st ei (inl (dec_update st out rc)).
Proof.
  intros [I1 I2 I3 I4 I5] Hout Hrc Hb. split; [|split; [done|]].
  - split; cbn; try done; [rewrite u32_small by lia; lia|lia].
  - exists rc. cbn. rewrite u32_small by lia. lia.
Qed.

Lemma dec_string_spec st ei :
  inv st -> entry ei = true -> data_type ei = QMI_STRING -> 0 <= d_tlvlen st ->
  d_src st + wire_entry wire ei <= zlen src -> d_bytes st + wire_entry wire ei < 2 ^ 31 ->
  returns (qmi_decode_string_elem ei (d_out st) (o0 + offset ei) src (d_src st) (d_tlvlen st) level)
    (fun r => same_outside o0 (o0 + size) out0 r.1 /\ (r.2 < 0 \/ 0 <= r.2 <= wire_entry wire ei)).
Proof.
  intros Hinv He Ety Htl E1 E2. pose proof (dentry_inv ei He) as (H1 & H2 & H3 & H4 & H5 & H6).
  unfold entry, dentry_ok in He. rewrite Ety, !andb_true_iff, Z.eqb_eq in He. destruct He as [_ [Hsz Hoff%Z.leb_le]].
  unfold wire_entry in *. rewrite Ety in *.
  destruct Hinv as [I1 I2 I3 I4 I5]. pose proof (so_len _ _ _ _ I1) as Hl.
  assert (Hw : 1 <= string_width ei <= 2) by (unfold string_width; case_scrut; lia).
  unfold qmi_decode_string_elem. apply returns_bind.
  eapply returns_mono with (P := fun r => 0 <= r.1 /\ 0 <= r.2 <= 2).
  { destruct (level =? 1); [apply returns_done; cbn; lia|]. apply returns_bind.
    eapply returns_mono; [apply read_into_u32_spec; lia|]. intros v Hv. specialize (Hv Hby).
    apply returns_done. cbn. lia. }
  intros [sl dc]. cbn [fst snd]. intros [Hsl Hdc].
  destruct (elem_len ei <? sl) eqn:El; reflect_bools; [apply returns_done; by split; [|left]|].
  destruct (d_tlvlen st <? sl) eqn:Et; reflect_bools; [apply returns_done; by split; [|left]|].
  unfold qmi_decode_basic_elem. rewrite Hsz.
  apply returns_bind. eapply returns_mono; [apply basic_elem_spec; lia|].
  intros [m rc]. cbn [fst snd]. rewrite Z.mul_1_r. intros (-> & Hm & _). pose proof (so_len _ _ _ _ Hm) as Hl2.
  apply returns_bind, returns_write; [lia|unfold zlen in *; cbn; lia|]. intros m2 Hm2 _ _.
  apply returns_done. cbn [fst snd]. split; [|lia].
  eapply same_outside_trans; [exact I1|]. 
  eapply same_outside_trans; eapply same_outside_wider; try done; unfold zlen; cbn; lia.
Qed.

Lemma dec_elem_spec st ei :
  inv st -> (is_type QMI_EOTI ei = false -> entry ei = true) ->
  0 <= d_dlen st <= count_max ei ->
  (is_type QMI_EOTI ei = false -> d_src st + wire_entry wire ei <= zlen src /\
                                  d_bytes st + wire_entry wire ei < 2 ^ 31) ->
  returns (dec_elem dec st ei o0 src level) (elem_post st ei).
Proof.
  intros Hinv He0 Hn Hen0. pose proof Hinv as [I1 I2 I3 I4 I5]. pose proof (so_len _ _ _ _ I1) as Hl.
  destruct (is_type QMI_EOTI ei) eqn:Hne.
  { apply bool_decide_eq_true in Hne. unfold dec_elem. rewrite Hne. apply returns_done. by split. }
  specialize (He0 eq_refl). specialize (Hen0 eq_refl). destruct Hen0 as [E1 E2]. rename He0 into He.
  pose proof (dentry_inv ei He) as (H1 & H2 & H3 & H4 & H5 & H6).
  assert (Hbasic : wire_entry wire ei = count_max ei * elem_size ei ->
    returns ('(out, rc) ← qmi_decode_basic_elem (d_out st) (o0 + offset ei) src (d_src st) (d_dlen st) (elem_size ei);
             Done (inl (dec_update st out rc))) (elem_post st ei)).
  { intros Ew. rewrite Ew in E1, E2. unfold qmi_decode_basic_elem.
    apply returns_bind. eapply returns_mono; [apply basic_elem_spec; nia|].
    intros [m rc]. cbn [fst snd]. intros (-> & Hm & _). apply returns_done.
    apply dec_update_post; [done| |rewrite Ew; nia|lia].
    eapply same_outside_trans; [exact I1|]. eapply same_outside_wider; [exact Hm|lia|nia]. }
  unfold dec_elem. destruct (data_type ei) eqn:Ety;
    try (apply Hbasic; unfold wire_entry; by rewrite Ety); clear Hbasic.
  - apply returns_done. by split.
  - apply returns_done. by split.
  - apply returns_done. by split.
  - assert (Hst : exists t, ei_array ei = Some t /\ nested (elem_size ei) t = true).
    { unfold entry, dentry_ok in He. rewrite Ety, !andb_true_iff in He. destruct He as [_ He].
      destruct (ei_array ei) as [t|]; [|done]. by exists t. }
    destruct Hst as (t & Ea & Hok). pose proof (Hwire _ _ Hok) as Hw.
    assert (Ew : wire_entry wire ei = count_max ei * wire t) by (unfold wire_entry; by rewrite Ety, Ea).
    rewrite Ew in E1, E2. unfold qmi_decode_struct_elem.
    apply returns_bind, returns_bind. eapply returns_mono.
    { apply (dec_struct_loop_spec dec nested wire (level + 1) ei t (Z.to_nat (d_dlen st)) 0);
        try done; rewrite ?Z2Nat.id by lia; nia. }
    intros [[m rc] i]. cbn [fst snd]. rewrite Z2Nat.id by lia. intros [Hm Hrc].
    assert (Hm0 : same_outside o0 (o0 + size) out0 m).
    { eapply same_outside_trans; [exact I1|]. eapply same_outside_wider; [exact Hm|lia|nia]. }
    destruct (rc <? 0) eqn:Er; reflect_bools; [|destruct (_ || _)]; apply returns_done; cbn [fst snd].
    + rewrite (proj2 (Z.ltb_lt _ _) Er). apply returns_done. by split.
    + apply returns_done. by split.
    + rewrite (proj2 (Z.ltb_ge _ _) Er). apply returns_done. apply dec_update_post; [done|done|rewrite Ew; nia|lia].
  - apply returns_bind. eapply returns_mono; [by apply (dec_string_spec st ei)|].
    intros [m rc]. cbn [fst snd]. intros [Hm Hrc]. destruct (rc <? 0) eqn:Er; reflect_bools; apply returns_done.
    + by split.
    + apply dec_update_post; try done. lia.
Qed.

Lemma dec_entry_spec st :
  inv st -> dentries_ok entry (d_ei st) = true ->
  (exists ei t, d_ei st = ei :: t /\ is_type QMI_EOTI ei = false) ->
  enough st ->
  returns (dec_entry dec st o0 src level) (fun r =>
    match r with
    | inl st' => consumed st st' /\ (length (d_ei st') < length (d_ei st))%nat
    | inr (out, rc) => same_outside o0 (o0 + size) out0 out /\ rc < 0
    end).
Proof.
  intros Hinv Hok Hne Hen. unfold dec_entry.
  apply returns_bind. eapply returns_mono; [by apply dec_opt_flag_spec|]. intros st1 C1.
  pose proof C1 as (I1 & O1 & _). pose proof (consumed_enough _ _ Hen C1) as En1.
  apply returns_bind. eapply returns_mono; [by apply dec_data_len_spec|]. intros st2 C2.
  pose proof C2 as (I2 & O2 & _). pose proof (consumed_enough _ _ En1 C2) as En2.
  pose proof (consumed_trans _ _ _ C1 C2) as C12.
  destruct (dentries_ok_cons entry _ O2) as (ei & t & Et & Hei).
  unfold ei_at. rewrite Et at 1. cbn [head]. run.
  destruct (dec_count ei (d_dlen st2)) as [n|] eqn:Ec.
  2:{ apply returns_done. split; [apply I2|done]. }
  assert (Hn : is_type QMI_EOTI ei = false -> 0 <= n <= count_max ei).
  { intros He. destruct (Hei He) as [Hee _]. pose proof (dentry_inv ei Hee) as (_ & ? & _).
    pose proof (di_dlen _ _ _ _ I2). unfold dec_count, count_max in *.
    destruct (array_type ei); [injection Ec as <-; lia..|].
    destruct (elem_len ei <? d_dlen st2) eqn:El; [done|]. reflect_bools. injection Ec as <-. lia. }
  destruct (is_type QMI_EOTI ei) eqn:Heo.
  { apply bool_decide_eq_true in Heo. unfold dec_elem. rewrite Heo. run.
    apply returns_done. split; [apply I2|done]. }
  destruct (Hei eq_refl) as [Hee Htl]. specialize (Hn eq_refl).
  pose proof (dentry_inv ei Hee) as (_ & _ & _ & _ & Hcm & _).
  pose proof (wire_entries_pos t Htl) as Hwt.
  destruct En2 as [E1 E2]. rewrite Et in E1, E2. cbn [wire_entries] in E1, E2. rewrite Heo in E1, E2.
  apply returns_bind. eapply returns_mono.
  { apply (dec_elem_spec (dec_set_dlen st2 n) ei); try done.
    - destruct I2. split; try done. cbn. lia.
    - intros _. cbn. lia. }
  intros [st3|[out rc]] Hst3; apply returns_done; [|done].
  destruct Hst3 as (I3 & Ed & k & Hk & Hs & Hb). cbn [d_ei dec_set_dlen d_src d_bytes] in Ed, Hs, Hb.
  assert (C3 : consumed st2 (dec_next st3)).
  { split; [by destruct I3|]. cbn [dec_next d_ei d_src d_bytes]. rewrite Ed, Et. cbn [tail wire_entries length].
    rewrite Heo. split_and!; [done|lia|]. exists k. lia. }
  split; [by eapply consumed_trans|]. cbn [dec_next d_ei]. rewrite Ed, Et. cbn [tail].
  destruct C12 as (_ & _ & Hlen & _). rewrite Et in Hlen. cbn [length] in Hlen. lia.
Qed.

(** The loop on a nested level: entry by entry to the end of the table. *)
Lemma nested_loop_spec n t0 st in_len :
  2 <= level -> inv st -> dentries_ok entry (d_ei st) = true -> enough st ->
  (length (d_ei st) <= n)%nat ->
  returns (decode_loop dec n t0 st o0 src in_len level) (fun r =>
    same_outside o0 (o0 + size) out0 r.1 /\
    (r.2 < 0 \/ 0 <= r.2 <= d_bytes st + wire_entries (wire_entry wire) (d_ei st))).
Proof.
  intros Hlev. revert st. induction n as [|n IH]; intros st Hinv Hok Hen Hlen.
  { destruct (dentries_ok_cons entry _ Hok) as (ei & t & Et & _). rewrite Et in Hlen. cbn in Hlen. lia. }
  pose proof (wire_entries_pos _ Hok) as Hw. pose proof Hen as [E1 E2].
  assert (Hend : returns (Done (d_out st, s32 (d_bytes st))) (fun r : list Z * Z =>
    same_outside o0 (o0 + size) out0 r.1 /\
    (r.2 < 0 \/ 0 <= r.2 <= d_bytes st + wire_entries (wire_entry wire) (d_ei st)))).
  { destruct Hinv as [I1 I2 I3 I4 I5]. apply returns_done. cbn [fst snd].
    rewrite s32_small by lia. split; [done|lia]. }
  cbn [decode_loop]. destruct (negb _); [exact Hend|].
  rewrite (proj2 (Z.leb_le 2 level)) by lia.
  destruct (dentries_ok_cons entry _ Hok) as (ei & t & Et & Hei).
  unfold ei_at. rewrite Et at 1. cbn [head]. run. destruct (is_type QMI_EOTI ei) eqn:Heo; [exact Hend|].
  rewrite (proj2 (Z.eqb_neq level 1)) by lia. run.
  set (st1 := DecState _ _ _ _ _ _).
  assert (Hinv1 : inv st1) by (destruct Hinv; split; try done; apply u32_range).
  apply returns_bind. eapply returns_mono; [apply (dec_entry_spec st1); try done; by exists ei, t|].
  intros [st2|[out rc]] Hst2; [|apply returns_done; split; [apply Hst2|left; apply Hst2]].
  destruct Hst2 as [C Hlt]. pose proof C as (I2 & O2 & _ & k & Hk & Hs & Hb & Hwk).
  pose proof (consumed_enough st1 st2 Hen C) as En2. cbn [d_ei d_bytes d_src st1] in *.
  eapply returns_mono; [apply IH; try done; lia|]. intros r [Hr1 Hr2]. split; [done|lia].
Qed.

Lemma find_ei_spec t ty t' :
  dentries_ok entry t = true -> find_ei t ty = Done (Some t') ->
  dentries_ok entry t' = true /\ (exists ei t2, t' = ei :: t2 /\ is_type QMI_EOTI ei = false) /\
  wire_entries (wire_entry wire) t' <= wire_entries (wire_entry wire) t.
Proof.
  induction t as [|ei t IH]; intros Hok E; cbn [find_ei] in E; [done|].
  destruct (is_type QMI_EOTI ei) eqn:Heo; [done|].
  destruct (tlv_type ei =? u8 ty).
  - injection E as <-. split; [done|]. split; [by exists ei, t|done].
  - cbn [dentries_ok] in Hok. rewrite Heo in Hok. apply andb_true_iff in Hok as [He Ht].
    destruct (IH Ht E) as (H1 & H2 & H3). split_and!; try done.
    cbn [wire_entries]. rewrite Heo. pose proof (wire_entry_pos ei He). lia.
Qed.

Lemma find_ei_total t ty : dentries_ok entry t = true -> exists o, find_ei t ty = Done o.
Proof.
  induction t as [|ei t IH]; intros Hok; cbn [find_ei]; [done|].
  destruct (is_type QMI_EOTI ei) eqn:Heo; [by eexists|]. destruct (_ =? _); [by eexists|].
  cbn [dentries_ok] in Hok. rewrite Heo in Hok. apply andb_true_iff in Hok as [_ Ht]. auto.
Qed.

(** The loop on the outermost level, the message at [so]. *)
Lemma outer_loop_spec n t0 st so in_len :
  level = 1 -> dentries_ok entry t0 = true -> inv st -> 0 <= so -> d_src st = so + d_bytes st ->
  0 <= in_len < 2 ^ 29 -> wire_entries (wire_entry wire) t0 < 2 ^ 29 ->
  so + in_len + 3 + wire_entries (wire_entry wire) t0 <= zlen src ->
  d_bytes st < 2 ^ 31 -> (1 <= n)%nat -> in_len - d_bytes st < Z.of_nat n ->
  returns (decode_loop dec n t0 st o0 src in_len level) (fun r =>
    same_outside o0 (o0 + size) out0 r.1).
Proof.
  intros Hlev Hok. revert st. induction n as [|n IH]; intros st Hinv Hso Hsrc0 Hin Hw29 Hsrc Hb31 Hn1 Hn;
    [lia|]. cbn [decode_loop].
  pose proof Hinv as [I1 I2 I3 I4 I5]. pose proof (wire_entries_pos _ Hok) as Hw.
  destruct (d_bytes st <? in_len) eqn:Eb; cbn [negb]; reflect_bools; [|apply returns_done; exact I1].
  rewrite Hlev. cbn [Z.leb Z.compare Pos.compare Pos.compare_cont Z.eqb Pos.eqb]. run. rewrite <- Hlev.
  assert (Hrd : forall off (Q : list Z -> Prop), 0 <= off <= 2 -> (forall b, 0 <= le_value b < 2 ^ 8 -> Q b) ->
    returns (read_mem src (d_src st + off) 1) Q).
  { intros off Q Ho2 HQ. apply returns_read; [lia..|]. intros b Hb Hbok _. apply HQ.
    pose proof (le_value_range b (Hbok Hby)) as Hr. by rewrite Hb in Hr. }
  apply returns_bind. unfold dec_header, QMI_ENCDEC_DECODE_TLV.
  apply returns_bind, returns_bind. replace (d_src st) with (d_src st + 0) at 1 by lia.
  apply Hrd; [lia|]. intros ty Hty. apply returns_bind, Hrd; [lia|]. intros lo Hlo.
  apply returns_bind, Hrd; [lia|]. intros hi Hhi. apply returns_done.
  assert (Htl : 0 <= Z.lor (le_value lo) (Z.shiftl (le_value hi) 8) < 2 ^ 16).
  { apply lor_range; [lia|lia|]. rewrite Z.shiftl_mul_pow2; lia. }
  set (tlen := Z.lor _ _) in *. unfold TLV_TYPE_SIZE, TLV_LEN_SIZE. cbn [d_out d_ei d_dlen d_src d_tlvlen d_bytes].
  destruct (find_ei_total t0 (le_value ty) Hok) as [[t|] Ef]; rewrite Ef; run.
  - destruct (find_ei_spec _ _ _ Hok Ef) as (Ho2 & Hne & Hwt). apply returns_done.
    set (st1 := DecState _ t _ _ _ _).
    assert (Hinv1 : inv st1).
    { split; cbn; try done; [rewrite u32_small by lia; lia|lia|lia]. }
    assert (Hen1 : enough st1) by (unfold enough; cbn; rewrite u32_small by lia; lia).
    apply returns_bind. eapply returns_mono; [by apply (dec_entry_spec st1)|].
    intros [st2|[out rc]] Hst2; [|apply returns_done; apply Hst2].
    destruct Hst2 as [C _]. pose proof (consumed_enough st1 st2 Hen1 C) as [_ Eb2].
    destruct C as (I & O & _ & k & Hk & Hs & Hb & Hwk).
    pose proof (wire_entries_pos _ O) as Hw2. cbn [d_src d_bytes d_ei st1] in *.
    rewrite u32_small in Hb by lia. apply IH; try done; lia.
  - destruct (le_value ty <? OPTIONAL_TLV_TYPE_START); apply returns_done; [apply returns_done; exact I1|].
    unfold dec_update. cbn [d_out d_ei d_dlen d_src d_tlvlen d_bytes].
    rewrite (u32_small (d_bytes st + _)), u32_small by lia.
    apply IH; cbn; try done; try lia. by split; cbn; try lia.
Qed.

End elem.
End decode.

Lemma dtable_ok_wire fuel size t : dtable_ok fuel size t = true -> 0 <= wire_table fuel t.
Proof.
  revert size t. induction fuel as [|fuel IH]; intros size t Hok; [done|]. cbn [wire_table].
  apply (wire_entries_pos (fun sz t' => dtable_ok fuel sz t' && (wire_table fuel t' <? 2 ^ 14)) (wire_table fuel) size).
  - intros t' sz H. apply andb_true_iff in H as [H1 H2]. reflect_bools. split; [by eapply IH|done].
  - exact Hok.
Qed.

Lemma nested_decode_safe fuel level :
  2 <= level ->
  nested_dsafe (qmi_decode fuel) (fun sz t => dtable_ok fuel sz t && (wire_table fuel t <? 2 ^ 14))
    (wire_table fuel) level.
Proof.
  revert level. induction fuel as [|fuel IH];
    intros level Hl size t out o0 src so in_len Hok Hw Ho Hout Hso Hsrc Hby Hin; [done|].
  apply andb_true_iff in Hok as [Hok _]. cbn [dtable_ok wire_table qmi_decode] in *.
  unfold decode_fuel. rewrite (proj2 (Z.eqb_neq level 1)) by lia.
  eapply returns_mono.
  - eapply (nested_loop_spec (qmi_decode fuel) _ (wire_table fuel) size o0 src out); try done.
    + intros t' sz H. apply andb_true_iff in H as [H1 H2]. reflect_bools.
      split; [by eapply dtable_ok_wire|done].
    + apply IH. lia.
    + split; cbn [d_src d_bytes d_ei]; lia.
    + cbn. lia.
  - intros r. cbn [d_bytes d_ei]. rewrite Z.add_0_l. done.
Qed.

(** Decoding a message of [in_len] bytes at [so]. *)
Lemma qmi_decode_bounded fuel size t out o0 src so in_len :
  dtable_ok fuel size t = true -> wire_table fuel t < 2 ^ 29 -> bytes_ok src ->
  0 <= o0 -> o0 + size <= zlen out -> 0 <= so -> 0 <= in_len < 2 ^ 29 ->
  so + in_len + 3 + wire_table fuel t <= zlen src ->
  returns (qmi_decode fuel (Some t) out o0 src so in_len 1) (fun r => same_outside o0 (o0 + size) out r.1).
Proof.
  destruct fuel as [|fuel]; [done|]. intros Hok Hw Hby Ho Hout Hso Hin Hsrc.
  cbn [dtable_ok wire_table qmi_decode] in *. unfold decode_fuel. cbn [Z.eqb Pos.eqb].
  eapply (outer_loop_spec (qmi_decode fuel) _ (wire_table fuel) size o0 src out); try done; cbn; try lia.
  - intros t' sz H. apply andb_true_iff in H as [H1 H2]. reflect_bools.
    split; [by eapply dtable_ok_wire|done].
  - by apply nested_decode_safe.
Qed.
