(* ===== verification/RmtfsMsgs.v ===== *)
(** * The messages of the remote file system service (rmtfs/qmi_rmtfs.c, qmi_rmtfs.h)

    The descriptor tables of the service, with the offsets the structures have on
    a 64-bit target, and the structures as records with their memory image. *)
From S2P Require Import Prelude CString Qrtr Qmi QmiFacts QmiDecode.

Definition QMI_RMTFS_RESULT_SUCCESS : Z := 0.
Definition QMI_RMTFS_RESULT_FAILURE : Z := 1.
Definition QMI_RMTFS_ERR_NONE : Z := 0.
Definition QMI_RMTFS_ERR_INTERNAL : Z := 1.
Definition QMI_RMTFS_ERR_MALFORMED_MSG : Z := 2.
Definition QMI_RMTFS_OPEN : Z := 1.
Definition QMI_RMTFS_CLOSE : Z := 2.
Definition QMI_RMTFS_RW_IOVEC : Z := 3.
Definition QMI_RMTFS_ALLOC_BUFF : Z := 4.
Definition QMI_RMTFS_GET_DEV_ERROR : Z := 5.
Definition QMI_RMTFS_FORCE_SYNC_IND : Z := 6.
Definition rmtfs_qmi_result_ei : list qmi_elem_info :=
  [EI QMI_UNSIGNED_2_BYTE 2 0 0; EI QMI_UNSIGNED_2_BYTE 2 0 2; EI_END].

Definition rmtfs_iovec_entry_ei : list qmi_elem_info :=
  [EI QMI_UNSIGNED_4_BYTE 4 0 0; EI QMI_UNSIGNED_4_BYTE 4 0 4; EI QMI_UNSIGNED_4_BYTE 4 0 8; EI_END].

Definition EI_RESULT : qmi_elem_info :=
  ElemInfo QMI_STRUCT 1 4 NO_ARRAY 2 0 (Some rmtfs_qmi_result_ei).

Definition rmtfs_open_req_ei : list qmi_elem_info :=
  [ElemInfo QMI_STRING 256 1 VAR_LEN_ARRAY 1 4 None; EI_END].
Definition sizeof_open_req : Z := 260.

Definition rmtfs_open_resp_ei : list qmi_elem_info :=
  [EI_RESULT; EI QMI_OPT_FLAG 1 16 4; EI QMI_UNSIGNED_4_BYTE 4 16 8; EI_END].
Definition sizeof_open_resp : Z := 12.

Definition rmtfs_close_req_ei : list qmi_elem_info := [EI QMI_UNSIGNED_4_BYTE 4 1 0; EI_END].
Definition sizeof_close_req : Z := 4.

Definition rmtfs_close_resp_ei : list qmi_elem_info := [EI_RESULT; EI_END].
Definition sizeof_close_resp : Z := 4.

(** [iovec_len] is a [size_t] at 8, the 255 entries of 12 bytes start at 16. *)
Definition rmtfs_iovec_req_ei : list qmi_elem_info :=
  [EI QMI_UNSIGNED_4_BYTE 4 1 0; EI QMI_UNSIGNED_1_BYTE 1 2 4; EI QMI_DATA_LEN 1 3 8;
   ElemInfo QMI_STRUCT 255 12 VAR_LEN_ARRAY 3 16 (Some rmtfs_iovec_entry_ei);
   EI QMI_UNSIGNED_1_BYTE 1 4 3076; EI_END].
Definition sizeof_iovec_req : Z := 3080.

Definition rmtfs_iovec_resp_ei : list qmi_elem_info := [EI_RESULT; EI_END].
Definition sizeof_iovec_resp : Z := 4.

Definition rmtfs_alloc_buf_req_ei : list qmi_elem_info :=
  [EI QMI_UNSIGNED_4_BYTE 4 1 0; EI QMI_UNSIGNED_4_BYTE 4 2 4; EI_END].
Definition sizeof_alloc_buf_req : Z := 8.

Definition rmtfs_alloc_buf_resp_ei : list qmi_elem_info :=
  [EI_RESULT; EI QMI_OPT_FLAG 1 16 4; EI QMI_UNSIGNED_8_BYTE 8 16 8; EI_END].
Definition sizeof_alloc_buf_resp : Z := 16.

Definition rmtfs_dev_error_req_ei : list qmi_elem_info := [EI QMI_UNSIGNED_4_BYTE 4 1 0; EI_END].
Definition sizeof_dev_error_req : Z := 4.

Definition rmtfs_dev_error_resp_ei : list qmi_elem_info :=
  [EI_RESULT; EI QMI_OPT_FLAG 1 16 4; EI QMI_UNSIGNED_1_BYTE 1 16 5; EI_END].
Definition sizeof_dev_error_resp : Z := 6.

Definition rmtfs_force_sync_ei : list qmi_elem_info :=
  [EI QMI_DATA_LEN 1 1 0; ElemInfo QMI_UNSIGNED_1_BYTE 10 4 VAR_LEN_ARRAY 1 8 None; EI_END].
Definition sizeof_force_sync : Z := 48.

(** ** The structures *)

Record rmtfs_qmi_result := QmiResult { r_result : Z; r_error : Z }.
Record rmtfs_iovec_entry := IovecEntry { sector_addr : Z; phys_offset : Z; num_sector : Z }.

(** Responses with an optional value behind the result. *)
Record rmtfs_resp := Resp { resp_result : rmtfs_qmi_result; resp_valid : bool; resp_value : Z }.

Definition bool_byte (b : bool) : Z := if b then 1 else 0.
Definition result_bytes (r : rmtfs_qmi_result) : list Z := le_bytes 2 (r_result r) ++ le_bytes 2 (r_error r).

Definition open_resp_bytes (r : rmtfs_resp) : list Z :=
  result_bytes (resp_result r) ++ [bool_byte (resp_valid r); 0; 0; 0] ++ le_bytes 4 (resp_value r).
Definition alloc_buf_resp_bytes (r : rmtfs_resp) : list Z :=
  result_bytes (resp_result r) ++ [bool_byte (resp_valid r); 0; 0; 0] ++ le_bytes 8 (resp_value r).
Definition dev_error_resp_bytes (r : rmtfs_resp) : list Z :=
  result_bytes (resp_result r) ++ [bool_byte (resp_valid r)] ++ le_bytes 1 (resp_value r).

(** ** The tables are well formed *)

Lemma rmtfs_encode_tables :
  forallb (fun '(t, size) => table_ok msg_fuel 1 size t)
    [(rmtfs_open_req_ei, sizeof_open_req); (rmtfs_open_resp_ei, sizeof_open_resp);
     (rmtfs_close_req_ei, sizeof_close_req); (rmtfs_close_resp_ei, sizeof_close_resp);
     (rmtfs_iovec_req_ei, sizeof_iovec_req); (rmtfs_iovec_resp_ei, sizeof_iovec_resp);
     (rmtfs_alloc_buf_req_ei, sizeof_alloc_buf_req); (rmtfs_alloc_buf_resp_ei, sizeof_alloc_buf_resp);
     (rmtfs_dev_error_req_ei, sizeof_dev_error_req); (rmtfs_dev_error_resp_ei, sizeof_dev_error_resp);
     (rmtfs_force_sync_ei, sizeof_force_sync)] = true.
Proof. vm_compute. reflexivity. Qed.

(** Every table but that of the open request, whose path has no room for the
    terminator of a path of 256 bytes. *)
Lemma rmtfs_decode_tables :
  forallb (fun '(t, size) => dtable_ok msg_fuel size t)
    [(rmtfs_open_resp_ei, sizeof_open_resp);
     (rmtfs_close_req_ei, sizeof_close_req); (rmtfs_close_resp_ei, sizeof_close_resp);
     (rmtfs_iovec_req_ei, sizeof_iovec_req); (rmtfs_iovec_resp_ei, sizeof_iovec_resp);
     (rmtfs_alloc_buf_req_ei, sizeof_alloc_buf_req); (rmtfs_alloc_buf_resp_ei, sizeof_alloc_buf_resp);
     (rmtfs_dev_error_req_ei, sizeof_dev_error_req); (rmtfs_dev_error_resp_ei, sizeof_dev_error_resp);
     (rmtfs_force_sync_ei, sizeof_force_sync)] = true
  /\ dtable_ok msg_fuel sizeof_open_req rmtfs_open_req_ei = false.
Proof. split; vm_compute; reflexivity. Qed.
