(* ===== verification/QmiProps.v ===== *)
(** * The QMI codec: properties of messages *)
From S2P Require Import Prelude CString Hash Qrtr Qmi QmiFacts QmiDecode RmtfsMsgs.

Lemma length_header_bytes ty txn id l : length (header_bytes ty txn id l) = 7%nat.
Proof. done. Qed.

Lemma le_value_bytes1 z : 0 <= z < 2 ^ 8 -> le_value (le_bytes 1 z) = z.
Proof. intros. rewrite le_value_bytes. apply Z.mod_small. lia. Qed.

(** Reading a field of the header back. *)
Lemma header_fields m m' ty txn id l :
  write_mem m 0 (header_bytes ty txn id l) = Done m' ->
  0 <= ty < 2 ^ 8 -> 0 <= txn < 2 ^ 16 -> 0 <= id < 2 ^ 16 -> 0 <= l < 2 ^ 16 ->
  read_u8 m' 0 = Done ty /\ read_u16 m' 1 = Done txn /\ read_u16 m' 3 = Done id /\ read_u16 m' 5 = Done l.
Proof.
  intros Hw Ht Hx Hi Hl. pose proof (write_mem_length _ _ _ _ Hw) as Hlen.
  apply write_mem_done in Hw as (_ & Hfit & ->).
  assert (Hz : zlen (header_bytes ty txn id l) = 7) by done. rewrite Hz in Hfit.
  cbn [Z.to_nat take]. rewrite app_nil_l in *. unfold header_bytes in *.
  set (rest := drop _ m) in *.
  assert (Hrd : forall pre bs post, (le_bytes 1 ty ++ le_bytes 2 txn ++ le_bytes 2 id ++ le_bytes 2 l) ++ rest = pre ++ bs ++ post ->
    read_mem ((le_bytes 1 ty ++ le_bytes 2 txn ++ le_bytes 2 id ++ le_bytes 2 l) ++ rest) (zlen pre) (zlen bs) = Done bs).
  { intros pre bs post ->. apply read_mem_done. unfold zlen. rewrite !length_app.
    split_and!; [lia|lia|lia|]. rewrite !Nat2Z.id, drop_app_length, take_app_length. done. }
  unfold read_u8, read_u16. split_and!.
  - assert (E : read_mem _ 0 1 = _) by exact (Hrd [] (le_bytes 1 ty)
      (le_bytes 2 txn ++ le_bytes 2 id ++ le_bytes 2 l ++ rest) eq_refl).
    rewrite E. run. by rewrite le_value_bytes1.
  - assert (E : read_mem _ 1 2 = _) by exact (Hrd (le_bytes 1 ty) (le_bytes 2 txn)
      (le_bytes 2 id ++ le_bytes 2 l ++ rest) eq_refl).
    rewrite E. run. by rewrite le_value_bytes2.
  - assert (E : read_mem _ 3 2 = _) by exact (Hrd (le_bytes 1 ty ++ le_bytes 2 txn) (le_bytes 2 id)
      (le_bytes 2 l ++ rest) eq_refl).
    rewrite E. run. by rewrite le_value_bytes2.
  - assert (E : read_mem _ 5 2 = _) by exact (Hrd (le_bytes 1 ty ++ le_bytes 2 txn ++ le_bytes 2 id)
      (le_bytes 2 l) rest eq_refl).
    rewrite E. run. by rewrite le_value_bytes2.
Qed.

(** Decoding returns, within the structure, whatever the bytes of the message are. *)
Lemma decode_message_returns fuel t (c data : list Z) data_len type id :
  dtable_ok fuel (zlen c) t = true -> wire_table fuel t < 2 ^ 29 -> bytes_ok data ->
  sizeof_header <= data_len < 2 ^ 29 -> data_len + 3 + wire_table fuel t <= zlen data ->
  exists c' rc txn,
    qmi_decode_message fuel c data data_len type id (Some t) = Done (c', rc, txn) /\ zlen c' = zlen c.
Proof.
  unfold sizeof_header. intros Hok Hw Hby Hd Hdata. pose proof (dtable_ok_wire _ _ _ Hok) as Hw0.
  unfold qmi_decode_message, sizeof_header, read_u8, read_u16.
  destruct (data_len =? 0) eqn:E0; reflect_bools; [lia|].
  destruct (read_mem_ok data 0 1) as [ty ->]; [lia..|]. run.
  destruct (negb _); [by eexists _, _, _|].
  destruct (read_mem_ok data 3 2) as [mid ->]; [lia..|]. run.
  destruct (negb _); [by eexists _, _, _|].
  destruct (read_mem_ok data 1 2) as [tx ->]; [lia..|]. run. rewrite u32_small by lia.
  destruct (qmi_decode_bounded fuel (zlen c) t c 0 data 7 (data_len - 7)) as ([m rc] & E & Hm);
    try done; try lia.
  rewrite E. run. eexists _, _, _. split; [done|]. apply (so_len _ _ _ _ Hm).
Qed.

(** ** Properties *)

(** C4: encoding a message never touches memory outside the packet buffer nor
    reads outside the C structure, and always returns, for every table that passes
    the decidable check [table_ok]: either an error, or the length of a message
    that fits the buffer and whose header announces exactly this length. *)
Theorem qmi_encode_message_safe fuel size t (data c : list Z) type msg_id txn :
  table_ok fuel 1 size t = true -> strings_ok t c 0 -> bytes_ok c -> size <= zlen c < 2 ^ 30 ->
  sizeof_header <= zlen data < 2 ^ 16 ->
  0 <= type < 2 ^ 8 -> 0 <= txn < 2 ^ 16 -> 0 <= msg_id < 2 ^ 16 ->
  exists data' len' rc,
    qmi_encode_message fuel data (zlen data) type msg_id txn (Some c) (Some t) = Done (data', len', rc) /\
    zlen data' = zlen data /\
    (rc < 0 /\ len' = zlen data \/
     sizeof_header <= rc <= zlen data /\ len' = rc /\ qmi_decode_header data' rc = Done (0, Some msg_id)).
Proof.
  unfold sizeof_header. intros Hok Hstr Hby Hc Hd Hty Htxn Hid. unfold qmi_encode_message, sizeof_header.
  run. cbn [negb Z.eqb]. rewrite (proj2 (Z.ltb_ge _ _)) by lia. rewrite u32_small by lia.
  destruct (qmi_encode_fits fuel size t data 7 c 0 (zlen data - 7)) as ([m rc] & E & Hm & Hrc);
    try done; try lia.
  rewrite E. run. cbn [fst snd] in *. pose proof (so_len _ _ _ _ Hm) as Hl.
  destruct (rc <? 0) eqn:Er; reflect_bools.
  { eexists _, _, _. split; [done|]. split; [done|]. by left. }
  destruct Hrc as [?|Hrc]; [lia|].
  destruct (write_mem_ok m 0 (header_bytes type txn msg_id rc)) as [m2 Ew];
    [lia|unfold zlen in *; rewrite length_header_bytes; lia|].
  rewrite Ew. run. pose proof (write_mem_length _ _ _ _ Ew) as Hl2.
  eexists _, _, _. split; [done|]. split; [lia|]. right. split; [lia|]. split; [done|].
  destruct (header_fields _ _ _ _ _ _ Ew Hty Htxn Hid ltac:(lia)) as (_ & _ & E3 & E5).
  unfold qmi_decode_header, sizeof_header. rewrite E5. run.
  rewrite u64_small by lia. replace (7 + rc - 7) with rc by lia. rewrite Z.eqb_refl. cbn [negb].
  rewrite E3. done.
Qed.

(** C7: decoding any datagram of at least a header, whatever its bytes, with a table that
    passes [dtable_ok] always returns and never writes outside the structure; it may read
    behind the datagram, but never more than [3 + wire_table] bytes, so a receive buffer with
    that slack is enough.  Of the tables of the services, [rmtfs_open_req_ei] and
    [servreg_loc_pfr_req_ei] do not pass: their strings are terminated behind the structure
    when they are full ([rmtfs_open_path_overflow]). *)
Theorem qmi_decode_message_bounded fuel t (c data : list Z) data_len type id :
  dtable_ok fuel (zlen c) t = true -> wire_table fuel t < 2 ^ 29 -> bytes_ok data ->
  sizeof_header <= data_len < 2 ^ 29 -> data_len + 3 + wire_table fuel t <= zlen data ->
  exists c' rc txn,
    qmi_decode_message fuel c data data_len type id (Some t) = Done (c', rc, txn) /\ zlen c' = zlen c.
Proof. exact (decode_message_returns fuel t c data data_len type id). Qed.

(** A message may end before the data its TLV announces: the decoder then
    takes the rest from behind the message.  A close request of ten bytes, which
    passes the check of its header, yields the caller id that the receive buffer
    happens to hold; without anything behind it, memory is read out of bounds. *)
Theorem qmi_decode_reads_past_message (stale : Z) :
  let msg := header_bytes QMI_REQUEST 1 QMI_RMTFS_CLOSE 3 ++ [1; 4; 0] in
  let buf := msg ++ le_bytes 4 stale in
  qmi_decode_header buf (zlen msg) = Done (0, Some QMI_RMTFS_CLOSE) /\
  qmi_decode_message msg_fuel (replicate 4 0) buf (zlen msg) QMI_REQUEST QMI_RMTFS_CLOSE
    (Some rmtfs_close_req_ei) = Done (le_bytes 4 stale, 7, Some 1) /\
  qmi_decode_message msg_fuel (replicate 4 0) msg (zlen msg) QMI_REQUEST QMI_RMTFS_CLOSE
    (Some rmtfs_close_req_ei) = Fault OutOfBounds.
Proof.
  intros msg buf. unfold buf.
  pose proof (length_le_bytes 4 stale) as Hl.
  destruct (le_bytes 4 stale) as [|b0 [|b1 [|b2 [|b3 [|]]]]]; try done.
Qed.

(** A path of 256 bytes, the longest that is accepted, makes the decoder write
    the terminator one byte behind the structure of the open request. *)
Theorem rmtfs_open_path_overflow (b : Z) :
  qmi_decode_message msg_fuel (replicate 260 0)
    (header_bytes QMI_REQUEST 1 QMI_RMTFS_OPEN 259 ++ [1; 0; 1] ++ replicate 256 b) 266
    QMI_REQUEST QMI_RMTFS_OPEN (Some rmtfs_open_req_ei) = Fault OutOfBounds.
Proof. vm_compute. reflexivity. Qed.

(** ** The responses of the remote file system service *)

Inductive resp_kind := OpenResp | AllocBufResp | DevErrorResp.

Definition resp_table (k : resp_kind) : list qmi_elem_info :=
  match k with
  | OpenResp => rmtfs_open_resp_ei
  | AllocBufResp => rmtfs_alloc_buf_resp_ei
  | DevErrorResp => rmtfs_dev_error_resp_ei
  end.
Definition resp_id (k : resp_kind) : Z :=
  match k with
  | OpenResp => QMI_RMTFS_OPEN
  | AllocBufResp => QMI_RMTFS_ALLOC_BUFF
  | DevErrorResp => QMI_RMTFS_GET_DEV_ERROR
  end.
Definition resp_bytes (k : resp_kind) : rmtfs_resp -> list Z :=
  match k with
  | OpenResp => open_resp_bytes
  | AllocBufResp => alloc_buf_resp_bytes
  | DevErrorResp => dev_error_resp_bytes
  end.
Definition resp_width (k : resp_kind) : nat :=
  match k with OpenResp => 4 | AllocBufResp => 8 | DevErrorResp => 1 end%nat.

(** The bytes on the wire: the result as TLV 2, the value, when it is valid, as
    TLV 16. *)
Definition resp_wire (k : resp_kind) (r : rmtfs_resp) : list Z :=
  [2; 4; 0] ++ result_bytes (resp_result r) ++
  (if resp_valid r then [16; Z.of_nat (resp_width k); 0] ++ le_bytes (resp_width k) (resp_value r) else []).

(** What a client gets: an invalid value is not transmitted. *)
Definition resp_received (r : rmtfs_resp) : rmtfs_resp :=
  if resp_valid r then r else Resp (resp_result r) false 0.

(** Replace the bytes of a word by as many variables. *)
Ltac name_bytes n z :=
  let l := fresh "l" in let H := fresh "H" in
  pose proof (length_le_bytes n z) as H; revert H;
  generalize (le_bytes n z) as l; intros l H;
  repeat (destruct l as [|? l]; [discriminate H|]; injection H as H);
  (destruct l; [|discriminate H]); clear H.

Lemma rmtfs_response_runs k r txn :
  exists data',
    qmi_encode_message msg_fuel (replicate 256 0) 256 QMI_RESPONSE (resp_id k) txn
      (Some (resp_bytes k r)) (Some (resp_table k)) =
      Done (data', 7 + zlen (resp_wire k r), 7 + zlen (resp_wire k r)) /\
    take (7 + length (resp_wire k r)) data' =
      header_bytes QMI_RESPONSE txn (resp_id k) (zlen (resp_wire k r)) ++ resp_wire k r /\
    qmi_decode_message msg_fuel (replicate (length (resp_bytes k r)) 0) data' (7 + zlen (resp_wire k r))
      QMI_RESPONSE (resp_id k) (Some (resp_table k)) =
      Done (resp_bytes k (resp_received r), zlen (resp_wire k r), Some (le_value (le_bytes 2 txn))).
Proof.
  destruct r as [[res err] valid value]; destruct k, valid;
    unfold resp_received, resp_wire, resp_bytes, open_resp_bytes, alloc_buf_resp_bytes, dev_error_resp_bytes,
      result_bytes, qmi_encode_message, header_bytes, resp_width;
    cbn [resp_valid resp_result resp_value r_result r_error];
    name_bytes 2%nat txn; name_bytes 2%nat res; name_bytes 2%nat err;
    match goal with |- context [le_bytes ?n value] => name_bytes n value end;
    eexists; (split; [vm_compute; reflexivity|]); split; vm_compute; reflexivity.
Qed.

(** C35: the responses with a value travel unchanged: the encoder writes exactly
    the header and the two TLVs of the wire format, and decoding the message gives
    back the result, the transaction, and the value when it is valid. *)
Theorem rmtfs_response_roundtrip k r txn :
  0 <= txn < 2 ^ 16 ->
  exists data',
    qmi_encode_message msg_fuel (replicate 256 0) 256 QMI_RESPONSE (resp_id k) txn
      (Some (resp_bytes k r)) (Some (resp_table k)) =
      Done (data', 7 + zlen (resp_wire k r), 7 + zlen (resp_wire k r)) /\
    take (7 + length (resp_wire k r)) data' =
      header_bytes QMI_RESPONSE txn (resp_id k) (zlen (resp_wire k r)) ++ resp_wire k r /\
    qmi_decode_message msg_fuel (replicate (length (resp_bytes k r)) 0) data' (7 + zlen (resp_wire k r))
      QMI_RESPONSE (resp_id k) (Some (resp_table k)) =
      Done (resp_bytes k (resp_received r), zlen (resp_wire k r), Some txn).
Proof.
  intros Ht. destruct (rmtfs_response_runs k r txn) as (data' & H). exists data'.
  by rewrite le_value_bytes2 in H.
Qed.

Lemma rmtfs_response_roundtrip_witness :
  exists data',
    qmi_encode_message msg_fuel (replicate 256 0) 256 QMI_RESPONSE QMI_RMTFS_OPEN 5
      (Some (open_resp_bytes (Resp (QmiResult 0 0) true 2))) (Some rmtfs_open_resp_ei) =
      Done (data', 21, 21) /\
    take 21 data' = header_bytes QMI_RESPONSE 5 QMI_RMTFS_OPEN 14 ++ [2; 4; 0; 0; 0; 0; 0; 16; 4; 0; 2; 0; 0; 0] /\
    qmi_decode_message msg_fuel (replicate 12 0) data' 21
      QMI_RESPONSE QMI_RMTFS_OPEN (Some rmtfs_open_resp_ei) =
      Done (open_resp_bytes (Resp (QmiResult 0 0) true 2), 14, Some 5).
Proof. apply (rmtfs_response_roundtrip OpenResp (Resp (QmiResult 0 0) true 2) 5). lia. Defined.

Lemma no_strings t src s0 :
  forallb (fun ei => negb (is_type QMI_STRING ei)) t = true -> strings_ok t src s0.
Proof.
  intros H ei Hei Ety. rewrite forallb_forall in H.
  apply list_elem_of_In, H in Hei. apply negb_true_iff, bool_decide_eq_false in Hei. done.
Qed.

Lemma bytes_ok_check (l : list Z) : forallb (fun b => (0 <=? b) && (b <? 256)) l = true -> bytes_ok l.
Proof.
  intros H. apply Forall_forall. intros b Hb. rewrite forallb_forall in H.
  apply list_elem_of_In, H in Hb. unfold byte_ok. reflect_bools. lia.
Qed.

Lemma qmi_encode_message_safe_witness :
  exists data' len' rc,
    qmi_encode_message msg_fuel (replicate 20 0) 20 QMI_RESPONSE QMI_RMTFS_OPEN 5
      (Some (open_resp_bytes (Resp (QmiResult 0 0) true 2))) (Some rmtfs_open_resp_ei) =
      Done (data', len', rc) /\
    zlen data' = 20 /\
    (rc < 0 /\ len' = 20 \/
     sizeof_header <= rc <= 20 /\ len' = rc /\ qmi_decode_header data' rc = Done (0, Some QMI_RMTFS_OPEN)).
Proof.
  apply (qmi_encode_message_safe msg_fuel sizeof_open_resp rmtfs_open_resp_ei (replicate 20 0)
    (open_resp_bytes (Resp (QmiResult 0 0) true 2)) QMI_RESPONSE QMI_RMTFS_OPEN 5);
    first [by apply no_strings | by apply bytes_ok_check | done].
Defined.

Lemma qmi_decode_message_bounded_witness :
  exists c' rc txn,
    qmi_decode_message msg_fuel (replicate 3080 0) (replicate 4096 255) 40 255 65535
      (Some rmtfs_iovec_req_ei) = Done (c', rc, txn) /\ zlen c' = 3080.
Proof.
  apply (qmi_decode_message_bounded msg_fuel rmtfs_iovec_req_ei (replicate 3080 0) (replicate 4096 255)
    40 255 65535); first [by apply bytes_ok_check | by vm_compute | done].
Defined.
