(* ===== verification/Os.v ===== *)
(** * The operating system calls of the file services

    The files that read and write devices (rmtfs/storage.c, rmtfs/sharedmem.c,
    rmtfs/rmtfs.c) are written against this interface.  [OsOps] lists the calls
    they make, on a state [W] of the system that only the calls change; [OsLaws]
    is what the callers rely on: results within the ranges the manual pages give.
    [RamOs] is a small file system in memory, an instance with the laws, in which
    the concrete examples run. *)
From S2P Require Import Prelude CString.

Inductive open_mode := O_RDONLY | O_RDWR.

(** Calls that return data give the return value and the bytes stored in the
    caller's buffer.  [os_realloc w old new] is [None] when memory is exhausted and
    otherwise the contents of the bytes that were added. *)
Class OsOps (W : Type) := {
  os_errno : W -> Z;
  os_open : W -> list Z -> open_mode -> W * Z;
  os_close : W -> Z -> W;
  os_seek_end : W -> Z -> W * Z;
  os_seek_start : W -> Z -> W;
  os_read : W -> Z -> Z -> W * Z * list Z;
  os_pread : W -> Z -> Z -> Z -> W * Z * list Z;
  os_pwrite : W -> Z -> list Z -> Z -> W * Z;
  os_fdatasync : W -> Z -> W * Z;
  os_calloc : W -> Z -> W * bool;
  os_realloc : W -> Z -> Z -> W * option (list Z);
  os_sendto : W -> Z -> Z -> list Z -> W * Z }.

(** The number of bytes read is [-1] or at most the number asked for, and only
    these bytes of the buffer are written. *)
Definition read_law (len : Z) (n : Z) (bs : list Z) : Prop :=
  -1 <= n <= len /\ zlen bs = Z.max 0 n /\ bytes_ok bs.

Class OsLaws (W : Type) `{OsOps W} := {
  os_open_range w path md : -1 <= (os_open w path md).2 < 2 ^ 31;
  os_seek_end_range w fd : -1 <= (os_seek_end w fd).2 < 2 ^ 63;
  os_read_law w fd len : 0 <= len -> read_law len (os_read w fd len).1.2 (os_read w fd len).2;
  os_pread_law w fd len off : 0 <= len -> read_law len (os_pread w fd len off).1.2 (os_pread w fd len off).2;
  os_pwrite_range w fd bs off : -1 <= (os_pwrite w fd bs off).2 <= zlen bs;
  os_realloc_law w old new w' bs : os_realloc w old new = (w', Some bs) ->
    zlen bs = Z.max 0 (new - old) /\ bytes_ok bs }.

(** ** A file system in memory

    A descriptor is the index of its file; memory is never exhausted, fresh memory
    holds [0xaa]; [ram_sent] is what was sent, newest first. *)
Record ram := Ram { ram_files : list (list Z * list Z); ram_sent : list (Z * Z * list Z) }.

Definition ram_find (w : ram) (path : list Z) : Z :=
  match list_find (fun f => f.1 = path) (ram_files w) with
  | Some (i, _) => Z.of_nat i
  | None => -1
  end.
Definition ram_file (w : ram) (fd : Z) : option (list Z) :=
  if fd <? 0 then None else option_map snd (ram_files w !! Z.to_nat fd).

Definition ram_pread (w : ram) (fd len off : Z) : ram * Z * list Z :=
  match ram_file w fd with
  | Some c =>
      let bs := take (Z.to_nat len) (drop (Z.to_nat off) c) in (w, zlen bs, map (fun b => b mod 256) bs)
  | None => (w, -1, [])
  end.

(** Writing behind the end fills the gap with zeros. *)
Definition splice (c bs : list Z) (off : nat) : list Z :=
  take off (c ++ replicate (off - length c) 0) ++ bs ++ drop (off + length bs) c.
Definition ram_pwrite (w : ram) (fd : Z) (bs : list Z) (off : Z) : ram * Z :=
  match ram_file w fd with
  | Some c =>
      (Ram (alter (fun f => (f.1, splice c bs (Z.to_nat off))) (Z.to_nat fd) (ram_files w)) (ram_sent w), zlen bs)
  | None => (w, -1)
  end.

#[export] Instance RamOs : OsOps ram := {
  os_errno _ := 2;
  os_open w path _ := (w, if ram_find w path <? 2 ^ 31 then ram_find w path else -1);
  os_close w _ := w;
  os_seek_end w fd :=
    (w, match ram_file w fd with Some c => if zlen c <? 2 ^ 63 then zlen c else -1 | None => -1 end);
  os_seek_start w _ := w;
  os_read w fd len := ram_pread w fd len 0;
  os_pread := ram_pread;
  os_pwrite := ram_pwrite;
  os_fdatasync w _ := (w, 0);
  os_calloc w _ := (w, true);
  os_realloc w old new := (w, Some (replicate (Z.to_nat (new - old)) 0xaa));
  os_sendto w node port data := (Ram (ram_files w) ((node, port, data) :: ram_sent w), zlen data) }.

Lemma bytes_ok_mod l : bytes_ok (map (fun b => b mod 256) l).
Proof.
  apply Forall_forall. intros b (b0 & -> & _)%list_elem_of_fmap.
  unfold byte_ok. apply Z.mod_pos_bound. lia.
Qed.
Lemma bytes_ok_replicate n b : byte_ok b -> bytes_ok (replicate n b).
Proof. intros. by apply Forall_replicate. Qed.
#[export] Hint Resolve bytes_ok_mod bytes_ok_replicate : imola.

Lemma ram_read_law w fd len off : 0 <= len ->
  read_law len (ram_pread w fd len off).1.2 (ram_pread w fd len off).2.
Proof.
  intros Hl. unfold ram_pread. destruct (ram_file w fd); cbn [fst snd].
  - split_and!; [..|auto with imola]; unfold zlen; rewrite ?length_map, ?length_take; lia.
  - split_and!; [unfold zlen; cbn; lia..|constructor].
Qed.

#[export] Instance RamOsLaws : OsLaws ram.
Proof.
  split; cbn [os_open os_seek_end os_read os_pread os_pwrite os_realloc RamOs fst snd].
  - intros w path _. assert (-1 <= ram_find w path) by (unfold ram_find; repeat case_scrut; lia).
    case_scrut; reflect_bools; lia.
  - intros w fd. repeat case_scrut; reflect_bools; unfold zlen in *; lia.
  - intros. by apply ram_read_law.
  - intros. by apply ram_read_law.
  - intros w fd bs off. unfold ram_pwrite. case_scrut; cbn [snd]; unfold zlen; lia.
  - intros w old new w' bs [= _ <-]. split.
    + unfold zlen. rewrite length_replicate. lia.
    + apply bytes_ok_replicate. unfold byte_ok; lia.
Qed.
