(* ===== verification/World.v ===== *)
(** * What the system has seen

    [Os] gives the calls; here is what can be observed of a system: the messages that were
    sent, the descriptors that are open, the calls of [close] on descriptors that were not,
    and the bytes of devices that are memory.  [OsWorld] says how the calls change them. *)
From S2P Require Import Prelude CString Os.
#[local] Open Scope Z_scope.

Class OsView (W : Type) := {
  ow_sent : W -> list (Z * Z * list Z);
  ow_open : W -> Z -> Prop;
  ow_stray : W -> list Z;
  ow_dev : W -> Z -> option (list Z) }.

(** Nothing is sent, opened or closed; [steady]: and no device is written. *)
Record calm {W} `{OsView W} (w w' : W) : Prop := {
  calm_sent : ow_sent w' = ow_sent w;
  calm_open g : ow_open w' g <-> ow_open w g;
  calm_stray : ow_stray w' = ow_stray w }.
Record steady {W} `{OsView W} (w w' : W) : Prop := {
  steady_calm : calm w w';
  steady_dev g : ow_dev w' g = ow_dev w g }.

(** A descriptor that is returned was not open before.  A call on one descriptor does not
    concern the devices behind the others, except that [pwrite] may. *)
Class OsWorld (W : Type) `{OsLaws W} `{!OsView W} := {
  ow_open_sent w path md : let w' := (os_open w path md).1 in ow_sent w' = ow_sent w /\ ow_stray w' = ow_stray w;
  ow_open_law w path md : let '(w', f) := os_open w path md in
    if f <? 0 then steady w w'
    else ~ ow_open w f /\ (forall g, ow_open w' g <-> g = f \/ ow_open w g) /\ forall g, g <> f -> ow_dev w' g = ow_dev w g;
  ow_close_sent w fd : ow_sent (os_close w fd) = ow_sent w;
  ow_close_open w fd g : ow_open (os_close w fd) g <-> ow_open w g /\ g <> fd;
  ow_close_once w fd : ow_open w fd -> ow_stray (os_close w fd) = ow_stray w;
  ow_close_twice w fd : ~ ow_open w fd -> ow_stray (os_close w fd) = ow_stray w ++ [fd];
  ow_close_dev w fd g : g <> fd -> ow_dev (os_close w fd) g = ow_dev w g;
  ow_seek_end w fd : steady w (os_seek_end w fd).1;
  ow_seek_start w fd : steady w (os_seek_start w fd);
  ow_read w fd len : steady w (os_read w fd len).1.1;
  ow_pread w fd len off : steady w (os_pread w fd len off).1.1;
  ow_fdatasync w fd : steady w (os_fdatasync w fd).1;
  ow_calloc w len : steady w (os_calloc w len).1;
  ow_realloc w old new : steady w (os_realloc w old new).1;
  ow_pwrite w fd bs off : calm w (os_pwrite w fd bs off).1;
  ow_sendto_sent w node port bs : ow_sent (os_sendto w node port bs).1 = ow_sent w ++ [(node, port, bs)];
  ow_sendto_rest w node port bs : let w' := (os_sendto w node port bs).1 in
    (forall g, ow_open w' g <-> ow_open w g) /\ ow_stray w' = ow_stray w /\ forall g, ow_dev w' g = ow_dev w g;
  ow_dev_read w fd b len off bs : ow_dev w fd = Some b -> read_mem b off len = Done bs ->
    (os_pread w fd len off).1.2 = len /\ (os_pread w fd len off).2 = bs;
  ow_dev_write w fd b bs off b' : ow_dev w fd = Some b -> bytes_ok bs -> write_mem b off bs = Done b' ->
    (os_pwrite w fd bs off).2 = zlen bs /\ ow_dev (os_pwrite w fd bs off).1 fd = Some b' }.

Section View.
Context {W : Type} `{OsView W}.
#[export] Instance calm_preorder : PreOrder (calm (W := W)).
Proof.
  split; [by split|]. intros w1 w2 w3 [A1 A2 A3] [B1 B2 B3].
  split; [congruence|intros g; by rewrite B2, A2|congruence].
Qed.
#[export] Instance steady_preorder : PreOrder (steady (W := W)).
Proof.
  split; [by split|]. intros w1 w2 w3 [A1 A2] [B1 B2]. split; [by etrans|intros g; by rewrite B2, A2].
Qed.
End View.

(** ** A system to try it on

    Files with paths; the table of descriptors only grows, so that they are fresh; every
    file is a device of memory of its size. *)
Record box := Box {
  bx_files : list (list Z * list Z); bx_fds : list (option nat); bx_sent : list (Z * Z * list Z); bx_stray : list Z }.
Definition bx_slot (w : box) (fd : Z) : option nat :=
  if fd <? 0 then None else default None (bx_fds w !! Z.to_nat fd).
Definition bx_file (w : box) (fd : Z) : option (list Z) :=
  i ← bx_slot w fd; (fun f => map (fun b => b mod 256) f.2) <$> bx_files w !! i.
Definition bx_set_fds (w : box) (l : list (option nat)) : box := Box (bx_files w) l (bx_sent w) (bx_stray w).

Definition bx_open (w : box) (path : list Z) : box * Z :=
  match list_find (fun f => f.1 = path) (bx_files w) with
  | Some (i, _) => if zlen (bx_fds w) <? 2 ^ 31 then (bx_set_fds w (bx_fds w ++ [Some i]), zlen (bx_fds w)) else (w, -1)
  | None => (w, -1)
  end.
Definition bx_close (w : box) (fd : Z) : box :=
  match bx_slot w fd with
  | Some _ => bx_set_fds w (<[Z.to_nat fd := None]> (bx_fds w))
  | None => Box (bx_files w) (bx_fds w) (bx_sent w) (bx_stray w ++ [fd])
  end.
Definition bx_pread (w : box) (fd len off : Z) : box * Z * list Z :=
  match bx_file w fd with
  | Some c => let bs := take (Z.to_nat len) (drop (Z.to_nat off) c) in (w, zlen bs, bs)
  | None => (w, -1, [])
  end.
Definition bx_pwrite (w : box) (fd : Z) (bs : list Z) (off : Z) : box * Z :=
  match bx_slot w fd, bx_file w fd with
  | Some i, Some c =>
      (Box (alter (fun f => (f.1, splice c bs (Z.to_nat off))) i (bx_files w)) (bx_fds w) (bx_sent w) (bx_stray w), zlen bs)
  | _, _ => (w, -1)
  end.

#[export] Instance BoxOs : OsOps box := {
  os_errno _ := 2;
  os_open w path _ := bx_open w path;
  os_close := bx_close;
  os_seek_end w fd := (w, match bx_file w fd with Some c => if zlen c <? 2 ^ 63 then zlen c else -1 | None => -1 end);
  os_seek_start w _ := w;
  os_read w fd len := bx_pread w fd len 0;
  os_pread := bx_pread;
  os_pwrite := bx_pwrite;
  os_fdatasync w _ := (w, 0);
  os_calloc w _ := (w, true);
  os_realloc w old new := (w, Some (replicate (Z.to_nat (new - old)) 0xaa));
  os_sendto w node port data := (Box (bx_files w) (bx_fds w) (bx_sent w ++ [(node, port, data)]) (bx_stray w), zlen data) }.
#[export] Instance BoxView : OsView box := {
  ow_sent := bx_sent;
  ow_open w fd := is_Some (bx_slot w fd);
  ow_stray := bx_stray;
  ow_dev := bx_file }.

Lemma bx_file_ok w fd c : bx_file w fd = Some c -> bytes_ok c.
Proof.
  unfold bx_file. destruct (bx_slot w fd) as [i|]; [|done]. cbn. destruct (bx_files w !! i); [|done].
  intros [= <-]. apply bytes_ok_mod.
Qed.
Lemma bx_read_law w fd len off : 0 <= len -> read_law len (bx_pread w fd len off).1.2 (bx_pread w fd len off).2.
Proof.
  intros Hl. unfold bx_pread. destruct (bx_file w fd) as [c|] eqn:E; cbn [fst snd].
  - split_and!; [..|by apply Forall_take, Forall_drop, (bx_file_ok w fd)]; unfold zlen; rewrite ?length_take; lia.
  - split_and!; [unfold zlen; cbn; lia..|constructor].
Qed.
#[export] Instance BoxLaws : OsLaws box.
Proof.
  split; cbn [os_open os_seek_end os_read os_pread os_pwrite os_realloc BoxOs fst snd].
  - intros w path _. unfold bx_open. repeat case_scrut; reflect_bools; cbn [snd]; unfold zlen in *; lia.
  - intros w fd. repeat case_scrut; reflect_bools; unfold zlen in *; lia.
  - intros. by apply bx_read_law.
  - intros. by apply bx_read_law.
  - intros w fd bs off. unfold bx_pwrite. repeat case_scrut; cbn [snd]; unfold zlen; lia.
  - intros w old new w' bs [= _ <-]. split.
    + unfold zlen. rewrite length_replicate. lia.
    + apply bytes_ok_replicate. unfold byte_ok; lia.
Qed.

Lemma bx_slot_app w i fd : bx_slot (bx_set_fds w (bx_fds w ++ [Some i])) fd =
  if fd =? zlen (bx_fds w) then Some i else bx_slot w fd.
Proof.
  unfold bx_slot. cbn [bx_set_fds bx_fds]. destruct (fd <? 0) eqn:E0; reflect_bools.
  { by rewrite (proj2 (Z.eqb_neq _ _)) by (unfold zlen; lia). }
  destruct (fd =? zlen (bx_fds w)) eqn:E; reflect_bools; unfold zlen in *.
  - rewrite lookup_app_r, E, Nat2Z.id, Nat.sub_diag by lia. done.
  - destruct (decide (Z.to_nat fd < length (bx_fds w))%nat); [by rewrite lookup_app_l|].
    rewrite !lookup_ge_None_2; [done|lia|rewrite length_app; cbn; lia].
Qed.
Lemma bx_slot_close w fd g : bx_slot (bx_close w fd) g = if g =? fd then None else bx_slot w g.
Proof.
  unfold bx_close. destruct (bx_slot w fd) as [i|] eqn:Es.
  - unfold bx_slot in *. cbn [bx_set_fds bx_fds]. destruct (g =? fd) eqn:E; reflect_bools.
    + subst g. destruct (fd <? 0); [done|]. destruct (bx_fds w !! Z.to_nat fd) eqn:El; [|done].
      by rewrite list_lookup_insert_eq by (by eapply lookup_lt_Some).
    + destruct (fd <? 0) eqn:E0; [done|]. destruct (g <? 0) eqn:E1; [done|]. reflect_bools.
      by rewrite list_lookup_insert_ne by lia.
  - destruct (g =? fd) eqn:E; reflect_bools; [subst g|]; done.
Qed.
Lemma bx_write_slots w fd bs off g : bx_slot (bx_pwrite w fd bs off).1 g = bx_slot w g.
Proof. unfold bx_pwrite. by destruct (bx_slot w fd), (bx_file w fd). Qed.
Lemma splice_inside c bs off c' : write_mem c off bs = Done c' -> splice c bs (Z.to_nat off) = c'.
Proof.
  intros (Ho & Hl & ->)%write_mem_done. unfold splice, zlen in *.
  replace (Z.to_nat off - length c)%nat with O by lia. cbn [replicate]. by rewrite app_nil_r.
Qed.

#[export] Instance BoxWorld : OsWorld box.
Proof.
  split; cbn [os_open os_close os_seek_end os_seek_start os_read os_pread os_pwrite os_fdatasync os_calloc os_realloc os_sendto BoxOs
    ow_sent ow_open ow_stray ow_dev BoxView fst snd].
  - intros w path _. unfold bx_open. by repeat case_scrut.
  - intros w path _. unfold bx_open. destruct (list_find _ _) as [[i c]|]; [|done]. destruct (_ <? _); [|done].
    rewrite (proj2 (Z.ltb_ge _ _)) by (unfold zlen; lia). split_and!.
    + intros [j Hj]. unfold bx_slot in Hj. rewrite (proj2 (Z.ltb_ge _ _)) in Hj by (unfold zlen; lia).
      unfold zlen in Hj. by rewrite Nat2Z.id, lookup_ge_None_2 in Hj by lia.
    + intros g. rewrite bx_slot_app. destruct (g =? _) eqn:E; reflect_bools; [|tauto]. split; [by left|by eexists].
    + intros g Hg. unfold bx_file. rewrite bx_slot_app, (proj2 (Z.eqb_neq _ _)) by done. done.
  - intros w fd. unfold bx_close. by destruct (bx_slot w fd).
  - intros w fd g. rewrite bx_slot_close. destruct (g =? fd) eqn:E; reflect_bools; [|tauto]. split; [by intros []|tauto].
  - intros w fd [i Hi]. unfold bx_close. by rewrite Hi.
  - intros w fd Hn. unfold bx_close. destruct (bx_slot w fd) as [i|]; [|done]. by destruct Hn.
  - intros w fd g Hg. unfold bx_file. rewrite bx_slot_close, (proj2 (Z.eqb_neq _ _)) by done.
    unfold bx_close. by destruct (bx_slot w fd).
  - done.
  - done.
  - intros w fd len. unfold bx_pread. by destruct (bx_file w fd).
  - intros w fd len off. unfold bx_pread. by destruct (bx_file w fd).
  - done.
  - done.
  - done.
  - intros w fd bs off. split; cbn [ow_sent ow_open ow_stray BoxView]; [|intros g; by rewrite bx_write_slots|];
      unfold bx_pwrite; by destruct (bx_slot w fd), (bx_file w fd).
  - done.
  - done.
  - intros w fd b len off bs Hb (Ho & Hl & Hb2 & ->)%read_mem_done. unfold bx_pread. rewrite Hb. cbn [fst snd].
    split; [|done]. unfold zlen in *. rewrite length_take, length_drop. lia.
  - intros w fd b bs off b' Hb Hbs Hw. pose proof Hb as Hb0. unfold bx_pwrite. unfold bx_file in *.
    destruct (bx_slot w fd) as [i|] eqn:Es; [|done]. cbn in Hb |- *. destruct (bx_files w !! i) as [f|] eqn:Ef; [|done].
    injection Hb as <-. cbn [fst snd]. split; [done|]. cbn [bx_files].
    assert (Es' : forall w2, bx_fds w2 = bx_fds w -> bx_slot w2 fd = Some i) by (intros w2 E; unfold bx_slot in *; by rewrite E).
    rewrite Es' by done. cbn. rewrite list_lookup_alter_eq, Ef. cbn. f_equal. rewrite (splice_inside _ _ _ _ Hw).
    apply write_mem_done in Hw as (_ & _ & ->). rewrite !map_app. f_equal; [|f_equal].
    + by rewrite <- firstn_map, map_map; f_equal; apply map_ext; intros; rewrite Z.mod_mod by lia.
    + induction Hbs as [|x l Hx _ IH]; [done|]. cbn [map]. unfold byte_ok in Hx. rewrite IH, Z.mod_small by lia. done.
    + rewrite <- skipn_map, map_map. f_equal. apply map_ext. intros. by rewrite Z.mod_mod by lia.
Qed.
