(* ===== verification/Storage.v ===== *)
(** * The storage of the remote file system service (rmtfs/storage.c)

    The table of open partitions [rmtfds], whose entries are either a file
    descriptor or, when the storage is read only, a copy of the partition in
    memory that takes the writes.  A pointer to an entry is its index. *)
From Stdlib Require Import String.
From S2P Require Import Prelude CString Os.
#[local] Open Scope Z_scope.

Definition MAX_CALLERS : Z := 10.
Definition STORAGE_MAX_SIZE : Z := 16 * 1024 * 1024.
Definition BY_PARTLABEL_PATH : list Z := cstr "/dev/disk/by-partlabel".
Definition SECTOR_SIZE : Z := 512.

Record partition := Partition { path : list Z; actual : list Z; partlabel : list Z }.

Definition partition_table : list partition :=
  [Partition (cstr "/boot/modem_fs1") (cstr "modem_fs1") (cstr "modemst1");
   Partition (cstr "/boot/modem_fs2") (cstr "modem_fs2") (cstr "modemst2");
   Partition (cstr "/boot/modem_fsc") (cstr "modem_fsc") (cstr "fsc");
   Partition (cstr "/boot/modem_fsg") (cstr "modem_fsg") (cstr "fsg");
   Partition (cstr "/boot/modem_tunning") (cstr "modem_tunning") (cstr "tunning")].

(** [partition] is an index into the table; [shadow_buf] holds all the bytes that
    were allocated, of which [shadow_len] are in use. *)
Record rmtfd := Rmtfd {
  id : Z; node : Z; fd : Z; dev_error : Z; rpart : option nat;
  shadow_buf : option (list Z); shadow_len : Z }.

Record storage := Storage {
  storage_dir : list Z; storage_read_only : bool; storage_use_partitions : bool;
  rmtfds : list rmtfd }.

Definition set_fds (s : storage) (l : list rmtfd) : storage :=
  Storage (storage_dir s) (storage_read_only s) (storage_use_partitions s) l.
Definition set_fd (s : storage) (h : nat) (r : rmtfd) : storage := set_fds s (<[h := r]> (rmtfds s)).
Definition set_shadow (r : rmtfd) (b : option (list Z)) (l : Z) : rmtfd :=
  Rmtfd (id r) (node r) (fd r) (dev_error r) (rpart r) b l.

(** The static data of the program before [storage_init]. *)
Definition storage_static : storage :=
  Storage (cstr "/boot") false false
    (replicate (Z.to_nat MAX_CALLERS) (Rmtfd 0 0 0 0 None None 0)).

Definition storage_init (s : storage) (storage_root : option (list Z)) (read_only use_partitions : bool)
    : storage * Z :=
  let dir := match storage_root with
             | Some root => root
             | None => if use_partitions then BY_PARTLABEL_PATH else storage_dir s
             end in
  (Storage dir read_only (use_partitions || storage_use_partitions s)
     (imap (fun i r => Rmtfd (Z.of_nat i) (node r) (-1) (dev_error r) (rpart r) None (shadow_len r)) (rmtfds s)), 0).

(** The entry is in use. *)
Definition in_use (r : rmtfd) : bool :=
  negb (fd r =? -1) || match shadow_buf r with Some _ => true | None => false end.

(** The loops of [storage_open]: the partition of a path, the entry of a node and
    partition, a free entry. *)
Definition find_part (p : list Z) : option nat :=
  option_map fst (list_find (fun t => path t = p) partition_table).
Definition is_open (n : Z) (p : nat) (r : rmtfd) : bool :=
  in_use r && (node r =? n) && bool_decide (rpart r = Some p).
Definition find_open (s : storage) (n : Z) (p : nat) : option nat :=
  option_map fst (list_find (fun r => is_open n p r = true) (rmtfds s)).
Definition find_free (s : storage) : option nat :=
  option_map fst (list_find (fun r => in_use r = false) (rmtfds s)).

(** [snprintf(fspath, pathlen, "%s/%s", storage_dir, file)]. *)
Definition fs_path (s : storage) (t : partition) : list Z :=
  storage_dir s ++ cstr "/" ++ (if storage_use_partitions s then partlabel t else actual t).

(** [&rmtfds[i]]. *)
Definition rmtfd_at (s : storage) (h : nat) : outcome rmtfd := of_option OutOfBounds (rmtfds s !! h).

(** A negative [caller_id] passes the check. *)
Definition storage_get (s : storage) (n : Z) (caller_id : Z) : outcome (option nat) :=
  if MAX_CALLERS <=? caller_id then Done None
  else if caller_id <? 0 then Fault OutOfBounds
  else
    r ← rmtfd_at s (Z.to_nat caller_id);
    if negb (node r =? n) then Done None else Done (Some (Z.to_nat caller_id)).

(** The remaining functions take a pointer that may be null. *)
Definition deref (s : storage) (h : option nat) : outcome rmtfd :=
  h ← of_option NullPointer h; rmtfd_at s h.
Definition storage_get_caller_id (s : storage) (h : option nat) : outcome Z :=
  r ← deref s h; Done (s32 (id r)).
Definition storage_get_error (s : storage) (h : option nat) : outcome Z :=
  r ← deref s h; Done (s32 (dev_error r)).

Section Storage.
Context {W : Type} `{OsOps W}.

(** The copy is kept in [r]; on an error [r] is not changed (and the buffer, if
    there is one, is lost). *)
Definition storage_populate_shadow_buf (w : W) (r : rmtfd) (file : list Z) : outcome (W * rmtfd * Z) :=
  let '(w, f) := os_open w file O_RDONLY in
  if f <? 0 then Done (w, r, -1)
  else
    let '(w, len) := os_seek_end w f in
    if len <? 0 then Done (os_close w f, r, -1)
    else
      let w := os_seek_start w f in
      let '(w, ok) := os_calloc w len in
      if negb ok then Done (os_close w f, r, -1)
      else
        let '(w, n, bs) := os_read w f len in
        buf ← write_mem (replicate (Z.to_nat len) 0) 0 bs;
        if n <? 0 then Done (os_close w f, r, -1)
        else Done (os_close w f, set_shadow r (Some buf) n, 0).

Definition storage_open (w : W) (s : storage) (n : Z) (p : list Z) : outcome (W * storage * option nat) :=
  match find_part p with
  | None => Done (w, s, None)
  | Some part =>
      match find_open s n part with
      | Some h => Done (w, s, Some h)
      | None =>
          match find_free s with
          | None => Done (w, s, None)
          | Some h =>
              r ← rmtfd_at s h;
              t ← of_option OutOfBounds (partition_table !! part);
              '(w, r, ok) ←
                (if negb (storage_read_only s) then
                   let '(w, f) := os_open w (fs_path s t) O_RDWR in
                   if f <? 0 then Done (w, r, false)
                   else Done (w, Rmtfd (id r) (node r) f (dev_error r) (rpart r) (shadow_buf r) 0, true)
                 else
                   '(w, r, ret) ← storage_populate_shadow_buf w r (fs_path s t);
                   Done (w, r, negb (ret <? 0)));
              if negb (ok : bool) then Done (w, set_fd s h r, None)
              else Done (w, set_fd s h (Rmtfd (id r) n (fd r) (dev_error r) (Some part) (shadow_buf r) (shadow_len r)),
                         Some h)
          end
      end
  end.

(** [node] and [id] stay. *)
Definition storage_close (w : W) (s : storage) (h : option nat) : outcome (W * storage) :=
  h ← of_option NullPointer h;
  r ← rmtfd_at s h;
  let '(w, f) := if 0 <=? fd r then (os_close w (fd r), -1) else (w, fd r) in
  Done (w, set_fd s h (Rmtfd (id r) (node r) f (dev_error r) None None 0)).

Fixpoint close_loop (w : W) (s : storage) (i : nat) (k : nat) : outcome (W * storage) :=
  match k with
  | O => Done (w, s)
  | S k' => '(w, s) ← storage_close w s (Some i); close_loop w s (S i) k'
  end.
Definition storage_exit (w : W) (s : storage) : outcome (W * storage) :=
  close_loop w s 0 (Z.to_nat MAX_CALLERS).

(** [n < nbyte] compares as unsigned: an error of [pread] is taken for a full read. *)
Definition storage_pread (w : W) (s : storage) (h : option nat) (buf : list Z) (nbyte offset : Z)
    : outcome (W * list Z * Z) :=
  r ← deref s h;
  '(w, buf, n) ←
    (if negb (storage_read_only s) then
       let '(w, n, bs) := os_pread w (fd r) nbyte offset in
       buf ← write_mem buf 0 bs; Done (w, buf, n)
     else
       let n := Z.min nbyte (shadow_len r - offset) in
       if 0 <? n then
         sh ← of_option NullPointer (shadow_buf r);
         bs ← read_mem sh offset n;
         buf ← write_mem buf 0 bs; Done (w, buf, n)
       else Done (w, buf, 0));
  if u64 n <? nbyte then
    buf ← write_mem buf n (replicate (Z.to_nat (nbyte - n)) 0); Done (w, buf, nbyte)
  else Done (w, buf, nbyte).

(** [realloc]: the bytes of the old block as far as they fit, then fresh ones. *)
Definition grow_shadow (w : W) (r : rmtfd) (new_len : Z) : W * option rmtfd :=
  if shadow_len r <? new_len then
    let old := default [] (shadow_buf r) in
    let '(w, fresh) := os_realloc w (zlen old) new_len in
    match fresh with
    | None => (w, None)
    | Some fresh => (w, Some (set_shadow r (Some (take (Z.to_nat new_len) old ++ fresh)) new_len))
    end
  else (w, Some r).

Definition storage_pwrite (w : W) (s : storage) (h : option nat) (bs : list Z) (offset : Z)
    : outcome (W * storage * Z) :=
  h ← of_option NullPointer h;
  r ← rmtfd_at s h;
  let new_len := u64 (offset + zlen bs) in
  if negb (storage_read_only s) then
    let '(w, n) := os_pwrite w (fd r) bs offset in Done (w, s, n)
  else if STORAGE_MAX_SIZE <=? new_len then Done (w, s, -1)
  else
    match grow_shadow w r new_len with
    | (w, None) => Done (w, s, -1)
    | (w, Some r) =>
        sh ← of_option NullPointer (shadow_buf r);
        sh ← write_mem sh offset bs;
        Done (w, set_fd s h (set_shadow r (Some sh) (shadow_len r)), zlen bs)
    end.

Definition storage_sync (w : W) (s : storage) (h : option nat) : outcome (W * Z) :=
  if storage_read_only s then Done (w, 0)
  else r ← deref s h; Done (os_fdatasync w (fd r)).

End Storage.
