(* ===== verification/StorageFacts.v ===== *)
(** * The storage: invariant and specifications of the operations *)
From S2P Require Import Prelude CString Os Storage.

(** A copy in memory has its length in use within the block; the storage is either
    all files or all copies; no two entries serve the same partition to the same
    node. *)
Record rmtfd_ok (ro : bool) (i : nat) (r : rmtfd) : Prop := {
  ok_id : id r = Z.of_nat i;
  ok_fd : -1 <= fd r < 2 ^ 31;
  ok_ro : if ro then fd r = -1 else shadow_buf r = None;
  ok_shadow : match shadow_buf r with
              | Some b => 0 <= shadow_len r <= zlen b /\ bytes_ok b
              | None => shadow_len r = 0
              end;
  ok_free : in_use r = false -> rpart r = None }.

Definition same_file (r1 r2 : rmtfd) : Prop :=
  in_use r1 = true /\ in_use r2 = true /\ node r1 = node r2 /\ rpart r1 = rpart r2 /\ is_Some (rpart r1).

Record storage_ok (s : storage) : Prop := {
  ok_length : length (rmtfds s) = 10%nat;
  ok_entry i r : rmtfds s !! i = Some r -> rmtfd_ok (storage_read_only s) i r;
  ok_unique i j r1 r2 : rmtfds s !! i = Some r1 -> rmtfds s !! j = Some r2 -> same_file r1 r2 -> i = j }.

Lemma storage_init_ok root ro up : storage_ok (storage_init storage_static root ro up).1.
Proof.
  assert (E : rmtfds (storage_init storage_static root ro up).1 =
    imap (fun i _ => Rmtfd (Z.of_nat i) 0 (-1) 0 None None 0) (replicate 10 tt)) by done.
  split.
  - by rewrite E.
  - intros i r. rewrite E, list_lookup_imap. intros (u & _ & ->)%fmap_Some.
    change (storage_read_only _) with ro. by split; cbn; [|lia|destruct ro| |].
  - intros i j r1 r2. rewrite !E, !list_lookup_imap.
    intros (u & _ & ->)%fmap_Some _ (Hu & _). done.
Qed.

Lemma set_fd_lookup s h r i :
  rmtfds (set_fd s h r) !! i =
  if decide (h = i) then (if decide (i < length (rmtfds s))%nat then Some r else None) else rmtfds s !! i.
Proof.
  cbn. case_decide; subst.
  - case_decide; [by apply list_lookup_insert_eq|].
    rewrite list_insert_ge by lia. apply lookup_ge_None. lia.
  - by apply list_lookup_insert_ne.
Qed.

(** Replacing an entry keeps the invariant when it serves no partition twice. *)
Lemma set_fd_ok s h r0 r : storage_ok s -> rmtfds s !! h = Some r0 -> rmtfd_ok (storage_read_only s) h r ->
  (forall j r', j <> h -> rmtfds s !! j = Some r' -> ~ same_file r r') ->
  storage_ok (set_fd s h r).
Proof.
  intros [Hl He Hu] Hh Hr Hn. pose proof (lookup_lt_Some _ _ _ Hh). split.
  - cbn. by rewrite length_insert.
  - intros i r'. rewrite set_fd_lookup. case_decide; [|apply He].
    subst. case_decide; [|done]. by intros [= <-].
  - intros i j r1 r2. rewrite !set_fd_lookup.
    destruct (decide (h = i)) as [<-|Hi], (decide (h = j)) as [<-|Hj]; try done.
    + case_decide; [|done]. intros [= <-] E2 Hs. destruct (Hn j r2); auto.
    + case_decide; [|done]. intros E1 [= <-] (U1 & U2 & N & P & S). destruct (Hn i r1); auto.
      split_and!; auto. by rewrite <- P.
    + intros E1 E2. by apply Hu.
Qed.

(** Replacing an entry by one that serves the same partition or none. *)
Lemma set_fd_same_ok s h r0 r : storage_ok s -> rmtfds s !! h = Some r0 -> rmtfd_ok (storage_read_only s) h r ->
  (rpart r = None \/ in_use r = false \/
   rpart r = rpart r0 /\ node r = node r0 /\ in_use r = in_use r0) ->
  storage_ok (set_fd s h r).
Proof.
  intros Hs Hh Hr Hp. eapply set_fd_ok; eauto. intros j r' Hj Hr' (U1 & U2 & N & P & [p S]).
  destruct Hp as [Hp|[Hp|(Hp1 & Hp2 & Hp3)]]; [congruence..|].
  apply Hj. symmetry. eapply (ok_unique _ Hs); eauto. split_and!; try congruence. exists p; congruence.
Qed.

Lemma rmtfd_at_some s h r : rmtfds s !! h = Some r -> rmtfd_at s h = Done r.
Proof. unfold rmtfd_at. by intros ->. Qed.
Lemma rmtfd_deref_some s h r : rmtfds s !! h = Some r -> deref s (Some h) = Done r.
Proof. unfold deref. run. apply rmtfd_at_some. Qed.

Lemma list_find_fst {A} (P : A -> Prop) `{!forall x, Decision (P x)} l i :
  option_map fst (list_find P l) = Some i <->
  exists x, l !! i = Some x /\ P x /\ forall j y, l !! j = Some y -> (j < i)%nat -> ~ P y.
Proof.
  split.
  - destruct (list_find P l) as [[i' x]|] eqn:E; [|done]. intros [= <-].
    apply list_find_Some in E as (? & ? & ?). eauto.
  - intros (x & ? & ? & ?). assert (list_find P l = Some (i, x)) as ->; [|done].
    by apply list_find_Some.
Qed.
Lemma list_find_none {A} (P : A -> Prop) `{!forall x, Decision (P x)} l :
  option_map fst (list_find P l) = None <-> forall i x, l !! i = Some x -> ~ P x.
Proof.
  split.
  - destruct (list_find P l) eqn:E; [done|]. intros _ i x Hx.
    apply list_find_None in E. rewrite Forall_forall in E. apply E. by eapply list_elem_of_lookup_2.
  - intros Hn. destruct (list_find P l) as [[i x]|] eqn:E; [|done].
    apply list_find_Some in E as (E & ? & _). by destruct (Hn _ _ E).
Qed.

Lemma is_open_true n p r : is_open n p r = true <-> in_use r = true /\ node r = n /\ rpart r = Some p.
Proof. unfold is_open. rewrite !andb_true_iff, Z.eqb_eq, bool_decide_eq_true. tauto. Qed.

Lemma find_open_some s n p h : find_open s n p = Some h ->
  exists r, rmtfds s !! h = Some r /\ in_use r = true /\ node r = n /\ rpart r = Some p.
Proof. intros (r & Hr & (? & ? & ?)%is_open_true & _)%list_find_fst. eauto. Qed.
Lemma find_open_none s n p : find_open s n p = None ->
  forall i r, rmtfds s !! i = Some r -> in_use r = true -> node r = n -> rpart r <> Some p.
Proof.
  intros Hn i r Hr Hu Hno Hp. apply (proj1 (list_find_none _ _) Hn i r Hr). by apply is_open_true.
Qed.
Lemma find_free_some s h : find_free s = Some h ->
  exists r, rmtfds s !! h = Some r /\ in_use r = false.
Proof. intros (r & Hr & ? & _)%list_find_fst. eauto. Qed.
Lemma find_part_some p part : find_part p = Some part ->
  exists t, partition_table !! part = Some t /\ path t = p.
Proof. intros (t & Ht & ? & _)%list_find_fst. eauto. Qed.

Lemma not_in_use r : in_use r = false <-> fd r = -1 /\ shadow_buf r = None.
Proof.
  unfold in_use. destruct (Z.eqb_spec (fd r) (-1)), (shadow_buf r); cbn; split; intros; intuition congruence.
Qed.

Lemma storage_get_spec s n c : storage_ok s -> 0 <= c ->
  exists o, storage_get s n c = Done o /\
    forall h, o = Some h -> h = Z.to_nat c /\ exists r, rmtfds s !! h = Some r /\ node r = n.
Proof.
  intros Hs Hc. unfold storage_get, MAX_CALLERS. destruct (10 <=? c) eqn:E; reflect_bools.
  { eexists; split; [done|]. done. }
  rewrite (proj2 (Z.ltb_ge _ _)) by lia.
  destruct (lookup_lt_is_Some_2 (rmtfds s) (Z.to_nat c)) as [r Hr]; [rewrite (ok_length _ Hs); lia|].
  rewrite (rmtfd_at_some _ _ _ Hr). run. destruct (Z.eqb_spec (node r) n); cbn [negb]; eexists; (split; [done|]).
  - intros h [= <-]. eauto.
  - done.
Qed.

Section Specs.
Context {W : Type} `{OsLaws W}.

Lemma populate_spec w r file :
  returns (storage_populate_shadow_buf w r file) (fun '(w', r', ret) =>
    ret = -1 /\ r' = r \/
    ret = 0 /\ exists b n, r' = set_shadow r (Some b) n /\ 0 <= n <= zlen b /\ bytes_ok b).
Proof.
  unfold storage_populate_shadow_buf. destruct (os_open w file O_RDONLY) as [w1 f].
  destruct (f <? 0); [apply returns_done; auto|].
  pose proof (os_seek_end_range w1 f) as Hlen. destruct (os_seek_end w1 f) as [w2 len]. cbn in Hlen.
  destruct (len <? 0) eqn:El; reflect_bools; [apply returns_done; auto|].
  destruct (os_calloc _ len) as [w3 ok]. destruct ok; cbn [negb]; [|apply returns_done; auto].
  pose proof (os_read_law w3 f len El) as Hrd. destruct (os_read w3 f len) as [[w4 n] bs].
  destruct Hrd as (Hn & Hz & Hb). cbn [fst snd] in *. unfold zlen in Hz.
  rewrite write_mem_all by (rewrite length_replicate; lia). run.
  destruct (n <? 0) eqn:En; reflect_bools; [apply returns_done; auto|]. apply returns_done. right.
  split; [done|]. eexists _, n. split; [done|]. split.
  - unfold zlen. rewrite length_app, length_drop, length_replicate. lia.
  - apply Forall_app; split; [done|]. apply Forall_drop, bytes_ok_replicate. unfold byte_ok; lia.
Qed.

(** The entry [h] of [s'] is open for partition [part] of node [n]; the other
    entries are those of [s]. *)
Record opened (s s' : storage) (n : Z) (part h : nat) : Prop := {
  op_entry : exists r, rmtfds s' !! h = Some r /\ in_use r = true /\ node r = n /\ rpart r = Some part;
  op_other : forall i, i <> h -> rmtfds s' !! i = rmtfds s !! i }.

Lemma set_fd_id s h r : rmtfds s !! h = Some r -> set_fd s h r = s.
Proof. intros Hr. unfold set_fd, set_fds. rewrite list_insert_id by done. by destruct s. Qed.

(** Filling a free entry. *)
Lemma open_entry_ok s n part h r r' :
  storage_ok s -> find_open s n part = None -> rmtfds s !! h = Some r ->
  rmtfd_ok (storage_read_only s) h r' -> node r' = n -> rpart r' = Some part -> in_use r' = true ->
  storage_ok (set_fd s h r') /\ opened s (set_fd s h r') n part h.
Proof.
  intros Hs Ho Hr Hr' Hn Hp Hu. pose proof (lookup_lt_Some _ _ _ Hr). split; [|split].
  - eapply set_fd_ok; eauto. intros j q Hj Hq (_ & U & N & P & _).
    apply (find_open_none _ _ _ Ho j q Hq U); congruence.
  - exists r'. split; [|done]. rewrite set_fd_lookup, !decide_True by done. done.
  - intros i Hi. rewrite set_fd_lookup, decide_False by done. done.
Qed.

Lemma storage_open_fresh w s n p part h r t :
  storage_ok s -> find_part p = Some part -> find_open s n part = None -> find_free s = Some h ->
  rmtfds s !! h = Some r -> in_use r = false -> partition_table !! part = Some t ->
  returns (storage_open w s n p) (fun '(w', s', o) =>
    match o with
    | Some h' => h' = h /\ storage_ok s' /\ opened s s' n part h
    | None => s' = s
    end).
Proof.
  intros Hs Ep Eo Ef Hr Hu Ht. unfold storage_open. rewrite Ep, Eo, Ef, (rmtfd_at_some _ _ _ Hr), Ht. run.
  pose proof (ok_entry _ Hs _ _ Hr) as [I1 I2 I3 I4 I5]. apply not_in_use in Hu as (Hf & Hb).
  destruct (storage_read_only s) eqn:Ero; cbn [negb].
  - destruct (populate_spec w r (fs_path s t)) as ([[w' r'] ret] & -> & [(-> & ->)|(-> & b & k & -> & Hk & Hbk)]); run.
    + cbn. apply returns_done. by apply set_fd_id.
    + cbn. apply returns_done. split; [done|]. eapply open_entry_ok; eauto; [rewrite Ero|done..|].
      * split; cbn; [done..|]. intros (_ & ?)%not_in_use. done.
      * unfold in_use; cbn. by rewrite orb_true_r.
  - pose proof (os_open_range w (fs_path s t) O_RDWR) as Hfd.
    destruct (os_open w (fs_path s t) O_RDWR) as [w' f]. cbn [snd] in Hfd.
    destruct (f <? 0) eqn:Ef0; run; cbn [negb]; apply returns_done; [by apply set_fd_id|].
    reflect_bools. split; [done|]. eapply open_entry_ok; eauto; [rewrite Ero|done..|].
    + split; cbn; [done|lia|done|by rewrite Hb|]. intros (? & _)%not_in_use. cbn in *; lia.
    + unfold in_use; cbn. destruct (Z.eqb_spec f (-1)); [lia|done].
Qed.

(** Closing frees the entry, whatever it was. *)
Lemma storage_close_spec w s h r :
  storage_ok s -> rmtfds s !! h = Some r ->
  returns (storage_close w s (Some h)) (fun '(w', s') =>
    storage_ok s' /\ storage_read_only s' = storage_read_only s /\
    rmtfds s' = <[h := Rmtfd (id r) (node r) (-1) (dev_error r) None None 0]> (rmtfds s)).
Proof.
  intros Hs Hr. pose proof (ok_entry _ Hs _ _ Hr) as [I1 I2 I3 I4 I5].
  unfold storage_close. run. rewrite (rmtfd_at_some _ _ _ Hr). run.
  assert (Hw : exists w', (if 0 <=? fd r then (os_close w (fd r), -1) else (w, fd r)) = (w', -1)).
  { destruct (0 <=? fd r) eqn:E; reflect_bools; [by eexists|]. exists w. f_equal. lia. }
  destruct Hw as [w' ->]. apply returns_done. split_and!; [|done|done].
  eapply set_fd_same_ok; eauto. split; cbn; [done|lia|by destruct (storage_read_only s)|done|done].
Qed.

(** *** The contents of a copy *)

(** What a reader sees at an offset: the copy, and zeros behind it. *)
Definition shadow_byte (r : rmtfd) (i : Z) : Z :=
  if i <? shadow_len r then default 0 (default [] (shadow_buf r) !! Z.to_nat i) else 0.
Definition contents (r : rmtfd) (off n : Z) : list Z :=
  map (fun k => shadow_byte r (off + Z.of_nat k)) (seq 0 (Z.to_nat n)).

Lemma length_contents r off n : length (contents r off n) = Z.to_nat n.
Proof. unfold contents. by rewrite length_map, length_seq. Qed.
Lemma contents_lookup r off n i : (i < Z.to_nat n)%nat ->
  contents r off n !! i = Some (shadow_byte r (off + Z.of_nat i)).
Proof.
  intros Hi. unfold contents. rewrite list_lookup_fmap, lookup_seq_lt by done. done.
Qed.

Lemma shadow_byte_ok ro i r k : rmtfd_ok ro i r -> byte_ok (shadow_byte r k).
Proof.
  intros [_ _ _ Hb _]. unfold shadow_byte. destruct (k <? shadow_len r); [|unfold byte_ok; lia].
  destruct (shadow_buf r) as [b|].
  - change (default [] (Some b)) with b. destruct (b !! Z.to_nat k) eqn:E; [|cbn; unfold byte_ok; lia].
    destruct Hb as [_ Hb]. exact (proj1 (Forall_lookup _ _) Hb _ _ E).
  - change (default [] None) with (@nil Z). rewrite lookup_nil. cbn. unfold byte_ok; lia.
Qed.
Lemma contents_ok ro i r off n : rmtfd_ok ro i r -> bytes_ok (contents r off n).
Proof.
  intros Hr. apply Forall_lookup. intros k b Hk.
  pose proof (lookup_lt_Some _ _ _ Hk) as Hl. rewrite length_contents in Hl.
  rewrite contents_lookup in Hk by done. injection Hk as <-. by eapply shadow_byte_ok.
Qed.

Lemma shadow_read ro i r b off n : rmtfd_ok ro i r -> shadow_buf r = Some b ->
  0 <= off -> 0 <= n -> off + n <= shadow_len r -> read_mem b off n = Done (contents r off n).
Proof.
  intros [_ _ _ Hb] E Ho Hn Hl. rewrite E in Hb. destruct Hb as [Hb _].
  apply read_mem_done. split_and!; try lia. symmetry. apply list_eq. intros k. rewrite lookup_take.
  case_decide as Hk.
  - rewrite lookup_drop, contents_lookup by done. unfold shadow_byte.
    rewrite E, (proj2 (Z.ltb_lt _ _)) by lia. cbn. unfold zlen in *.
    destruct (lookup_lt_is_Some_2 b (Z.to_nat off + k)) as [v Hv]; [lia|].
    replace (Z.to_nat (off + Z.of_nat k)) with (Z.to_nat off + k)%nat by lia. by rewrite Hv.
  - symmetry; apply lookup_ge_None. rewrite length_contents. lia.
Qed.

Lemma contents_split r off n m : 0 <= n <= m ->
  contents r off m = contents r off n ++ contents r (off + n) (m - n).
Proof.
  intros Hn. apply list_eq. intros k. destruct (decide (k < Z.to_nat m)%nat).
  - rewrite contents_lookup by done. destruct (decide (k < Z.to_nat n)%nat).
    + rewrite lookup_app_l by (rewrite length_contents; lia). by rewrite contents_lookup.
    + rewrite lookup_app_r by (rewrite length_contents; lia).
      rewrite length_contents, contents_lookup by lia. do 2 f_equal. lia.
  - rewrite !lookup_ge_None_2; [done|rewrite length_app, !length_contents; lia|rewrite length_contents; lia].
Qed.
Lemma contents_behind r off n : shadow_len r <= off -> contents r off n = replicate (Z.to_nat n) 0.
Proof.
  intros Ho. apply list_eq. intros k. destruct (decide (k < Z.to_nat n)%nat).
  - rewrite contents_lookup, lookup_replicate_2 by done. unfold shadow_byte.
    by rewrite (proj2 (Z.ltb_ge _ _)) by lia.
  - rewrite !lookup_ge_None_2; [done|rewrite length_replicate; lia|rewrite length_contents; lia].
Qed.

(** Writing twice, the second time right behind the first. *)
Lemma write_mem_twice m m1 (a b : list Z) :
  write_mem m 0 a = Done m1 -> zlen a + zlen b <= zlen m ->
  write_mem m1 (zlen a) b = Done (a ++ b ++ drop (length a + length b) m).
Proof.
  intros Hw Hl. pose proof (write_mem_length _ _ _ _ Hw) as Hl1.
  apply write_mem_done in Hw as (_ & Hfit & ->). unfold zlen in *. cbn [Z.to_nat take] in *.
  rewrite app_nil_l in *. apply write_mem_done. unfold zlen. split_and!; [lia|rewrite Hl1; lia|].
  rewrite Nat2Z.id, take_app_length. do 2 f_equal.
  rewrite drop_app_ge by lia. rewrite drop_drop. f_equal. lia.
Qed.

(** Reading a copy: the contents, and the number of bytes asked for. *)
Lemma storage_pread_shadow w s h r buf nbyte off :
  storage_ok s -> rmtfds s !! h = Some r -> storage_read_only s = true ->
  0 <= off -> 0 < nbyte <= zlen buf -> nbyte < 2 ^ 63 ->
  storage_pread w s (Some h) buf nbyte off =
    Done (w, contents r off nbyte ++ drop (Z.to_nat nbyte) buf, nbyte).
Proof.
  intros Hs Hr Hro Ho Hb Hbig. pose proof (ok_entry _ Hs _ _ Hr) as Hrok.
  unfold storage_pread. rewrite (rmtfd_deref_some _ _ _ Hr), Hro. run. cbn [negb].
  set (n := Z.min nbyte (shadow_len r - off)).
  destruct (0 <? n) eqn:En; reflect_bools.
  - destruct (shadow_buf r) as [b|] eqn:Eb; [|pose proof (ok_shadow _ _ _ Hrok) as Hx; rewrite Eb in Hx; lia]. run.
    rewrite (shadow_read _ _ _ _ _ _ Hrok Eb) by lia. run.
    assert (Hz : zlen (contents r off n) = n) by (unfold zlen; rewrite length_contents; lia).
    destruct (write_mem_ok buf 0 (contents r off n)) as [m1 E1]; [lia|lia|]. rewrite E1. run.
    rewrite u64_small by lia. destruct (n <? nbyte) eqn:El; reflect_bools.
    + rewrite <- Hz at 1. rewrite (write_mem_twice _ _ _ _ E1).
      2:{ rewrite Hz. unfold zlen in *. rewrite length_replicate. lia. }
      run. do 2 f_equal. rewrite (contents_split r off n nbyte) by lia.
      rewrite <- app_assoc, (contents_behind r (off + n)) by lia.
      rewrite length_replicate, length_contents. do 3 f_equal. f_equal. lia.
    + assert (n = nbyte) as Hn by lia. rewrite Hn in *.
      apply write_mem_done in E1 as (_ & _ & ->). cbn [Z.to_nat take]. rewrite app_nil_l, length_contents. done.
  - run. rewrite u64_small by lia. rewrite (proj2 (Z.ltb_lt _ _)) by lia.
    rewrite write_mem_all by (unfold zlen in Hb; rewrite length_replicate; lia). run.
    rewrite (contents_behind r off) by lia. rewrite length_replicate, Z.sub_0_r. done.
Qed.

(** In both modes reading returns, keeps the buffer a buffer, and claims to have
    read everything. *)
Lemma storage_pread_returns w s h r buf nbyte off :
  storage_ok s -> rmtfds s !! h = Some r -> 0 <= off -> 0 < nbyte <= zlen buf -> nbyte < 2 ^ 63 ->
  bytes_ok buf ->
  returns (storage_pread w s (Some h) buf nbyte off) (fun '(w', buf', n) =>
    n = nbyte /\ zlen buf' = zlen buf /\ bytes_ok buf').
Proof.
  intros Hs Hr Ho Hb Hbig Hbok. destruct (storage_read_only s) eqn:Hro.
  { rewrite (storage_pread_shadow w s h r) by done. apply returns_done. split_and!; [done| |].
    - unfold zlen in *. rewrite length_app, length_contents, length_drop. lia.
    - apply Forall_app; split; [|by apply Forall_drop]. eapply contents_ok, ok_entry; eauto. }
  unfold storage_pread. rewrite (rmtfd_deref_some _ _ _ Hr), Hro. run. cbn [negb].
  pose proof (os_pread_law w (fd r) nbyte off ltac:(lia)) as Hl.
  destruct (os_pread w (fd r) nbyte off) as [[w1 n] bs]. destruct Hl as (Hn & Hz & Hbs). cbn [fst snd] in *.
  destruct (write_mem_ok buf 0 bs) as [m1 E1]; [lia|lia|]. rewrite E1. run.
  pose proof (write_mem_length _ _ _ _ E1) as L1. pose proof (write_mem_bytes _ _ _ _ Hbok Hbs E1) as B1.
  destruct (u64 n <? nbyte) eqn:El; [|by apply returns_done].
  assert (0 <= n < nbyte) by (reflect_bools; unfold u64 in El; Z.div_mod_to_equations; lia).
  apply returns_bind, returns_write; [lia|unfold zlen in *; rewrite length_replicate; lia|].
  intros m2 [L2 _] B2 _. apply returns_done. split_and!; [done|lia|].
  apply B2; [done|]. apply bytes_ok_replicate. unfold byte_ok; lia.
Qed.

(** *** Writing a copy *)

(** The block a write goes to: long enough, the old contents in place. *)
Lemma grow_spec w i r new_len : rmtfd_ok true i r -> 0 < new_len ->
  match grow_shadow w r new_len with
  | (_, None) => True
  | (_, Some r') => exists b,
      r' = set_shadow r (Some b) (Z.max (shadow_len r) new_len) /\ shadow_len r' <= zlen b /\ bytes_ok b /\
      forall k, (Z.of_nat k < shadow_len r) -> b !! k = Some (shadow_byte r (Z.of_nat k))
  end.
Proof.
  intros [I1 I2 I3 I4 I5] Hn. unfold grow_shadow.
  assert (Hold : forall k, Z.of_nat k < shadow_len r ->
    default [] (shadow_buf r) !! k = Some (shadow_byte r (Z.of_nat k))).
  { intros k Hk. unfold shadow_byte. rewrite (proj2 (Z.ltb_lt _ _)) by done. rewrite Nat2Z.id.
    destruct (shadow_buf r) as [b|]; [|lia]. change (default [] (Some b)) with b.
    unfold zlen in *. destruct (lookup_lt_is_Some_2 b k) as [v ->]; [lia|done]. }
  destruct (shadow_len r <? new_len) eqn:E; reflect_bools.
  - destruct (os_realloc w _ new_len) as [w' [fresh|]] eqn:Er; [|done].
    apply os_realloc_law in Er as (Hz & Hf). eexists. split; [rewrite Z.max_r by lia; done|].
    cbn [set_shadow shadow_len]. split_and!.
    + unfold zlen in *. rewrite length_app, length_take. lia.
    + apply Forall_app; split; [|done]. apply Forall_take.
      destruct (shadow_buf r); [apply I4|constructor].
    + intros k Hk. apply lookup_app_l_Some. rewrite lookup_take_lt by lia. by apply Hold.
  - destruct (shadow_buf r) as [b|] eqn:Eb; [|lia].
    exists b. rewrite Z.max_l by lia. split; [destruct r; cbn in *; by subst|]. destruct I4 as [[? ?] ?]. split_and!; [done..|].
    intros k Hk. by apply Hold.
Qed.

(** The effect of a write on the bytes of an entry: [bs] at [off], the rest as it
    was, except for the gap between the old end and [off]. *)
Definition wrote (r r' : rmtfd) (bs : list Z) (off : Z) : Prop :=
  forall k, 0 <= k ->
    (off <= k < off + zlen bs -> bs !! Z.to_nat (k - off) = Some (shadow_byte r' k)) /\
    (k < off \/ off + zlen bs <= k -> k < shadow_len r \/ off <= k -> shadow_byte r' k = shadow_byte r k).

Lemma storage_pwrite_shadow w s h r bs off :
  storage_ok s -> rmtfds s !! h = Some r -> storage_read_only s = true ->
  0 <= off -> 0 < zlen bs -> off + zlen bs < 2 ^ 63 -> bytes_ok bs ->
  returns (storage_pwrite w s (Some h) bs off) (fun '(w', s', n) =>
    n = -1 /\ s' = s \/
    n = zlen bs /\ off + zlen bs < STORAGE_MAX_SIZE /\ storage_ok s' /\ storage_read_only s' = true /\
    exists r', rmtfds s' = <[h := r']> (rmtfds s) /\ node r' = node r /\ rpart r' = rpart r /\
      shadow_len r' = Z.max (shadow_len r) (off + zlen bs) /\ wrote r r' bs off).
Proof.
  intros Hs Hr Hro Ho Hb Hbig Hbs. pose proof (ok_entry _ Hs _ _ Hr) as Hrok. rewrite Hro in Hrok.
  unfold storage_pwrite. run. rewrite (rmtfd_at_some _ _ _ Hr), Hro. run. cbn [negb].
  rewrite u64_small by lia. destruct (STORAGE_MAX_SIZE <=? _) eqn:Em; reflect_bools;
    [apply returns_done; by left|].
  pose proof (grow_spec w h r (off + zlen bs) Hrok ltac:(lia)) as Hg.
  destruct (grow_shadow w r (off + zlen bs)) as [w' [r1|]]; [|apply returns_done; by left].
  destruct Hg as (b & -> & Hlen & Hbok & Hold). cbn [set_shadow shadow_buf shadow_len] in *. run.
  destruct (write_mem_ok b off bs) as [b' Eb]; [lia|lia|]. rewrite Eb. run. apply returns_done. right.
  pose proof (write_mem_length _ _ _ _ Eb) as L'. pose proof (write_mem_bytes _ _ _ _ Hbok Hbs Eb) as B'.
  destruct Hrok as [I1 I2 I3 I4 I5].
  split_and!; [done|lia| |done|].
  - eapply set_fd_same_ok; eauto.
    + rewrite Hro. split; cbn; [done|done|done|split; [lia|done]|]. intros (_ & ?)%not_in_use. done.
    + cbn. destruct (in_use r) eqn:Eu.
      * right; right. split_and!; [done|done|]. unfold in_use. cbn. by rewrite orb_true_r.
      * left. by apply I5.
  - eexists. split; [done|]. cbn. split_and!; [done..|]. intros k Hk. unfold shadow_byte at 1 2. cbn.
    pose proof (write_mem_lookup _ _ _ _ (Z.to_nat k) Eb) as Hl. split.
    + intros Hin. rewrite (proj2 (Z.ltb_lt _ _)) by lia. rewrite Hl. unfold zlen in *.
      rewrite decide_True by lia. replace (Z.to_nat k - Z.to_nat off)%nat with (Z.to_nat (k - off)) by lia.
      destruct (lookup_lt_is_Some_2 bs (Z.to_nat (k - off))) as [v ->]; [lia|done].
    + intros Hout Hgap. destruct (Z.ltb_spec k (Z.max (shadow_len r) (off + zlen bs))) as [Hlt|Hge].
      * rewrite Hl. unfold zlen in *. rewrite decide_False by lia.
        specialize (Hold (Z.to_nat k) ltac:(lia)). rewrite Hold, Z2Nat.id by lia. done.
      * unfold shadow_byte. by rewrite (proj2 (Z.ltb_ge _ _)) by lia.
Qed.

(** In both modes. *)
Lemma storage_pwrite_returns w s h r bs off :
  storage_ok s -> rmtfds s !! h = Some r -> 0 <= off -> 0 < zlen bs -> off + zlen bs < 2 ^ 63 -> bytes_ok bs ->
  returns (storage_pwrite w s (Some h) bs off) (fun '(w', s', n) =>
    -1 <= n <= zlen bs /\ storage_ok s' /\ storage_read_only s' = storage_read_only s /\
    forall i, node <$> rmtfds s' !! i = node <$> rmtfds s !! i).
Proof.
  intros Hs Hr Ho Hb Hbig Hbs. destruct (storage_read_only s) eqn:Hro.
  - eapply returns_mono; [by apply (storage_pwrite_shadow w s h r)|].
    intros [[w' s'] n] [(-> & ->)|(-> & _ & Hs' & Hro' & r' & -> & Hn & _)].
    + split_and!; [lia|lia|done|congruence|done].
    + split_and!; [lia|lia|done|congruence|]. intros i. destruct (decide (h = i)) as [->|].
      * rewrite list_lookup_insert_eq by (by eapply lookup_lt_Some). rewrite Hr. cbn. congruence.
      * by rewrite list_lookup_insert_ne.
  - unfold storage_pwrite. run. rewrite (rmtfd_at_some _ _ _ Hr), Hro. run. cbn [negb].
    pose proof (os_pwrite_range w (fd r) bs off) as Hp. destruct (os_pwrite w (fd r) bs off) as [w' n].
    apply returns_done. done.
Qed.

Lemma storage_sync_returns w s h r : rmtfds s !! h = Some r ->
  exists w' n, storage_sync w s (Some h) = Done (w', n).
Proof.
  intros Hr. unfold storage_sync. destruct (storage_read_only s); [by eexists _, _|].
  rewrite (rmtfd_deref_some _ _ _ Hr). run. destruct (os_fdatasync w (fd r)). by eexists _, _.
Qed.
End Specs.
