(* ===== verification/StorageProps.v ===== *)
(** * The storage: properties *)
From Stdlib Require Import String.
From S2P Require Import Prelude CString Os Storage StorageFacts.
#[local] Open Scope Z_scope.

Section Lemmas.
Context {W : Type} `{OsLaws W}.

Lemma find_open_intro s n p h r :
  storage_ok s -> rmtfds s !! h = Some r -> in_use r = true -> node r = n -> rpart r = Some p ->
  find_open s n p = Some h.
Proof.
  intros Hs Hr Hu Hn Hp. destruct (find_open s n p) as [h'|] eqn:E.
  - apply find_open_some in E as (r' & Hr' & Hu' & Hn' & Hp'). f_equal.
    eapply (ok_unique _ Hs); eauto. split_and!; try congruence. by exists p.
  - by destruct (find_open_none _ _ _ E _ _ Hr Hu Hn).
Qed.

Lemma storage_get_self s h r : storage_ok s -> rmtfds s !! h = Some r ->
  storage_get s (node r) (Z.of_nat h) = Done (Some h) /\
  storage_get_caller_id s (Some h) = Done (Z.of_nat h).
Proof.
  intros Hs Hr. pose proof (lookup_lt_Some _ _ _ Hr) as Hl. rewrite (ok_length _ Hs) in Hl. split.
  - unfold storage_get, MAX_CALLERS. rewrite (proj2 (Z.leb_gt _ _)) by lia.
    rewrite (proj2 (Z.ltb_ge _ _)), Nat2Z.id, (rmtfd_at_some _ _ _ Hr) by lia. run.
    by rewrite Z.eqb_refl.
  - unfold storage_get_caller_id. rewrite (rmtfd_deref_some _ _ _ Hr). run.
    rewrite (ok_id _ _ _ (ok_entry _ Hs _ _ Hr)), s32_small by lia. done.
Qed.

Lemma storage_open_again w s n p part h r :
  storage_ok s -> find_part p = Some part -> rmtfds s !! h = Some r -> in_use r = true ->
  node r = n -> rpart r = Some part -> storage_open w s n p = Done (w, s, Some h).
Proof.
  intros Hs Hp Hr Hu Hn Hpt. unfold storage_open. rewrite Hp.
  by rewrite (find_open_intro s n part h r).
Qed.

(** The three ways [storage_open] ends. *)
Lemma storage_open_cases w s n p : storage_ok s ->
  returns (storage_open w s n p) (fun '(w', s', o) =>
    match o with
    | Some h => exists part, find_part p = Some part /\ storage_ok s' /\ opened s s' n part h
    | None => s' = s
    end).
Proof.
  intros Hs. unfold storage_open at 1. destruct (find_part p) as [part|] eqn:Ep; [|by apply returns_done].
  destruct (find_open s n part) as [h|] eqn:Eo.
  { apply returns_done. exists part. split_and!; [done..|]. by split; [apply find_open_some|]. }
  destruct (find_free s) as [h|] eqn:Ef; [|by apply returns_done].
  destruct (find_part_some _ _ Ep) as (t & Ht & _). destruct (find_free_some _ _ Ef) as (r & Hr & Hu).
  pose proof (storage_open_fresh w s n p part h r t) as Hf. unfold storage_open in Hf.
  rewrite Ep, Eo, Ef in Hf. eapply returns_mono; [by apply Hf|].
  intros [[w' s'] [h'|]]; [|done]. intros (-> & ? & ?). eauto.
Qed.

Lemma read_mem_lookup m off n bs (i : nat) : read_mem m off n = Done bs -> Z.of_nat i < n ->
  bs !! i = m !! (Z.to_nat off + i)%nat.
Proof.
  intros (H1 & H2 & H3 & ->)%read_mem_done Hi. rewrite lookup_take_lt by lia. apply lookup_drop.
Qed.
End Lemmas.

(** ** Properties *)

(** C34: opening a partition yields an entry that serves this partition to this
    node, whose caller id finds it again, and that every later request to open the
    same partition gets, without opening it twice; all other entries are untouched.
    An unknown path, a full table or a failing device change nothing. *)
Theorem storage_open_spec {W : Type} `{OsLaws W} (w : W) s n p :
  storage_ok s ->
  exists w' s' o, storage_open w s n p = Done (w', s', o) /\ storage_ok s' /\
    match o with
    | Some h => exists part r, find_part p = Some part /\ rmtfds s' !! h = Some r /\
        in_use r = true /\ node r = n /\ rpart r = Some part /\
        storage_get s' n (Z.of_nat h) = Done (Some h) /\ storage_get_caller_id s' (Some h) = Done (Z.of_nat h) /\
        (forall i, i <> h -> rmtfds s' !! i = rmtfds s !! i) /\
        forall w2 : W, storage_open w2 s' n p = Done (w2, s', Some h)
    | None => s' = s
    end.
Proof.
  intros Hs. destruct (storage_open_cases w s n p Hs) as ([[w' s'] o] & E & Ho).
  exists w', s', o. split; [done|]. destruct o as [h|]; [|by subst].
  destruct Ho as (part & Hp & Hs' & [(r & Hr & Hu & Hn & Hpt) Hother]). split; [done|].
  exists part, r. destruct (storage_get_self s' h r Hs' Hr) as [G1 G2]. rewrite Hn in G1.
  split_and!; try done. intros w2. by eapply storage_open_again.
Qed.

(** What was written to a read-only storage is read back, although the
    partition is never written: after a successful write every later read sees the
    new bytes in the written range and the old contents elsewhere (zeros behind the
    end); only the gap a write leaves behind the old end is unspecified. *)
Theorem storage_shadow_read_write {W : Type} `{OsLaws W} (w w2 : W) s h r bs off buf off2 :
  storage_ok s -> rmtfds s !! h = Some r -> storage_read_only s = true -> bytes_ok bs ->
  0 <= off -> 0 < zlen bs -> off + zlen bs < STORAGE_MAX_SIZE ->
  0 <= off2 -> 0 < zlen buf < 2 ^ 63 ->
  exists w' s' rc, storage_pwrite w s (Some h) bs off = Done (w', s', rc) /\
    (rc = -1 /\ s' = s \/
     rc = zlen bs /\ exists buf', storage_pread w2 s' (Some h) buf (zlen buf) off2 = Done (w2, buf', zlen buf) /\
       zlen buf' = zlen buf /\
       forall i : nat, (i < length buf)%nat -> let k := off2 + Z.of_nat i in
         (off <= k < off + zlen bs -> buf' !! i = bs !! Z.to_nat (k - off)) /\
         (k < off \/ off + zlen bs <= k -> k < shadow_len r \/ off <= k -> buf' !! i = Some (shadow_byte r k))).
Proof.
  intros Hs Hr Hro Hbs Ho Hl Hmax Ho2 Hbuf.
  assert (Hbig : STORAGE_MAX_SIZE < 2 ^ 63) by done.
  destruct (storage_pwrite_shadow w s h r bs off) as ([[w' s'] rc] & E & Hcases); try done; [lia|].
  exists w', s', rc. split; [done|].
  destruct Hcases as [?|(-> & _ & Hs' & Hro' & r' & Hfds & Hn & Hp & Hlen & Hw)]; [by left|right].
  split; [done|]. pose proof (lookup_lt_Some _ _ _ Hr).
  assert (Hr' : rmtfds s' !! h = Some r') by (rewrite Hfds; by apply list_lookup_insert_eq).
  eexists. split; [apply (storage_pread_shadow w2 s' h r'); try done; lia|].
  assert (Hd : drop (Z.to_nat (zlen buf)) buf = []) by (apply drop_ge; unfold zlen; lia).
  rewrite Hd, app_nil_r. split; [unfold zlen at 1; rewrite length_contents; lia|].
  intros i Hi k. rewrite contents_lookup by (unfold zlen; rewrite Nat2Z.id; lia).
  destruct (Hw k ltac:(lia)) as [Hin Hout]. split.
  - intros Hk. by rewrite Hin.
  - intros Hk Hg. f_equal. exact (Hout Hk Hg).
Qed.

(** An error of [pread] is taken for a complete read.  An entry that was
    closed is still found by its caller id, and reading it, although it has no file
    any more, reports success and leaves whatever the buffer held. *)
Theorem storage_closed_entry_reads {W : Type} `{OsLaws W} (w : W) s h r (buf : list Z) nbyte off :
  storage_ok s -> rmtfds s !! h = Some r -> storage_read_only s = false ->
  (forall (w : W) n o, exists w', os_pread w (-1) n o = (w', -1, [])) ->
  0 < nbyte < 2 ^ 63 ->
  exists w' s' w2, storage_close w s (Some h) = Done (w', s') /\
    storage_get s' (node r) (Z.of_nat h) = Done (Some h) /\
    storage_pread w' s' (Some h) buf nbyte off = Done (w2, buf, nbyte).
Proof.
  intros Hs Hr Hro Hbad Hn. destruct (storage_close_spec w s h r Hs Hr) as ([w' s'] & E & Hs' & Hro' & Hfds).
  pose proof (lookup_lt_Some _ _ _ Hr).
  assert (Hr' : rmtfds s' !! h = Some (Rmtfd (id r) (node r) (-1) (dev_error r) None None 0))
    by (rewrite Hfds; by apply list_lookup_insert_eq).
  destruct (Hbad w' nbyte off) as [w2 Ep]. exists w', s', w2. split; [done|]. split.
  { exact (proj1 (storage_get_self _ _ _ Hs' Hr')). }
  unfold storage_pread. rewrite (rmtfd_deref_some _ _ _ Hr'), Hro', Hro. run. cbn [negb fd]. rewrite Ep.
  rewrite write_mem_all by (cbn; lia). run. cbn [app length drop].
  rewrite (proj2 (Z.ltb_ge _ _)); [done|]. change (u64 (-1)) with (2 ^ 64 - 1). lia.
Qed.

(** ** Witnesses *)

Definition demo_ram : ram :=
  Ram [(cstr "/data/modem_fs1", [1; 2; 3; 4]); (cstr "/data/modem_fs2", [5; 6])] [].
Definition demo_storage (ro : bool) : storage :=
  (storage_init storage_static (Some (cstr "/data")) ro false).1.
Definition demo_open (ro : bool) (p : String.string) : ram * storage :=
  match storage_open demo_ram (demo_storage ro) 5 (cstr p) with
  | Done (w, s, _) => (w, s)
  | _ => (demo_ram, demo_storage ro)
  end.

(** Opening twice in both modes. *)
Example demo_open_fs2 :
  storage_open demo_ram (demo_storage true) 5 (cstr "/boot/modem_fs2") =
    Done (demo_ram, set_fd (demo_storage true) 0 (Rmtfd 0 5 (-1) 0 (Some 1%nat) (Some [5; 6]) 2), Some 0%nat) /\
  storage_open demo_ram (demo_storage false) 5 (cstr "/boot/modem_fs2") =
    Done (demo_ram, set_fd (demo_storage false) 0 (Rmtfd 0 5 1 0 (Some 1%nat) None 0), Some 0%nat).
Proof. split; vm_compute; reflexivity. Qed.

Lemma demo_open_ok ro : storage_ok (demo_open ro "/boot/modem_fs1").2.
Proof.
  destruct (storage_open_cases demo_ram (demo_storage ro) 5 (cstr "/boot/modem_fs1"))
    as ([[w s] o] & E & Ho); [apply storage_init_ok|].
  unfold demo_open. rewrite E. cbn [snd]. destruct o; [by destruct Ho as (? & _ & ? & _)|].
  subst. apply storage_init_ok.
Qed.
Lemma demo_entry ro :
  rmtfds (demo_open ro "/boot/modem_fs1").2 !! 0%nat =
  Some (if ro then Rmtfd 0 5 (-1) 0 (Some 0%nat) (Some [1; 2; 3; 4]) 4 else Rmtfd 0 5 0 0 (Some 0%nat) None 0).
Proof. destruct ro; vm_compute; reflexivity. Qed.
#[local] Opaque demo_open.

Lemma storage_open_spec_witness :
  exists w' s' o,
    storage_open demo_ram (demo_storage true) 5 (cstr "/boot/modem_fs2") = Done (w', s', o) /\ storage_ok s' /\
    match o with
    | Some h => exists part r, find_part (cstr "/boot/modem_fs2") = Some part /\ rmtfds s' !! h = Some r /\
        in_use r = true /\ node r = 5 /\ rpart r = Some part /\
        storage_get s' 5 (Z.of_nat h) = Done (Some h) /\ storage_get_caller_id s' (Some h) = Done (Z.of_nat h) /\
        (forall i, i <> h -> rmtfds s' !! i = rmtfds (demo_storage true) !! i) /\
        forall w2 : ram, storage_open w2 s' 5 (cstr "/boot/modem_fs2") = Done (w2, s', Some h)
    | None => s' = demo_storage true
    end.
Proof. apply (storage_open_spec demo_ram). apply storage_init_ok. Defined.

Lemma storage_shadow_read_write_witness :
  exists w' s' rc,
    storage_pwrite demo_ram (demo_open true "/boot/modem_fs1").2 (Some 0%nat) [9; 8] 3 = Done (w', s', rc) /\
    (rc = -1 /\ s' = (demo_open true "/boot/modem_fs1").2 \/
     rc = 2 /\ exists buf', storage_pread demo_ram s' (Some 0%nat) [0; 0; 0; 0; 0; 0] 6 1 = Done (demo_ram, buf', 6) /\
       zlen buf' = 6 /\
       forall i : nat, (i < 6)%nat -> let k := 1 + Z.of_nat i in
         (3 <= k < 5 -> buf' !! i = [9; 8] !! Z.to_nat (k - 3)) /\
         (k < 3 \/ 5 <= k -> k < 4 \/ 3 <= k ->
          buf' !! i = Some (shadow_byte (Rmtfd 0 5 (-1) 0 (Some 0%nat) (Some [1; 2; 3; 4]) 4) k))).
Proof.
  apply (storage_shadow_read_write demo_ram demo_ram _ 0
    (Rmtfd 0 5 (-1) 0 (Some 0%nat) (Some [1; 2; 3; 4]) 4) [9; 8] 3 [0; 0; 0; 0; 0; 0] 1).
  - apply demo_open_ok.
  - apply (demo_entry true).
  - vm_compute. reflexivity.
  - repeat constructor; discriminate.
  - lia.
  - reflexivity.
  - reflexivity.
  - lia.
  - done.
Defined.

Lemma storage_closed_entry_reads_witness :
  exists w' s' w2,
    storage_close demo_ram (demo_open false "/boot/modem_fs1").2 (Some 0%nat) = Done (w', s') /\
    storage_get s' 5 0 = Done (Some 0%nat) /\
    storage_pread w' s' (Some 0%nat) [7; 7; 7; 7] 4 0 = Done (w2, [7; 7; 7; 7], 4).
Proof.
  apply (storage_closed_entry_reads demo_ram _ 0 (Rmtfd 0 5 0 0 (Some 0%nat) None 0) [7; 7; 7; 7] 4 0).
  - apply demo_open_ok.
  - apply (demo_entry false).
  - vm_compute. reflexivity.
  - intros w n o. exists w. reflexivity.
  - lia.
Defined.
