(* ===== verification/SharedMem.v ===== *)
(** * The memory shared with the modem (rmtfs/sharedmem.c, as built for Android)

    The window of physical memory the remote file system service exchanges sectors
    through: either mapped into the process ([base]) or reached with [pread] and
    [pwrite] on its device.  The mapping is the list of its bytes. *)
From Stdlib Require Import String.
From stdpp Require Import pretty.
From S2P Require Import Prelude CString Os.
#[local] Open Scope Z_scope.

Definition EINVAL : Z := 22.
Definition ENOENT : Z := 2.
Definition ERANGE : Z := 34.
Definition PAGE_SIZE : Z := 4096.

Record rmtfs_mem := RmtfsMem { address : Z; size : Z; base : option (list Z); mem_fd : Z }.

Definition set_base (m : rmtfs_mem) (b : list Z) : rmtfs_mem :=
  RmtfsMem (address m) (size m) (Some b) (mem_fd m).

(** ** [strtoull(s, &endptr, 16)]

    White space, a sign, the prefix [0x] before a digit, digits.  The result is the
    value, whether any digit was found ([endptr != s]) and whether it overflowed
    ([errno == ERANGE]).  The text must end inside the buffer. *)
Fixpoint skip_space (l : list Z) : list Z :=
  match l with
  | b :: l' => if isspace b then skip_space l' else l
  | [] => []
  end.
Definition skip_prefix (l : list Z) : list Z :=
  match l with
  | z :: x :: d :: _ =>
      if (z =? 48) && ((x =? 120) || (x =? 88)) && bool_decide (is_Some (hex_digit d)) then drop 2 l else l
  | _ => l
  end.
(** The value of the digits in front of [l], and whether there is one. *)
Fixpoint hex_value (l : list Z) (acc : Z) (any : bool) : outcome (Z * bool) :=
  match l with
  | [] => Fault OutOfBounds
  | b :: l' => match hex_digit b with
               | Some d => hex_value l' (acc * 16 + d) true
               | None => Done (acc, any)
               end
  end.
Definition strtoull16 (s : list Z) : outcome (Z * bool * bool) :=
  let s := skip_space s in
  let '(neg, s) := match s with
                   | b :: s' => if b =? 45 then (true, s') else if b =? 43 then (false, s') else (false, s)
                   | [] => (false, s)
                   end in
  '(v, any) ← hex_value (skip_prefix s) 0 false;
  if 2 ^ 64 <=? v then Done (2 ^ 64 - 1, any, true)
  else Done (if (neg : bool) then u64 (- v) else v, any, false).

(** ** The registers of the device tree, big-endian *)
Definition be_value (l : list Z) : Z := le_value (rev l).
Definition reg_window (reg : list Z) (n : Z) : option (Z * Z) :=
  if n =? 8 then Some (be_value (take 4 reg), be_value (take 4 (drop 4 reg)))
  else if n =? 16 then Some (be_value (take 8 reg), be_value (take 8 (drop 8 reg)))
  else None.

(** An entry of [reserved-memory]: its name, the results of opening it and its
    [reg], and of reading [reg]. *)
Record tree_entry := TreeEntry { d_name : list Z; t_dirfd : Z; t_regfd : Z; t_n : Z; t_reg : list Z }.

Fixpoint enumerate_loop (es : list tree_entry) (m : rmtfs_mem) : rmtfs_mem * Z :=
  match es with
  | [] => (m, 0)
  | e :: es' =>
      if negb (bool_decide (take 5 (d_name e) = cstr "rmtfs")) then enumerate_loop es' m
      else if t_dirfd e <? 0 then (m, -1)
      else if t_regfd e <? 0 then (m, -1)
      else match reg_window (t_reg e) (t_n e) with
           | Some (a, s) => (RmtfsMem a s (base m) (mem_fd m), 0)
           | None => (m, -1)
           end
  end.
Definition rmtfs_mem_enumerate (dir : option (list tree_entry)) (m : rmtfs_mem) : rmtfs_mem * Z :=
  match dir with
  | None => (m, -1)
  | Some es => enumerate_loop es m
  end.

(** ** The window *)

Definition rmtfs_mem_alloc (m : rmtfs_mem) (alloc_size : Z) : Z :=
  if size m <? alloc_size then - EINVAL else s64 (address m).
Definition rmtfs_mem_free (m : rmtfs_mem) : rmtfs_mem := m.

(** The offset of a range in the mapping. *)
Definition rmtfs_mem_ptr (m : rmtfs_mem) (phys_address len : Z) : option Z :=
  if len <? 0 then None
  else
    let start := phys_address in
    let end_ := u64 (start + len) in
    if (start <? address m) || (u64 (address m + size m) <? end_) then None
    else Some (phys_address - address m).

Section SharedMem.
Context {W : Type} `{OsOps W}.

(** [val] is the buffer on the stack; [errno] is the value before the call. *)
Definition read_sysattr (w : W) (path val : list Z) (errno : Z) : outcome (W * list Z * Z * (Z + Z)) :=
  let '(w, f) := os_open w path O_RDONLY in
  if f <? 0 then Done (w, val, os_errno w, inr (os_errno w))
  else
    let '(w, n, bs) := os_read w f PAGE_SIZE in
    val ← write_mem val 0 bs;
    let errno := if n <? 0 then os_errno w else errno in
    '(v, any, range) ← strtoull16 val;
    let errno := if (range : bool) then ERANGE else errno in
    let w := os_close w f in
    if ((v =? 2 ^ 64 - 1) && (errno =? ERANGE)) || negb (any : bool) then Done (w, val, errno, inr errno)
    else Done (w, val, errno, inl v).

Definition rmtfs_mem_open_rfsa (w : W) (m : rmtfs_mem) (client_id : Z) (val : list Z) : outcome (W * rmtfs_mem * Z) :=
  let num := cstr (pretty client_id) in
  let '(w, f) := os_open w (cstr "/dev/qcom_rmtfs_mem" ++ num) O_RDWR in
  let m := RmtfsMem (address m) (size m) (base m) f in
  if f <? 0 then Done (w, m, - os_errno w)
  else
    '(w, val, errno, r) ← read_sysattr w (cstr "/sys/class/rmtfs/qcom_rmtfs_mem" ++ num ++ cstr "/phys_addr") val 0;
    match r with
    | inr e => Done (w, m, - e)
    | inl a =>
        let m := RmtfsMem a (size m) (base m) f in
        '(w, val, errno, r) ← read_sysattr w (cstr "/sys/class/rmtfs/qcom_rmtfs_mem" ++ num ++ cstr "/size") val errno;
        match r with
        | inr e => Done (w, m, - e)
        | inl s => Done (w, RmtfsMem a s (base m) f, 0)
        end
    end.

Definition rmtfs_mem_open_uio (m : rmtfs_mem) (client_id : Z) : rmtfs_mem * Z := (m, - EINVAL).

(** [mmap] gives the bytes of the mapping; [dir] are the entries of the tree. *)
Definition rmtfs_mem_open (w : W) (val : list Z) (dir : option (list tree_entry))
    (mmap : Z -> Z -> Z -> option (list Z)) : outcome (W * option rmtfs_mem) :=
  let '(w, ok) := os_calloc w 32 in
  if negb ok then Done (w, None)
  else
    '(w, m, ret) ← rmtfs_mem_open_rfsa w (RmtfsMem 0 0 None 0) 1 val;
    if (ret <? 0) && negb (ret =? - ENOENT) then Done (w, None)
    else if ret <? 0 then
      let '(m, ret) := rmtfs_mem_open_uio m 1 in
      if (ret <? 0) && negb (ret =? - ENOENT) then Done (w, None)
      else if ret <? 0 then
        let '(m, ret) := rmtfs_mem_enumerate dir m in
        if ret <? 0 then Done (w, None)
        else
          let '(w, f) := os_open w (cstr "/dev/mem") O_RDWR in
          if f <? 0 then Done (w, None)
          else match mmap (size m) f (address m) with
               | None => Done (os_close w f, None)
               | Some b => Done (w, Some (RmtfsMem (address m) (size m) (Some b) f))
               end
      else Done (w, Some m)
    else Done (w, Some m).

Definition rmtfs_mem_read (w : W) (m : rmtfs_mem) (phys_address : Z) (buf : list Z) (len : Z)
    : outcome (W * list Z * Z) :=
  match base m with
  | Some b =>
      match rmtfs_mem_ptr m phys_address len with
      | None => Done (w, buf, - EINVAL)
      | Some off => bs ← read_mem b off len; buf ← write_mem buf 0 bs; Done (w, buf, len)
      end
  | None =>
      let offset := s64 (u64 (phys_address - address m)) in
      let '(w, n, bs) := os_pread w (mem_fd m) len offset in
      buf ← write_mem buf 0 bs; Done (w, buf, n)
  end.

Definition rmtfs_mem_write (w : W) (m : rmtfs_mem) (phys_address : Z) (buf : list Z) (len : Z)
    : outcome (W * rmtfs_mem * Z) :=
  match base m with
  | Some b =>
      match rmtfs_mem_ptr m phys_address len with
      | None => Done (w, m, - EINVAL)
      | Some off => bs ← read_mem buf 0 len; b ← write_mem b off bs; Done (w, set_base m b, len)
      end
  | None =>
      let offset := s64 (u64 (phys_address - address m)) in
      bs ← read_mem buf 0 len;
      let '(w, n) := os_pwrite w (mem_fd m) bs offset in Done (w, m, n)
  end.

Definition rmtfs_mem_close (w : W) (m : rmtfs_mem) : W := os_close w (mem_fd m).

End SharedMem.
