(* ===== verification/SharedMemProps.v ===== *)
(** * The shared memory: specifications and properties *)
From Stdlib Require Import String.
From S2P Require Import Prelude CString Os StorageFacts SharedMem.
#[local] Open Scope Z_scope.

(** The window lies in the address space and a mapping covers it. *)
Record mem_ok (m : rmtfs_mem) : Prop := {
  ok_address : 0 <= address m;
  ok_size : 0 <= size m;
  ok_end : address m + size m < 2 ^ 64;
  ok_base b : base m = Some b -> zlen b = size m /\ bytes_ok b }.

Definition in_window (m : rmtfs_mem) (p len : Z) : Prop := address m <= p /\ p + len <= address m + size m.
#[export] Instance in_window_dec m p len : Decision (in_window m p len).
Proof. unfold in_window. apply _. Defined.

(** The test of [rmtfs_mem_ptr] is exact as long as the end does not wrap. *)
Lemma rmtfs_mem_ptr_spec m p len : mem_ok m -> 0 <= p -> 0 <= len -> p + len < 2 ^ 64 ->
  rmtfs_mem_ptr m p len = if decide (in_window m p len) then Some (p - address m) else None.
Proof.
  intros [H1 H2 H3 H4] Hp Hl He. unfold rmtfs_mem_ptr, in_window.
  rewrite (proj2 (Z.ltb_ge _ _)), !u64_small by lia. repeat case_decide; case_scrut; reflect_bools; auto; lia.
Qed.

(** When it wraps, ranges far outside the window are accepted. *)
Lemma rmtfs_mem_ptr_wraps m p len : mem_ok m -> address m <= p < 2 ^ 64 -> 0 <= len < 2 ^ 64 ->
  2 ^ 64 <= p + len -> p + len - 2 ^ 64 <= address m + size m ->
  rmtfs_mem_ptr m p len = Some (p - address m).
Proof.
  intros [H1 H2 H3 H4] Hp Hl Hw He. unfold rmtfs_mem_ptr.
  rewrite (proj2 (Z.ltb_ge len 0)), (proj2 (Z.ltb_ge p _)), (u64_small (address m + size m)) by lia.
  replace (u64 (p + len)) with (p + len - 2 ^ 64) by (unfold u64; Z.div_mod_to_equations; lia).
  by rewrite (proj2 (Z.ltb_ge _ _)) by lia.
Qed.

Section Specs.
Context {W : Type} `{OsLaws W}.

(** Both accesses return; what they report is an error or at most [len]. *)
Lemma rmtfs_mem_read_returns w m p buf len :
  mem_ok m -> 0 <= p -> 0 < len <= zlen buf -> p + len < 2 ^ 64 -> bytes_ok buf ->
  returns (rmtfs_mem_read w m p buf len) (fun '(w', buf', n) =>
    n <= len /\ zlen buf' = zlen buf /\ bytes_ok buf').
Proof.
  intros Hm Hp Hl He Hb. unfold rmtfs_mem_read, EINVAL. destruct (base m) as [b|] eqn:Eb.
  - rewrite rmtfs_mem_ptr_spec by (done || lia). destruct (ok_base _ Hm b Eb) as [Hz Hbok].
    case_decide as Hin; [|apply returns_done; split_and!; [lia|done|done]]. unfold in_window in Hin.
    apply returns_bind, returns_read; [lia..|]. intros bs Hbs Hok _.
    apply returns_bind, returns_write; [lia..|]. intros m' Hm' Hok' _.
    apply returns_done. split_and!; [lia|apply (so_len _ _ _ _ Hm')|auto].
  - pose proof (os_pread_law w (mem_fd m) len (s64 (u64 (p - address m))) ltac:(lia)) as Hr.
    destruct (os_pread _ _ _ _) as [[w' n] bs]. destruct Hr as (Hn & Hz & Hbs). cbn [fst snd] in *.
    apply returns_bind, returns_write; [lia..|]. intros m' Hm' Hok' _.
    apply returns_done. split_and!; [lia|apply (so_len _ _ _ _ Hm')|auto].
Qed.

Lemma rmtfs_mem_write_returns w m p buf len :
  mem_ok m -> 0 <= p -> 0 < len <= zlen buf -> p + len < 2 ^ 64 -> bytes_ok buf ->
  returns (rmtfs_mem_write w m p buf len) (fun '(w', m', n) =>
    n <= len /\ mem_ok m' /\ address m' = address m /\ size m' = size m).
Proof.
  intros Hm Hp Hl He Hb. unfold rmtfs_mem_write, EINVAL. destruct (base m) as [b|] eqn:Eb.
  - rewrite rmtfs_mem_ptr_spec by (done || lia). destruct (ok_base _ Hm b Eb) as [Hz Hbok].
    case_decide as Hin; [|apply returns_done; split_and!; [lia|done|done|done]]. unfold in_window in Hin.
    apply returns_bind, returns_read; [lia..|]. intros bs Hbs Hok _.
    apply returns_bind, returns_write; [lia..|]. intros m' Hm' Hok' _.
    apply returns_done. split_and!; [lia| |done|done]. destruct Hm as [M1 M2 M3 M4].
    split; cbn; [done..|]. intros b' [= <-]. split; [rewrite (so_len _ _ _ _ Hm'); lia|auto].
  - apply returns_bind, returns_read; [lia..|]. intros bs Hbs Hok _.
    pose proof (os_pwrite_range w (mem_fd m) bs (s64 (u64 (p - address m)))) as Hr.
    destruct (os_pwrite _ _ _ _) as [w' n]. cbn [snd] in Hr.
    apply returns_done. split_and!; [lia|done|done|done].
Qed.
End Specs.

(** Writing inside the window. *)
Lemma mem_write_window {W : Type} `{OsOps W} (w : W) m b p bs :
  mem_ok m -> base m = Some b -> 0 <= p -> 0 < zlen bs -> p + zlen bs < 2 ^ 64 -> bytes_ok bs ->
  in_window m p (zlen bs) ->
  exists b', rmtfs_mem_write w m p bs (zlen bs) = Done (w, set_base m b', zlen bs) /\
    write_mem b (p - address m) bs = Done b' /\ mem_ok (set_base m b').
Proof.
  intros Hm Eb Hp Hl He Hbs Hin. destruct (ok_base _ Hm b Eb) as [Hz Hbok]. unfold rmtfs_mem_write.
  rewrite Eb, rmtfs_mem_ptr_spec, decide_True by (done || lia). pose proof Hin as [Hin1 Hin2].
  rewrite (read_mem_all bs) by done. run.
  destruct (write_mem_ok b (p - address m) bs) as [b' Ew]; [lia..|]. rewrite Ew. run.
  exists b'. split; [done|]. split; [done|].
  pose proof (write_same_outside _ _ _ _ Ew) as Ho.
  destruct Hm as [M1 M2 M3 M4]. split; [exact M1|exact M2|exact M3|]. intros ? [= <-].
  rewrite (so_len _ _ _ _ Ho). split; [exact Hz|]. exact (write_mem_bytes _ _ _ _ Hbok Hbs Ew).
Qed.

(** ** Numbers of the system attributes *)

Definition digit_char (d : Z) : Z := if d <? 10 then d + 48 else d + 87.
Definition digits_value (ds : list Z) (acc : Z) : Z := fold_left (fun v d => v * 16 + d) ds acc.

Lemma hex_digit_char d : 0 <= d < 16 -> hex_digit (digit_char d) = Some d.
Proof.
  intros Hd. unfold hex_digit, digit_char.
  destruct (d <? 10) eqn:E; reflect_bools; repeat case_scrut; reflect_bools;
    first [f_equal; lia | lia | destruct_or?; lia].
Qed.

Lemma hex_value_digits ds x rest acc any : Forall (fun d => 0 <= d < 16) ds -> hex_digit x = None ->
  hex_value (map digit_char ds ++ x :: rest) acc any = Done (digits_value ds acc, any || negb (bool_decide (ds = []))).
Proof.
  intros Hd Hx. revert acc any. induction Hd as [|d ds Hd Hds IH]; intros acc any; cbn [map app hex_value].
  - rewrite Hx. rewrite bool_decide_eq_true_2 by done. by rewrite orb_false_r.
  - rewrite hex_digit_char, IH by done. by destruct any.
Qed.

(** The text the kernel prints: [0x], the digits, the end of the line. *)
Definition hex_text (ds : list Z) : list Z := cstr "0x" ++ map digit_char ds ++ [10].

Lemma strtoull16_text ds rest : Forall (fun d => 0 <= d < 16) ds -> ds <> [] ->
  strtoull16 (hex_text ds ++ rest) =
    Done (if 2 ^ 64 <=? digits_value ds 0 then (2 ^ 64 - 1, true, true) else (digits_value ds 0, true, false)).
Proof.
  intros Hd Hne. destruct Hd as [|d ds Hd Hds]; [done|].
  pose proof (hex_digit_char d Hd) as Hc.
  assert (E : strtoull16 (hex_text (d :: ds) ++ rest) =
    ('(v, any) ← hex_value (map digit_char (d :: ds) ++ 10 :: rest) 0 false;
     if 2 ^ 64 <=? v then Done (2 ^ 64 - 1, any, true) else Done (v, any, false))).
  { unfold strtoull16, hex_text.
    change (skip_space ((cstr "0x" ++ map digit_char (d :: ds) ++ [10]) ++ rest)) with
      (48 :: 120 :: digit_char d :: (map digit_char ds ++ [10]) ++ rest).
    cbn [Z.eqb Pos.eqb]. rewrite <- app_assoc.
    assert (Es : skip_prefix (48 :: 120 :: digit_char d :: map digit_char ds ++ [10] ++ rest) =
      map digit_char (d :: ds) ++ 10 :: rest).
    { unfold skip_prefix. rewrite Hc. done. }
    rewrite Es. done. }
  rewrite E, hex_value_digits by (done || by constructor). run. cbn [negb orb].
  rewrite bool_decide_eq_false_2 by done. cbn [negb]. by case_scrut.
Qed.

(** ** The devices of the shared memory in a file system in memory *)

Definition sys_dir : list Z := cstr "/sys/class/rmtfs/qcom_rmtfs_mem1".
Definition mem_files (phys len : list Z) : ram :=
  Ram [(cstr "/dev/qcom_rmtfs_mem1", []); (sys_dir ++ cstr "/phys_addr", phys); (sys_dir ++ cstr "/size", len)] [].

Lemma bytes_ok_id l : bytes_ok l -> map (fun b => b mod 256) l = l.
Proof.
  induction 1 as [|b l Hb Hl IH]; [done|]. cbn [map]. rewrite IH. f_equal.
  unfold byte_ok in Hb. apply Z.mod_small. lia.
Qed.

(** Reading one of the three files, whose descriptor is its index. *)
Lemma read_sysattr_ram (w : ram) path val e (f : nat) c :
  os_open w path O_RDONLY = (w, Z.of_nat f) -> snd <$> ram_files w !! f = Some c ->
  bytes_ok c -> zlen c <= PAGE_SIZE -> zlen val = PAGE_SIZE ->
  read_sysattr w path val e =
    ('(v, any, range) ← strtoull16 (c ++ drop (length c) val);
     let errno := if (range : bool) then ERANGE else e in
     if ((v =? 2 ^ 64 - 1) && (errno =? ERANGE)) || negb (any : bool)
     then Done (w, c ++ drop (length c) val, errno, inr errno)
     else Done (w, c ++ drop (length c) val, errno, inl v)).
Proof.
  intros Ho Hc Hb Hl Hv. unfold read_sysattr. rewrite Ho.
  rewrite (proj2 (Z.ltb_ge _ _)) by lia. cbn [os_read RamOs]. unfold ram_pread, ram_file.
  rewrite (proj2 (Z.ltb_ge _ _)), Nat2Z.id by lia.
  change (option_map snd (ram_files w !! f)) with (snd <$> ram_files w !! f). rewrite Hc.
  change (Z.to_nat 0) with 0%nat. rewrite (drop_0 c), (take_ge c) by (unfold zlen, PAGE_SIZE in *; lia). rewrite bytes_ok_id by done.
  rewrite write_mem_all by (unfold zlen, PAGE_SIZE in *; lia). run.
  rewrite (proj2 (Z.ltb_ge _ _)) by (unfold zlen; lia). done.
Qed.

Lemma open_mem_files phys len :
  os_open (mem_files phys len) (cstr "/dev/qcom_rmtfs_mem1") O_RDWR = (mem_files phys len, 0) /\
  os_open (mem_files phys len) (sys_dir ++ cstr "/phys_addr") O_RDONLY = (mem_files phys len, Z.of_nat 1) /\
  os_open (mem_files phys len) (sys_dir ++ cstr "/size") O_RDONLY = (mem_files phys len, Z.of_nat 2).
Proof. split_and!; vm_compute; reflexivity. Qed.

(** The effect of [rmtfs_mem_open_rfsa] when all three files can be opened. *)
Lemma open_rfsa_ram phys len m val :
  bytes_ok phys -> zlen phys <= PAGE_SIZE -> zlen val = PAGE_SIZE ->
  rmtfs_mem_open_rfsa (mem_files phys len) m 1 val =
    ('(w, val, errno, r) ← read_sysattr (mem_files phys len) (sys_dir ++ cstr "/phys_addr") val 0;
     match r with
     | inr e => Done (w, RmtfsMem (address m) (size m) (base m) 0, - e)
     | inl a =>
         '(w, val, errno, r) ← read_sysattr w (sys_dir ++ cstr "/size") val errno;
         match r with
         | inr e => Done (w, RmtfsMem a (size m) (base m) 0, - e)
         | inl s => Done (w, RmtfsMem a s (base m) 0, 0)
         end
     end).
Proof.
  intros Hb Hl Hv. destruct (open_mem_files phys len) as (O1 & O2 & O3).
  unfold rmtfs_mem_open_rfsa.
  change (cstr "/dev/qcom_rmtfs_mem" ++ cstr (pretty.pretty 1)) with (cstr "/dev/qcom_rmtfs_mem1").
  rewrite O1. cbn [Z.ltb Z.compare].
  change (cstr "/sys/class/rmtfs/qcom_rmtfs_mem" ++ cstr (pretty.pretty 1) ++ cstr "/phys_addr")
    with (sys_dir ++ cstr "/phys_addr").
  change (cstr "/sys/class/rmtfs/qcom_rmtfs_mem" ++ cstr (pretty.pretty 1) ++ cstr "/size")
    with (sys_dir ++ cstr "/size").
  destruct (read_sysattr _ _ _ _) as [[[[w v] e] [a|a]]| |]; done.
Qed.

Lemma hex_text_ok ds : Forall (fun d => 0 <= d < 16) ds -> bytes_ok (hex_text ds).
Proof.
  intros Hd. unfold hex_text. repeat apply Forall_app_2.
  - change (cstr "0x") with [48; 120]. repeat constructor; done.
  - apply Forall_fmap. eapply Forall_impl; [exact Hd|]. intros d Hd1. cbn in *. unfold byte_ok, digit_char.
    destruct (d <? 10) eqn:E; reflect_bools; lia.
  - repeat constructor; done.
Qed.
Lemma length_hex_text ds : length (hex_text ds) = (3 + length ds)%nat.
Proof. unfold hex_text. rewrite !length_app, length_map. cbn. lia. Qed.

Lemma digits_value_max ds acc : Forall (fun d => 0 <= d < 16) ds -> 0 <= acc ->
  0 <= digits_value ds acc /\ digits_value ds acc < (acc + 1) * 16 ^ zlen ds.
Proof.
  intros Hd. revert acc. induction Hd as [|d ds Hd Hds IH]; intros acc Ha.
  - change (digits_value [] acc) with acc. change (16 ^ zlen (@nil Z)) with 1. lia.
  - change (digits_value (d :: ds) acc) with (digits_value ds (acc * 16 + d)).
    destruct (IH (acc * 16 + d)) as [IH1 IH2]; [lia|]. split; [done|].
    unfold zlen in *. cbn [length]. rewrite Nat2Z.inj_succ, Z.pow_succ_r by lia.
    assert (0 < 16 ^ Z.of_nat (length ds)) by lia. nia.
Qed.

Lemma read_sysattr_hex (w : ram) path val (f : nat) ds :
  os_open w path O_RDONLY = (w, Z.of_nat f) -> snd <$> ram_files w !! f = Some (hex_text ds) ->
  Forall (fun d => 0 <= d < 16) ds -> (0 < length ds <= 16)%nat -> digits_value ds 0 < 2 ^ 64 -> zlen val = PAGE_SIZE ->
  exists val', read_sysattr w path val 0 = Done (w, val', 0, inl (digits_value ds 0)) /\ zlen val' = PAGE_SIZE.
Proof.
  intros Ho Hc Hd Hl Hs Hv. eexists. split.
  - rewrite (read_sysattr_ram _ _ _ _ _ (hex_text ds) Ho Hc); [|by apply hex_text_ok|
      unfold zlen, PAGE_SIZE; rewrite length_hex_text; lia|done].
    rewrite strtoull16_text by (done || by destruct ds; [cbn in Hl; lia|]).
    rewrite (proj2 (Z.leb_gt _ _)) by done. run. rewrite andb_false_r. cbn [orb negb]. done.
  - unfold zlen, PAGE_SIZE in *. rewrite length_app, length_drop, length_hex_text. lia.
Qed.

Lemma digits_value_u64 ds : Forall (fun d => 0 <= d < 16) ds -> (length ds <= 16)%nat -> digits_value ds 0 < 2 ^ 64.
Proof.
  intros Hds Hlen. destruct (digits_value_max ds 0 Hds) as [_ Hmax]; [lia|].
  eapply Z.lt_le_trans; [exact Hmax|]. change (2 ^ 64) with (16 ^ 16). rewrite Z.mul_1_l.
  apply Z.pow_le_mono_r; unfold zlen; lia.
Qed.

(** Rewriting with a result keeps the kernel from comparing the two computations. *)
Lemma bind_is {A B} (m : outcome A) (k : A -> outcome B) a : m = Done a -> (m ≫= k) = k a.
Proof. by intros ->. Qed.

Lemma open_rfsa_hex phys len m val :
  Forall (fun d => 0 <= d < 16) phys -> Forall (fun d => 0 <= d < 16) len ->
  (0 < length phys <= 16)%nat -> (0 < length len <= 16)%nat -> zlen val = PAGE_SIZE ->
  rmtfs_mem_open_rfsa (mem_files (hex_text phys) (hex_text len)) m 1 val =
    Done (mem_files (hex_text phys) (hex_text len),
          RmtfsMem (digits_value phys 0) (digits_value len 0) (base m) 0, 0).
Proof.
  intros Hp Hl Np Nl Hv. destruct (open_mem_files (hex_text phys) (hex_text len)) as (_ & O2 & O3).
  rewrite open_rfsa_ram; [|by apply hex_text_ok|unfold zlen, PAGE_SIZE; rewrite length_hex_text; lia|done].
  destruct (read_sysattr_hex _ _ val 1 phys O2) as (val1 & E1 & Hv1);
    [done|done|lia|apply digits_value_u64; [done|lia]|done|].
  destruct (read_sysattr_hex _ _ val1 2 len O3) as (val2 & E2 & Hv2);
    [done|done|lia|apply digits_value_u64; [done|lia]|done|].
  erewrite bind_is by exact E1. cbv beta iota. erewrite bind_is by exact E2. done.
Qed.

(** ** Properties *)

(** A mapped window is exactly its range of physical addresses: inside, a
    write stores the bytes, reading the range gives them back, and no byte outside
    the range changes; a range that is not inside is refused and nothing is
    touched.  Ends beyond the 64-bit address space are excluded, see
    [rmtfs_mem_ptr_wraps]. *)
Theorem rmtfs_mem_window {W : Type} `{OsOps W} (w w2 : W) m b p bs buf :
  mem_ok m -> base m = Some b -> 0 <= p -> 0 < zlen bs -> p + zlen bs < 2 ^ 64 -> bytes_ok bs ->
  zlen buf = zlen bs ->
  (in_window m p (zlen bs) -> exists b',
     rmtfs_mem_write w m p bs (zlen bs) = Done (w, set_base m b', zlen bs) /\ mem_ok (set_base m b') /\
     same_outside (p - address m) (p - address m + zlen bs) b b' /\
     rmtfs_mem_read w2 (set_base m b') p buf (zlen bs) = Done (w2, bs, zlen bs)) /\
  (~ in_window m p (zlen bs) ->
     rmtfs_mem_write w m p bs (zlen bs) = Done (w, m, - EINVAL) /\
     rmtfs_mem_read w m p buf (zlen bs) = Done (w, buf, - EINVAL)).
Proof.
  intros Hm Eb Hp Hl He Hbs Hbuf. destruct (ok_base _ Hm b Eb) as [Hz Hbok]. split; intros Hin.
  - destruct (mem_write_window w m b p bs) as (b' & -> & Ew & Hm'); [done..|]. exists b'.
    split; [done|]. split; [done|]. split; [by apply write_same_outside|].
    unfold rmtfs_mem_read. cbn [base set_base].
    rewrite rmtfs_mem_ptr_spec by (done || lia). rewrite decide_True by done.
    change (address (set_base m b')) with (address m). rewrite (read_write_same _ _ _ _ Ew). run.
    rewrite write_mem_all by (unfold zlen in *; lia). run.
    rewrite drop_ge by (unfold zlen in *; lia). by rewrite app_nil_r.
  - unfold rmtfs_mem_write, rmtfs_mem_read. rewrite Eb, rmtfs_mem_ptr_spec by (done || lia).
    by rewrite decide_False by done.
Qed.

(** Opening the shared memory takes its address and size from the text of the
    two system attributes, hexadecimal numbers of up to 16 digits. *)
Theorem rmtfs_mem_open_window phys len val dir mmap :
  Forall (fun d => 0 <= d < 16) phys -> Forall (fun d => 0 <= d < 16) len ->
  (0 < length phys <= 16)%nat -> (0 < length len <= 16)%nat -> zlen val = PAGE_SIZE ->
  let w := mem_files (hex_text phys) (hex_text len) in
  rmtfs_mem_open w val dir mmap =
    Done (w, Some (RmtfsMem (digits_value phys 0) (digits_value len 0) None 0)).
Proof.
  intros Hp Hl Np Nl Hv w. unfold rmtfs_mem_open. cbn [os_calloc RamOs negb].
  subst w. rewrite open_rfsa_hex by done. run. done.
Qed.

(** When the address attribute holds no number, opening nevertheless succeeds,
    with an empty window at address 0, because the error returned is the negated
    [errno], which is 0: every allocation is then refused. *)
Theorem rmtfs_mem_open_unparsed b rest len val dir mmap :
  let phys := b :: rest in
  bytes_ok phys -> hex_digit b = None -> isspace b = false -> b <> 45 -> b <> 43 ->
  zlen phys <= PAGE_SIZE -> zlen val = PAGE_SIZE ->
  let w := mem_files phys len in
  rmtfs_mem_open w val dir mmap = Done (w, Some (RmtfsMem 0 0 None 0)) /\
  forall n, 0 < n -> rmtfs_mem_alloc (RmtfsMem 0 0 None 0) n = - EINVAL.
Proof.
  intros phys Hb Hx Hs Hm Hp Hl Hv w. split.
  2:{ intros n Hn. unfold rmtfs_mem_alloc. cbn [size]. by rewrite (proj2 (Z.ltb_lt _ _)). }
  unfold rmtfs_mem_open. cbn [os_calloc RamOs negb].
  destruct (open_mem_files phys len) as (_ & O2 & _). unfold w.
  rewrite open_rfsa_ram by done. rewrite (read_sysattr_ram _ _ _ _ _ phys O2) by done.
  assert (E : strtoull16 (phys ++ drop (length phys) val) = Done (0, false, false)).
  { unfold strtoull16, phys. cbn [app skip_space]. rewrite Hs.
    rewrite (proj2 (Z.eqb_neq b 45)), (proj2 (Z.eqb_neq b 43)) by done.
    assert (Ep : skip_prefix (b :: rest ++ drop (length (b :: rest)) val) = b :: rest ++ drop (length (b :: rest)) val).
    { unfold skip_prefix. destruct (rest ++ _) as [|x [|d l]]; [done..|].
      destruct (b =? 48) eqn:E48; [|done]. reflect_bools. by subst b. }
    rewrite Ep. cbn [hex_value]. rewrite Hx. done. }
  rewrite E. run. done.
Qed.

(** ** Witnesses *)

Definition demo_mem : rmtfs_mem := RmtfsMem 0x1000 4 (Some [1; 2; 3; 4]) 3.
Lemma demo_mem_ok : mem_ok demo_mem.
Proof.
  split; cbn; [lia..|]. intros b [= <-]. split; [done|]. repeat constructor; done.
Qed.

Lemma rmtfs_mem_window_witness :
  in_window demo_mem 0x1001 2 /\ exists b',
    rmtfs_mem_write (Ram [] []) demo_mem 0x1001 [7; 8] 2 = Done (Ram [] [], set_base demo_mem b', 2) /\
    mem_ok (set_base demo_mem b') /\ same_outside 1 3 [1; 2; 3; 4] b' /\
    rmtfs_mem_read (Ram [] []) (set_base demo_mem b') 0x1001 [0; 0] 2 = Done (Ram [] [], [7; 8], 2).
Proof.
  assert (Hin : in_window demo_mem 0x1001 2) by (unfold in_window; cbn; lia). split; [done|].
  apply (rmtfs_mem_window (Ram [] []) (Ram [] []) demo_mem [1; 2; 3; 4] 0x1001 [7; 8] [0; 0]); try done.
  - apply demo_mem_ok.
  - repeat constructor; done.
Defined.

Lemma rmtfs_mem_open_window_witness :
  let w := mem_files (hex_text [8; 14; 0; 0; 0; 0; 0; 0]) (hex_text [2; 0; 0; 0; 0; 0]) in
  rmtfs_mem_open w (replicate 4096 0) None (fun _ _ _ => None) = Done (w, Some (RmtfsMem 0x8e000000 0x200000 None 0)).
Proof.
  apply (rmtfs_mem_open_window [8; 14; 0; 0; 0; 0; 0; 0] [2; 0; 0; 0; 0; 0]);
    first [repeat constructor; done | cbn; lia | done].
Defined.

Lemma rmtfs_mem_open_unparsed_witness :
  let w := mem_files [63; 10] [] in
  rmtfs_mem_open w (replicate 4096 0) None (fun _ _ _ => None) = Done (w, Some (RmtfsMem 0 0 None 0)) /\
  forall n, 0 < n -> rmtfs_mem_alloc (RmtfsMem 0 0 None 0) n = - EINVAL.
Proof.
  apply (rmtfs_mem_open_unparsed 63 [10]); first [repeat constructor; done | done].
Defined.
