(* ===== verification/Rmtfs.v ===== *)
(** * The remote file system service (rmtfs/rmtfs.c)

    The handlers of the five requests, the dispatch of a received datagram, and the
    loop around [select].  The state is that of the storage, of the shared memory and
    of the operating system, which records what is sent.  [stack] holds what the
    uninitialised locals of a handler happen to contain. *)
From S2P Require Import Prelude CString Hash Qrtr Qmi RmtfsMsgs Os Storage SharedMem.
#[local] Open Scope Z_scope.

Definition ENETRESET : Z := 102.
Definition EINTR : Z := 4.
Definition RMTFS_QMI_SERVICE : Z := 14.

Record stack := Stack { stk_resp : list Z; stk_buf : list Z; stk_pkt : qrtr_packet }.

Definition qmi_result_error (r : rmtfs_qmi_result) (error : Z) : rmtfs_qmi_result :=
  if r_result r =? QMI_RMTFS_RESULT_FAILURE then r else QmiResult QMI_RMTFS_RESULT_FAILURE error.
Definition result_zero : rmtfs_qmi_result := QmiResult 0 0.
Definition failed (error : Z) : rmtfs_qmi_result := qmi_result_error result_zero error.
Definition resp_failed (error : Z) : rmtfs_resp := Resp (failed error) false 0.

Definition read_u32 (m : list Z) (off : Z) : outcome Z := b ← read_mem m off 4; Done (u32 (le_value b)).
Definition read_u64 (m : list Z) (off : Z) : outcome Z := b ← read_mem m off 8; Done (u64 (le_value b)).
Section Rmtfs.
Context {W : Type} `{OsOps W}.

Record rmtfs := RmtfsState { rs_w : W; rs_storage : storage; rs_mem : rmtfs_mem }.
Definition set_w (st : rmtfs) (w : W) : rmtfs := RmtfsState w (rs_storage st) (rs_mem st).

(** Decode into a zeroed request of [size] bytes; [tail] is what the receive buffer
    holds behind the packet.  The result is the request, the return value and the
    transaction id, which stays uninitialised when decoding fails early. *)
Definition decode_req (pkt : qrtr_packet) (tail : list Z) (size id : Z)
    (ei : list qmi_elem_info) : outcome (list Z * Z * option Z) :=
  qmi_decode_message msg_fuel (replicate (Z.to_nat size) 0) (qp_data pkt ++ tail)
    (zlen (qp_data pkt)) QMI_REQUEST id (Some ei).

(** The code behind the label [respond] that all handlers share. *)
Definition respond (st : rmtfs) (pkt : qrtr_packet) (stk : stack) (id : Z) (txn : option Z) (resp : list Z)
    (ei : list qmi_elem_info) : outcome rmtfs :=
  txn ← of_option Uninitialised txn;
  '(data, data_len, len) ← qmi_encode_message msg_fuel (stk_resp stk) (zlen (stk_resp stk)) QMI_RESPONSE id txn
                             (Some resp) (Some ei);
  if len <? 0 then Done st
  else
    bs ← read_mem data 0 data_len;
    Done (set_w st (os_sendto (rs_w st) (qp_node pkt) (qp_port pkt) bs).1).

Definition rmtfs_open (st : rmtfs) (pkt : qrtr_packet) (tail : list Z) (stk : stack) : outcome rmtfs :=
  '(req, ret, txn) ← decode_req pkt tail sizeof_open_req QMI_RMTFS_OPEN rmtfs_open_req_ei;
  '(st, resp) ←
    (if ret <? 0 then Done (st, resp_failed QMI_RMTFS_ERR_MALFORMED_MSG)
     else
       p ← read_cstr req 4;
       '(w, s, h) ← storage_open (rs_w st) (rs_storage st) (qp_node pkt) p;
       let st := RmtfsState w s (rs_mem st) in
       match h with
       | None => Done (st, resp_failed QMI_RMTFS_ERR_INTERNAL)
       | Some h => caller_id ← storage_get_caller_id s (Some h); Done (st, Resp result_zero true (u32 caller_id))
       end);
  respond st pkt stk QMI_RMTFS_OPEN txn (open_resp_bytes resp) rmtfs_open_resp_ei.

(** The argument of [storage_get] is an [int]. *)
Definition rmtfs_close (st : rmtfs) (pkt : qrtr_packet) (tail : list Z) (stk : stack) : outcome rmtfs :=
  '(req, ret, txn) ← decode_req pkt tail sizeof_close_req QMI_RMTFS_CLOSE rmtfs_close_req_ei;
  '(st, result) ←
    (if ret <? 0 then Done (st, failed QMI_RMTFS_ERR_MALFORMED_MSG)
     else
       c ← read_u32 req 0;
       h ← storage_get (rs_storage st) (qp_node pkt) (s32 c);
       match h with
       | None => Done (st, failed QMI_RMTFS_ERR_INTERNAL)
       | Some h =>
           '(w, s) ← storage_close (rs_w st) (rs_storage st) (Some h);
           Done (RmtfsState w s (rmtfs_mem_free (rs_mem st)), result_zero)
       end);
  respond st pkt stk QMI_RMTFS_CLOSE txn (result_bytes result) rmtfs_close_resp_ei.

(** *** Reading and writing sectors *)

(** The body of the inner loop: one sector between the storage and the memory. *)
Definition rmtfs_sector (st : rmtfs) (is_write : bool) (h : option nat) (phys sector : Z) (buf : list Z)
    : outcome (rmtfs * list Z * Z) :=
  if is_write then
    '(w, buf, n) ← rmtfs_mem_read (rs_w st) (rs_mem st) phys buf SECTOR_SIZE;
    let st := set_w st w in
    if n =? SECTOR_SIZE then
      bs ← read_mem buf 0 n;
      '(w, s, n) ← storage_pwrite (rs_w st) (rs_storage st) h bs sector;
      Done (RmtfsState w s (rs_mem st), buf, n)
    else Done (st, buf, n)
  else
    '(w, buf, n) ← storage_pread (rs_w st) (rs_storage st) h buf SECTOR_SIZE sector;
    let st := set_w st w in
    if 0 <=? n then
      buf ← (if n <? SECTOR_SIZE then write_mem buf n (replicate (Z.to_nat (SECTOR_SIZE - n)) 0) else Done buf);
      '(w, m, n) ← rmtfs_mem_write (rs_w st) (rs_mem st) phys buf SECTOR_SIZE;
      Done (RmtfsState w (rs_storage st) m, buf, n)
    else Done (st, buf, n).

(** [k] sectors from offset [offset] on; [true]: all of them. *)
Fixpoint sector_loop (k : nat) (st : rmtfs) (is_write : bool) (h : option nat) (phys_base sector_base offset : Z)
    (buf : list Z) : outcome (rmtfs * list Z * bool) :=
  match k with
  | O => Done (st, buf, true)
  | S k' =>
      '(st, buf, n) ← rmtfs_sector st is_write h (phys_base + offset) (sector_base + offset) buf;
      if negb (n =? SECTOR_SIZE) then Done (st, buf, false)
      else sector_loop k' st is_write h phys_base sector_base (offset + SECTOR_SIZE) buf
  end.

(** [entries[i]] in the request; [sector_addr * SECTOR_SIZE] is computed in 32 bits. *)
Definition read_entry (req : list Z) (i : Z) : outcome rmtfs_iovec_entry :=
  let at_ := 16 + 12 * i in
  a ← read_u32 req at_; p ← read_u32 req (at_ + 4); n ← read_u32 req (at_ + 8);
  Done (IovecEntry a p n).

Definition rmtfs_entry (st : rmtfs) (is_write : bool) (h : option nat) (e : rmtfs_iovec_entry) (buf : list Z)
    : outcome (rmtfs * list Z * bool) :=
  sector_loop (Z.to_nat (num_sector e)) st is_write h (phys_offset e) (u32 (sector_addr e * SECTOR_SIZE)) 0 buf.

Fixpoint entry_loop (k : nat) (i : Z) (req : list Z) (st : rmtfs) (is_write : bool) (h : option nat)
    (buf : list Z) : outcome (rmtfs * bool) :=
  match k with
  | O => Done (st, true)
  | S k' =>
      e ← read_entry req i;
      '(st, buf, ok) ← rmtfs_entry st is_write h e buf;
      if negb (ok : bool) then Done (st, false) else entry_loop k' (i + 1) req st is_write h buf
  end.

(** [is_write] and [rmtfd] are [None] while they are uninitialised. *)
Definition rmtfs_iovec (st : rmtfs) (pkt : qrtr_packet) (tail : list Z) (stk : stack) : outcome rmtfs :=
  '(req, ret, txn) ← decode_req pkt tail sizeof_iovec_req QMI_RMTFS_RW_IOVEC rmtfs_iovec_req_ei;
  '(st, result, is_write, rmtfd) ←
    (if ret <? 0 then Done (st, failed QMI_RMTFS_ERR_MALFORMED_MSG, None, None)
     else
       caller_id ← read_u32 req 0;
       direction ← read_u8 req 4;
       num_entries ← read_u64 req 8;
       let is_write := negb (direction =? 0) in
       h ← storage_get (rs_storage st) (qp_node pkt) (s32 caller_id);
       match h with
       | None => Done (st, failed QMI_RMTFS_ERR_INTERNAL, Some is_write, Some None)
       | Some h =>
           '(st, ok) ← entry_loop (Z.to_nat num_entries) 0 req st is_write (Some h) (stk_buf stk);
           Done (st, if (ok : bool) then result_zero else failed QMI_RMTFS_ERR_INTERNAL, Some is_write, Some (Some h))
       end);
  is_write ← of_option Uninitialised is_write;
  st ← (if (is_write : bool) then
          h ← of_option Uninitialised rmtfd;
          '(w, rc) ← storage_sync (rs_w st) (rs_storage st) h; Done (set_w st w)
        else Done st);
  respond st pkt stk QMI_RMTFS_RW_IOVEC txn (result_bytes result) rmtfs_iovec_resp_ei.

Definition rmtfs_alloc_buf (st : rmtfs) (pkt : qrtr_packet) (tail : list Z) (stk : stack) : outcome rmtfs :=
  '(req, ret, txn) ← decode_req pkt tail sizeof_alloc_buf_req QMI_RMTFS_ALLOC_BUFF rmtfs_alloc_buf_req_ei;
  resp ←
    (if ret <? 0 then Done (resp_failed QMI_RMTFS_ERR_MALFORMED_MSG)
     else
       alloc_size ← read_u32 req 4;
       let address := rmtfs_mem_alloc (rs_mem st) alloc_size in
       Done (if address <? 0 then resp_failed QMI_RMTFS_ERR_INTERNAL else Resp result_zero true address));
  respond st pkt stk QMI_RMTFS_ALLOC_BUFF txn (alloc_buf_resp_bytes resp) rmtfs_alloc_buf_resp_ei.

(** An entry that exists is answered with an error, one that does not is read. *)
Definition rmtfs_get_dev_error (st : rmtfs) (pkt : qrtr_packet) (tail : list Z) (stk : stack) : outcome rmtfs :=
  '(req, ret, txn) ← decode_req pkt tail sizeof_dev_error_req QMI_RMTFS_GET_DEV_ERROR rmtfs_dev_error_req_ei;
  resp ←
    (if ret <? 0 then Done (resp_failed QMI_RMTFS_ERR_MALFORMED_MSG)
     else
       c ← read_u32 req 0;
       h ← storage_get (rs_storage st) (qp_node pkt) (s32 c);
       match h with
       | Some _ => Done (resp_failed QMI_RMTFS_ERR_INTERNAL)
       | None => e ← storage_get_error (rs_storage st) h; Done (Resp result_zero true (u8 e))
       end);
  respond st pkt stk QMI_RMTFS_GET_DEV_ERROR txn (dev_error_resp_bytes resp) rmtfs_dev_error_resp_ei.

Definition rmtfs_bye (node : Z) : Z := 0.
Definition rmtfs_del_client (node port : Z) : Z := 0.

(** The result of [recvfrom]: an error number, or the datagram and its sender.
    [stale] is the rest of the receive buffer. *)
Definition received : Type := Z + list Z * sockaddr_qrtr.

Definition rmtfs_dispatch (st : rmtfs) (id : Z) (pkt : qrtr_packet) (tail : list Z) (stk : stack) : outcome rmtfs :=
  if id =? QMI_RMTFS_OPEN then rmtfs_open st pkt tail stk
  else if id =? QMI_RMTFS_CLOSE then rmtfs_close st pkt tail stk
  else if id =? QMI_RMTFS_RW_IOVEC then rmtfs_iovec st pkt tail stk
  else if id =? QMI_RMTFS_ALLOC_BUFF then rmtfs_alloc_buf st pkt tail stk
  else if id =? QMI_RMTFS_GET_DEV_ERROR then rmtfs_get_dev_error st pkt tail stk
  else Done st.

Definition handle_rmtfs (st : rmtfs) (r : received) (stale : list Z) (stk : stack) : outcome (rmtfs * Z) :=
  match r with
  | inl errno => Done (st, - errno)
  | inr (data, sq) =>
      '(ret, pkt) ← qrtr_decode (stk_pkt stk) data sq;
      if ret <? 0 then Done (st, ret)
      else if qp_type pkt =? QRTR_TYPE_BYE then Done (st, rmtfs_bye (qp_node pkt))
      else if qp_type pkt =? QRTR_TYPE_DEL_CLIENT then Done (st, rmtfs_del_client (qp_node pkt) (qp_port pkt))
      else if qp_type pkt =? QRTR_TYPE_DATA then
        '(ret, id) ← qmi_decode_header (qp_data pkt ++ stale) (zlen (qp_data pkt));
        if ret <? 0 then Done (st, ret)
        else id ← of_option Uninitialised id;
             st ← rmtfs_dispatch st id pkt stale stk; Done (st, 0)
      else Done (st, ret)
  end.

(** *** The loop around [select]

    A turn of the loop sees the number of signals so far, the results of [select]
    and, for a ready descriptor, of [read] and [recvfrom].  The result is the state,
    the value returned and the calls made outside the state, [None] for the value
    when the turns are used up and the service goes on. *)
Record turn := Turn {
  t_sigint : Z; t_select : Z; t_errno : Z;
  t_rproc : option (Z * Z); t_sock : option (received * list Z * stack) }.

Inductive rproc_call := RprocStart | RprocStop | CloseSocket.

Fixpoint run_loop (turns : list turn) (rproc : bool) (st : rmtfs) (stopped : bool) (ret : Z)
    : outcome (rmtfs * option Z * list rproc_call) :=
  match turns with
  | [] => Done (st, None, [])
  | t :: turns' =>
      let '(stop, stopped, calls) :=
        if (t_sigint t =? 1) && negb stopped then
          if rproc then (false, true, [RprocStop]) else (true, stopped, [])
        else (1 <? t_sigint t, stopped, []) in
      if (stop : bool) then Done (st, Some ret, calls ++ [CloseSocket])
      else if t_select t <? 0 then
        if negb (t_errno t =? EINTR) then Done (st, Some (t_select t), calls ++ [CloseSocket])
        else '(st, r, c) ← run_loop turns' rproc st stopped (t_select t); Done (st, r, calls ++ c)
      else
        let ret := t_select t in
        let '(ret, over) := match t_rproc t with
                            | Some (n, done) => if rproc then (n, (n =? 0) || (done =? 89)) else (ret, false)
                            | None => (ret, false)
                            end in
        if (over : bool) then Done (st, Some ret, calls ++ [CloseSocket])
        else
          '(st, ret, over) ← match t_sock t with
                             | Some (r, stale, stk) =>
                                 '(st, ret) ← handle_rmtfs st r stale stk; Done (st, ret, ret =? - ENETRESET)
                             | None => Done (st, ret, false)
                             end;
          if (over : bool) then Done (st, Some ret, calls ++ [CloseSocket])
          else '(st, r, c) ← run_loop turns' rproc st stopped ret; Done (st, r, calls ++ c)
  end.

(** [sock] and [published] are the results of [qrtr_open] and [qrtr_publish]. *)
Definition run_rmtfs (sock published : Z) (rproc : bool) (turns : list turn) (st : rmtfs)
    : outcome (rmtfs * option Z * list rproc_call) :=
  if sock <? 0 then Done (st, Some sock, [])
  else if published <? 0 then Done (st, Some published, [])
  else
    '(st, r, c) ← run_loop turns rproc st false published;
    Done (st, r, (if rproc then [RprocStart] else []) ++ c).

(** [main]: the storage is set up once; the service is run again after a reset of
    the network, each run with its own socket and turns. *)
Fixpoint main_loop (runs : list (Z * Z * list turn)) (rproc : bool) (st : rmtfs) : outcome (rmtfs * bool) :=
  match runs with
  | [] => Done (st, false)
  | (sock, published, turns) :: runs' =>
      '(st, r, _) ← run_rmtfs sock published rproc turns st;
      match r with
      | None => Done (st, false)
      | Some ret =>
          if ret =? - ENETRESET then main_loop runs' rproc st
          else
            '(w, s) ← storage_exit (rs_w st) (rs_storage st);
            Done (RmtfsState (rmtfs_mem_close w (rs_mem st)) s (rs_mem st), true)
      end
  end.
Definition rmtfs_main (w : W) (m : rmtfs_mem) (storage_root : option (list Z)) (read_only use_partitions rproc : bool)
    (runs : list (Z * Z * list turn)) : outcome (rmtfs * bool) :=
  let '(s, ret) := storage_init storage_static storage_root read_only use_partitions in
  if negb (ret =? 0) then Done (RmtfsState (rmtfs_mem_close w m) s m, true)
  else main_loop runs rproc (RmtfsState w s m).

End Rmtfs.
Arguments rmtfs : clear implicits.
