(* ===== verification/RmtfsWorld.v ===== *)
(** * The remote file system service: what its operations do to the system

    Descriptors are opened and closed by opening and closing partitions only, each is closed
    when it is open and the entry that holds it is given up; a handler sends only its reply. *)
From S2P Require Import Prelude CString Qrtr Qmi RmtfsMsgs Os World Storage StorageFacts SharedMem SharedMemProps Rmtfs.
#[local] Open Scope Z_scope.

Section World.
Context {W : Type} `{OsWorld W}.
Implicit Types (w : W) (s : storage) (st : rmtfs W).

(** Nothing is sent, and what is open stays as it is. *)
Record keeps (w w' : W) : Prop := {
  keeps_calm : calm w w';
  keeps_dev g : ow_open w g -> ow_dev w' g = ow_dev w g }.
#[export] Instance keeps_preorder : PreOrder keeps.
Proof.
  split; [by split|]. intros w1 w2 w3 [A1 A2] [B1 B2]. split; [by etrans|]. intros g Hg.
  rewrite B2, A2; [done..|]. by apply (calm_open _ _ A1).
Qed.
Lemma steady_keeps w w' : steady w w' -> keeps w w'.
Proof. intros [A1 A2]. by split. Qed.

(** A file that is opened, read and closed. *)
Lemma open_close_keeps w path md w1 f w2 : os_open w path md = (w1, f) -> 0 <= f -> steady w1 w2 -> keeps w (os_close w2 f).
Proof.
  intros Ho Hf [[S1 S2 S3] S4]. pose proof (ow_open_law w path md) as Hl. pose proof (ow_open_sent w path md) as Hs. rewrite Ho in Hl, Hs.
  rewrite (proj2 (Z.ltb_ge _ _) Hf) in Hl. destruct Hl as (Hn & Hopen & Hdev), Hs as [Hs1 Hs2]. cbn [fst] in *.
  split; [split|].
  - rewrite ow_close_sent. congruence.
  - intros g. rewrite ow_close_open, S2, Hopen. intuition congruence.
  - rewrite ow_close_once by (apply S2, Hopen; by left). congruence.
  - intros g Hg. assert (g <> f) by congruence. rewrite ow_close_dev, S4, Hdev by done. done.
Qed.
Lemma open_fails w path md w1 f : os_open w path md = (w1, f) -> f < 0 -> steady w w1.
Proof. intros Ho Hf. pose proof (ow_open_law w path md) as Hl. rewrite Ho in Hl. by rewrite (proj2 (Z.ltb_lt _ _) Hf) in Hl. Qed.

Lemma populate_keeps w r file w' r' ret : storage_populate_shadow_buf w r file = Done (w', r', ret) ->
  keeps w w' /\ fd r' = fd r.
Proof.
  unfold storage_populate_shadow_buf. destruct (os_open w file O_RDONLY) as [w1 f] eqn:Ho.
  destruct (f <? 0) eqn:Ef; reflect_bools; [intros [= <- <- <-]; split; [by eapply steady_keeps, open_fails|done]|].
  pose proof (ow_seek_end w1 f) as S1. destruct (os_seek_end w1 f) as [w2 len]. cbn [fst] in S1.
  destruct (len <? 0); [intros [= <- <- <-]; split; [by eapply open_close_keeps|done]|].
  pose proof (ow_seek_start w2 f) as S2. pose proof (ow_calloc (os_seek_start w2 f) len) as S3.
  destruct (os_calloc (os_seek_start w2 f) len) as [w3 ok]. cbn [fst] in S3. assert (S : steady w1 w3) by (etrans; [|exact S3]; by etrans).
  destruct ok; cbn [negb]; [|intros [= <- <- <-]; split; [by eapply open_close_keeps|done]].
  pose proof (ow_read w3 f len) as S4. destruct (os_read w3 f len) as [[w4 n] bs]. cbn [fst] in S4.
  intros (buf & _ & E)%bind_done. assert (steady w1 w4) by by etrans.
  destruct (n <? 0); injection E as <- <- <-; (split; [by eapply open_close_keeps|by destruct r]).
Qed.

(** ** The descriptors of the entries *)

Definition fd_at s (i : nat) (g : Z) : Prop := 0 <= g /\ exists r, rmtfds s !! i = Some r /\ fd r = g.
Definition same_fds s s' : Prop := forall i g, fd_at s' i g <-> fd_at s i g.

(** The open descriptors are those of others and, one each, those of the entries. *)
Record held (others : Z -> Prop) (stray : list Z) w s : Prop := {
  held_open g : ow_open w g <-> others g \/ exists i, fd_at s i g;
  held_once i j g : fd_at s i g -> fd_at s j g -> i = j;
  held_apart i g : fd_at s i g -> ~ others g;
  held_stray : ow_stray w = stray }.
Lemma held_calm F x w w' s s' : calm w w' -> same_fds s s' -> held F x w s -> held F x w' s'.
Proof.
  intros [_ C2 C3] Hs [K1 K2 K3 K4]. split.
  - intros g. rewrite C2, K1. by setoid_rewrite (Hs _ g).
  - intros i j g. rewrite !(Hs _ g). apply K2.
  - intros i g. rewrite (Hs _ g). apply K3.
  - congruence.
Qed.

Lemma fd_at_set s h r r' i g : rmtfds s !! h = Some r ->
  fd_at (set_fd s h r') i g <-> if decide (i = h) then 0 <= g /\ fd r' = g else fd_at s i g.
Proof.
  intros Hr. unfold fd_at. rewrite set_fd_lookup. destruct (decide (i = h)) as [->|Hne].
  - rewrite !decide_True by (done || by eapply lookup_lt_Some). split; [intros [? (? & [= <-] & ?)]; done|intros [? ?]; eauto].
  - by rewrite decide_False by congruence.
Qed.
Lemma same_fds_set s h r r' : rmtfds s !! h = Some r -> fd r' = fd r -> same_fds s (set_fd s h r').
Proof.
  intros Hr Hf i g. rewrite fd_at_set by done. destruct (decide (i = h)) as [->|]; [|done].
  unfold fd_at. rewrite Hr, Hf. split; [intros []; eauto|intros [? (? & [= <-] & ?)]; done].
Qed.

Lemma rmtfd_at_done s h r : rmtfd_at s h = Done r -> rmtfds s !! h = Some r.
Proof. unfold rmtfd_at. by intros ?%of_option_done. Qed.

(** The storage starts with no descriptor: all that are open belong to others. *)
Lemma storage_init_held root ro up w (F : Z -> Prop) : (forall g, ow_open w g <-> F g) ->
  held F (ow_stray w) w (storage_init storage_static root ro up).1.
Proof.
  intros HF.
  assert (Hn : forall i g, ~ fd_at (storage_init storage_static root ro up).1 i g).
  { intros i g [Hg (r & Hr & <-)]. change (rmtfds _) with (imap (fun i _ => Rmtfd (Z.of_nat i) 0 (-1) 0 None None 0) (replicate 10 tt)) in Hr.
    rewrite list_lookup_imap in Hr. apply fmap_Some in Hr as (u & _ & ->). done. }
  split; [|by intros i j g Hi%Hn|by intros i g Hi%Hn|done].
  intros g. rewrite HF. split; [by left|]. intros [?|(i & Hi)]; [done|by apply Hn in Hi].
Qed.

Lemma storage_open_world w s n p w' s' o : storage_open w s n p = Done (w', s', o) ->
  ow_sent w' = ow_sent w /\ (forall g, ow_open w g -> ow_dev w' g = ow_dev w g) /\
  forall F x, held F x w s -> held F x w' s'.
Proof.
  unfold storage_open. destruct (find_part p) as [part|]; [|by intros [= <- <- <-]].
  destruct (find_open _ _ _); [by intros [= <- <- <-]|]. destruct (find_free s) as [h|] eqn:Ef; [|by intros [= <- <- <-]].
  destruct (find_free_some _ _ Ef) as (r & Hr & [Hfd _]%not_in_use).
  intros (r0 & Hr0%rmtfd_at_done & (t & _ & ([[w1 r1] ok] & E1 & E)%bind_done)%bind_done)%bind_done.
  assert (r0 = r) as -> by congruence. destruct (storage_read_only s); cbn [negb] in E1.
  - apply bind_done in E1 as ([[w2 r2] ret] & [Hk Hf]%populate_keeps & [= <- <- <-]). pose proof Hk as [[C1 C2 C3] K].
    destruct (negb (negb _)); injection E as <- <- <-; (split; [done|]; split; [done|]); intros F x Hh;
      (eapply held_calm; [apply Hk|by apply (same_fds_set s h r)|done]).
  - destruct (os_open w _ O_RDWR) as [w2 f] eqn:Ho. pose proof (ow_open_sent w (fs_path s t) O_RDWR) as Hs.
    pose proof (ow_open_law w (fs_path s t) O_RDWR) as Hl. rewrite Ho in Hl, Hs. destruct Hs as [Hs1 Hs2]. cbn [fst] in *.
    destruct (f <? 0) eqn:Ef0; reflect_bools; injection E1 as <- <- <-; cbn [negb] in E; injection E as <- <- <-.
    + pose proof Hl as [[C1 C2 C3] K]. split; [done|]. split; [done|]. intros F x Hh.
      eapply held_calm; [apply Hl|by apply (same_fds_set s h r)|done].
    + destruct Hl as (Hn & Hopen & Hdev). split; [done|]. split.
      { intros g Hg. apply Hdev. congruence. }
      intros F x [K1 K2 K3 K4].
      assert (Hat : forall i g, fd_at (set_fd s h (Rmtfd (id r) n f (dev_error r) (Some part) (shadow_buf r) 0)) i g <->
        (i = h /\ g = f) \/ fd_at s i g).
      { intros i g. rewrite (fd_at_set _ _ r) by done. destruct (decide (i = h)) as [->|]; cbn [fd]; [|tauto].
        split; [intuition congruence|]. intros [[_ ->]|[Hg (r2 & Hr2 & Hg2)]]; [done|].
        assert (r2 = r) as -> by congruence. lia. }
      assert (Hnew : forall i, ~ fd_at s i f) by (intros i Hi; apply Hn, K1; right; eauto).
      split; [| | |congruence].
      * intros g. rewrite Hopen, K1. setoid_rewrite Hat. split.
        -- intros [->|[?|(i & ?)]]; [right; by exists h; left|by left|right; exists i; by right].
        -- intros [?|(i & [[_ ->]|?])]; [right; by left|by left|right; right; by exists i].
      * intros i j g. rewrite !Hat. intros [[-> ->]|Hi] [[-> Hg]|Hj]; [done| |subst g|by eapply K2]; by edestruct Hnew.
      * intros i g. rewrite Hat. intros [[-> ->]|Hi]; [|by eapply K3]. intros HF. apply Hn, K1. by left.
Qed.

Lemma storage_close_world w s h w' s' : storage_ok s -> storage_close w s h = Done (w', s') ->
  ow_sent w' = ow_sent w /\ forall F x, held F x w s -> held F x w' s'.
Proof.
  intros Hok. unfold storage_close. intros (i & _ & (r & Hr%rmtfd_at_done & E)%bind_done)%bind_done.
  pose proof (ok_fd _ _ _ (ok_entry _ Hok _ _ Hr)) as Hfd.
  destruct (0 <=? fd r) eqn:Ef; reflect_bools; injection E as <- <-.
  - split; [apply ow_close_sent|]. intros F x [K1 K2 K3 K4].
    assert (Hi : fd_at s i (fd r)) by (split; eauto).
    assert (Hat : forall j g, fd_at (set_fd s i (Rmtfd (id r) (node r) (-1) (dev_error r) None None 0)) j g <->
      fd_at s j g /\ g <> fd r).
    { intros j g. rewrite (fd_at_set _ _ r) by done. destruct (decide (j = i)) as [->|Hne]; cbn [fd].
      - split; [lia|]. intros [[Hg (r2 & Hr2 & Hg2)] Hng]. congruence.
      - split; [|tauto]. intros Hj. split; [done|]. intros ->. apply Hne. by eapply K2. }
    split.
    + intros g. rewrite ow_close_open, K1. setoid_rewrite Hat. split.
      * intros [[?|(j & Hj)] Hg]; [by left|right; eauto].
      * intros [HF|(j & Hj & Hg)]; [|eauto]. split; [by left|]. intros ->. by eapply K3.
    + intros j k g. rewrite !Hat. intros [? _] [? _]. by eapply K2.
    + intros j g. rewrite Hat. intros [? _]. by eapply K3.
    + rewrite ow_close_once; [done|]. apply K1. right. by exists i.
  - split; [done|]. intros F x Hh. eapply held_calm; [reflexivity|by apply (same_fds_set s i r)|done].
Qed.

(** ** Sectors *)

Lemma storage_pread_world w s h buf n off w' buf' rc : storage_pread w s h buf n off = Done (w', buf', rc) -> steady w w'.
Proof.
  unfold storage_pread. intros (r & _ & ([[w1 b1] n1] & E1 & E)%bind_done)%bind_done.
  assert (S : steady w w1).
  { destruct (negb (storage_read_only s)).
    - pose proof (ow_pread w (fd r) n off) as S. destruct (os_pread w (fd r) n off) as [[w2 n2] bs2]. cbn [fst] in S.
      apply bind_done in E1 as (b2 & _ & [= <- _ _]). exact S.
    - match type of E1 with context [0 <? ?x] => destruct (0 <? x) end; [|by injection E1 as <- _ _]. repeat (apply bind_done in E1 as (? & _ & E1)). by injection E1 as <- _ _. }
  destruct (u64 n1 <? n); [apply bind_done in E as (? & _ & E)|]; by injection E as <- _ _.
Qed.

Lemma storage_pwrite_world w s h bs off w' s' n : storage_pwrite w s h bs off = Done (w', s', n) ->
  calm w w' /\ same_fds s s' /\ (storage_read_only s = true -> steady w w').
Proof.
  unfold storage_pwrite. intros (i & _ & (r & Hr%rmtfd_at_done & E)%bind_done)%bind_done.
  destruct (storage_read_only s) eqn:Hro; cbn [negb] in E.
  - assert (Hc : steady w w' /\ same_fds s s'); [|split_and!; [apply Hc|apply Hc|intros _; apply Hc]].
    destruct (STORAGE_MAX_SIZE <=? _); [injection E as <- <- _; by split|]. unfold grow_shadow in E. destruct (shadow_len r <? _).
    + pose proof (ow_realloc w (zlen (default [] (shadow_buf r))) (u64 (off + zlen bs))) as S.
      destruct (os_realloc _ _ _) as [w1 [fresh|]]; cbn [fst] in S; [|injection E as <- <- _; by split].
      repeat (apply bind_done in E as (? & _ & E)). injection E as <- <- _. split; [done|]. by apply (same_fds_set s i r).
    + repeat (apply bind_done in E as (? & _ & E)). injection E as <- <- _. split; [done|]. by apply (same_fds_set s i r).
  - pose proof (ow_pwrite w (fd r) bs off) as S. destruct (os_pwrite w (fd r) bs off) as [w1 n1]. cbn [fst] in S.
    injection E as <- <- _. by split_and!.
Qed.

Lemma mem_read_world w m p buf len w' buf' n : rmtfs_mem_read w m p buf len = Done (w', buf', n) -> steady w w'.
Proof.
  unfold rmtfs_mem_read. destruct (base m).
  - destruct (rmtfs_mem_ptr m p len); [|by intros [= <- _ _]]. by intros (? & _ & (? & _ & [= <- _ _])%bind_done)%bind_done.
  - match goal with |- context [os_pread w ?f len ?o] => pose proof (ow_pread w f len o) as S; destruct (os_pread w f len o) as [[w1 n1] bs] end.
    by intros (? & _ & [= <- _ _])%bind_done.
Qed.
Lemma mem_write_world w m p buf len w' m' n : rmtfs_mem_write w m p buf len = Done (w', m', n) ->
  calm w w' /\ mem_fd m' = mem_fd m.
Proof.
  unfold rmtfs_mem_write. destruct (base m).
  - destruct (rmtfs_mem_ptr m p len); [|by intros [= <- <- _]]. by intros (? & _ & (? & _ & [= <- <- _])%bind_done)%bind_done.
  - intros (bs & _ & E)%bind_done.
    match type of E with context [os_pwrite w ?f bs ?o] => pose proof (ow_pwrite w f bs o) as S; destruct (os_pwrite w f bs o) as [w1 n1] end.
    by injection E as <- <- _.
Qed.
Lemma sync_world w s h w' n : storage_sync w s h = Done (w', n) -> steady w w'.
Proof.
  unfold storage_sync. destruct (storage_read_only s); [by intros [= <- _]|]. intros (r & _ & E)%bind_done.
  pose proof (ow_fdatasync w (fd r)) as S. destruct (os_fdatasync w (fd r)). by injection E as <- _.
Qed.

(** What a transfer leaves alone. *)
Record undisturbed st st' : Prop := {
  und_calm : calm (rs_w st) (rs_w st');
  und_fds : same_fds (rs_storage st) (rs_storage st');
  und_mem : mem_fd (rs_mem st') = mem_fd (rs_mem st) }.
#[export] Instance undisturbed_preorder : PreOrder undisturbed.
Proof.
  split; [by split|]. intros st1 st2 st3 [A1 A2 A3] [B1 B2 B3].
  split; [by etrans|intros i g; by rewrite (B2 i g)|congruence].
Qed.

Lemma sector_world st is_write h phys sector buf st' buf' n :
  rmtfs_sector st is_write h phys sector buf = Done (st', buf', n) -> undisturbed st st'.
Proof.
  unfold rmtfs_sector. destruct is_write.
  - intros ([[w1 b1] n1] & S%mem_read_world & E)%bind_done. destruct (n1 =? _); [|injection E as <- _ _; split; [apply S|done|done]].
    apply bind_done in E as (bs & _ & E). apply bind_done in E as ([[w2 s2] n2] & (C & F & _)%storage_pwrite_world & [= <- _ _]).
    split; [etrans; [apply S|exact C]|done|done].
  - intros ([[w1 b1] n1] & S%storage_pread_world & E)%bind_done. destruct (0 <=? n1); [|injection E as <- _ _; split; [apply S|done|done]].
    apply bind_done in E as (b2 & _ & E). apply bind_done in E as ([[w2 m2] n2] & [C Hf]%mem_write_world & [= <- _ _]).
    split; [etrans; [apply S|exact C]|done|done].
Qed.
Lemma sectors_world k st is_write h phys sector off buf st' buf' ok :
  sector_loop k st is_write h phys sector off buf = Done (st', buf', ok) -> undisturbed st st'.
Proof.
  revert st off buf. induction k as [|k IH]; intros st off buf; cbn [sector_loop]; [by intros [= <- _ _]|].
  intros ([[st1 b1] n1] & S%sector_world & E)%bind_done. destruct (negb (n1 =? _)); [by injection E as <- _ _|]. etrans; eauto.
Qed.
Lemma entries_world k i req st is_write h buf st' ok :
  entry_loop k i req st is_write h buf = Done (st', ok) -> undisturbed st st'.
Proof.
  revert i st buf. induction k as [|k IH]; intros i st buf; cbn [entry_loop]; [by intros [= <- _]|].
  intros (e & _ & ([[st1 b1] ok1] & S%sectors_world & E)%bind_done)%bind_done.
  destruct (negb ok1); [by injection E as <- _|]. etrans; eauto.
Qed.

(** ** The window

    Its bytes are those of the mapping or, without one, those of the device. *)
Record window_holds w (m : rmtfs_mem) (b : list Z) : Prop := {
  wh_bytes : match base m with Some b' => b' = b | None => ow_dev w (mem_fd m) = Some b /\ ow_open w (mem_fd m) end;
  wh_length : zlen b = size m;
  wh_ok : bytes_ok b }.
Record same_place (m m' : rmtfs_mem) : Prop := {
  sp_address : address m' = address m; sp_size : size m' = size m; sp_fd : mem_fd m' = mem_fd m }.
#[export] Instance same_place_preorder : PreOrder same_place.
Proof. split; [by split|]. intros m1 m2 m3 [] []. split; congruence. Qed.
Lemma same_place_window m m' p n : same_place m m' -> in_window m p n -> in_window m' p n.
Proof. unfold in_window. by intros [-> -> _]. Qed.
Lemma window_keeps w w' m b : keeps w w' -> window_holds w m b -> window_holds w' m b.
Proof.
  intros [C D] [K1 K2 K3]. split; [|done..]. destruct (base m); [done|]. destruct K1 as [K1 Ko].
  split; [by rewrite D|by apply (calm_open _ _ C)].
Qed.

Lemma window_offset m p n : mem_ok m -> in_window m p n -> 0 <= n -> 0 <= p < 2 ^ 63 ->
  s64 (u64 (p - address m)) = p - address m.
Proof. intros [M1 M2 M3 _] [I1 I2] Hn Hp. rewrite u64_small by lia. unfold s64. rewrite Z.mod_small; lia. Qed.

Lemma window_read w m b p buf bs : mem_ok m -> window_holds w m b -> in_window m p (zlen buf) -> 0 <= p < 2 ^ 63 ->
  zlen buf < 2 ^ 31 -> read_mem b (p - address m) (zlen buf) = Done bs ->
  exists w', rmtfs_mem_read w m p buf (zlen buf) = Done (w', bs, zlen buf) /\ steady w w'.
Proof.
  intros Hm [K1 K2 K3] Hin Hp Hl Hr. pose proof (read_mem_length _ _ _ _ Hr) as Hz. unfold rmtfs_mem_read.
  assert (Hw : write_mem buf 0 bs = Done bs).
  { rewrite write_mem_all by (unfold zlen in *; lia). by rewrite drop_ge, app_nil_r by (unfold zlen in *; lia). }
  destruct (base m) as [b'|].
  - subst b'. assert (0 <= zlen buf) by (unfold zlen; lia).
    rewrite rmtfs_mem_ptr_spec, decide_True by (done || lia). rewrite Hr. run. rewrite Hw. run. by exists w.
  - rewrite (window_offset m p (zlen buf)) by (done || (unfold zlen; lia)). destruct K1 as [K1 _].
    pose proof (ow_pread w (mem_fd m) (zlen buf) (p - address m)) as S.
    destruct (ow_dev_read w (mem_fd m) b (zlen buf) (p - address m) bs K1 Hr) as [E1 E2].
    destruct (os_pread _ _ _ _) as [[w' n] bs']. cbn [fst snd] in *. subst. rewrite Hw. run. by exists w'.
Qed.

Lemma window_write w m b p bs : mem_ok m -> window_holds w m b -> in_window m p (zlen bs) -> 0 <= p < 2 ^ 63 ->
  0 < zlen bs < 2 ^ 31 -> bytes_ok bs ->
  exists w' m' b', rmtfs_mem_write w m p bs (zlen bs) = Done (w', m', zlen bs) /\ write_mem b (p - address m) bs = Done b' /\
    mem_ok m' /\ same_place m m' /\ window_holds w' m' b' /\ calm w w'.
Proof.
  intros Hm Hh Hin Hp Hl Hbs. pose proof Hh as [K1 K2 K3]. destruct (base m) as [b0|] eqn:Eb.
  - subst b0. destruct (mem_write_window w m b p bs) as (b' & E & Ew & Hm'); try done; try lia.
    exists w, (set_base m b'), b'. split_and!; try done. split; cbn [set_base base size]; [done| |].
    + by rewrite (write_mem_length _ _ _ _ Ew).
    + eapply write_mem_bytes; [exact K3|exact Hbs|exact Ew].
  - destruct K1 as [K1 Ko]. pose proof Hin as [I1 I2]. unfold rmtfs_mem_write. rewrite Eb.
    rewrite (window_offset m p (zlen bs)) by (done || lia). rewrite (read_mem_all bs) by done. run.
    destruct (write_mem_ok b (p - address m) bs) as [b' Ew]; [lia..|].
    pose proof (ow_pwrite w (mem_fd m) bs (p - address m)) as C.
    destruct (ow_dev_write w (mem_fd m) b bs (p - address m) b' K1 Hbs Ew) as [E1 E2].
    destruct (os_pwrite _ _ _ _) as [w' n]. cbn [fst snd] in *. subst n. exists w', m, b'. split_and!; try done.
    split; [rewrite Eb; split; [done|by apply (calm_open _ _ C)]|by rewrite (write_mem_length _ _ _ _ Ew)|eapply write_mem_bytes; [exact K3|exact Hbs|exact Ew]].
Qed.

(** Only the window has changed, and holds [b'] now. *)
Record window_changed st st' (b' : list Z) : Prop := {
  wc_storage : rs_storage st' = rs_storage st;
  wc_mem : mem_ok (rs_mem st');
  wc_place : same_place (rs_mem st) (rs_mem st');
  wc_holds : window_holds (rs_w st') (rs_mem st') b';
  wc_calm : calm (rs_w st) (rs_w st') }.
Lemma window_changed_trans st1 st2 st3 b2 b3 : window_changed st1 st2 b2 -> window_changed st2 st3 b3 -> window_changed st1 st3 b3.
Proof. intros [A1 A2 A3 A4 A5] [B1 B2 B3 B4 B5]. split; [congruence|done|by etrans|done|by etrans]. Qed.
End World.
