(* ===== verification/RmtfsFacts.v ===== *)
(** * The remote file system service: replies and the sector loop *)
From S2P Require Import Prelude CString Hash Qrtr Qmi QmiFacts QmiDecode RmtfsMsgs QmiProps Os World Storage StorageFacts SharedMem SharedMemProps Rmtfs RmtfsWorld.
#[local] Open Scope Z_scope.

(** ** The replies *)

(** The message on the wire: the header and the TLVs. *)
Definition message (id txn : Z) (wire : list Z) : list Z :=
  header_bytes QMI_RESPONSE txn id (zlen wire) ++ wire.
Definition result_wire (r : rmtfs_qmi_result) : list Z := [2; 4; 0] ++ result_bytes r.

Lemma list_explode (n : nat) (l : list Z) : length l = n -> exists f : nat -> Z, l = map f (seq 0 n).
Proof.
  intros <-. exists (fun i => default 0 (l !! i)). apply list_eq. intros i.
  destruct (decide (i < length l)%nat).
  - rewrite list_lookup_fmap, lookup_seq_lt by done. cbn.
    destruct (lookup_lt_is_Some_2 l i) as [x ->]; done.
  - rewrite !lookup_ge_None_2; [done|rewrite length_map, length_seq; lia|lia].
Qed.

(** Whatever the packet buffer held before, it starts with the message afterwards. *)
Lemma encode_value_reply k r txn data : length data = 256%nat ->
  exists data',
    qmi_encode_message msg_fuel data 256 QMI_RESPONSE (resp_id k) txn
      (Some (resp_bytes k r)) (Some (resp_table k)) =
      Done (data', 7 + zlen (resp_wire k r), 7 + zlen (resp_wire k r)) /\
    read_mem data' 0 (7 + zlen (resp_wire k r)) = Done (message (resp_id k) txn (resp_wire k r)).
Proof.
  intros (f & ->)%list_explode.
  destruct r as [[res err] valid value]; destruct k, valid;
    unfold message, resp_wire, resp_bytes, open_resp_bytes, alloc_buf_resp_bytes, dev_error_resp_bytes,
      result_bytes, qmi_encode_message, header_bytes, resp_width;
    cbn [resp_valid resp_result resp_value r_result r_error];
    name_bytes 2%nat txn; name_bytes 2%nat res; name_bytes 2%nat err;
    match goal with |- context [le_bytes ?n value] => name_bytes n value end;
    eexists; (split; [vm_compute; reflexivity|]); vm_compute; reflexivity.
Qed.

Lemma encode_result_reply (id txn : Z) r data ei : ei = [EI_RESULT; EI_END] -> length data = 256%nat ->
  exists data',
    qmi_encode_message msg_fuel data 256 QMI_RESPONSE id txn (Some (result_bytes r)) (Some ei) = Done (data', 14, 14) /\
    read_mem data' 0 14 = Done (message id txn (result_wire r)).
Proof.
  intros -> (f & ->)%list_explode.
  destruct r as [res err]. unfold message, result_wire, result_bytes, qmi_encode_message, header_bytes.
  cbn [r_result r_error]. name_bytes 2%nat txn. name_bytes 2%nat id. name_bytes 2%nat res. name_bytes 2%nat err.
  eexists. (split; [vm_compute; reflexivity|]). vm_compute. reflexivity.
Qed.

Section Replies.
Context {W : Type} `{OsOps W}.

(** The state after a message to the sender of [pkt]. *)
Definition sent (st : rmtfs W) (pkt : qrtr_packet) (bs : list Z) : rmtfs W :=
  set_w st (os_sendto (rs_w st) (qp_node pkt) (qp_port pkt) bs).1.

Lemma respond_value st pkt stk k r txn : zlen (stk_resp stk) = 256 ->
  respond st pkt stk (resp_id k) (Some txn) (resp_bytes k r) (resp_table k) =
    Done (sent st pkt (message (resp_id k) txn (resp_wire k r))).
Proof.
  intros Hl. unfold respond. run. rewrite Hl.
  destruct (encode_value_reply k r txn (stk_resp stk)) as (d & -> & E); [unfold zlen in Hl; lia|]. run.
  rewrite (proj2 (Z.ltb_ge _ _)) by (unfold zlen; lia). rewrite E. done.
Qed.

Lemma respond_result st pkt stk id txn r ei : ei = [EI_RESULT; EI_END] -> zlen (stk_resp stk) = 256 ->
  respond st pkt stk id (Some txn) (result_bytes r) ei = Done (sent st pkt (message id txn (result_wire r))).
Proof.
  intros He Hl. unfold respond. run. rewrite Hl.
  destruct (encode_result_reply id txn r (stk_resp stk) ei) as (d & -> & E); [done|unfold zlen in Hl; lia|]. run.
  cbn [Z.ltb Z.compare]. rewrite E. done.
Qed.
End Replies.

(** ** Invariant *)

Record rmtfs_ok {W} (st : rmtfs W) : Prop := {
  ok_storage : storage_ok (rs_storage st);
  ok_mem : mem_ok (rs_mem st) }.
Record stack_ok (stk : stack) : Prop := {
  ok_resp : zlen (stk_resp stk) = 256;
  ok_buf : zlen (stk_buf stk) = SECTOR_SIZE /\ bytes_ok (stk_buf stk) }.

Lemma valid_handle s h : storage_ok s -> (h < 10)%nat -> exists r, rmtfds s !! h = Some r.
Proof. intros Hs Hh. apply lookup_lt_is_Some_2. by rewrite (ok_length _ Hs). Qed.

Lemma read_u32_range m off c : read_u32 m off = Done c -> 0 <= c < 2 ^ 32.
Proof. unfold read_u32. intros H. inv_done. subst. apply u32_range. Qed.

Lemma storage_get_handle s n c h : storage_ok s -> storage_get s n c = Done (Some h) -> (h < 10)%nat.
Proof.
  intros Hs. unfold storage_get, rmtfd_at. destruct (_ <=? c); [done|]. destruct (c <? 0); [done|].
  destruct (rmtfds s !! Z.to_nat c) eqn:E; [run|done]. destruct (negb _); [done|]. intros [= <-].
  apply lookup_lt_Some in E. by rewrite (ok_length _ Hs) in E.
Qed.

Section Sectors.
Context {W : Type} `{OsLaws W}.

(** One sector keeps the invariant and the sector buffer. *)
Lemma rmtfs_sector_returns (st : rmtfs W) is_write h phys sector buf :
  rmtfs_ok st -> (h < 10)%nat -> 0 <= phys < 2 ^ 63 -> 0 <= sector < 2 ^ 62 ->
  zlen buf = SECTOR_SIZE -> bytes_ok buf ->
  returns (rmtfs_sector st is_write (Some h) phys sector buf) (fun '(st', buf', n) =>
    rmtfs_ok st' /\ zlen buf' = SECTOR_SIZE /\ bytes_ok buf').
Proof.
  intros [Hs Hm] Hh Hp Hsec Hl Hb. destruct (valid_handle _ _ Hs Hh) as [r Hr].
  unfold rmtfs_sector, SECTOR_SIZE in *. destruct is_write.
  - apply returns_bind. eapply returns_mono; [apply rmtfs_mem_read_returns; (done || lia)|].
    intros [[w buf'] n] (Hn & Hl' & Hb'). destruct (n =? 512) eqn:E; reflect_bools.
    + subst n. rewrite read_mem_all by lia. run. apply returns_bind.
      eapply returns_mono; [apply (storage_pwrite_returns _ _ _ r); (done || lia)|].
      intros [[w' s'] n'] (_ & Hs' & _). apply returns_done. by split_and!; [split|lia|].
    + apply returns_done. by split_and!; [split|lia|].
  - apply returns_bind. eapply returns_mono; [apply (storage_pread_returns _ _ _ r); (done || lia)|].
    intros [[w buf'] n] (-> & Hl' & Hb'). cbn [Z.leb Z.ltb Z.compare Pos.compare Pos.compare_cont]. run.
    apply returns_bind. eapply returns_mono; [apply rmtfs_mem_write_returns; (done || lia)|].
    intros [[w' m'] n'] (_ & Hm' & _). apply returns_done. by split_and!; [split|lia|].
Qed.

Lemma sector_loop_returns k (st : rmtfs W) is_write h phys sector off buf :
  rmtfs_ok st -> (h < 10)%nat -> 0 <= phys < 2 ^ 32 -> 0 <= sector < 2 ^ 32 -> 0 <= off ->
  off + 512 * Z.of_nat k <= 2 ^ 41 -> zlen buf = SECTOR_SIZE -> bytes_ok buf ->
  returns (sector_loop k st is_write (Some h) phys sector off buf) (fun '(st', buf', _) =>
    rmtfs_ok st' /\ zlen buf' = SECTOR_SIZE /\ bytes_ok buf').
Proof.
  revert st off buf. induction k as [|k IH]; intros st off buf Hst Hh Hp Hs Ho Hk Hl Hb; cbn [sector_loop].
  { by apply returns_done. }
  apply returns_bind. eapply returns_mono; [apply rmtfs_sector_returns; (done || lia)|].
  intros [[st' buf'] n] (Hst' & Hl' & Hb'). destruct (negb _); [by apply returns_done|].
  apply IH; try done; unfold SECTOR_SIZE; lia.
Qed.

Lemma rmtfs_entry_returns (st : rmtfs W) is_write h req i e buf :
  rmtfs_ok st -> (h < 10)%nat -> read_entry req i = Done e -> zlen buf = SECTOR_SIZE -> bytes_ok buf ->
  returns (rmtfs_entry st is_write (Some h) e buf) (fun '(st', buf', _) =>
    rmtfs_ok st' /\ zlen buf' = SECTOR_SIZE /\ bytes_ok buf').
Proof.
  unfold read_entry. intros Hst Hh He Hl Hb. inv_done. subst e.
  match goal with
  | H1 : read_u32 _ _ = Done r, H2 : read_u32 _ _ = Done r0, H3 : read_u32 _ _ = Done r1 |- _ =>
      apply read_u32_range in H1, H2, H3
  end.
  unfold rmtfs_entry. cbn [num_sector phys_offset sector_addr].
  apply sector_loop_returns; try done; [apply u32_range|]. lia.
Qed.

Lemma entry_loop_returns k i req (st : rmtfs W) is_write h buf :
  rmtfs_ok st -> (h < 10)%nat -> (forall j, i <= j < i + Z.of_nat k -> exists e, read_entry req j = Done e) ->
  zlen buf = SECTOR_SIZE -> bytes_ok buf ->
  returns (entry_loop k i req st is_write (Some h) buf) (fun '(st', _) => rmtfs_ok st').
Proof.
  revert st i buf. induction k as [|k IH]; intros st i buf Hst Hh He Hl Hb; cbn [entry_loop].
  { by apply returns_done. }
  destruct (He i) as [e Ee]; [lia|]. rewrite Ee. run.
  apply returns_bind. eapply returns_mono; [by eapply rmtfs_entry_returns|].
  intros [[st' buf'] ok] (Hst' & Hl' & Hb'). destruct ok; cbn [negb]; [|by apply returns_done].
  apply IH; try done. intros j Hj. apply He. lia.
Qed.
End Sectors.

(** ** Reading sectors into the shared memory *)

Section Transfer.
Context {W : Type} `{OsWorld W}.

(** The [n] bytes of the window at [at_] are the contents of [r] at [off]. *)
Definition copied (b : list Z) (at_ : Z) (r : rmtfd) (off n : Z) : Prop :=
  forall i, 0 <= i < n -> b !! Z.to_nat (at_ + i) = Some (shadow_byte r (off + i)).

Lemma rmtfs_sector_reads (st : rmtfs W) h r b phys sector buf :
  rmtfs_ok st -> rmtfds (rs_storage st) !! h = Some r -> storage_read_only (rs_storage st) = true ->
  window_holds (rs_w st) (rs_mem st) b -> 0 <= phys < 2 ^ 63 -> 0 <= sector < 2 ^ 62 ->
  in_window (rs_mem st) phys SECTOR_SIZE -> zlen buf = SECTOR_SIZE ->
  exists st' b' buf', rmtfs_sector st false (Some h) phys sector buf = Done (st', buf', SECTOR_SIZE) /\
    zlen buf' = SECTOR_SIZE /\ window_changed st st' b' /\
    let at_ := phys - address (rs_mem st) in
    same_outside at_ (at_ + SECTOR_SIZE) b b' /\ copied b' at_ r sector SECTOR_SIZE.
Proof.
  intros [Hs Hm] Hr Hro Hb Hp Hsec Hin Hl. unfold rmtfs_sector.
  rewrite (storage_pread_shadow _ _ _ r) by (done || unfold SECTOR_SIZE in *; lia). run.
  assert (Hd : drop (Z.to_nat SECTOR_SIZE) buf = []) by (apply drop_ge; unfold zlen in Hl; lia).
  rewrite Hd, app_nil_r. change (0 <=? SECTOR_SIZE) with true. change (SECTOR_SIZE <? SECTOR_SIZE) with false. run.
  set (bs := contents r sector SECTOR_SIZE).
  assert (Hz : zlen bs = SECTOR_SIZE) by (unfold zlen, bs; rewrite length_contents; done).
  destruct (window_write (rs_w st) (rs_mem st) b phys bs) as (w' & m' & b' & E & Ew & Hm' & Hpl & Hh & Hc);
    try first [done | rewrite Hz; done | rewrite Hz; unfold SECTOR_SIZE in *; lia].
  { unfold bs. eapply contents_ok, ok_entry; eauto. }
  cbn [set_w rs_w rs_mem rs_storage]. rewrite Hz in E. rewrite E. run. eexists _, b', bs.
  split; [done|]. split; [done|]. split; [by split|]. cbn zeta. split.
  { rewrite <- Hz. by apply write_same_outside. }
  intros i Hi. rewrite (write_mem_lookup _ _ _ _ _ Ew). unfold zlen in Hz. unfold in_window in Hin.
  rewrite decide_True by lia.
  replace (Z.to_nat _ - Z.to_nat _)%nat with (Z.to_nat i) by lia.
  unfold bs. rewrite contents_lookup by lia. do 2 f_equal. lia.
Qed.

Lemma copied_app b at_ r off n m : 0 <= n ->
  copied b at_ r off n -> copied b (at_ + n) r (off + n) m -> copied b at_ r off (n + m).
Proof.
  intros Hn C1 C2 i Hi. destruct (decide (i < n)); [apply C1; lia|].
  replace (at_ + i) with (at_ + n + (i - n)) by lia. rewrite C2 by lia. do 2 f_equal. lia.
Qed.
Lemma copied_same b b' lo hi at_ r off n :
  same_outside lo hi b b' -> 0 <= at_ -> at_ + n <= lo -> copied b at_ r off n -> copied b' at_ r off n.
Proof. intros [_ Hs] Ha Hlo Hc i Hi. rewrite Hs by lia. by apply Hc. Qed.

Lemma sector_loop_reads k (st : rmtfs W) h r b phys sector off buf :
  rmtfs_ok st -> rmtfds (rs_storage st) !! h = Some r -> storage_read_only (rs_storage st) = true ->
  window_holds (rs_w st) (rs_mem st) b -> 0 <= phys < 2 ^ 32 -> 0 <= sector < 2 ^ 32 -> 0 <= off ->
  off + 512 * Z.of_nat k <= 2 ^ 41 -> in_window (rs_mem st) (phys + off) (512 * Z.of_nat k) ->
  zlen buf = SECTOR_SIZE ->
  exists st' b' buf', sector_loop k st false (Some h) phys sector off buf = Done (st', buf', true) /\
    window_changed st st' b' /\
    let at_ := phys + off - address (rs_mem st) in
    same_outside at_ (at_ + 512 * Z.of_nat k) b b' /\ copied b' at_ r (sector + off) (512 * Z.of_nat k).
Proof.
  revert st b off buf. induction k as [|k IH];
    intros st b off buf Hst Hr Hro Hb Hp Hsec Ho Hk Hin Hl; cbn [sector_loop].
  { exists st, b, buf. split; [done|]. split; [by destruct Hst; split|]. split; [apply same_outside_refl|intros i Hi; lia]. }
  destruct (rmtfs_sector_reads st h r b (phys + off) (sector + off) buf)
    as (st1 & b1 & buf1 & E & Hl1 & Hc1 & Hsame & Hcop); try done; try lia.
  { unfold in_window, SECTOR_SIZE in *. lia. }
  rewrite E. run. rewrite Z.eqb_refl. cbn [negb]. pose proof Hc1 as [W1 W2 W3 W4 W5]. pose proof W3 as [A1 A2 _].
  destruct (IH st1 b1 (off + SECTOR_SIZE) buf1) as (st2 & b2 & buf2 & E2 & Hc2 & Hsame2 & Hcop2);
    rewrite ?W1; try done; try (unfold SECTOR_SIZE; lia).
  { split; [rewrite W1; apply Hst|done]. }
  { apply (same_place_window _ _ _ _ W3). unfold in_window, SECTOR_SIZE in *. lia. }
  exists st2, b2, buf2. split; [exact E2|]. split; [by eapply window_changed_trans|]. rewrite A1 in *. cbn zeta in *. unfold SECTOR_SIZE in *.
  split.
  - eapply same_outside_trans; (eapply same_outside_wider; [eassumption|lia|lia]).
  - replace (512 * Z.of_nat (S k)) with (512 + 512 * Z.of_nat k) by lia. unfold in_window in Hin.
    apply copied_app; [lia| |].
    + eapply copied_same; [exact Hsame2|lia|lia|exact Hcop].
    + replace (phys + off - _ + 512) with (phys + (off + 512) - address (rs_mem st)) by lia.
      replace (sector + off + 512) with (sector + (off + 512)) by lia. exact Hcop2.
Qed.
End Transfer.
