(* ===== verification/RmtfsProps.v ===== *)
(** * The remote file system service: properties *)
From Stdlib Require Import String.
From S2P Require Import Prelude CString Hash Qrtr Qmi RmtfsMsgs QmiProps Os World Storage StorageFacts StorageProps SharedMem SharedMemProps Rmtfs RmtfsWorld RmtfsFacts.
#[local] Open Scope Z_scope.

(** ** The requests that are served *)

Definition request_table (id : Z) : option (Z * list qmi_elem_info) :=
  if id =? QMI_RMTFS_OPEN then Some (sizeof_open_req, rmtfs_open_req_ei)
  else if id =? QMI_RMTFS_CLOSE then Some (sizeof_close_req, rmtfs_close_req_ei)
  else if id =? QMI_RMTFS_RW_IOVEC then Some (sizeof_iovec_req, rmtfs_iovec_req_ei)
  else if id =? QMI_RMTFS_ALLOC_BUFF then Some (sizeof_alloc_buf_req, rmtfs_alloc_buf_req_ei)
  else if id =? QMI_RMTFS_GET_DEV_ERROR then Some (sizeof_dev_error_req, rmtfs_dev_error_req_ei)
  else None.

(** The decoded requests the handlers cope with: the path is terminated; caller ids
    are below [2 ^ 31]; transfers have at most 255 entries and do not write for an
    unknown caller (unless the storage is read only); the error of an entry is
    asked for an entry that exists. *)
Inductive serves {W} (st : rmtfs W) (node : Z) (req : list Z) : Z -> Prop :=
  | serves_open p : read_cstr req 4 = Done p -> serves st node req QMI_RMTFS_OPEN
  | serves_close c : read_u32 req 0 = Done c -> c < 2 ^ 31 -> serves st node req QMI_RMTFS_CLOSE
  | serves_alloc n : read_u32 req 4 = Done n -> serves st node req QMI_RMTFS_ALLOC_BUFF
  | serves_dev_error c h : read_u32 req 0 = Done c -> c < 2 ^ 31 ->
      storage_get (rs_storage st) node c = Done (Some h) -> serves st node req QMI_RMTFS_GET_DEV_ERROR
  | serves_iovec c d n : read_u32 req 0 = Done c -> c < 2 ^ 31 -> read_u8 req 4 = Done d ->
      read_u64 req 8 = Done n -> n <= 255 ->
      (forall j, 0 <= j < n -> exists e, read_entry req j = Done e) ->
      (d = 0 \/ storage_read_only (rs_storage st) = true \/
       exists h, storage_get (rs_storage st) node c = Done (Some h)) ->
      serves st node req QMI_RMTFS_RW_IOVEC.

Section Handlers.
Context {W : Type} `{OsWorld W}.
Implicit Types st : rmtfs W.

(** The descriptors stay accounted for, and the window is the same device. *)
Record accounted st st' : Prop := {
  acc_held F x : held F x (rs_w st) (rs_storage st) -> held F x (rs_w st') (rs_storage st');
  acc_mem : mem_fd (rs_mem st') = mem_fd (rs_mem st) }.
#[export] Instance accounted_preorder : PreOrder accounted.
Proof. split; [by split|]. intros st1 st2 st3 [A1 A2] [B1 B2]. split; [eauto|congruence]. Qed.
Lemma undisturbed_accounted st st' : undisturbed st st' -> accounted st st'.
Proof. intros [U1 U2 U3]. split; [|done]. intros F x. by apply held_calm. Qed.
Lemma sent_accounted st pkt bs : accounted st (sent st pkt bs).
Proof.
  split; [|done]. intros F x [K1 K2 K3 K4]. cbn [sent set_w rs_w rs_storage].
  destruct (ow_sendto_rest (rs_w st) (qp_node pkt) (qp_port pkt) bs) as (S1 & S2 & _).
  split; [intros g; by rewrite S1|done|done|congruence].
Qed.

(** What the theorem below promises of a handler: it returns and has sent its reply and
    nothing else. *)
Definition replied st (o : outcome (rmtfs W)) (pkt : qrtr_packet) (id txn ret : Z) : Prop :=
  exists st1 wire, o = Done (sent st1 pkt (message id txn wire)) /\ rmtfs_ok st1 /\
    ow_sent (rs_w st1) = ow_sent (rs_w st) /\ accounted st st1 /\
    (ret < 0 -> wire = result_wire (failed QMI_RMTFS_ERR_MALFORMED_MSG)).

Lemma replied_value st st1 pkt stk k r txn ret : stack_ok stk -> rmtfs_ok st1 ->
  ow_sent (rs_w st1) = ow_sent (rs_w st) -> accounted st st1 ->
  (ret < 0 -> r = resp_failed QMI_RMTFS_ERR_MALFORMED_MSG) ->
  replied st (respond st1 pkt stk (resp_id k) (Some txn) (resp_bytes k r) (resp_table k)) pkt (resp_id k) txn ret.
Proof.
  intros [Hr _] Hst Hs Ha Hm. rewrite respond_value by done. exists st1, (resp_wire k r). split_and!; try done.
  intros Hret. by rewrite Hm.
Qed.
Lemma replied_result st st1 pkt stk id txn r ei ret : stack_ok stk -> rmtfs_ok st1 ->
  ow_sent (rs_w st1) = ow_sent (rs_w st) -> accounted st st1 ->
  (ret < 0 -> r = failed QMI_RMTFS_ERR_MALFORMED_MSG) -> ei = [EI_RESULT; EI_END] ->
  replied st (respond st1 pkt stk id (Some txn) (result_bytes r) ei) pkt id txn ret.
Proof.
  intros [Hr _] Hst Hs Ha Hm He. rewrite respond_result by done. exists st1, (result_wire r). split_and!; try done.
  intros Hret. by rewrite Hm.
Qed.

Lemma read_u64_range m off c : read_u64 m off = Done c -> 0 <= c.
Proof. unfold read_u64. intros Hc. inv_done. subst. unfold u64. apply Z.mod_pos_bound. lia. Qed.

Lemma s32_caller m off c : read_u32 m off = Done c -> c < 2 ^ 31 -> s32 c = c /\ 0 <= c.
Proof. intros Hc%read_u32_range Hlt. split; [apply s32_small; lia|lia]. Qed.

Lemma open_replies st pkt tail stk req ret txn :
  decode_req pkt tail sizeof_open_req QMI_RMTFS_OPEN rmtfs_open_req_ei = Done (req, ret, Some txn) ->
  rmtfs_ok st -> stack_ok stk -> (0 <= ret -> serves st (qp_node pkt) req QMI_RMTFS_OPEN) ->
  replied st (rmtfs_open st pkt tail stk) pkt QMI_RMTFS_OPEN txn ret.
Proof.
  intros Hdec Hst Hstk Hsv. unfold rmtfs_open. rewrite Hdec. run.
  destruct (ret <? 0) eqn:Er; reflect_bools; run; [by apply (replied_value st st _ _ OpenResp)|].
  specialize (Hsv Er). inversion Hsv as [p Hp| | | |]. rewrite Hp. run.
  destruct (storage_open_cases (rs_w st) (rs_storage st) (qp_node pkt) p (ok_storage _ Hst))
    as ([[w s] o] & E & Ho). rewrite E. run. apply storage_open_world in E as (Es & _ & Eh).
  assert (Ha : accounted st (RmtfsState w s (rs_mem st))) by by split.
  destruct o as [h|]; run.
  - destruct Ho as (part & _ & Hs & [(r & Hr & _) _]). unfold storage_get_caller_id.
    rewrite (rmtfd_deref_some _ _ _ Hr). run. apply (replied_value st _ _ _ OpenResp); try done; [|lia].
    split; [done|apply (ok_mem _ Hst)].
  - subst s. apply (replied_value st _ _ _ OpenResp); try done; [|lia]. by destruct Hst.
Qed.

Lemma close_replies st pkt tail stk req ret txn :
  decode_req pkt tail sizeof_close_req QMI_RMTFS_CLOSE rmtfs_close_req_ei = Done (req, ret, Some txn) ->
  rmtfs_ok st -> stack_ok stk -> (0 <= ret -> serves st (qp_node pkt) req QMI_RMTFS_CLOSE) ->
  replied st (rmtfs_close st pkt tail stk) pkt QMI_RMTFS_CLOSE txn ret.
Proof.
  intros Hdec Hst Hstk Hsv. unfold rmtfs_close. rewrite Hdec. run.
  destruct (ret <? 0) eqn:Er; reflect_bools; run; [by apply (replied_result st)|].
  specialize (Hsv Er). inversion Hsv as [|c Hc Hlt| | |]. rewrite Hc. run.
  destruct (s32_caller _ _ _ Hc Hlt) as [-> Hc0].
  destruct (storage_get_spec _ (qp_node pkt) c (ok_storage _ Hst) Hc0) as (o & -> & Ho). run.
  destruct o as [h|]; run; [|apply (replied_result st); try done; lia]. destruct (Ho h eq_refl) as (_ & r & Hr & _).
  destruct (storage_close_spec (rs_w st) _ _ _ (ok_storage _ Hst) Hr) as ([w s] & E & Hs & _). rewrite E. run.
  apply (storage_close_world _ _ _ _ _ (ok_storage _ Hst)) in E as [Es Eh].
  apply (replied_result st); try done; [|lia]. split; [done|apply (ok_mem _ Hst)].
Qed.

Lemma alloc_replies st pkt tail stk req ret txn :
  decode_req pkt tail sizeof_alloc_buf_req QMI_RMTFS_ALLOC_BUFF rmtfs_alloc_buf_req_ei = Done (req, ret, Some txn) ->
  rmtfs_ok st -> stack_ok stk -> (0 <= ret -> serves st (qp_node pkt) req QMI_RMTFS_ALLOC_BUFF) ->
  replied st (rmtfs_alloc_buf st pkt tail stk) pkt QMI_RMTFS_ALLOC_BUFF txn ret.
Proof.
  intros Hdec Hst Hstk Hsv. unfold rmtfs_alloc_buf. rewrite Hdec. run.
  destruct (ret <? 0) eqn:Er; reflect_bools; run; [by apply (replied_value st st _ _ AllocBufResp)|].
  specialize (Hsv Er). inversion Hsv as [| |n Hn| |]. rewrite Hn. run.
  apply (replied_value st _ _ _ AllocBufResp); try done. lia.
Qed.

Lemma dev_error_replies st pkt tail stk req ret txn :
  decode_req pkt tail sizeof_dev_error_req QMI_RMTFS_GET_DEV_ERROR rmtfs_dev_error_req_ei = Done (req, ret, Some txn) ->
  rmtfs_ok st -> stack_ok stk -> (0 <= ret -> serves st (qp_node pkt) req QMI_RMTFS_GET_DEV_ERROR) ->
  replied st (rmtfs_get_dev_error st pkt tail stk) pkt QMI_RMTFS_GET_DEV_ERROR txn ret.
Proof.
  intros Hdec Hst Hstk Hsv. unfold rmtfs_get_dev_error. rewrite Hdec. run.
  destruct (ret <? 0) eqn:Er; reflect_bools; run; [by apply (replied_value st st _ _ DevErrorResp)|].
  specialize (Hsv Er). inversion Hsv as [| | |c h Hc Hlt Hg|]. rewrite Hc. run.
  destruct (s32_caller _ _ _ Hc Hlt) as [-> Hc0]. rewrite Hg. run.
  apply (replied_value st _ _ _ DevErrorResp); try done. lia.
Qed.

(** The transfers of a request, and the synchronisation behind them. *)
Lemma iovec_replies st pkt tail stk req ret txn :
  decode_req pkt tail sizeof_iovec_req QMI_RMTFS_RW_IOVEC rmtfs_iovec_req_ei = Done (req, ret, Some txn) ->
  rmtfs_ok st -> stack_ok stk -> 0 <= ret -> serves st (qp_node pkt) req QMI_RMTFS_RW_IOVEC ->
  replied st (rmtfs_iovec st pkt tail stk) pkt QMI_RMTFS_RW_IOVEC txn ret.
Proof.
  intros Hdec Hst Hstk Hret Hsv. unfold rmtfs_iovec. rewrite Hdec. run.
  rewrite (proj2 (Z.ltb_ge _ _)) by done. inversion Hsv as [| | | |c d n Hc Hlt Hd Hn Hmax He Hw].
  rewrite Hc, Hd, Hn. run. destruct (s32_caller _ _ _ Hc Hlt) as [-> Hc0]. apply read_u64_range in Hn.
  destruct (storage_get_spec _ (qp_node pkt) c (ok_storage _ Hst) Hc0) as (o & Eg & _). rewrite Eg. run.
  destruct o as [h|]; run.
  - pose proof (storage_get_handle _ _ _ _ (ok_storage _ Hst) Eg) as Hh. destruct (ok_buf _ Hstk) as [Hb1 Hb2].
    destruct (entry_loop_returns (Z.to_nat n) 0 req st (negb (d =? 0)) h (stk_buf stk)) as ([st1 ok] & E & Hst1);
      try done; [intros; apply He; lia|]. rewrite E. run. apply entries_world in E.
    destruct (negb (d =? 0)); run.
    + destruct (valid_handle _ _ (ok_storage _ Hst1) Hh) as [r Hr].
      destruct (storage_sync_returns (rs_w st1) _ _ _ Hr) as (w' & rc & Es). rewrite Es. run. apply sync_world in Es as [Es _].
      assert (U : undisturbed st (set_w st1 w')) by (etrans; [exact E|by split]).
      apply (replied_result st); try done; [by destruct Hst1|apply U|by apply undisturbed_accounted|lia].
    + apply (replied_result st); try done; [apply E|by apply undisturbed_accounted|lia].
  - destruct Hw as [->|[Hro|[h Hh]]]; [|  |by rewrite Eg in Hh].
    + cbn [Z.eqb negb]. run. apply (replied_result st); try done; lia.
    + destruct (negb (d =? 0)); run; [|apply (replied_result st); try done; lia].
      unfold storage_sync. rewrite Hro. run. apply (replied_result st); try done; [by destruct Hst|lia].
Qed.
Lemma dispatch_replied st id pkt tail stk size ei req ret txn :
  request_table id = Some (size, ei) -> decode_req pkt tail size id ei = Done (req, ret, Some txn) ->
  rmtfs_ok st -> stack_ok stk ->
  (ret < 0 -> id <> QMI_RMTFS_RW_IOVEC) -> (0 <= ret -> serves st (qp_node pkt) req id) ->
  replied st (rmtfs_dispatch st id pkt tail stk) pkt id txn ret.
Proof.
  unfold request_table, rmtfs_dispatch. intros Ht Hdec Hst Hstk Hmal Hsv.
  destruct (id =? QMI_RMTFS_OPEN) eqn:E1; reflect_bools.
  { injection Ht as <- <-. subst. by eapply open_replies. }
  destruct (id =? QMI_RMTFS_CLOSE) eqn:E2; reflect_bools.
  { injection Ht as <- <-. subst. by eapply close_replies. }
  destruct (id =? QMI_RMTFS_RW_IOVEC) eqn:E3; reflect_bools.
  { injection Ht as <- <-. subst. destruct (decide (ret < 0)); [by destruct Hmal|].
    assert (0 <= ret) by lia. by eapply iovec_replies; eauto. }
  destruct (id =? QMI_RMTFS_ALLOC_BUFF) eqn:E4; reflect_bools.
  { injection Ht as <- <-. subst. by eapply alloc_replies. }
  destruct (id =? QMI_RMTFS_GET_DEV_ERROR) eqn:E5; reflect_bools; [|done].
  injection Ht as <- <-. subst. by eapply dev_error_replies.
Qed.
End Handlers.

(** ** Properties *)

(** C8: every request that decodes to one of [serves], and every malformed one other than a
    transfer, is answered with exactly one message: the messages sent afterwards are those
    sent before and one to the sender, which carries the id and the transaction of the
    request, and for a malformed request just the result that says so.  The handler returns
    and keeps the invariants of the storage and of the shared memory. *)
Theorem rmtfs_dispatch_replies {W : Type} `{OsWorld W} (st : rmtfs W) id pkt tail stk size ei req ret txn :
  request_table id = Some (size, ei) -> decode_req pkt tail size id ei = Done (req, ret, Some txn) ->
  rmtfs_ok st -> stack_ok stk ->
  (ret < 0 -> id <> QMI_RMTFS_RW_IOVEC) -> (0 <= ret -> serves st (qp_node pkt) req id) ->
  exists st' wire, rmtfs_dispatch st id pkt tail stk = Done st' /\ rmtfs_ok st' /\
    ow_sent (rs_w st') = ow_sent (rs_w st) ++ [(qp_node pkt, qp_port pkt, message id txn wire)] /\
    (ret < 0 -> wire = result_wire (failed QMI_RMTFS_ERR_MALFORMED_MSG)).
Proof.
  intros Ht Hdec Hst Hstk Hmal Hsv.
  destruct (dispatch_replied st id pkt tail stk size ei req ret txn) as (st1 & wire & -> & Hst1 & Hs & _ & Hw); try done.
  eexists _, wire. split; [done|]. split; [by destruct Hst1|]. split; [|done].
  cbn [sent set_w rs_w]. by rewrite ow_sendto_sent, Hs.
Qed.

(** C12: reading an entry of a transfer from a read-only storage copies the sectors of the
    partition into the window, be this mapped or, as on the device, reached through its
    descriptor: afterwards the [num_sector] sectors of memory from [phys_offset] on are the
    contents of the partition at [sector_addr * 512] modulo [2 ^ 32], zeros behind its end,
    and no other byte of the window, nothing of the storage and no descriptor has changed. *)
Theorem rmtfs_entry_reads {W : Type} `{OsWorld W} (st : rmtfs W) h r b e buf :
  rmtfs_ok st -> rmtfds (rs_storage st) !! h = Some r -> storage_read_only (rs_storage st) = true ->
  window_holds (rs_w st) (rs_mem st) b -> 0 <= phys_offset e < 2 ^ 32 -> 0 <= num_sector e < 2 ^ 32 ->
  in_window (rs_mem st) (phys_offset e) (512 * num_sector e) -> zlen buf = SECTOR_SIZE ->
  exists st' b' buf', rmtfs_entry st false (Some h) e buf = Done (st', buf', true) /\ window_changed st st' b' /\
    let at_ := phys_offset e - address (rs_mem st) in
    same_outside at_ (at_ + 512 * num_sector e) b b' /\
    forall i, 0 <= i < 512 * num_sector e ->
      b' !! Z.to_nat (at_ + i) = Some (shadow_byte r ((sector_addr e * SECTOR_SIZE) mod 2 ^ 32 + i)).
Proof.
  intros Hst Hr Hro Eb Hp Hn Hin Hl. unfold rmtfs_entry.
  destruct (sector_loop_reads (Z.to_nat (num_sector e)) st h r b (phys_offset e) (u32 (sector_addr e * SECTOR_SIZE)) 0 buf)
    as (st' & b' & buf' & E & Hc & Hsame & Hcop); try done.
  - apply u32_range.
  - lia.
  - rewrite Z.add_0_r, Z2Nat.id by lia. done.
  - rewrite E. exists st', b', buf'. split; [done|]. split; [done|]. rewrite !Z.add_0_r, Z2Nat.id in * by lia. by split.
Qed.

(** The test of the entry is inverted: a request for the error of an entry of
    the sender is refused, and one for any other entry dereferences the null
    pointer. *)
Theorem rmtfs_get_dev_error_inverted {W : Type} `{OsLaws W} (st : rmtfs W) pkt tail stk req ret txn c :
  decode_req pkt tail sizeof_dev_error_req QMI_RMTFS_GET_DEV_ERROR rmtfs_dev_error_req_ei = Done (req, ret, Some txn) ->
  0 <= ret -> stack_ok stk -> rmtfs_ok st -> read_u32 req 0 = Done c -> c < 2 ^ 31 ->
  (exists h, storage_get (rs_storage st) (qp_node pkt) c = Done (Some h) /\
     rmtfs_get_dev_error st pkt tail stk =
       Done (sent st pkt (message QMI_RMTFS_GET_DEV_ERROR txn (result_wire (failed QMI_RMTFS_ERR_INTERNAL))))) \/
  (storage_get (rs_storage st) (qp_node pkt) c = Done None /\
     rmtfs_get_dev_error st pkt tail stk = Fault NullPointer).
Proof.
  intros Hdec Hret Hstk Hst Hc Hlt. unfold rmtfs_get_dev_error. rewrite Hdec. run.
  rewrite (proj2 (Z.ltb_ge _ _)) by done. rewrite Hc. run. destruct (s32_caller _ _ _ Hc Hlt) as [-> Hc0].
  destruct (storage_get_spec _ (qp_node pkt) c (ok_storage _ Hst) Hc0) as (o & E & _). rewrite E. run.
  destruct o as [h|]; [left|by right]. exists h. split; [done|].
  exact (respond_value st pkt stk DevErrorResp _ txn (ok_resp _ Hstk)).
Qed.

(** A transfer request that cannot be decoded makes the handler test an
    uninitialised variable, and one that writes for an unknown caller makes it
    synchronise a null pointer, unless the storage is read only. *)
Theorem rmtfs_iovec_faults {W : Type} `{OsLaws W} (st : rmtfs W) pkt tail stk req ret txn :
  decode_req pkt tail sizeof_iovec_req QMI_RMTFS_RW_IOVEC rmtfs_iovec_req_ei = Done (req, ret, txn) ->
  (ret < 0 -> rmtfs_iovec st pkt tail stk = Fault Uninitialised) /\
  (forall c d n, 0 <= ret -> read_u32 req 0 = Done c -> read_u8 req 4 = Done d -> read_u64 req 8 = Done n ->
     storage_get (rs_storage st) (qp_node pkt) (s32 c) = Done None -> d <> 0 ->
     storage_read_only (rs_storage st) = false ->
     rmtfs_iovec st pkt tail stk = Fault NullPointer).
Proof.
  intros Hdec. unfold rmtfs_iovec. rewrite Hdec. run. split.
  - intros Hret. rewrite (proj2 (Z.ltb_lt _ _)) by done. done.
  - intros c d n Hret Hc Hd Hn Hg Hw Hro. rewrite (proj2 (Z.ltb_ge _ _)) by done.
    rewrite Hc, Hd, Hn. run. rewrite Hg. run. rewrite (proj2 (Z.eqb_neq _ _)) by done. cbn [negb]. run.
    unfold storage_sync. rewrite Hro. done.
Qed.

(** ** Witnesses

    A system with the files of two partitions and, behind descriptor 3, the device of the
    window, which is not mapped; node 5 has opened the first partition. *)

Definition window_bytes : list Z := map (fun i => Z.of_nat i mod 251) (seq 0 1024).
Definition demo_box : box :=
  Box [(cstr "/data/modem_fs1", [1; 2; 3; 4]); (cstr "/data/modem_fs2", [5; 6]); (cstr "window", window_bytes)]
    [None; None; None; Some 2%nat] [] [].
Definition demo_mem : rmtfs_mem := RmtfsMem 0x1000 1024 None 3.
Definition demo_state (ro : bool) : rmtfs box :=
  match storage_open demo_box (demo_storage ro) 5 (cstr "/boot/modem_fs1") with
  | Done (w, s, _) => RmtfsState w s demo_mem
  | _ => RmtfsState demo_box (demo_storage ro) demo_mem
  end.
Definition demo_stack : stack := Stack (replicate 256 0) (replicate 512 0) (QrtrPacket 0 0 0 0 0 0 []).
Definition demo_pkt (bs : list Z) : qrtr_packet := QrtrPacket QRTR_TYPE_DATA 5 1 0 0 0 bs.
Definition dev_error_msg (caller : Z) : list Z :=
  header_bytes QMI_REQUEST 9 QMI_RMTFS_GET_DEV_ERROR 7 ++ [1; 4; 0] ++ le_bytes 4 caller.

Lemma demo_window_ok : mem_ok demo_mem.
Proof. by split. Qed.
Lemma demo_window w : bx_fds w !! 3%nat = Some (Some 2%nat) -> bx_files w !! 2%nat = Some (cstr "window", window_bytes) ->
  window_holds w demo_mem window_bytes.
Proof.
  intros K1 K2.
  assert (Hb : bytes_ok window_bytes) by (apply (bool_decide_unpack _); by vm_compute).
  assert (Hs : bx_slot w 3 = Some 2%nat) by (change (default None (bx_fds w !! 3%nat) = Some 2%nat); by rewrite K1).
  split; [|done|done]. change (bx_file w 3 = Some window_bytes /\ is_Some (bx_slot w 3)). unfold bx_file.
  rewrite Hs. split; [|by eexists]. cbn [mbind option_bind]. rewrite K2. vm_compute. reflexivity.
Qed.
Lemma rmtfs_demo_ok ro : rmtfs_ok (demo_state ro).
Proof.
  unfold demo_state.
  destruct (storage_open_cases demo_box (demo_storage ro) 5 (cstr "/boot/modem_fs1"))
    as ([[w s] o] & E & Ho); [apply storage_init_ok|].
  rewrite E. split; [|exact demo_window_ok]. cbn [rs_storage]. destruct o; [by destruct Ho as (? & _ & ? & _)|].
  subst. apply storage_init_ok.
Qed.
Lemma demo_stack_ok : stack_ok demo_stack.
Proof. split; [done|]. split; [done|]. apply bytes_ok_replicate. unfold byte_ok; lia. Qed.
Definition demo_rmtfd (ro : bool) : rmtfd :=
  if ro then Rmtfd 0 5 (-1) 0 (Some 0%nat) (Some [1; 2; 3; 4]) 4 else Rmtfd 0 5 4 0 (Some 0%nat) None 0.
Lemma demo_state_entry ro : rmtfds (rs_storage (demo_state ro)) !! 0%nat = Some (demo_rmtfd ro).
Proof. destruct ro; vm_compute; reflexivity. Qed.
Lemma demo_get ro c : 0 <= c < 10 ->
  storage_get (rs_storage (demo_state ro)) 5 c = Done (if c =? 0 then Some 0%nat else None).
Proof.
  intros Hc. assert (E : c = 0 \/ c = 1 \/ c = 2 \/ c = 3 \/ c = 4 \/ c = 5 \/ c = 6 \/ c = 7 \/ c = 8 \/ c = 9) by lia.
  destruct ro; destruct_or? E; subst c; vm_compute; reflexivity.
Qed.
Lemma demo_state_window ro : window_holds (rs_w (demo_state ro)) (rs_mem (demo_state ro)) window_bytes.
Proof.
  assert (E : rs_mem (demo_state ro) = demo_mem) by (destruct ro; vm_compute; reflexivity).
  rewrite E. apply demo_window; destruct ro; vm_compute; reflexivity.
Qed.
#[local] Opaque demo_state.

Lemma rmtfs_dispatch_replies_witness :
  exists st' wire,
    rmtfs_dispatch (demo_state true) QMI_RMTFS_GET_DEV_ERROR (demo_pkt (dev_error_msg 0)) [] demo_stack = Done st' /\
    rmtfs_ok st' /\
    ow_sent (rs_w st') = ow_sent (rs_w (demo_state true)) ++ [(5, 1, message QMI_RMTFS_GET_DEV_ERROR 9 wire)] /\
    (7 < 0 -> wire = result_wire (failed QMI_RMTFS_ERR_MALFORMED_MSG)).
Proof.
  apply (rmtfs_dispatch_replies (demo_state true) QMI_RMTFS_GET_DEV_ERROR (demo_pkt (dev_error_msg 0)) [] demo_stack
    sizeof_dev_error_req rmtfs_dev_error_req_ei [0; 0; 0; 0] 7 9).
  - reflexivity.
  - vm_compute. reflexivity.
  - apply rmtfs_demo_ok.
  - apply demo_stack_ok.
  - lia.
  - intros _. apply (serves_dev_error _ _ _ 0 0%nat); [vm_compute; reflexivity|lia|].
    exact (demo_get true 0 ltac:(lia)).
Defined.

Lemma rmtfs_get_dev_error_inverted_witness :
  (exists h, storage_get (rs_storage (demo_state false)) 5 3 = Done (Some h) /\
     rmtfs_get_dev_error (demo_state false) (demo_pkt (dev_error_msg 3)) [] demo_stack =
       Done (sent (demo_state false) (demo_pkt (dev_error_msg 3))
         (message QMI_RMTFS_GET_DEV_ERROR 9 (result_wire (failed QMI_RMTFS_ERR_INTERNAL))))) \/
  (storage_get (rs_storage (demo_state false)) 5 3 = Done None /\
     rmtfs_get_dev_error (demo_state false) (demo_pkt (dev_error_msg 3)) [] demo_stack = Fault NullPointer).
Proof.
  apply (rmtfs_get_dev_error_inverted (demo_state false) (demo_pkt (dev_error_msg 3)) [] demo_stack
    [3; 0; 0; 0] 7 9 3).
  - vm_compute. reflexivity.
  - lia.
  - apply demo_stack_ok.
  - apply rmtfs_demo_ok.
  - vm_compute. reflexivity.
  - lia.
Defined.

(** A transfer request whose message id the decoder refuses. *)
Lemma rmtfs_iovec_faults_witness :
  let pkt := demo_pkt (header_bytes QMI_REQUEST 9 QMI_RMTFS_CLOSE 0) in
  rmtfs_iovec (demo_state false) pkt [] demo_stack = Fault Uninitialised.
Proof.
  intros pkt.
  assert (Hdec : decode_req pkt [] sizeof_iovec_req QMI_RMTFS_RW_IOVEC rmtfs_iovec_req_ei =
    Done (replicate 3080 0, - EINVAL, None)) by (vm_compute; reflexivity).
  apply (rmtfs_iovec_faults (demo_state false) pkt [] demo_stack _ _ _ Hdec). reflexivity.
Defined.

(** A request whose header says that it is a response: decoding fails before the transaction is read, which the
    reply of the handler then takes from the stack. *)
Example respond_uninitialised :
  rmtfs_dispatch (demo_state true) QMI_RMTFS_OPEN (demo_pkt (header_bytes QMI_RESPONSE 9 QMI_RMTFS_OPEN 0)) [] demo_stack =
    Fault Uninitialised.
Proof. vm_compute. reflexivity. Qed.

Lemma rmtfs_entry_reads_witness :
  exists st' b' buf', rmtfs_entry (demo_state true) false (Some 0%nat) (IovecEntry 0 0x1200 1) (replicate 512 0) =
      Done (st', buf', true) /\ window_changed (demo_state true) st' b' /\
    same_outside 512 1024 window_bytes b' /\
    forall i, 0 <= i < 512 -> b' !! Z.to_nat (512 + i) = Some (shadow_byte (demo_rmtfd true) (0 + i)).
Proof.
  apply (rmtfs_entry_reads (demo_state true) 0 (demo_rmtfd true) window_bytes (IovecEntry 0 0x1200 1) (replicate 512 0)).
  - apply rmtfs_demo_ok.
  - apply demo_state_entry.
  - vm_compute. reflexivity.
  - apply demo_state_window.
  - cbn. lia.
  - cbn. lia.
  - vm_compute. by split.
  - reflexivity.
Defined.
