(* ===== verification/RmtfsWrite.v ===== *)
(** * Writing sectors from the shared memory, and what reading them gives back *)
From Stdlib Require Import String.
From S2P Require Import Prelude CString Qrtr Qmi RmtfsMsgs Os World Storage StorageFacts StorageProps SharedMem SharedMemProps Rmtfs RmtfsWorld RmtfsFacts.
#[local] Open Scope Z_scope.

Section Writes.
Context {W : Type} `{OsWorld W}.

(** The bytes of an entry outside a range are those they were; only the gap between the
    old end and the range is not determined. *)
Definition kept (r r' : rmtfd) (off n : Z) : Prop :=
  forall k, 0 <= k -> k < off \/ off + n <= k -> k < shadow_len r \/ off <= k -> shadow_byte r' k = shadow_byte r k.
(** Entry [h] of [s'] holds [n] bytes of the mapping, nothing else of [s] has changed. *)
Definition sectors_stored (b : list Z) (at_ : Z) (s s' : storage) (h : nat) (r : rmtfd) (off n : Z) : Prop :=
  exists r', rmtfds s' = <[h := r']> (rmtfds s) /\ node r' = node r /\ rpart r' = rpart r /\
    shadow_len r <= shadow_len r' /\ off + n <= shadow_len r' /\ copied b at_ r' off n /\ kept r r' off n.
(** Memory for the copies is never short. *)
Definition memory_lasts : Prop := forall (w : W) old new, (os_realloc w old new).2 <> None.

Lemma storage_pwrite_lasts w s h r bs off w' s' n : memory_lasts ->
  rmtfds s !! h = Some r -> storage_read_only s = true -> 0 <= off -> 0 < zlen bs -> off + zlen bs < STORAGE_MAX_SIZE ->
  storage_pwrite w s (Some h) bs off = Done (w', s', n) -> n = zlen bs.
Proof.
  intros Hm Hr Hro Ho Hb Hmax. assert (STORAGE_MAX_SIZE < 2 ^ 63) by done. unfold storage_pwrite. run.
  rewrite (rmtfd_at_some _ _ _ Hr), Hro. run. cbn [negb]. rewrite u64_small, (proj2 (Z.leb_gt _ _)) by lia. unfold grow_shadow.
  destruct (_ <? _).
  - specialize (Hm w (zlen (default [] (shadow_buf r))) (off + zlen bs)). destruct (os_realloc _ _ _) as [w1 [fresh|]]; [|done].
    cbn [set_shadow shadow_buf]. run. intros E. by inv_done.
  - intros E. by inv_done.
Qed.

Lemma copied_wrote b at_ r r' bs off : read_mem b at_ (zlen bs) = Done bs -> 0 <= off -> 0 <= at_ ->
  wrote r r' bs off -> copied b at_ r' off (zlen bs) /\ kept r r' off (zlen bs).
Proof.
  intros Hread Ho Ha Hw. split.
  - intros i Hi. destruct (Hw (off + i) ltac:(lia)) as [Hin _]. replace (off + i - off) with i in Hin by lia.
    rewrite <- Hin by lia. rewrite <- (Z2Nat.id i) at 1 by lia. rewrite Z2Nat.inj_add, Z2Nat.id by lia.
    rewrite (read_mem_lookup b at_ (zlen bs) bs (Z.to_nat i) Hread) by lia. done.
  - intros k Hk Hout Hgap. exact (proj2 (Hw k Hk) Hout Hgap).
Qed.

Lemma rmtfs_sector_writes (st : rmtfs W) h r b phys sector buf :
  rmtfs_ok st -> rmtfds (rs_storage st) !! h = Some r -> storage_read_only (rs_storage st) = true ->
  window_holds (rs_w st) (rs_mem st) b -> 0 <= phys < 2 ^ 63 -> 0 <= sector < 2 ^ 62 ->
  in_window (rs_mem st) phys SECTOR_SIZE -> zlen buf = SECTOR_SIZE ->
  exists w' s' buf' n, rmtfs_sector st true (Some h) phys sector buf = Done (RmtfsState w' s' (rs_mem st), buf', n) /\
    steady (rs_w st) w' /\ zlen buf' = SECTOR_SIZE /\ storage_ok s' /\ storage_read_only s' = true /\
    (memory_lasts -> sector + SECTOR_SIZE < STORAGE_MAX_SIZE -> n = SECTOR_SIZE) /\
    (n = -1 /\ s' = rs_storage st \/
     n = SECTOR_SIZE /\ sector + SECTOR_SIZE < STORAGE_MAX_SIZE /\
     sectors_stored b (phys - address (rs_mem st)) (rs_storage st) s' h r sector SECTOR_SIZE).
Proof.
  intros [Hs Hm] Hr Hro Eb Hp Hsec Hin Hl. assert (Hz : 0 < SECTOR_SIZE < 1000) by done.
  pose proof Eb as [_ Hlen Hbok]. pose proof Hin as [Hin1 Hin2].
  destruct (read_mem_ok b (phys - address (rs_mem st)) SECTOR_SIZE) as [bs Ebs]; [lia..|].
  pose proof (read_mem_length _ _ _ _ Ebs) as Lbs. pose proof (read_mem_bytes _ _ _ _ Hbok Ebs) as Bbs.
  rewrite <- Hl in Hin, Ebs. destruct (window_read _ _ _ phys buf bs Hm Eb Hin Hp ltac:(lia) Ebs) as (w1 & E1 & S1).
  unfold rmtfs_sector. rewrite Hl in E1, Ebs. rewrite E1. run. rewrite Z.eqb_refl. cbn [set_w rs_w rs_mem rs_storage].
  rewrite <- Lbs, (read_mem_all bs) by done. run.
  destruct (storage_pwrite_shadow w1 (rs_storage st) h r bs sector) as ([[w' s'] n] & E & Hcases); try done; try lia.
  rewrite E. run. rewrite <- Lbs in Ebs. exists w', s', bs, n. split; [done|]. split.
  { etrans; [exact S1|]. by apply (storage_pwrite_world _ _ _ _ _ _ _ _ E). }
  split; [done|].
  assert (Hlast : memory_lasts -> sector + zlen bs < STORAGE_MAX_SIZE -> n = zlen bs).
  { intros Hlast Hmax. eapply (storage_pwrite_lasts w1 (rs_storage st) h r bs sector); eauto; lia. }
  destruct Hcases as [(-> & ->)|(-> & Hmax & Hs' & Hro' & r' & Hfds & Hn & Hpt & Hlen' & Hw)].
  - split_and!; try done. by left.
  - split_and!; try done. right. split_and!; [done|done|].
    destruct (copied_wrote b (phys - address (rs_mem st)) r r' bs sector Ebs) as [Hc Hk]; [lia..|exact Hw|].
    exists r'. split_and!; try done; lia.
Qed.

Lemma stored_next b at_ s s1 s2 h r off n m : rmtfds s !! h = Some r -> 0 <= off -> 0 <= n -> 0 <= m ->
  sectors_stored b at_ s s1 h r off n ->
  (forall r1, rmtfds s1 !! h = Some r1 -> sectors_stored b (at_ + n) s1 s2 h r1 (off + n) m) ->
  sectors_stored b at_ s s2 h r off (n + m).
Proof.
  intros Hr Ho Hn Hm (r1 & E1 & N1 & P1 & L1 & M1 & C1 & K1) H2.
  destruct (H2 r1) as (r2 & E2 & N2 & P2 & L2 & M2 & C2 & K2).
  { rewrite E1. apply list_lookup_insert_eq. by eapply lookup_lt_Some. }
  exists r2. split; [by rewrite E2, E1, list_insert_insert_eq|]. split_and!; try congruence; try lia.
  - apply copied_app; [done| |done]. intros i Hi. rewrite C1 by done. f_equal. symmetry. apply K2; lia.
  - intros k Hk Hout Hgap. rewrite K2 by lia. apply K1; lia.
Qed.

Lemma sector_loop_writes k (st : rmtfs W) h r b phys sector off buf :
  rmtfs_ok st -> rmtfds (rs_storage st) !! h = Some r -> storage_read_only (rs_storage st) = true ->
  window_holds (rs_w st) (rs_mem st) b -> 0 <= phys < 2 ^ 32 -> 0 <= sector < 2 ^ 32 -> 0 <= off ->
  off + 512 * Z.of_nat k <= 2 ^ 41 -> in_window (rs_mem st) (phys + off) (512 * Z.of_nat k) ->
  zlen buf = SECTOR_SIZE ->
  exists w' s' buf' ok, sector_loop k st true (Some h) phys sector off buf = Done (RmtfsState w' s' (rs_mem st), buf', ok) /\
    steady (rs_w st) w' /\ zlen buf' = SECTOR_SIZE /\ storage_ok s' /\ storage_read_only s' = true /\
    (memory_lasts -> sector + off + 512 * Z.of_nat k < STORAGE_MAX_SIZE -> ok = true) /\
    (ok = true -> (0 < k)%nat -> sector + off + 512 * Z.of_nat k < STORAGE_MAX_SIZE /\
       sectors_stored b (phys + off - address (rs_mem st)) (rs_storage st) s' h r (sector + off) (512 * Z.of_nat k)).
Proof.
  revert st r off buf. induction k as [|k IH]; intros st r off buf Hst Hr Hro Eb Hp Hsec Ho Hk Hin Hl; cbn [sector_loop].
  { exists (rs_w st), (rs_storage st), buf, true. destruct Hst, st. split_and!; try done. lia. }
  destruct (rmtfs_sector_writes st h r b (phys + off) (sector + off) buf)
    as (w1 & s1 & buf1 & n & E & S1 & Hl1 & Hs1 & Hro1 & Hlast & Hcases); try done; try lia.
  { unfold in_window, SECTOR_SIZE in *. lia. }
  rewrite E. run. unfold SECTOR_SIZE in *.
  destruct Hcases as [[-> ->]|(-> & Hmax & Hst1)].
  { exists w1, (rs_storage st), buf1, false. split_and!; try done. intros Hm Hx. specialize (Hlast Hm ltac:(lia)). lia. }
  rewrite Z.eqb_refl. cbn [negb]. pose proof Hst1 as (r1 & E1 & _).
  assert (Hr1 : rmtfds s1 !! h = Some r1) by (rewrite E1; apply list_lookup_insert_eq; by eapply lookup_lt_Some).
  destruct (IH (RmtfsState w1 s1 (rs_mem st)) r1 (off + 512) buf1) as (w2 & s2 & buf2 & ok & E2 & S2 & Hl2 & Hs2 & Hro2 & Hl2' & Hok);
    try done; try lia.
  { split; [done|]. by destruct Hst. }
  { eapply window_keeps; [by apply steady_keeps|done]. }
  { unfold in_window in *. cbn. lia. }
  exists w2, s2, buf2, ok. split; [exact E2|]. split; [by etrans|]. split_and!; try done; [intros Hm Hx; apply Hl2'; [done|lia]|].
  intros -> _. destruct (decide (k = 0%nat)) as [->|Hne].
  { cbn [sector_loop] in E2. injection E2 as <- <- <-. split; [lia|exact Hst1]. }
  destruct (Hok eq_refl ltac:(lia)) as [Hmax2 Hst2]. split; [lia|]. cbn [rs_mem rs_storage] in *.
  replace (512 * Z.of_nat (S k)) with (512 + 512 * Z.of_nat k) by lia.
  apply (stored_next _ _ _ s1); try done; try lia. intros r1' Hr1'. assert (r1' = r1) as -> by congruence.
  replace (phys + off - _ + 512) with (phys + (off + 512) - address (rs_mem st)) by lia.
  replace (sector + off + 512) with (sector + (off + 512)) by lia. exact Hst2.
Qed.
End Writes.
