(* ===== verification/RmtfsWriteProps.v ===== *)
(** * What a modem writes it reads back: entries of transfers and whole messages *)
From Stdlib Require Import String.
From S2P Require Import Prelude CString Hash Qrtr Qmi QmiFacts RmtfsMsgs QmiProps Os World Storage StorageFacts StorageProps SharedMem SharedMemProps Rmtfs RmtfsWorld RmtfsFacts RmtfsProps RmtfsWrite.
#[local] Open Scope Z_scope.

(** ** The request of a transfer *)

Definition iovec_bytes (e : rmtfs_iovec_entry) : list Z :=
  le_bytes 4 (sector_addr e) ++ le_bytes 4 (phys_offset e) ++ le_bytes 4 (num_sector e).
(** The message of a modem with one entry, and the structure it is decoded to. *)
Definition iovec_msg (txn caller : Z) (is_write : bool) (e : rmtfs_iovec_entry) (force : Z) : list Z :=
  header_bytes QMI_REQUEST txn QMI_RMTFS_RW_IOVEC 31 ++ [1; 4; 0] ++ le_bytes 4 caller ++ [2; 1; 0; bool_byte is_write] ++
  [3; 13; 0; 1] ++ iovec_bytes e ++ [4; 1; 0; force].
Definition iovec_request (caller : Z) (is_write : bool) (e : rmtfs_iovec_entry) (force : Z) : list Z :=
  le_bytes 4 caller ++ [bool_byte is_write; 0; 0; 0] ++ le_bytes 8 1 ++ iovec_bytes e ++ replicate 3048 0 ++ [force; 0; 0; 0].
Record entry_ok (e : rmtfs_iovec_entry) : Prop := {
  eo_sector : 0 <= sector_addr e < 2 ^ 32; eo_phys : 0 <= phys_offset e < 2 ^ 32; eo_num : 0 <= num_sector e < 2 ^ 32 }.

(** A transfer of a client: the message, its sender, and what memory holds where the
    service receives and handles it. *)
Record transfer := Transfer {
  tr_txn : Z; tr_entry : rmtfs_iovec_entry; tr_force : Z; tr_from : sockaddr_qrtr; tr_stale : list Z; tr_stack : stack }.
Record transfer_ok (m : rmtfs_mem) (r : rmtfd) (t : transfer) : Prop := {
  to_txn : 0 <= tr_txn t < 2 ^ 16;
  to_entry : entry_ok (tr_entry t);
  to_window : in_window m (phys_offset (tr_entry t)) (512 * num_sector (tr_entry t));
  to_node : sq_node (tr_from t) = node r;
  to_port : sq_port (tr_from t) <> QRTR_PORT_CTRL;
  to_stale : length (tr_stale t) = 4058%nat;
  to_stack : stack_ok (tr_stack t) }.

Lemma txn_bytes txn : 0 <= txn < 2 ^ 16 -> exists x y, le_bytes 2 txn = [x; y] /\ le_value [x; y] = txn.
Proof. intros Ht. eexists _, _. split; [reflexivity|]. by apply (le_value_bytes2 txn). Qed.

(** The buffer of the service holds the message of 38 bytes and, up to 4096, anything. *)
Lemma iovec_decoded txn caller is_write e force tail : length tail = 4058%nat -> 0 <= txn < 2 ^ 16 ->
  qmi_decode_header (iovec_msg txn caller is_write e force ++ tail) 38 = Done (0, Some QMI_RMTFS_RW_IOVEC) /\
  exists ret, 0 <= ret /\
    qmi_decode_message msg_fuel (replicate 3080 0) (iovec_msg txn caller is_write e force ++ tail) 38 QMI_REQUEST
      QMI_RMTFS_RW_IOVEC (Some rmtfs_iovec_req_ei) = Done (iovec_request caller is_write e force, ret, Some txn).
Proof.
  intros (f & ->)%list_explode (x & y & E & Ev)%txn_bytes. destruct e as [a p n].
  unfold iovec_msg, iovec_request, header_bytes, iovec_bytes. cbn [sector_addr phys_offset num_sector].
  rewrite E. name_bytes 4%nat caller. name_bytes 4%nat a. name_bytes 4%nat p. name_bytes 4%nat n. rewrite <- Ev.
  split; [vm_compute; reflexivity|]. eexists. split; [|vm_compute; reflexivity]. lia.
Qed.

Lemma iovec_request_reads caller is_write e force : 0 <= caller < 2 ^ 32 -> entry_ok e ->
  let req := iovec_request caller is_write e force in
  read_u32 req 0 = Done caller /\ read_u8 req 4 = Done (bool_byte is_write) /\ read_u64 req 8 = Done 1 /\
  read_entry req 0 = Done e.
Proof.
  intros Hc [Ha Hp Hn] req. unfold read_entry, read_u32, read_u64, read_u8.
  pose (K := replicate 3048 0 ++ [force; 0; 0; 0]). pose (D := [bool_byte is_write; 0; 0; 0]).
  assert (Hreq : req = le_bytes 4 caller ++ D ++ le_bytes 8 1 ++ le_bytes 4 (sector_addr e) ++ le_bytes 4 (phys_offset e) ++
    le_bytes 4 (num_sector e) ++ K).
  { unfold req, iovec_request, iovec_bytes, K, D. by rewrite <- !app_assoc. }
  clearbody req K. set (A := le_bytes 4 caller) in *.
  rewrite (read_at req [] A (D ++ le_bytes 8 1 ++ le_bytes 4 (sector_addr e) ++ le_bytes 4 (phys_offset e) ++
    le_bytes 4 (num_sector e) ++ K) 0 4) by done.
  rewrite (read_at req A [bool_byte is_write] ([0; 0; 0] ++ le_bytes 8 1 ++ le_bytes 4 (sector_addr e) ++
    le_bytes 4 (phys_offset e) ++ le_bytes 4 (num_sector e) ++ K) 4 1) by done.
  rewrite (read_at req (A ++ D) (le_bytes 8 1) (le_bytes 4 (sector_addr e) ++ le_bytes 4 (phys_offset e) ++
    le_bytes 4 (num_sector e) ++ K) 8 8) by first [done | rewrite Hreq; by rewrite <- !app_assoc].
  rewrite (read_at req (A ++ D ++ le_bytes 8 1) (le_bytes 4 (sector_addr e)) (le_bytes 4 (phys_offset e) ++
    le_bytes 4 (num_sector e) ++ K) (16 + 12 * 0) 4) by first [done | rewrite Hreq; by rewrite <- !app_assoc].
  rewrite (read_at req (A ++ D ++ le_bytes 8 1 ++ le_bytes 4 (sector_addr e)) (le_bytes 4 (phys_offset e))
    (le_bytes 4 (num_sector e) ++ K) (16 + 12 * 0 + 4) 4) by first [done | rewrite Hreq; by rewrite <- !app_assoc].
  rewrite (read_at req (A ++ D ++ le_bytes 8 1 ++ le_bytes 4 (sector_addr e) ++ le_bytes 4 (phys_offset e))
    (le_bytes 4 (num_sector e)) K (16 + 12 * 0 + 8) 4) by first [done | rewrite Hreq; by rewrite <- !app_assoc].
  run. unfold A. rewrite !le_value_bytes4, !le_value_bytes8, !u32_small, u64_small by lia.
  split_and!; [done|by destruct is_write|done|by destruct e].
Qed.

(** ** A transfer as a message *)

Section Session.
Context {W : Type} `{OsWorld W}.
Implicit Types st : rmtfs W.

(** The state after the reply that a transfer has succeeded. *)
Definition acknowledged (st : rmtfs W) (from : sockaddr_qrtr) (txn : Z) : rmtfs W :=
  set_w st (os_sendto (rs_w st) (sq_node from) (sq_port from) (message QMI_RMTFS_RW_IOVEC txn (result_wire result_zero))).1.

(** The message arrives. *)
Definition transferred (st : rmtfs W) (h : nat) (is_write : bool) (t : transfer) : outcome (rmtfs W * Z) :=
  handle_rmtfs st (inr (iovec_msg (tr_txn t) (Z.of_nat h) is_write (tr_entry t) (tr_force t), tr_from t)) (tr_stale t) (tr_stack t).

Lemma iovec_served st st1 h r is_write t buf1 :
  rmtfs_ok st -> rmtfds (rs_storage st) !! h = Some r -> transfer_ok (rs_mem st) r t ->
  rmtfs_entry st is_write (Some h) (tr_entry t) (stk_buf (tr_stack t)) = Done (st1, buf1, true) ->
  storage_read_only (rs_storage st1) = true ->
  transferred st h is_write t = Done (acknowledged st1 (tr_from t) (tr_txn t), 0).
Proof.
  intros [Hs Hm] Hr [Ht He Hwin Hn Hp Hl [Hk1 Hk2]] Hent Hro.
  destruct t as [txn e force from stale stk]. cbn [tr_txn tr_entry tr_force tr_from tr_stale tr_stack] in *.
  unfold transferred, handle_rmtfs. cbn [tr_txn tr_entry tr_force tr_from tr_stale tr_stack].
  destruct (qrtr_decode_message (stk_pkt stk) (iovec_msg txn (Z.of_nat h) is_write e force) from Hp) as (pkt & -> & Hty & Hd & Hnode & Hport).
  run. rewrite Hty. cbn [Z.ltb Z.compare Z.eqb Pos.eqb QRTR_TYPE_DATA QRTR_TYPE_BYE QRTR_TYPE_DEL_CLIENT]. rewrite Hd.
  destruct (iovec_decoded txn (Z.of_nat h) is_write e force stale Hl Ht) as (Hhdr & ret & Hret & Hdec).
  change (zlen (iovec_msg txn (Z.of_nat h) is_write e force)) with 38. rewrite Hhdr. run.
  cbn [Z.ltb Z.compare of_option]. run.
  unfold rmtfs_dispatch. cbn [Z.eqb Pos.eqb QMI_RMTFS_RW_IOVEC QMI_RMTFS_OPEN QMI_RMTFS_CLOSE].
  unfold rmtfs_iovec, decode_req. rewrite Hd. change (zlen (iovec_msg txn (Z.of_nat h) is_write e force)) with 38.
  change (Z.to_nat sizeof_iovec_req) with 3080%nat. rewrite Hdec. run. rewrite (proj2 (Z.ltb_ge _ _) Hret).
  assert (Hh : (h < 10)%nat) by (rewrite <- (ok_length _ Hs); by eapply lookup_lt_Some).
  destruct (iovec_request_reads (Z.of_nat h) is_write e force ltac:(lia) He) as (-> & -> & -> & Ee). run.
  rewrite s32_small, Hnode, Hn by lia. destruct (storage_get_self _ _ _ Hs Hr) as [-> _]. run.
  change (Z.to_nat 1) with 1%nat. cbn [entry_loop]. rewrite Ee. run.
  replace (negb (bool_byte is_write =? 0)) with is_write by by destruct is_write. rewrite Hent. run. cbn [negb]. run.
  destruct is_write; run; unfold storage_sync; rewrite ?Hro; run;
    (rewrite respond_result by done); run; unfold sent, acknowledged; rewrite Hnode, Hport, Hn; by destruct st1.
Qed.

(** What is sent and the window, after a reply. *)
Definition transfer_reply (t : transfer) : Z * Z * list Z :=
  (sq_node (tr_from t), sq_port (tr_from t), message QMI_RMTFS_RW_IOVEC (tr_txn t) (result_wire result_zero)).
Lemma acknowledged_sent st t : ow_sent (rs_w (acknowledged st (tr_from t) (tr_txn t))) = ow_sent (rs_w st) ++ [transfer_reply t].
Proof. apply ow_sendto_sent. Qed.
Lemma sendto_keeps w node port bs m b : window_holds w m b -> window_holds (os_sendto w node port bs).1 m b.
Proof.
  intros [K1 K2 K3]. destruct (ow_sendto_rest w node port bs) as (S1 & _ & S2). split; [|done..].
  destruct (base m); [done|]. rewrite S2, S1. done.
Qed.

Lemma entry_writes st h r b e buf :
  rmtfs_ok st -> rmtfds (rs_storage st) !! h = Some r -> storage_read_only (rs_storage st) = true ->
  window_holds (rs_w st) (rs_mem st) b -> memory_lasts (W := W) -> entry_ok e -> 0 < num_sector e ->
  in_window (rs_mem st) (phys_offset e) (512 * num_sector e) ->
  u32 (sector_addr e * SECTOR_SIZE) + 512 * num_sector e < STORAGE_MAX_SIZE -> zlen buf = SECTOR_SIZE ->
  exists w' s' buf', rmtfs_entry st true (Some h) e buf = Done (RmtfsState w' s' (rs_mem st), buf', true) /\
    steady (rs_w st) w' /\ storage_ok s' /\ storage_read_only s' = true /\
    sectors_stored b (phys_offset e - address (rs_mem st)) (rs_storage st) s' h r (u32 (sector_addr e * SECTOR_SIZE)) (512 * num_sector e).
Proof.
  intros Hst Hr Hro Eb Hm [Ha Hp Hn] Hpos Hin Hmax Hl. unfold rmtfs_entry.
  destruct (sector_loop_writes (Z.to_nat (num_sector e)) st h r b (phys_offset e) (u32 (sector_addr e * SECTOR_SIZE)) 0 buf)
    as (w' & s' & buf' & ok & E & S & _ & Hs' & Hro' & Hlast & Hok); try done; rewrite ?Z2Nat.id, ?Z.add_0_r in * by lia.
  - apply u32_range.
  - lia.
  - done.
  - assert (ok = true) as -> by by apply Hlast. exists w', s', buf'. split_and!; try done. by apply Hok; [|lia].
Qed.

(** A message to write, and one to read what was written. *)
Lemma write_served st h r b t :
  rmtfs_ok st -> rmtfds (rs_storage st) !! h = Some r -> storage_read_only (rs_storage st) = true ->
  window_holds (rs_w st) (rs_mem st) b -> memory_lasts (W := W) -> transfer_ok (rs_mem st) r t -> 0 < num_sector (tr_entry t) ->
  let off := u32 (sector_addr (tr_entry t) * SECTOR_SIZE) in let n := 512 * num_sector (tr_entry t) in
  off + n < STORAGE_MAX_SIZE ->
  exists st', transferred st h true t = Done (st', 0) /\ ow_sent (rs_w st') = ow_sent (rs_w st) ++ [transfer_reply t] /\
    rmtfs_ok st' /\ storage_read_only (rs_storage st') = true /\ rs_mem st' = rs_mem st /\
    window_holds (rs_w st') (rs_mem st') b /\
    sectors_stored b (phys_offset (tr_entry t) - address (rs_mem st)) (rs_storage st) (rs_storage st') h r off n.
Proof.
  intros Hst Hr Hro Eb Hm Ht Hpos off n Hmax. pose proof Ht as [_ He Hw _ _ _ [_ [Hb _]]].
  destruct (entry_writes st h r b (tr_entry t) (stk_buf (tr_stack t))) as (w1 & s1 & buf1 & E & S & Hs & Hro1 & Hst1); try done.
  exists (acknowledged (RmtfsState w1 s1 (rs_mem st)) (tr_from t) (tr_txn t)). split; [by eapply iovec_served|].
  split_and!; try done.
  - rewrite acknowledged_sent. cbn [rs_w]. by rewrite (calm_sent _ _ (steady_calm _ _ S)).
  - split; [done|apply (ok_mem _ Hst)].
  - apply sendto_keeps. eapply window_keeps; [by apply steady_keeps|done].
Qed.
Lemma read_served st h r b t :
  rmtfs_ok st -> rmtfds (rs_storage st) !! h = Some r -> storage_read_only (rs_storage st) = true ->
  window_holds (rs_w st) (rs_mem st) b -> transfer_ok (rs_mem st) r t ->
  let off := u32 (sector_addr (tr_entry t) * SECTOR_SIZE) in let n := 512 * num_sector (tr_entry t) in
  let at_ := phys_offset (tr_entry t) - address (rs_mem st) in
  exists st' b', transferred st h false t = Done (st', 0) /\ ow_sent (rs_w st') = ow_sent (rs_w st) ++ [transfer_reply t] /\
    rmtfs_ok st' /\ rs_storage st' = rs_storage st /\ same_place (rs_mem st) (rs_mem st') /\
    window_holds (rs_w st') (rs_mem st') b' /\ same_outside at_ (at_ + n) b b' /\
    forall i, 0 <= i < n -> b' !! Z.to_nat (at_ + i) = Some (shadow_byte r (off + i)).
Proof.
  intros Hst Hr Hro Eb Ht off n at_. pose proof Ht as [_ He Hw _ _ _ [_ [Hb _]]].
  destruct (sector_loop_reads (Z.to_nat (num_sector (tr_entry t))) st h r b (phys_offset (tr_entry t)) off 0 (stk_buf (tr_stack t)))
    as (st1 & b' & buf' & E & [C1 C2 C3 C4 C5] & Hsame & Hcop); try done; try apply He; try apply u32_range; [destruct He; lia|..].
  { rewrite Z.add_0_r, Z2Nat.id by apply He. exact Hw. }
  rewrite !Z.add_0_r, Z2Nat.id in * by apply He. exists (acknowledged st1 (tr_from t) (tr_txn t)), b'.
  split; [by eapply (iovec_served st st1); [..|exact E|rewrite C1]|]. split_and!; try done.
  - rewrite acknowledged_sent. by rewrite (calm_sent _ _ C5).
  - split; [cbn [acknowledged set_w rs_storage]; rewrite C1; by destruct Hst|done].
  - by apply sendto_keeps.
Qed.
End Session.

(** ** Property *)

(** What a modem writes it reads back.  A client sends the service a message to write an
    entry of its partition and later one, from any port of its node, to read the same sectors
    to any place of the window.  Both are answered, with success and their own
    transaction, and nothing else is sent; the first changes just these sectors of the copy,
    the second just the place asked for, which afterwards holds what was written.  The storage is
    read only, memory lasts, and the sectors, at their address modulo [2 ^ 32], end below the
    largest size of a copy. *)
Theorem rmtfs_reads_back {W : Type} `{OsWorld W} (st : rmtfs W) h r b t1 t2 :
  let m := rs_mem st in
  let off := u32 (sector_addr (tr_entry t1) * SECTOR_SIZE) in let n := 512 * num_sector (tr_entry t1) in
  let at1 := phys_offset (tr_entry t1) - address m in let at2 := phys_offset (tr_entry t2) - address m in
  rmtfs_ok st -> rmtfds (rs_storage st) !! h = Some r -> storage_read_only (rs_storage st) = true ->
  window_holds (rs_w st) m b -> memory_lasts (W := W) -> transfer_ok m r t1 -> transfer_ok m r t2 ->
  sector_addr (tr_entry t2) = sector_addr (tr_entry t1) -> num_sector (tr_entry t2) = num_sector (tr_entry t1) ->
  0 < n -> off + n < STORAGE_MAX_SIZE ->
  exists st1 st2 b2,
    transferred st h true t1 = Done (st1, 0) /\ transferred st1 h false t2 = Done (st2, 0) /\
    ow_sent (rs_w st2) = ow_sent (rs_w st) ++ [transfer_reply t1; transfer_reply t2] /\
    sectors_stored b at1 (rs_storage st) (rs_storage st1) h r off n /\ rs_storage st2 = rs_storage st1 /\
    same_place m (rs_mem st2) /\ window_holds (rs_w st2) (rs_mem st2) b2 /\ same_outside at2 (at2 + n) b b2 /\
    forall i, 0 <= i < n -> b2 !! Z.to_nat (at2 + i) = b !! Z.to_nat (at1 + i).
Proof.
  intros m off n at1 at2 Hst Hr Hro Eb Hm Ht1 Ht2 Ea En Hpos Hmax.
  destruct (write_served st h r b t1) as (st1 & E1 & S1 & Hok1 & Hro1 & Em & Eb1 & Hst1); try done; [unfold n in Hpos; lia|].
  pose proof Hst1 as (r1 & Er1 & Hn1 & _ & _ & _ & Hc1 & _).
  assert (Hr1 : rmtfds (rs_storage st1) !! h = Some r1) by (rewrite Er1; apply list_lookup_insert_eq; by eapply lookup_lt_Some).
  destruct (read_served st1 h r1 b t2) as (st2 & b2 & E2 & S2 & _ & Es2 & Hp2 & Eb2 & Hsame & Hcop); try done.
  { rewrite Em. destruct Ht2. split; try done. by rewrite Hn1. }
  rewrite Ea, En, Em in *. fold off n m at2 in Hsame, Hcop. exists st1, st2, b2. split_and!; try done.
  - by rewrite S2, S1, <- app_assoc.
  - intros i Hi. rewrite Hcop by done. symmetry. apply Hc1. done.
Qed.

(** ** Witness *)

(** The first sector of the window is written and read back to the second. *)
Definition window_transfer (txn phys : Z) : transfer :=
  Transfer txn (IovecEntry 8 phys 1) 0 (SockaddrQrtr AF_QIPCRTR 5 txn) (replicate 4058 0xee) demo_stack.

Lemma window_transfer_ok txn phys : 0 <= txn < 2 ^ 16 -> 0x1000 <= phys <= 0x1200 ->
  transfer_ok demo_mem (demo_rmtfd true) (window_transfer txn phys).
Proof.
  intros Ht Hp. split; cbn [window_transfer tr_txn tr_entry tr_from tr_stale tr_stack sq_node sq_port]; try done.
  - split; cbn; lia.
  - unfold in_window. cbn. lia.
  - unfold QRTR_PORT_CTRL. lia.
  - exact demo_stack_ok.
Qed.
Lemma box_memory_lasts : memory_lasts (W := box).
Proof. intros w old new. discriminate. Qed.
