(* ===== verification/RmtfsSession.v ===== *)
(** * A session of a modem with the remote file system service

    It opens a partition, writes sectors of it and reads them back, each with a message. *)
From Stdlib Require Import String.
From S2P Require Import Prelude CString Hash Qrtr Qmi QmiFacts RmtfsMsgs QmiProps Os World Storage StorageFacts StorageProps SharedMem SharedMemProps Rmtfs RmtfsWorld RmtfsFacts RmtfsProps RmtfsWrite RmtfsWriteProps.
#[local] Open Scope Z_scope.

(** ** The request to open a partition *)

Definition open_msg (txn : Z) (p : list Z) : list Z :=
  header_bytes QMI_REQUEST txn QMI_RMTFS_OPEN (3 + zlen p) ++ [1; zlen p; 0] ++ p.
Record opening := Opening {
  op_txn : Z; op_path : list Z; op_from : sockaddr_qrtr; op_stale : list Z; op_stack : stack }.
Record opening_ok (o : opening) : Prop := {
  oo_txn : 0 <= op_txn o < 2 ^ 16;
  oo_path : is_Some (find_part (op_path o));
  oo_port : sq_port (op_from o) <> QRTR_PORT_CTRL;
  oo_stale : (length (open_msg (op_txn o) (op_path o)) + length (op_stale o) = 4096)%nat;
  oo_stack : stack_ok (op_stack o) }.

Lemma known_path p : is_Some (find_part p) -> p ∈ map path partition_table.
Proof. intros [part (t & Ht & <-)%find_part_some]. apply list_elem_of_fmap_2. by eapply list_elem_of_lookup_2. Qed.

(** The paths of the table are decoded; behind the message the buffer holds anything. *)
Lemma open_decoded txn p tail : p ∈ map path partition_table -> 0 <= txn < 2 ^ 16 ->
  (length (open_msg txn p) + length tail = 4096)%nat ->
  let len := zlen (open_msg txn p) in
  qmi_decode_header (open_msg txn p ++ tail) len = Done (0, Some QMI_RMTFS_OPEN) /\
  exists req ret, 0 <= ret /\ read_cstr req 4 = Done p /\
    qmi_decode_message msg_fuel (replicate 260 0) (open_msg txn p ++ tail) len QMI_REQUEST QMI_RMTFS_OPEN
      (Some rmtfs_open_req_ei) = Done (req, ret, Some txn).
Proof.
  intros Hp Ht Hl len. subst len. revert Ht Hl. unfold open_msg, header_bytes. cbn [partition_table map path] in Hp.
  intros (x & y & E & Ev)%txn_bytes. rewrite E, <- Ev. clear E Ev.
  rewrite !elem_of_cons, elem_of_nil in Hp. destruct_or? Hp; subst p;
    intros Hl; match type of Hl with (?a + length tail = 4096)%nat => let n := eval vm_compute in (4096 - a)%nat in
      assert (Hn : length tail = n) by (cbv in Hl; cbv; lia) end; clear Hl;
    apply list_explode in Hn as [f ->]; (split; [vm_compute; reflexivity|]); do 2 eexists;
    (split; [|split; [|vm_compute; reflexivity]; vm_compute; reflexivity]); lia.
Qed.

(** ** Opening *)

Section Open.
Context {W : Type} `{OsWorld W}.
Implicit Types st : rmtfs W.

(** What is answered when the entry is [h], or none. *)
Definition open_reply (o : opening) (h : option nat) : Z * Z * list Z :=
  (sq_node (op_from o), sq_port (op_from o), message QMI_RMTFS_OPEN (op_txn o) (resp_wire OpenResp
     match h with
     | Some h => Resp result_zero true (Z.of_nat h)
     | None => resp_failed QMI_RMTFS_ERR_INTERNAL
     end)).
Definition opened_by st (o : opening) : outcome (rmtfs W * Z) :=
  handle_rmtfs st (inr (open_msg (op_txn o) (op_path o), op_from o)) (op_stale o) (op_stack o).

Lemma storage_open_mode (w : W) s n p w' s' h : storage_open w s n p = Done (w', s', h) ->
  storage_read_only s' = storage_read_only s.
Proof.
  unfold storage_open. destruct (find_part p); [|by intros [= <- <- <-]].
  destruct (find_open _ _ _); [by intros [= <- <- <-]|]. destruct (find_free s); [|by intros [= <- <- <-]].
  intros (r & _ & (t & _ & ([[w1 r1] ok] & _ & E)%bind_done)%bind_done)%bind_done.
  destruct ok; cbn [negb] in E; by injection E as <- <- <-.
Qed.

(** The window is the same after a partition was opened: its device stays open. *)
Lemma open_keeps_window (w : W) s n p w' s' h m b F x : storage_open w s n p = Done (w', s', h) ->
  held F x w s -> F (mem_fd m) -> window_holds w m b -> window_holds w' m b.
Proof.
  intros (_ & Hd & Hh)%storage_open_world Hheld HF [K1 K2 K3]. split; [|done..]. destruct (base m); [done|].
  destruct K1 as [K1 Ko]. rewrite Hd by done. split; [done|]. apply Hh in Hheld as [L _ _ _]. apply L. by left.
Qed.

Lemma open_served st o b F x : rmtfs_ok st -> opening_ok o ->
  held F x (rs_w st) (rs_storage st) -> F (mem_fd (rs_mem st)) -> window_holds (rs_w st) (rs_mem st) b ->
  exists st' h, opened_by st o = Done (st', 0) /\ rmtfs_ok st' /\
    ow_sent (rs_w st') = ow_sent (rs_w st) ++ [open_reply o h] /\ rs_mem st' = rs_mem st /\
    window_holds (rs_w st') (rs_mem st') b /\
    storage_read_only (rs_storage st') = storage_read_only (rs_storage st) /\
    match h with
    | None => rs_storage st' = rs_storage st
    | Some h => (forall i, i <> h -> rmtfds (rs_storage st') !! i = rmtfds (rs_storage st) !! i) /\
        exists r, rmtfds (rs_storage st') !! h = Some r /\ node r = sq_node (op_from o) /\ rpart r = find_part (op_path o)
    end.
Proof.
  intros Hst [Ht Hp Hport Hlen [Hk _]] Hheld HF Hwin. destruct o as [txn p from stale stk].
  cbn [op_txn op_path op_from op_stale op_stack] in *. unfold opened_by, handle_rmtfs, open_reply.
  cbn [op_txn op_path op_from op_stale op_stack].
  destruct (qrtr_decode_message (stk_pkt stk) (open_msg txn p) from Hport) as (pkt & -> & Hty & Hd & Hnode & Hpo). run.
  rewrite Hty. cbn [Z.ltb Z.compare Z.eqb Pos.eqb QRTR_TYPE_DATA QRTR_TYPE_BYE QRTR_TYPE_DEL_CLIENT]. rewrite Hd.
  destruct (open_decoded txn p stale (known_path p Hp) Ht Hlen) as (Hhdr & req & ret & Hret & Hstr & Hdec).
  rewrite Hhdr. run. cbn [Z.ltb Z.compare of_option]. run.
  unfold rmtfs_dispatch. cbn [Z.eqb Pos.eqb QMI_RMTFS_OPEN]. unfold rmtfs_open, decode_req. rewrite Hd.
  change (Z.to_nat sizeof_open_req) with 260%nat. rewrite Hdec. run. rewrite (proj2 (Z.ltb_ge _ _) Hret), Hstr. run.
  destruct (storage_open_cases (rs_w st) (rs_storage st) (qp_node pkt) p (ok_storage _ Hst)) as ([[w s] h] & E & Ho).
  rewrite E. run. pose proof (storage_open_mode _ _ _ _ _ _ _ E) as Hmode.
  pose proof (open_keeps_window _ _ _ _ _ _ _ _ _ _ _ E Hheld HF Hwin) as Hwin'.
  apply storage_open_world in E as (Es & _). destruct h as [h|]; run.
  - destruct Ho as (part & Hpart & Hs & [(r & Hr & _ & Hn & Hpt) Hother]).
    destruct (storage_get_self s h r Hs Hr) as [_ ->]. run.
    assert (Hh : (h < 10)%nat) by (rewrite <- (ok_length _ Hs); by eapply lookup_lt_Some).
    rewrite u32_small by lia. rewrite (respond_value _ pkt stk OpenResp _ txn Hk). run.
    exists (sent (RmtfsState w s (rs_mem st)) pkt (message QMI_RMTFS_OPEN txn (resp_wire OpenResp (Resp result_zero true (Z.of_nat h))))), (Some h).
    unfold sent. cbn [rs_w set_w rs_mem rs_storage]. rewrite ow_sendto_sent, Es, Hnode, Hpo. split_and!; try done.
    + split; [done|apply (ok_mem _ Hst)].
    + by apply sendto_keeps.
    + exists r. rewrite <- Hnode, Hpart. done.
  - subst s. rewrite (respond_value _ pkt stk OpenResp _ txn Hk). run.
    exists (sent (RmtfsState w (rs_storage st) (rs_mem st)) pkt (message QMI_RMTFS_OPEN txn (resp_wire OpenResp (resp_failed QMI_RMTFS_ERR_INTERNAL)))), None.
    unfold sent. cbn [rs_w set_w rs_mem rs_storage]. rewrite ow_sendto_sent, Es, Hnode, Hpo. split_and!; try done.
    + by destruct Hst.
    + by apply sendto_keeps.
Qed.
End Open.

(** ** Property *)


(** ** Witness *)

(** The state at the start, and a client on node 5. *)
Definition start_state : rmtfs box := RmtfsState demo_box (demo_storage true) demo_mem.
Definition demo_opening : opening :=
  Opening 9 (cstr "/boot/modem_fs1") (SockaddrQrtr AF_QIPCRTR 5 7) (replicate 4071 0xee) demo_stack.
Lemma demo_opening_ok : opening_ok demo_opening.
Proof.
  split; cbn [demo_opening op_txn op_path op_from op_stale op_stack sq_port].
  - lia.
  - vm_compute. by eexists.
  - done.
  - reflexivity.
  - exact demo_stack_ok.
Qed.
Lemma start_state_ok : rmtfs_ok start_state.
Proof. split; [apply storage_init_ok|exact demo_window_ok]. Qed.
Lemma start_state_held : held (fun g => g = 3) [] demo_box (demo_storage true).
Proof.
  pose proof (storage_init_held (W := box) (Some (cstr "/data")) true false demo_box (fun g => g = 3)) as Hh.
  change (ow_stray demo_box) with (@nil Z) in Hh. apply Hh. clear Hh.
  intros g. cbn. unfold bx_slot. destruct (g <? 0) eqn:E; reflect_bools.
  { split; [by intros []|lia]. }
  destruct (decide (g < 4)).
  - assert (g = 0 \/ g = 1 \/ g = 2 \/ g = 3) as [->|[->|[->| ->]]] by lia; cbn; split; (done || by intros []).
  - rewrite lookup_ge_None_2 by (cbn; lia). split; [by intros []|lia].
Qed.

