(* ===== verification/Json.v ===== *)
(** * The JSON reader of the protection domain mapper (pd-mapper/json.c, json.h)

    A recursive descent parser over a buffer and a position, which [input] advances
    and [unput] moves back.  At the end of the buffer [input] returns 0 without
    advancing, but [unput] still moves back. *)
From Stdlib Require Import String.
From S2P Require Import Prelude CString Hash Os.
#[local] Open Scope Z_scope.

(** The value of a [struct json_value]; a string that could not be copied is a null
    pointer. *)
Inductive json :=
  | JTrue | JFalse | JNull
  | JNumber (number : Z)
  | JString (string : option (list Z))
  | JArray (values : list json)
  | JObject (values : list (option (list Z) * json)).

(** The return values 0, -1 and 1. *)
Inductive parsed (A : Type) := NoMatch | Error | Match (a : A).
Arguments NoMatch {A}.
Arguments Error {A}.
Arguments Match {A} _.


(** [strtod] of a decimal integer: the nearest number with 53 significant bits, ties
    to even. *)
Definition round53 (z : Z) : Z :=
  if z <? 2 ^ 53 then z
  else
    let e := Z.log2 z - 52 in
    let q := z / 2 ^ e in
    let r := z mod 2 ^ e in
    let half := 2 ^ (e - 1) in
    (if (half <? r) || ((half =? r) && Z.odd q) then q + 1 else q) * 2 ^ e.
Definition strtod (ds : list Z) : Z := round53 (digits_value ds).

(** [input_pos], and the number of allocations made so far. *)
Record pst := Pst { pos : Z; allocs : nat }.
Definition set_pos (st : pst) (p : Z) : pst := Pst p (allocs st).

Section Parser.
(** [input_buf], whose length is [input_len], and the results of the allocations. *)
Context (buf : list Z) (alloc : nat -> bool).

Definition input (st : pst) : outcome (Z * pst) :=
  if zlen buf <=? pos st then Done (0, st)
  else if pos st <? 0 then Fault OutOfBounds
  else ch ← of_option OutOfBounds (buf !! Z.to_nat (pos st)); Done (ch, set_pos st (pos st + 1)).
Definition unput (st : pst) : pst := set_pos st (pos st - 1).
Definition calloc (st : pst) : bool * pst := (alloc (allocs st), Pst (pos st) (S (allocs st))).

(** The loop reads at most the rest of the buffer and one more. *)
Fixpoint skip_loop (n : nat) (st : pst) : outcome pst :=
  match n with
  | O => OutOfFuel
  | S n' =>
      '(ch, st) ← input st;
      if negb (ch =? 0) && isspace ch then skip_loop n' st else Done st
  end.
Definition json_skip_whitespace (st : pst) : outcome pst :=
  st ← skip_loop (S (Z.to_nat (zlen buf - pos st))) st; Done (unput st).

(** The bytes of a string, for which there is [room], and the character that ended
    the loop; the one that finds no room is lost. *)
Fixpoint string_loop (room : nat) (st : pst) : outcome (list Z * Z * pst) :=
  '(ch, st) ← input st;
  if (ch =? 0) || (ch =? 34) then Done ([], ch, st)
  else match room with
       | O => Done ([], ch, st)
       | S room' => '(s, e, st) ← string_loop room' st; Done (ch :: s, e, st)
       end.
Definition json_parse_string (st : pst) : outcome (parsed (option (list Z)) * pst) :=
  '(ch, st) ← input st;
  if negb (ch =? 34) then Done (NoMatch, unput st)
  else
    '(s, ch, st) ← string_loop 127 st;
    if ch =? 0 then Done (Error, st)
    else let '(ok, st) := calloc st in Done (Match (if ok then Some s else None), st).

Fixpoint number_loop (room : nat) (st : pst) : outcome (list Z * pst) :=
  '(ch, st) ← input st;
  if (ch =? 0) || negb (isdigit ch) then Done ([], st)
  else match room with
       | O => Done ([], st)
       | S room' => '(s, st) ← number_loop room' st; Done (ch :: s, st)
       end.
Definition json_parse_number (st : pst) : outcome (parsed json * pst) :=
  '(s, st) ← number_loop 19 st;
  let st := unput st in
  match s with
  | [] => Done (NoMatch, st)
  | _ => Done (Match (JNumber (strtod s)), st)
  end.

(** [while ( *m && *m++ == ch)]: the pointer moves on also when the characters
    differ; the result is what is left of [match]. *)
Fixpoint keyword_loop (m : list Z) (ch : Z) (st : pst) : outcome (list Z * pst) :=
  match m with
  | [] => Done ([], st)
  | c :: m' => if c =? ch then '(ch, st) ← input st; keyword_loop m' ch st else Done (m', st)
  end.
Definition keyword (ch : Z) : option (list Z * json) :=
  if ch =? 116 then Some (cstr "true", JTrue)
  else if ch =? 102 then Some (cstr "false", JFalse)
  else if ch =? 110 then Some (cstr "null", JNull)
  else None.
Definition json_parse_keyword (st : pst) : outcome (parsed json * pst) :=
  '(ch, st) ← input st;
  match keyword ch with
  | None => Done (NoMatch, unput st)
  | Some (m, v) =>
      '(m, st) ← keyword_loop m ch st;
      Done (match m with [] => Match v | _ => Error end, unput st)
  end.

(** A parser of values, for the recursive calls. *)
Definition parser : Type := pst -> outcome (parsed json * pst).

(** The [do]-loops over the elements of an array and the properties of an object. *)
Fixpoint array_loop (fuel : nat) (parse_value : parser) (st : pst) : outcome (parsed (list json) * pst) :=
  match fuel with
  | O => OutOfFuel
  | S fuel' =>
      let '(ok, st) := calloc st in
      if negb ok then Done (Error, st)
      else
        '(r, st) ← parse_value st;
        match r with
        | Match v =>
            '(ch, st) ← input st;
            if ch =? 93 then Done (Match [v], st)
            else if negb (ch =? 44) then Done (Error, st)
            else
              '(r, st) ← array_loop fuel' parse_value st;
              Done (match r with Match l => Match (v :: l) | _ => Error end, st)
        | _ => Done (Error, st)
        end
  end.
Definition json_parse_array (fuel : nat) (parse_value : parser) : parser := fun st =>
  '(ch, st) ← input st;
  if negb (ch =? 91) then Done (NoMatch, unput st)
  else '(r, st) ← array_loop fuel parse_value st;
       Done (match r with Match l => Match (JArray l) | _ => Error end, st).

Definition json_parse_property (parse_value : parser) (st : pst)
    : outcome (parsed (option (list Z) * json) * pst) :=
  st ← json_skip_whitespace st;
  '(key, st) ← json_parse_string st;
  match key with
  | Match key =>
      st ← json_skip_whitespace st;
      '(ch, st) ← input st;
      if negb (ch =? 58) then Done (Error, st)
      else
        '(r, st) ← parse_value st;
        Done (match r with Match v => Match (key, v) | _ => Error end, st)
  | _ => Done (Error, st)
  end.

Fixpoint object_loop (fuel : nat) (parse_value : parser) (st : pst)
    : outcome (parsed (list (option (list Z) * json)) * pst) :=
  match fuel with
  | O => OutOfFuel
  | S fuel' =>
      let '(ok, st) := calloc st in
      if negb ok then Done (Error, st)
      else
        '(r, st) ← json_parse_property parse_value st;
        match r with
        | Match v =>
            '(ch, st) ← input st;
            if ch =? 125 then Done (Match [v], st)
            else if negb (ch =? 44) then Done (Error, st)
            else
              '(r, st) ← object_loop fuel' parse_value st;
              Done (match r with Match l => Match (v :: l) | _ => Error end, st)
        | _ => Done (Error, st)
        end
  end.
Definition json_parse_object (fuel : nat) (parse_value : parser) : parser := fun st =>
  '(ch, st) ← input st;
  if negb (ch =? 123) then Done (NoMatch, unput st)
  else '(r, st) ← object_loop fuel parse_value st;
       Done (match r with Match l => Match (JObject l) | _ => Error end, st).

(** The alternatives of [json_parse_value], the first that matches or fails. *)
Definition or_else (p q : parser) : parser := fun st =>
  '(r, st) ← p st;
  match r with NoMatch => q st | _ => Done (r, st) end.
Definition parse_string_value : parser := fun st =>
  '(r, st) ← json_parse_string st;
  Done (match r with Match s => Match (JString s) | NoMatch => NoMatch | Error => Error end, st).

Fixpoint json_parse_value (fuel : nat) (st : pst) : outcome (parsed json * pst) :=
  match fuel with
  | O => OutOfFuel
  | S fuel' =>
      st ← json_skip_whitespace st;
      '(r, st) ← or_else (json_parse_object fuel' (json_parse_value fuel'))
                 (or_else (json_parse_array fuel' (json_parse_value fuel'))
                 (or_else parse_string_value (or_else json_parse_number json_parse_keyword))) st;
      match r with
      | NoMatch => Done (Error, st)
      | _ => st ← json_skip_whitespace st; Done (r, st)
      end
  end.

(** The root is allocated first. *)
Definition parse_root (fuel : nat) : outcome (option json) :=
  let '(ok, st) := calloc (Pst 0 0) in
  if negb ok then Done None
  else
    '(r, _) ← json_parse_value fuel st;
    Done (match r with Match v => Some v | _ => None end).
End Parser.

(** [json] is a C string; only the bytes before its terminator are input. *)
Definition json_parse (fuel : nat) (s : list Z) (alloc : nat -> bool) : outcome (option json) :=
  n ← strlen s;
  parse_root (take (Z.to_nat n) s) alloc fuel.

(** [file] is [None] when it cannot be opened; otherwise the size that [fstat] gives
    and what [read] returns. *)
Definition json_parse_file (fuel : nat) (file : option (Z * (Z * list Z))) (alloc : nat -> bool)
    : outcome (option json) :=
  match file with
  | None => Done None
  | Some (size, (n, bs)) =>
      if size <? 0 then Done None
      else if negb (n =? size) then Done None
      else parse_root bs alloc fuel
  end.

(** ** Access to values; a null key is compared by [strcmp] *)

Fixpoint find_key (l : list (option (list Z) * json)) (key : list Z) : outcome (option json) :=
  match l with
  | [] => Done None
  | (k, v) :: l' =>
      k ← of_option NullPointer k;
      if bool_decide (k = key) then Done (Some v) else find_key l' key
  end.
Definition json_get_child (object : option json) (key : list Z) : outcome (option json) :=
  o ← of_option NullPointer object;
  match o with JObject l => find_key l key | _ => Done None end.
Definition json_count_children (array : option json) : Z :=
  match array with Some (JArray l) => zlen l | _ => -1 end.
(** The number that is stored, [None] for -1. *)
Definition json_get_number (object : option json) (key : list Z) : outcome (option Z) :=
  match object with
  | Some (JObject l) =>
      v ← find_key l key; Done (match v with Some (JNumber z) => Some z | _ => None end)
  | _ => Done None
  end.
Definition json_get_string (object : option json) (key : list Z) : outcome (option (list Z)) :=
  match object with
  | Some (JObject l) =>
      v ← find_key l key; Done (match v with Some (JString s) => s | _ => None end)
  | _ => Done None
  end.

Definition always : nat -> bool := fun _ => true.
(** Characters that a string literal cannot hold are written as their codes. *)
Definition quote : list Z := [34].
Definition quoted (s : list Z) : list Z := quote ++ s ++ quote.
Definition parse_bytes (s : list Z) : outcome (option json) := parse_root s always (length s).

Example parse_doc :
  parse_bytes (cstr "{ " ++ quoted (cstr "a") ++ cstr " : [1, 22 ,true] }") =
  Done (Some (JObject [(Some (cstr "a"), JArray [JNumber 1; JNumber 22; JTrue])])).
Proof. vm_compute. reflexivity. Qed.
