(* ===== verification/JsonProps.v ===== *)
(** * The JSON reader: the texts it accepts, and those it does not end on *)
From Stdlib Require Import String.
From S2P Require Import Prelude CString Hash Os Json.
#[local] Open Scope Z_scope.

(** ** The grammar

    [jtext v t]: [t] is a text of the value [v], without white space around it.
    Arrays and objects have at least one element; strings are at most 127 bytes,
    without quotes, numbers at most 19 digits. *)
Definition ws (w : list Z) : Prop := Forall (fun b => isspace b = true) w.
Definition str_ok (s : list Z) : Prop := (length s <= 127)%nat /\ Forall (fun b => b <> 0 /\ b <> 34) s.
Definition digits (ds : list Z) : Prop := Forall (fun b => isdigit b = true) ds /\ (0 < length ds <= 19)%nat.

Inductive jtext : json -> list Z -> Prop :=
  | jt_true : jtext JTrue (cstr "true")
  | jt_false : jtext JFalse (cstr "false")
  | jt_null : jtext JNull (cstr "null")
  | jt_number ds : digits ds -> jtext (JNumber (strtod ds)) ds
  | jt_string s : str_ok s -> jtext (JString (Some s)) (34 :: s ++ [34])
  | jt_array l t : jitems l t -> jtext (JArray l) (91 :: t ++ [93])
  | jt_object l t : jprops l t -> jtext (JObject l) (123 :: t ++ [125])
with jitems : list json -> list Z -> Prop :=
  | ji_one v w1 t w2 : ws w1 -> jtext v t -> ws w2 -> jitems [v] (w1 ++ t ++ w2)
  | ji_cons v w1 t w2 l ts : ws w1 -> jtext v t -> ws w2 -> jitems l ts ->
      jitems (v :: l) (w1 ++ t ++ w2 ++ 44 :: ts)
with jprops : list (option (list Z) * json) -> list Z -> Prop :=
  | jp_one k v t : jprop k v t -> jprops [(Some k, v)] t
  | jp_cons k v t l ts : jprop k v t -> jprops l ts -> jprops ((Some k, v) :: l) (t ++ 44 :: ts)
with jprop : list Z -> json -> list Z -> Prop :=
  | jp_prop k v w1 w2 w3 t w4 : ws w1 -> str_ok k -> ws w2 -> ws w3 -> jtext v t -> ws w4 ->
      jprop k v (w1 ++ 34 :: k ++ 34 :: w2 ++ 58 :: w3 ++ t ++ w4).

Scheme jtext_mind := Minimality for jtext Sort Prop
  with jitems_mind := Minimality for jitems Sort Prop
  with jprops_mind := Minimality for jprops Sort Prop
  with jprop_mind := Minimality for jprop Sort Prop.
Combined Scheme json_ind from jtext_mind, jitems_mind, jprops_mind, jprop_mind.

Section Parse.
Context (buf : list Z) (alloc : nat -> bool).
Hypothesis Halloc : forall n, alloc n = true.
#[local] Abbreviation input := (input buf).
#[local] Abbreviation parse_value := (json_parse_value buf alloc).

(** The input from [st] on is [u]. *)
Record sees (st : pst) (u : list Z) : Prop := {
  sees_pos : 0 <= pos st <= zlen buf;
  sees_rest : drop (Z.to_nat (pos st)) buf = u }.

Definition next (st : pst) : pst := set_pos st (pos st + 1).

Lemma input_sees st c u : sees st (c :: u) -> input st = Done (c, next st) /\ sees (next st) u.
Proof.
  intros [Hp Hr]. assert (Hl : buf !! Z.to_nat (pos st) = Some c).
  { rewrite <- (Nat.add_0_r (Z.to_nat (pos st))), <- lookup_drop, Hr. done. }
  pose proof (lookup_lt_Some _ _ _ Hl). unfold zlen in *. split.
  - unfold Json.input. rewrite (proj2 (Z.leb_gt _ _)), (proj2 (Z.ltb_ge _ _)), Hl by (unfold zlen; lia). done.
  - split; cbn; unfold zlen; [lia|].
    replace (Z.to_nat (pos st + 1)) with (Z.to_nat (pos st) + 1)%nat by lia. rewrite <- drop_drop, Hr. done.
Qed.
Lemma input_end st : sees st [] -> input st = Done (0, st).
Proof.
  intros [Hp Hr]. unfold Json.input. assert (zlen buf <= pos st) as ->%Z.leb_le; [|done].
  unfold zlen in *. apply (f_equal length) in Hr. rewrite length_drop in Hr. cbn in Hr. lia.
Qed.
Lemma unput_next st : unput (next st) = st.
Proof. destruct st as [p n]. unfold unput, next, set_pos. cbn. f_equal. lia. Qed.

(** *** White space *)

Lemma skip_loop_sees n st w c u : sees st (w ++ c :: u) -> ws w -> isspace c = false -> (length w < n)%nat ->
  exists st', skip_loop buf n st = Done (next st') /\ sees st' (c :: u).
Proof.
  revert n st. induction w as [|b w IH]; intros n st Hst Hw Hc Hn; (destruct n as [|n]; [lia|]); cbn [skip_loop app] in *.
  - destruct (input_sees _ _ _ Hst) as [-> _]. run. rewrite Hc, andb_false_r. by exists st.
  - destruct (input_sees _ _ _ Hst) as [-> Hn']. run. inversion Hw as [|? ? Hb Hw']; subst. rewrite Hb.
    destruct (b =? 0) eqn:E; reflect_bools; [subst b; done|]. cbn [negb andb].
    apply IH; try done. cbn in Hn. lia.
Qed.
Lemma skip_sees st w c u : sees st (w ++ c :: u) -> ws w -> isspace c = false ->
  exists st', json_skip_whitespace buf st = Done st' /\ sees st' (c :: u).
Proof.
  intros Hst Hw Hc. unfold json_skip_whitespace.
  destruct (skip_loop_sees (S (Z.to_nat (zlen buf - pos st))) st w c u) as (st' & -> & Hst'); try done.
  { destruct Hst as [Hp Hr]. apply (f_equal length) in Hr. rewrite length_drop, length_app in Hr. cbn in Hr.
    unfold zlen in *. lia. }
  run. rewrite unput_next. by exists st'.
Qed.

(** Positions from which the parser can go on, also at the end. *)
Definition inside (st : pst) : Prop := 0 <= pos st <= zlen buf /\ 0 < zlen buf.

Lemma skip_loop_inside n st : inside st -> zlen buf - pos st < Z.of_nat n ->
  exists st', skip_loop buf n st = Done st' /\ 1 <= pos st' <= zlen buf.
Proof.
  revert st. induction n as [|n IH]; intros st [Hp Hb] Hn; [lia|]. cbn [skip_loop].
  unfold Json.input. destruct (zlen buf <=? pos st) eqn:E; reflect_bools; run.
  - exists st. split; [done|lia].
  - rewrite (proj2 (Z.ltb_ge _ _)) by lia.
    destruct (lookup_lt_is_Some_2 buf (Z.to_nat (pos st))) as [c ->]; [unfold zlen in *; lia|]. run.
    destruct (negb (c =? 0) && isspace c).
    + apply IH; [split; cbn; lia|cbn; lia].
    + eexists. split; [done|]. cbn. lia.
Qed.
Lemma skip_inside st : inside st -> exists st', json_skip_whitespace buf st = Done st' /\ inside st'.
Proof.
  intros Hst. unfold json_skip_whitespace.
  destruct (skip_loop_inside (S (Z.to_nat (zlen buf - pos st))) st Hst) as (st' & -> & Hp); [lia|].
  run. eexists. split; [done|]. destruct Hst. split; cbn; lia.
Qed.

(** *** Scalars *)

Lemma string_loop_sees room st s e u : sees st (s ++ 34 :: u) -> (length s <= room)%nat ->
  Forall (fun b => b <> 0 /\ b <> 34) s -> e = 34 ->
  exists st', string_loop buf room st = Done (s, e, st') /\ sees st' u.
Proof.
  revert room st. induction s as [|b s IH]; intros room st Hst Hl Hs ->; cbn [app] in Hst.
  - destruct (input_sees _ _ _ Hst) as [E Hn]. exists (next st).
    destruct room; cbn [string_loop]; rewrite E; run; done.
  - destruct (input_sees _ _ _ Hst) as [E Hn]. inversion Hs as [|? ? [Hb1 Hb2] Hs']; subst.
    destruct room as [|room]; [cbn in Hl; lia|]. cbn [string_loop]. rewrite E. run.
    rewrite (proj2 (Z.eqb_neq b 0)), (proj2 (Z.eqb_neq b 34)) by done. cbn [orb].
    destruct (IH room (next st) Hn) as (st' & -> & Hst'); [cbn in Hl; lia|done|done|]. run. by exists st'.
Qed.
Lemma parse_string_sees st s u : sees st (34 :: s ++ 34 :: u) -> str_ok s ->
  exists st', json_parse_string buf alloc st = Done (Match (Some s), st') /\ sees st' u.
Proof.
  intros Hst [Hl Hs]. unfold json_parse_string. destruct (input_sees _ _ _ Hst) as [-> Hn]. run.
  cbn [negb Z.eqb Pos.eqb]. destruct (string_loop_sees 127 (next st) s 34 u) as (st' & -> & Hst'); try done.
  run. cbn [Z.eqb Pos.eqb]. unfold calloc. rewrite Halloc. eexists. split; [done|].
  destruct Hst' as [Hp Hr]. by split.
Qed.

(** What may follow a value: the end of the input, white space, or a character that
    is neither part of a number nor white space. *)
Definition ends (u : list Z) : Prop := match u with [] => True | c :: _ => isdigit c = false end.

Lemma number_loop_sees room st ds u : sees st (ds ++ u) -> (length ds <= room)%nat ->
  Forall (fun b => isdigit b = true) ds -> ends u ->
  exists st', number_loop buf room st = Done (ds, st') /\
    (u = [] -> st' = set_pos st' (zlen buf)) /\ (u <> [] -> sees (unput st') u).
Proof.
  revert room st. induction ds as [|b ds IH]; intros room st Hst Hl Hd Hu; cbn [app] in Hst.
  - destruct u as [|c u].
    + exists st. split; [destruct room; cbn [number_loop]; rewrite (input_end _ Hst); done|].
      split; [|done]. intros _. destruct Hst as [Hp Hr]. destruct st as [p n]. unfold set_pos. cbn in *.
      f_equal. apply (f_equal length) in Hr. rewrite length_drop in Hr. cbn in Hr. unfold zlen in *. lia.
    + destruct (input_sees _ _ _ Hst) as [E Hn]. exists (next st). cbn in Hu. split.
      * destruct room; cbn [number_loop]; rewrite E; run; rewrite Hu, orb_true_r; done.
      * split; [done|]. by rewrite unput_next.
  - destruct (input_sees _ _ _ Hst) as [E Hn]. inversion Hd as [|? ? Hb Hd']; subst.
    destruct room as [|room]; [cbn in Hl; lia|]. cbn [number_loop]. rewrite E. run. rewrite Hb.
    destruct (b =? 0) eqn:Eb; reflect_bools; [subst; done|]. cbn [orb negb].
    destruct (IH room (next st) Hn) as (st' & -> & Hst'); [cbn in Hl; lia|done|done|]. run. by exists st'.
Qed.

(** The state behind a value: in front of what follows, if anything does. *)
Definition after (st : pst) (u : list Z) : Prop := inside st /\ (u <> [] -> sees st u).

Lemma sees_inside st c u st' u' : sees st (c :: u) -> sees st' u' -> inside st'.
Proof.
  intros [Hp Hr] [Hp' _]. split; [done|].
  apply (f_equal length) in Hr. rewrite length_drop in Hr. cbn in Hr. unfold zlen in *. lia.
Qed.
Lemma sees_after st c u st' u' : sees st (c :: u) -> sees st' u' -> after st' u'.
Proof. intros H1 H2. split; [by eapply sees_inside|done]. Qed.
Lemma sees_allocs st u n : sees st u -> sees (Pst (pos st) n) u.
Proof. by intros [Hp Hr]. Qed.

Lemma parse_number_sees st ds u : sees st (ds ++ u) -> digits ds -> ends u ->
  exists st', json_parse_number buf st = Done (Match (JNumber (strtod ds)), st') /\ after st' u.
Proof.
  intros Hst [Hd Hl] Hu. unfold json_parse_number.
  destruct (number_loop_sees 19 st ds u) as (st' & -> & He & Hn); try done; [lia|]. run.
  destruct ds as [|d ds]; [cbn in Hl; lia|]. eexists. split; [done|].
  assert (Hb : 0 < zlen buf).
  { destruct Hst as [Hp Hr]. apply (f_equal length) in Hr. rewrite length_drop in Hr. cbn in Hr. unfold zlen in *. lia. }
  split; [|done]. destruct u as [|c u].
  - rewrite He by done. split; cbn; lia.
  - eapply (sees_inside st d); [exact Hst|by apply Hn].
Qed.

(** The rest of a keyword, [ch] being its first character, already read. *)
Lemma keyword_loop_sees m ch st u : sees st (m ++ u) ->
  exists st', keyword_loop buf (ch :: m) ch st = Done ([], st') /\
    (u = [] -> st' = set_pos st' (zlen buf)) /\ (u <> [] -> sees (unput st') u).
Proof.
  revert ch st. induction m as [|c m IH]; intros ch st Hst; cbn [keyword_loop app] in *; rewrite Z.eqb_refl.
  - destruct u as [|c u].
    + rewrite (input_end _ Hst). run. exists st. split; [done|]. split; [|done]. intros _.
      destruct Hst as [Hp Hr]. destruct st as [p n]. unfold set_pos. cbn in *. f_equal.
      apply (f_equal length) in Hr. rewrite length_drop in Hr. cbn in Hr. unfold zlen in *. lia.
    + destruct (input_sees _ _ _ Hst) as [-> Hn]. run. eexists. split; [done|]. split; [done|]. by rewrite unput_next.
  - destruct (input_sees _ _ _ Hst) as [-> Hn]. run. exact (IH c (next st) Hn).
Qed.
Lemma parse_keyword_sees st ch m v u : keyword ch = Some (ch :: m, v) -> sees st (ch :: m ++ u) ->
  exists st', json_parse_keyword buf st = Done (Match v, st') /\ after st' u.
Proof.
  intros Hk Hst. unfold json_parse_keyword. destruct (input_sees _ _ _ Hst) as [-> Hn]. run. rewrite Hk.
  destruct (keyword_loop_sees m ch (next st) u Hn) as (st' & -> & He & Hu). run. eexists. split; [done|].
  assert (Hb : 0 < zlen buf) by (destruct (sees_inside _ _ _ _ _ Hst Hst); done).
  split; [|done]. destruct u as [|c u].
  - rewrite He by done. split; cbn; lia.
  - eapply (sees_inside st); [exact Hst|by apply Hu].
Qed.

(** *** The alternatives that do not match leave the state as it was *)

Lemma object_no f p st c u : sees st (c :: u) -> c <> 123 -> json_parse_object buf alloc f p st = Done (NoMatch, st).
Proof.
  intros Hst Hc. unfold json_parse_object. destruct (input_sees _ _ _ Hst) as [-> _]. run.
  rewrite (proj2 (Z.eqb_neq _ _)) by done. cbn [negb]. by rewrite unput_next.
Qed.
Lemma array_no f p st c u : sees st (c :: u) -> c <> 91 -> json_parse_array buf alloc f p st = Done (NoMatch, st).
Proof.
  intros Hst Hc. unfold json_parse_array. destruct (input_sees _ _ _ Hst) as [-> _]. run.
  rewrite (proj2 (Z.eqb_neq _ _)) by done. cbn [negb]. by rewrite unput_next.
Qed.
Lemma string_no st c u : sees st (c :: u) -> c <> 34 -> parse_string_value buf alloc st = Done (NoMatch, st).
Proof.
  intros Hst Hc. unfold parse_string_value, json_parse_string. destruct (input_sees _ _ _ Hst) as [-> _]. run.
  rewrite (proj2 (Z.eqb_neq _ _)) by done. cbn [negb]. run. by rewrite unput_next.
Qed.
Lemma number_no st c u : sees st (c :: u) -> isdigit c = false -> json_parse_number buf st = Done (NoMatch, st).
Proof.
  intros Hst Hc. unfold json_parse_number. cbn [number_loop]. destruct (input_sees _ _ _ Hst) as [-> _]. run.
  rewrite Hc, orb_true_r. run. by rewrite unput_next.
Qed.

(** The alternatives tried by [json_parse_value], and what it does around them. *)
Definition alternatives (f : nat) : parser :=
  or_else (json_parse_object buf alloc f (parse_value f))
    (or_else (json_parse_array buf alloc f (parse_value f))
      (or_else (parse_string_value buf alloc) (or_else (json_parse_number buf) (json_parse_keyword buf)))).

Definition delimited (u : list Z) : Prop :=
  match u with [] => True | c :: _ => isdigit c = false /\ isspace c = false end.

Lemma parse_value_around f st w1 c rest w2 post v :
  sees st (w1 ++ c :: rest) -> ws w1 -> isspace c = false -> ws w2 -> delimited post ->
  (forall st1, sees st1 (c :: rest) -> exists st2, alternatives f st1 = Done (Match v, st2) /\ after st2 (w2 ++ post)) ->
  exists st', parse_value (S f) st = Done (Match v, st') /\ after st' post.
Proof.
  intros Hst Hw1 Hc Hw2 Hpost Halt. cbn [json_parse_value].
  destruct (skip_sees _ _ _ _ Hst Hw1 Hc) as (st1 & -> & Hst1). run.
  destruct (Halt st1 Hst1) as (st2 & E & Hin & Hst2). fold (alternatives f). rewrite E. run.
  destruct post as [|d post].
  - destruct (skip_inside st2 Hin) as (st3 & -> & Hst3). run. exists st3. split; [done|]. by split.
  - destruct Hpost as [_ Hd]. destruct (skip_sees st2 w2 d post) as (st3 & -> & Hst3); try done.
    { apply Hst2. by destruct w2. }
    run. exists st3. split; [done|]. by eapply sees_after.
Qed.

Lemma ends_after w post : ws w -> delimited post -> ends (w ++ post).
Proof.
  intros Hw Hp. destruct w as [|b w]; cbn.
  - destruct post as [|c post]; [done|]. apply Hp.
  - inversion Hw as [|? ? Hb _]; subst. unfold isspace, isdigit in *. reflect_bools. destruct_or?; reflect_bools;
      apply andb_false_iff; rewrite !Z.leb_gt; lia.
Qed.

Lemma digit_not_space d : isdigit d = true -> isspace d = false /\ d <> 123 /\ d <> 91 /\ d <> 34.
Proof.
  unfold isdigit, isspace. intros Hd. reflect_bools. split; [|lia].
  apply orb_false_iff. split; [apply Z.eqb_neq; lia|]. apply andb_false_iff. rewrite !Z.leb_gt. lia.
Qed.

(** The scalars, as alternatives. *)
Lemma alt_keyword f st ch m v u : keyword ch = Some (ch :: m, v) -> sees st (ch :: m ++ u) ->
  exists st', alternatives f st = Done (Match v, st') /\ after st' u.
Proof.
  intros Hk Hst. assert (Hch : ch = 116 \/ ch = 102 \/ ch = 110).
  { unfold keyword in Hk. destruct (ch =? 116) eqn:E1; reflect_bools; [lia|].
    destruct (ch =? 102) eqn:E2; reflect_bools; [lia|]. destruct (ch =? 110) eqn:E3; reflect_bools; [lia|done]. }
  unfold alternatives, or_else.
  rewrite (object_no _ _ _ _ _ Hst) by lia. run. rewrite (array_no _ _ _ _ _ Hst) by lia. run.
  rewrite (string_no _ _ _ Hst) by lia. run.
  rewrite (number_no _ _ _ Hst) by (destruct_or? Hch; by subst). run.
  by apply (parse_keyword_sees st ch m).
Qed.
Lemma alt_number f st ds u : digits ds -> ends u -> sees st (ds ++ u) ->
  exists st', alternatives f st = Done (Match (JNumber (strtod ds)), st') /\ after st' u.
Proof.
  intros Hd Hu Hst. pose proof Hd as [Hds Hl]. destruct ds as [|d ds]; [cbn in Hl; lia|].
  inversion Hds as [|? ? Hd1 _]; subst. destruct (digit_not_space d Hd1) as (_ & N1 & N2 & N3).
  cbn [app] in Hst. unfold alternatives, or_else.
  rewrite (object_no _ _ _ _ _ Hst) by done. run. rewrite (array_no _ _ _ _ _ Hst) by done. run.
  rewrite (string_no _ _ _ Hst) by done. run.
  destruct (parse_number_sees st (d :: ds) u Hst Hd Hu) as (st' & -> & Ha). run. by exists st'.
Qed.
Lemma alt_string f st s u : str_ok s -> sees st (34 :: s ++ 34 :: u) ->
  exists st', alternatives f st = Done (Match (JString (Some s)), st') /\ after st' u.
Proof.
  intros Hs Hst. unfold alternatives, or_else.
  rewrite (object_no _ _ _ _ _ Hst) by done. run. rewrite (array_no _ _ _ _ _ Hst) by done. run.
  unfold parse_string_value. destruct (parse_string_sees st s u Hst Hs) as (st' & -> & Hst'). run.
  exists st'. split; [done|]. by eapply sees_after.
Qed.

(** *** Arrays and objects *)

Lemma alt_array f st l t u :
  (forall st1, sees st1 (t ++ 93 :: u) ->
     exists st2, array_loop buf alloc f (parse_value f) st1 = Done (Match l, st2) /\ sees st2 u) ->
  sees st (91 :: t ++ 93 :: u) ->
  exists st', alternatives f st = Done (Match (JArray l), st') /\ after st' u.
Proof.
  intros Hloop Hst. unfold alternatives, or_else. rewrite (object_no _ _ _ _ _ Hst) by done. run.
  unfold json_parse_array. destruct (input_sees _ _ _ Hst) as [-> Hn]. run. cbn [negb Z.eqb Pos.eqb].
  destruct (Hloop _ Hn) as (st2 & -> & Hst2). run. exists st2. split; [done|]. by eapply sees_after.
Qed.
Lemma alt_object f st l t u :
  (forall st1, sees st1 (t ++ 125 :: u) ->
     exists st2, object_loop buf alloc f (parse_value f) st1 = Done (Match l, st2) /\ sees st2 u) ->
  sees st (123 :: t ++ 125 :: u) ->
  exists st', alternatives f st = Done (Match (JObject l), st') /\ after st' u.
Proof.
  intros Hloop Hst. unfold alternatives, or_else.
  unfold json_parse_object. destruct (input_sees _ _ _ Hst) as [-> Hn]. run. cbn [negb Z.eqb Pos.eqb].
  destruct (Hloop _ Hn) as (st2 & -> & Hst2). run. exists st2. split; [done|]. by eapply sees_after.
Qed.

(** What the functions do on the texts of the grammar. *)
Definition value_parses (v : json) (t : list Z) : Prop :=
  forall f st w1 w2 post, sees st (w1 ++ t ++ w2 ++ post) -> ws w1 -> ws w2 -> delimited post -> (length t <= f)%nat ->
    exists st', parse_value f st = Done (Match v, st') /\ after st' post.
Definition items_parse (l : list json) (t : list Z) : Prop :=
  forall f n st post, sees st (t ++ 93 :: post) -> (length t <= f)%nat -> (length t <= n)%nat ->
    exists st', array_loop buf alloc n (parse_value f) st = Done (Match l, st') /\ sees st' post.
Definition props_parse (l : list (option (list Z) * json)) (t : list Z) : Prop :=
  forall f n st post, sees st (t ++ 125 :: post) -> (length t <= f)%nat -> (length t <= n)%nat ->
    exists st', object_loop buf alloc n (parse_value f) st = Done (Match l, st') /\ sees st' post.
Definition prop_parses (k : list Z) (v : json) (t : list Z) : Prop :=
  t <> [] /\
  forall f st post, sees st (t ++ post) -> delimited post -> post <> [] -> (length t <= f)%nat ->
    exists st', json_parse_property buf alloc (parse_value f) st = Done (Match (Some k, v), st') /\ sees st' post.

(** A value from one of its alternatives. *)
Lemma value_from_alt v c t :
  isspace c = false ->
  (forall f st u, sees st (c :: t ++ u) -> ends u -> (length t <= f)%nat ->
     exists st', alternatives f st = Done (Match v, st') /\ after st' u) ->
  value_parses v (c :: t).
Proof.
  intros Hc Halt f st w1 w2 post Hst Hw1 Hw2 Hpost Hf. destruct f as [|f]; [cbn in Hf; lia|].
  eapply (parse_value_around f st w1 c (t ++ w2 ++ post) w2 post); try done.
  intros st1 Hst1. apply Halt; [done|by apply ends_after|cbn in Hf; lia].
Qed.

Lemma input_after st c u : after st (c :: u) -> input st = Done (c, next st) /\ sees (next st) u.
Proof. intros [_ H]. by apply input_sees, H. Qed.

Lemma items_one v w1 t w2 : ws w1 -> value_parses v t -> t <> [] -> ws w2 -> items_parse [v] (w1 ++ t ++ w2).
Proof.
  intros Hw1 Hv Ht Hw2 f n st post Hst Hf Hn. rewrite !length_app in *.
  destruct t as [|c t]; [done|]. destruct n as [|n]; [cbn in Hn; lia|]. cbn [array_loop]. unfold calloc.
  rewrite Halloc. cbn [negb].
  destruct (Hv f (Pst (pos st) (S (allocs st))) w1 w2 (93 :: post)) as (st' & -> & Ha); try done.
  { apply sees_allocs. by rewrite <- !app_assoc in Hst. }
  { lia. }
  run. destruct (input_after _ _ _ Ha) as [-> Hs]. run. cbn [Z.eqb Pos.eqb]. by exists (next st').
Qed.
Lemma items_cons v w1 t w2 l ts : ws w1 -> value_parses v t -> t <> [] -> ws w2 -> items_parse l ts ->
  items_parse (v :: l) (w1 ++ t ++ w2 ++ 44 :: ts).
Proof.
  intros Hw1 Hv Ht Hw2 Hl f n st post Hst Hf Hn. rewrite !length_app in *. cbn [length] in *.
  destruct n as [|n]; [lia|]. cbn [array_loop]. unfold calloc. rewrite Halloc. cbn [negb].
  destruct (Hv f (Pst (pos st) (S (allocs st))) w1 w2 (44 :: ts ++ 93 :: post)) as (st' & -> & Ha); try done.
  { apply sees_allocs. by rewrite <- !app_assoc in Hst. }
  { lia. }
  run. destruct (input_after _ _ _ Ha) as [-> Hs]. run. cbn [negb Z.eqb Pos.eqb].
  destruct (Hl f n (next st') post Hs) as (st2 & -> & Hs2); [lia..|]. run. by exists st2.
Qed.

Lemma props_one k v t : prop_parses k v t -> props_parse [(Some k, v)] t.
Proof.
  intros [Ht Hp] f n st post Hst Hf Hn. destruct t as [|c t]; [done|]. destruct n as [|n]; [cbn in Hn; lia|].
  cbn [object_loop]. unfold calloc. rewrite Halloc. cbn [negb].
  destruct (Hp f (Pst (pos st) (S (allocs st))) (125 :: post)) as (st' & -> & Hs); try done.
  { by apply sees_allocs. }
  run.
  destruct (input_sees _ _ _ Hs) as [-> Hn']. run. cbn [Z.eqb Pos.eqb]. by exists (next st').
Qed.
Lemma props_cons k v t l ts : prop_parses k v t -> props_parse l ts ->
  props_parse ((Some k, v) :: l) (t ++ 44 :: ts).
Proof.
  intros [Ht Hp] Hl f n st post Hst Hf Hn. rewrite length_app in *. cbn [length] in *.
  destruct n as [|n]; [lia|]. cbn [object_loop]. unfold calloc. rewrite Halloc. cbn [negb].
  destruct (Hp f (Pst (pos st) (S (allocs st))) (44 :: ts ++ 125 :: post)) as (st' & -> & Hs); try done.
  { apply sees_allocs. by rewrite <- app_assoc in Hst. }
  { lia. }
  run. destruct (input_sees _ _ _ Hs) as [-> Hn']. run. cbn [negb Z.eqb Pos.eqb].
  destruct (Hl f n (next st') post Hn') as (st2 & -> & Hs2); [lia..|]. run. by exists st2.
Qed.

Lemma prop_from_value k v w1 w2 w3 t w4 : ws w1 -> str_ok k -> ws w2 -> ws w3 -> value_parses v t -> ws w4 ->
  prop_parses k v (w1 ++ 34 :: k ++ 34 :: w2 ++ 58 :: w3 ++ t ++ w4).
Proof.
  intros Hw1 Hk Hw2 Hw3 Hv Hw4. split; [by destruct w1|]. intros f st post Hst Hpost Hne Hf.
  rewrite <- app_assoc in Hst. cbn [app] in Hst. rewrite <- app_assoc in Hst. cbn [app] in Hst.
  rewrite <- app_assoc in Hst. cbn [app] in Hst. rewrite <- !app_assoc in Hst.
  unfold json_parse_property. destruct (skip_sees _ _ _ _ Hst Hw1) as (st1 & -> & Hs1); [done|]. run.
  destruct (parse_string_sees _ _ _ Hs1 Hk) as (st2 & -> & Hs2). run.
  destruct (skip_sees _ _ _ _ Hs2 Hw2) as (st3 & -> & Hs3); [done|]. run.
  destruct (input_sees _ _ _ Hs3) as [-> Hs4]. run. cbn [negb Z.eqb Pos.eqb].
  destruct (Hv f (next st3) w3 w4 post) as (st5 & -> & [_ Ha]); try done.
  { rewrite !length_app in Hf. cbn [length] in Hf. rewrite !length_app in Hf. cbn [length] in Hf.
    rewrite !length_app in Hf. cbn [length] in Hf. rewrite !length_app in Hf. lia. }
  run. exists st5. split; [done|]. by apply Ha.
Qed.

Lemma grammar_parses :
  (forall v t, jtext v t -> value_parses v t /\ t <> []) /\
  (forall l t, jitems l t -> items_parse l t) /\
  (forall l t, jprops l t -> props_parse l t) /\
  (forall k v t, jprop k v t -> prop_parses k v t).
Proof.
  apply json_ind.
  - split; [|done]. apply value_from_alt; [done|]. intros f st u Hst _ _. by apply (alt_keyword f st 116 (cstr "rue")).
  - split; [|done]. apply value_from_alt; [done|]. intros f st u Hst _ _. by apply (alt_keyword f st 102 (cstr "alse")).
  - split; [|done]. apply value_from_alt; [done|]. intros f st u Hst _ _. by apply (alt_keyword f st 110 (cstr "ull")).
  - intros ds Hd. pose proof Hd as [Hds Hl]. destruct ds as [|d ds]; [cbn in Hl; lia|]. split; [|done].
    apply value_from_alt.
    + inversion Hds; subst. by apply digit_not_space.
    + intros f st u Hst Hu _. by apply (alt_number f st (d :: ds)).
  - intros s Hs. split; [|done]. apply value_from_alt; [done|]. intros f st u Hst _ _.
    rewrite <- app_assoc in Hst. by apply alt_string.
  - intros l t _ IH. split; [|done]. apply value_from_alt; [done|]. intros f st u Hst _ Hf.
    rewrite <- app_assoc in Hst. rewrite length_app in Hf. apply (alt_array f st l t u); [|done].
    intros st1 Hst1. apply IH; [done|lia..].
  - intros l t _ IH. split; [|done]. apply value_from_alt; [done|]. intros f st u Hst _ Hf.
    rewrite <- app_assoc in Hst. rewrite length_app in Hf. apply (alt_object f st l t u); [|done].
    intros st1 Hst1. apply IH; [done|lia..].
  - intros v w1 t w2 Hw1 _ [Hv Ht] Hw2. by apply items_one.
  - intros v w1 t w2 l ts Hw1 _ [Hv Ht] Hw2 _ Hl. by apply items_cons.
  - intros k v t _ Hp. by apply props_one.
  - intros k v t l ts _ Hp _ Hl. by apply props_cons.
  - intros k v w1 w2 w3 t w4 Hw1 Hk Hw2 Hw3 _ [Hv _] Hw4. by apply prop_from_value.
Qed.
End Parse.

(** The root of a text of the grammar. *)
Lemma root_parses v t w1 w2 alloc fuel : (forall n, alloc n = true) -> jtext v t -> ws w1 -> ws w2 -> (length t <= fuel)%nat ->
  parse_root (w1 ++ t ++ w2) alloc fuel = Done (Some v).
Proof.
  intros Ha Ht Hw1 Hw2 Hf. unfold parse_root, calloc. cbn [allocs]. rewrite Ha. cbn [negb].
  destruct (proj1 (grammar_parses (w1 ++ t ++ w2) alloc Ha) v t Ht) as [Hv _].
  destruct (Hv fuel (Pst 0 1) w1 w2 []) as (st' & E & _); try done.
  { split; cbn; [unfold zlen; lia|]. by rewrite app_nil_r. }
  cbn [pos]. rewrite E. done.
Qed.

(** ** Properties *)

(** C18: the reader accepts the grammar: from every text of a value, with white space
    around it, it reads exactly this value, also as a C string, and it needs no more
    recursion than the text has characters. *)
Theorem json_parse_grammar v t w1 w2 alloc fuel :
  (forall n, alloc n = true) -> jtext v t -> ws w1 -> ws w2 -> (length t <= fuel)%nat ->
  parse_root (w1 ++ t ++ w2) alloc fuel = Done (Some v) /\
  (Forall (fun b => b <> 0) (w1 ++ t ++ w2) -> forall junk,
     json_parse fuel ((w1 ++ t ++ w2) ++ 0 :: junk) alloc = Done (Some v)).
Proof.
  intros Ha Ht Hw1 Hw2 Hf.
  assert (Hroot : parse_root (w1 ++ t ++ w2) alloc fuel = Done (Some v)).
  { by apply root_parses. }
  split; [done|]. intros Hnz junk. unfold json_parse.
  rewrite (strlen_terminated _ junk Hnz). run. unfold zlen. rewrite Nat2Z.id, take_app_length. done.
Qed.

(** ** A printer *)

Fixpoint commas (ts : list (list Z)) : list Z :=
  match ts with
  | [] => []
  | [t] => t
  | t :: ts' => t ++ 44 :: commas ts'
  end.

Fixpoint print (v : json) : list Z :=
  match v with
  | JTrue => cstr "true"
  | JFalse => cstr "false"
  | JNull => cstr "null"
  | JNumber z => dec 19 z
  | JString s => 34 :: default [] s ++ [34]
  | JArray l => 91 :: commas (map print l) ++ [93]
  | JObject l =>
      123 :: commas (map (fun kv => 34 :: default [] kv.1 ++ 34 :: 58 :: print kv.2) l) ++ [125]
  end.

(** The values that have a text: numbers a [double] holds exactly, no empty arrays
    or objects. *)
Inductive printable : json -> Prop :=
  | pr_true : printable JTrue
  | pr_false : printable JFalse
  | pr_null : printable JNull
  | pr_number z : 0 <= z < 2 ^ 53 -> printable (JNumber z)
  | pr_string s : str_ok s -> printable (JString (Some s))
  | pr_array v l : printable v -> Forall printable l -> printable (JArray (v :: l))
  | pr_object k v l : str_ok k -> printable v ->
      Forall (fun kv => (exists k, kv.1 = Some k /\ str_ok k) /\ printable kv.2) l ->
      printable (JObject ((Some k, v) :: l)).

Lemma ws_nil : ws [].
Proof. constructor. Qed.

Section PrintText.
Context (print_text : json -> list Z).

Lemma items_text v l : Forall (fun v => jtext v (print_text v)) (v :: l) ->
  jitems (v :: l) (commas (map print_text (v :: l))).
Proof.
  revert v. induction l as [|v' l IH]; intros v Hf; inversion Hf as [|? ? Hv Hl]; subst.
  - cbn. rewrite <- (app_nil_r (print_text v)). apply (ji_one v [] _ []); auto using ws_nil.
  - change (commas (map print_text (v :: v' :: l))) with ([] ++ print_text v ++ [] ++ 44 :: commas (map print_text (v' :: l))).
    apply ji_cons; auto using ws_nil.
Qed.

Definition prop_text (kv : option (list Z) * json) : list Z := 34 :: default [] kv.1 ++ 34 :: 58 :: print_text kv.2.

Lemma prop_has_text k v : str_ok k -> jtext v (print_text v) -> jprop k v (prop_text (Some k, v)).
Proof.
  intros Hk Hv. unfold prop_text. change (default [] (Some k, v).1) with k. cbn [snd].
  rewrite <- (app_nil_r (print_text v)).
  apply (jp_prop k v [] [] [] (print_text v) []); auto using ws_nil.
Qed.
Lemma props_text k v l :
  Forall (fun kv => exists k, kv.1 = Some k /\ str_ok k /\ jtext kv.2 (print_text kv.2)) ((Some k, v) :: l) ->
  jprops ((Some k, v) :: l) (commas (map prop_text ((Some k, v) :: l))).
Proof.
  revert k v. induction l as [|[k' v'] l IH]; intros k v Hf; inversion Hf as [|? ? (k0 & Ek & Hk & Hv) Hl]; subst;
    cbn in Ek; injection Ek as <-.
  - apply jp_one. by apply prop_has_text.
  - inversion Hl as [|? ? (k1 & Ek1 & _) _]; subst. cbn in Ek1. subst k'.
    change (commas (map prop_text ((Some k, v) :: (Some k1, v') :: l)))
      with (prop_text (Some k, v) ++ 44 :: commas (map prop_text ((Some k1, v') :: l))).
    apply jp_cons; [by apply prop_has_text|by apply IH].
Qed.
End PrintText.

(** Induction on printable values, through their lists. *)
Lemma print_has_text v : printable v -> jtext v (print v).
Proof.
  revert v. fix IH 2. intros v Hv. destruct Hv as [| | |z Hz|s Hs|v l Hv Hl|k v l Hk Hv Hl].
  - constructor.
  - constructor.
  - constructor.
  - cbn [print]. assert (Hz' : 0 <= z < 10 ^ Z.of_nat 19) by (split; [lia|change (10 ^ Z.of_nat 19) with (10 ^ 19); lia]).
    assert (E : JNumber z = JNumber (strtod (dec 19 z))).
    { f_equal. unfold strtod. rewrite dec_value by done. unfold round53. by rewrite (proj2 (Z.ltb_lt _ _)) by lia. }
    rewrite E at 1. apply jt_number. split; apply dec_digits; (lia || done).
  - cbn [print]. change (default [] (Some s)) with s. by apply jt_string.
  - cbn [print]. apply jt_array. apply items_text. constructor; [by apply IH|].
    induction Hl as [|v' l' Hv' Hl' IHl]; constructor; [by apply IH|done].
  - cbn [print]. apply jt_object. apply (props_text print). constructor; [exists k; split_and!; auto|].
    induction Hl as [|kv l' [Hk' Hv'] Hl' IHl]; constructor; [|done].
    destruct Hk' as (k' & E & Hk'). exists k'. split_and!; auto.
Qed.

(** Printing and reading are inverse: the text printed for a value is read back
    as this value. *)
Theorem json_print_parse v : printable v ->
  parse_root (print v) always (length (print v)) = Done (Some v).
Proof.
  intros Hv. pose proof (print_has_text v Hv) as Ht.
  destruct (proj1 (grammar_parses (print v) always (fun _ => eq_refl)) v (print v) Ht) as [Hp _].
  unfold parse_root. cbn [calloc always negb].
  destruct (Hp (length (print v)) (Pst 0 1) [] [] []) as (st' & E & _); try (done || apply ws_nil).
  { split; cbn; [unfold zlen; lia|]. by rewrite app_nil_r. }
  cbn [pos allocs]. by rewrite E.
Qed.

(** ** Inputs the reader does not end on *)

Section Brackets.
Context (n : nat).
Let buf : list Z := replicate (S n) 91.

Lemma bracket_length : zlen buf = Z.of_nat (S n).
Proof. unfold zlen, buf. by rewrite length_replicate. Qed.
Lemma bracket_sees st : 0 <= pos st < zlen buf -> exists u, sees buf st (91 :: u).
Proof.
  intros Hp. assert (E : drop (Z.to_nat (pos st)) buf = replicate (S n - Z.to_nat (pos st)) 91).
  { unfold buf. apply drop_replicate. }
  unfold zlen, buf in Hp. rewrite length_replicate in Hp.
  destruct (S n - Z.to_nat (pos st))%nat as [|k] eqn:Ek; [lia|]. exists (replicate k 91).
  split; [unfold zlen, buf; rewrite length_replicate; lia|done].
Qed.

Lemma bracket_skip st : 0 <= pos st <= zlen buf ->
  exists st', json_skip_whitespace buf st = Done st' /\ 0 <= pos st' < zlen buf.
Proof.
  intros Hp. destruct (decide (pos st = zlen buf)) as [Ee|Hne].
  - unfold json_skip_whitespace. cbn [skip_loop]. rewrite input_end.
    + run. eexists. split; [done|]. change (pos (unput st)) with (pos st - 1). rewrite bracket_length in *. lia.
    + split; [done|]. apply drop_ge. unfold zlen in Ee. lia.
  - destruct (bracket_sees st) as [u Hu]; [lia|].
    destruct (skip_sees buf st [] 91 u Hu ws_nil eq_refl) as (st' & E & Hs). exists st'. split; [done|].
    destruct Hs as [Hp' Hr]. split; [lia|]. apply (f_equal length) in Hr. rewrite length_drop in Hr. cbn [length] in Hr.
    unfold zlen in *. lia.
Qed.

Lemma brackets_diverge fuel st : 0 <= pos st <= zlen buf -> json_parse_value buf always fuel st = OutOfFuel.
Proof.
  revert st. induction fuel as [|fuel IH]; intros st Hp; [done|]. cbn [json_parse_value].
  destruct (bracket_skip st Hp) as (st1 & -> & Hp1). run. destruct (bracket_sees st1 Hp1) as [u Hu].
  unfold or_else at 1. rewrite (object_no _ _ _ _ _ _ _ Hu) by done. run. unfold or_else at 1, json_parse_array.
  destruct (input_sees _ _ _ _ Hu) as [-> Hn]. run. cbn [negb Z.eqb Pos.eqb].
  destruct fuel as [|fuel]; [done|]. cbn [array_loop calloc always negb].
  rewrite IH; [done|]. cbn [pos next set_pos]. lia.
Qed.
End Brackets.

(** An input that ends in opening brackets is read for ever: at the end of the
    input [unput] moves back onto the last bracket, which is then read again as the
    beginning of one more nested array, whatever recursion depth is allowed. *)
Theorem json_parse_open_bracket_diverges n fuel : parse_root (replicate (S n) 91) always fuel = OutOfFuel.
Proof.
  unfold parse_root. cbn [calloc always negb]. rewrite brackets_diverge; [done|].
  cbn [pos]. rewrite bracket_length. lia.
Qed.

(** Further texts that are not in the grammar: the empty input is read before its
    first byte; the last letter of a keyword, and everything behind the value, are
    not looked at; empty arrays are refused; a string of more than 127 bytes loses
    one byte where it is cut. *)
Example json_empty_input : parse_bytes [] = OutOfFuel /\ parse_root [] always 2 = Fault OutOfBounds.
Proof. split; vm_compute; reflexivity. Qed.
Example json_sloppy_keyword :
  forallb (fun c => match parse_bytes (cstr "tru" ++ [Z.of_nat c]) with Done (Some JTrue) => true | _ => false end)
    (seq 1 255) = true /\
  parse_bytes (cstr "true, but") = Done (Some JTrue).
Proof. split; vm_compute; reflexivity. Qed.
Example json_empty_array : parse_bytes (cstr "[]") = Done None /\ parse_bytes (cstr "[ ]") = Done None.
Proof. split; vm_compute; reflexivity. Qed.
Example json_long_string :
  parse_bytes (quoted (replicate 127 65 ++ [66])) = Done (Some (JString (Some (replicate 127 65)))).
Proof. vm_compute. reflexivity. Qed.

(** ** Witnesses *)

Definition demo_value : json :=
  JObject [(Some (cstr "a"), JArray [JNumber 12; JNull]); (Some (cstr "b"), JString (Some (cstr "x")))].
Lemma demo_printable : printable demo_value.
Proof.
  assert (K : forall s, (length s <= 127)%nat -> forallb (fun b => negb (b =? 0) && negb (b =? 34)) s = true -> str_ok s).
  { intros s Hl Hs. split; [done|]. apply Forall_forall. intros b Hb%list_elem_of_In. rewrite forallb_forall in Hs.
    specialize (Hs b Hb). reflect_bools. done. }
  apply pr_object; [apply K; [cbn; lia|done]| |].
  - apply pr_array; [apply pr_number; lia|]. constructor; [apply pr_null|constructor].
  - constructor; [|constructor]. split; [eexists; split; [done|apply K; [cbn; lia|done]]|].
    apply pr_string. apply K; [cbn; lia|done].
Qed.

Lemma json_print_parse_witness :
  printable demo_value /\ parse_root (print demo_value) always (length (print demo_value)) = Done (Some demo_value).
Proof. split; [exact demo_printable|]. exact (json_print_parse demo_value demo_printable). Defined.

Lemma json_parse_grammar_witness :
  parse_root ([32] ++ cstr "[1 ,true]" ++ [10]) always 9 = Done (Some (JArray [JNumber 1; JTrue])) /\
  (Forall (fun b => b <> 0) ([32] ++ cstr "[1 ,true]" ++ [10]) -> forall junk,
     json_parse 9 (([32] ++ cstr "[1 ,true]" ++ [10]) ++ 0 :: junk) always = Done (Some (JArray [JNumber 1; JTrue]))).
Proof.
  apply json_parse_grammar.
  - done.
  - apply (jt_array _ ([] ++ [49] ++ [32] ++ 44 :: [] ++ cstr "true" ++ [])). apply ji_cons.
    + constructor.
    + apply (jt_number [49]). split; [by constructor|cbn; lia].
    + by constructor.
    + apply (ji_one JTrue [] _ []); [constructor|apply jt_true|constructor].
  - by constructor.
  - by constructor.
  - cbn. lia.
Defined.
