(* ===== verification/JsonHeap.v ===== *)
(** * The JSON values in memory (pd-mapper/json.c, json.h)

    [Json] reads a text into a value; here the same parser builds the linked cells of
    [struct json_value] in a heap, in place, as the code does, and [json_free] and the
    functions that walk the cells are given for them.  A pointer is the number of the
    allocation that made the block, 0 is the null pointer. *)
From Stdlib Require Import String.
From S2P Require Import Prelude CString Hash Os Json.
#[local] Open Scope Z_scope.

Definition JSON_TYPE_UNKNOWN : Z := 0.
Definition JSON_TYPE_TRUE : Z := 1.
Definition JSON_TYPE_FALSE : Z := 2.
Definition JSON_TYPE_NULL : Z := 3.
Definition JSON_TYPE_NUMBER : Z := 4.
Definition JSON_TYPE_STRING : Z := 5.
Definition JSON_TYPE_ARRAY : Z := 6.
Definition JSON_TYPE_OBJECT : Z := 7.

(** The union [u] holds zeros or what was stored last; a block is a value or a string. *)
Inductive json_union := UZero | UNumber (n : Z) | UString (p : Z) | UValue (p : Z).
Record json_value := JsonValue { v_key : Z; v_type : Z; v_u : json_union; v_next : Z }.
Inductive block := BValue (c : json_value) | BString (s : list Z).
Abbreviation json_heap := (gmap Z block).
Definition zero_value : json_value := JsonValue 0 JSON_TYPE_UNKNOWN UZero 0.

Definition set_content (c : json_value) (ty : Z) (u : json_union) : json_value := JsonValue (v_key c) ty u (v_next c).
Definition set_u (c : json_value) (u : json_union) : json_value := set_content c (v_type c) u.
Definition set_key (c : json_value) (k : Z) : json_value := JsonValue k (v_type c) (v_u c) (v_next c).
Definition set_link (c : json_value) (n : Z) : json_value := JsonValue (v_key c) (v_type c) (v_u c) n.

Definition get_value (h : json_heap) (p : Z) : outcome json_value :=
  match h !! p with
  | Some (BValue c) => Done c
  | _ => Fault (if p =? 0 then NullPointer else OutOfBounds)
  end.
Definition put_value (h : json_heap) (p : Z) (f : json_value -> json_value) : outcome json_heap :=
  c ← get_value h p; Done (<[p := BValue (f c)]> h).
(** The members [u.value] and [u.string]. *)
Definition u_value (u : json_union) : outcome Z :=
  match u with UZero => Done 0 | UValue p => Done p | _ => Fault OutOfBounds end.
Definition u_string (u : json_union) : outcome Z :=
  match u with UZero => Done 0 | UString p => Done p | _ => Fault OutOfBounds end.
(** [free]; a block that is not allocated is a fault. *)
Definition free (h : json_heap) (p : Z) : outcome json_heap :=
  if p =? 0 then Done h
  else match h !! p with Some _ => Done (delete p h) | None => Fault OutOfBounds end.

(** ** [json_free] *)

(** The loop over the children, given the function that frees one. *)
Fixpoint free_loop (free_value : json_heap -> Z -> outcome json_heap) (fuel : nat) (h : json_heap) (it : Z)
    : outcome json_heap :=
  if it =? 0 then Done h
  else
    match fuel with
    | O => OutOfFuel
    | S fuel' =>
        c ← get_value h it;
        h ← free_value h it;
        free_loop free_value fuel' h (v_next c)
    end.
(** The [switch] on the type. *)
Definition free_content (free_value : json_heap -> Z -> outcome json_heap) (fuel : nat) (h : json_heap)
    (ty : Z) (u : json_union) : outcome json_heap :=
  if (ty =? JSON_TYPE_OBJECT) || (ty =? JSON_TYPE_ARRAY) then
    it ← u_value u; free_loop free_value fuel h it
  else if ty =? JSON_TYPE_STRING then s ← u_string u; free h s
  else Done h.
Fixpoint json_free (fuel : nat) (h : json_heap) (p : Z) : outcome json_heap :=
  match fuel with
  | O => OutOfFuel
  | S fuel' =>
      c ← get_value h p;
      h ← free h (v_key c);
      h ← free_content (json_free fuel') fuel' h (v_type c) (v_u c);
      free h p
  end.

(** ** The parser

    The state is that of [Json] with the heap; a parser is given the value to fill in. *)
Record hst := Hst { h_st : pst; h_heap : json_heap }.
Definition hparser : Type := Z -> hst -> outcome (parsed unit * hst).

Section HeapParser.
Context (buf : list Z) (alloc : nat -> bool).

Definition address_of (st : pst) : Z := Z.of_nat (S (allocs st)).
Definition new_block (b : block) (s : hst) : Z * hst :=
  let '(ok, st) := calloc alloc (h_st s) in
  if ok then (address_of (h_st s), Hst st (<[address_of (h_st s) := b]> (h_heap s))) else (0, Hst st (h_heap s)).

(** The pointer that [strdup] returned. *)
Definition heap_parse_string (s : hst) : outcome (parsed Z * hst) :=
  '(ch, st) ← input buf (h_st s);
  if negb (ch =? 34) then Done (NoMatch, Hst (unput st) (h_heap s))
  else
    '(bs, ch, st) ← string_loop buf 127 st;
    if ch =? 0 then Done (Error, Hst st (h_heap s))
    else let '(p, s) := new_block (BString bs) (Hst st (h_heap s)) in Done (Match p, s).
Definition heap_string_value : hparser := fun value s =>
  '(r, s) ← heap_parse_string s;
  match r with
  | Match p => h ← put_value (h_heap s) value (fun c => set_content c JSON_TYPE_STRING (UString p)); Done (Match tt, Hst (h_st s) h)
  | NoMatch => Done (NoMatch, s)
  | Error => Done (Error, s)
  end.
Definition heap_parse_number : hparser := fun value s =>
  '(ds, st) ← number_loop buf 19 (h_st s);
  let st := unput st in
  match ds with
  | [] => Done (NoMatch, Hst st (h_heap s))
  | _ =>
      h ← put_value (h_heap s) value (fun c => set_content c JSON_TYPE_NUMBER (UNumber (strtod ds)));
      Done (Match tt, Hst st h)
  end.
(** The type is stored before the word is known to match. *)
Definition keyword_type (ch : Z) : option (list Z * Z) :=
  if ch =? 116 then Some (cstr "true", JSON_TYPE_TRUE)
  else if ch =? 102 then Some (cstr "false", JSON_TYPE_FALSE)
  else if ch =? 110 then Some (cstr "null", JSON_TYPE_NULL)
  else None.
Definition heap_parse_keyword : hparser := fun value s =>
  '(ch, st) ← input buf (h_st s);
  match keyword_type ch with
  | None => Done (NoMatch, Hst (unput st) (h_heap s))
  | Some (m, ty) =>
      h ← put_value (h_heap s) value (fun c => set_content c ty (v_u c));
      '(m, st) ← keyword_loop buf m ch st;
      Done (match m with [] => Match tt | _ => Error end, Hst (unput st) h)
  end.

(** The loops over the elements of an array and the properties of an object: [container] is
    the value that holds them, [last] the one that was linked last. *)
Definition link (container last value : Z) (h : json_heap) : outcome json_heap :=
  c ← get_value h container;
  first ← u_value (v_u c);
  h ← (if first =? 0 then put_value h container (fun c => set_u c (UValue value)) else Done h);
  if negb (last =? 0) then put_value h last (fun c => set_link c value) else Done h.
Fixpoint children_loop (fuel : nat) (parse_child : hparser) (close container last : Z) (s : hst)
    : outcome (parsed unit * hst) :=
  match fuel with
  | O => OutOfFuel
  | S fuel' =>
      let '(value, s) := new_block (BValue zero_value) s in
      if value =? 0 then Done (Error, s)
      else
        '(r, s) ← parse_child value s;
        match r with
        | Match _ =>
            h ← link container last value (h_heap s);
            '(ch, st) ← input buf (h_st s);
            if ch =? close then Done (Match tt, Hst st h)
            else if negb (ch =? 44) then Done (Error, Hst st h)
            else children_loop fuel' parse_child close container value (Hst st h)
        | _ => h ← free (h_heap s) value; Done (Error, Hst (h_st s) h)
        end
  end.
Definition heap_parse_array (fuel : nat) (parse_value : hparser) : hparser := fun array s =>
  '(ch, st) ← input buf (h_st s);
  if negb (ch =? 91) then Done (NoMatch, Hst (unput st) (h_heap s))
  else
    h ← put_value (h_heap s) array (fun c => set_content c JSON_TYPE_ARRAY (v_u c));
    children_loop fuel parse_value 93 array 0 (Hst st h).

Definition heap_parse_property (parse_value : hparser) : hparser := fun value s =>
  st ← json_skip_whitespace buf (h_st s);
  '(key, s) ← heap_parse_string (Hst st (h_heap s));
  match key with
  | Match p =>
      h ← put_value (h_heap s) value (fun c => set_key c p);
      st ← json_skip_whitespace buf (h_st s);
      '(ch, st) ← input buf st;
      if negb (ch =? 58) then Done (Error, Hst st h)
      else
        '(r, s) ← parse_value value (Hst st h);
        Done (match r with Match _ => Match tt | _ => Error end, s)
  | _ => Done (Error, s)
  end.
Definition heap_parse_object (fuel : nat) (parse_value : hparser) : hparser := fun object s =>
  '(ch, st) ← input buf (h_st s);
  if negb (ch =? 123) then Done (NoMatch, Hst (unput st) (h_heap s))
  else
    h ← put_value (h_heap s) object (fun c => set_content c JSON_TYPE_OBJECT (v_u c));
    children_loop fuel (heap_parse_property parse_value) 125 object 0 (Hst st h).

Definition heap_or_else (p q : hparser) : hparser := fun value s =>
  '(r, s) ← p value s;
  match r with NoMatch => q value s | _ => Done (r, s) end.
Fixpoint heap_parse_value (fuel : nat) (value : Z) (s : hst) : outcome (parsed unit * hst) :=
  match fuel with
  | O => OutOfFuel
  | S fuel' =>
      st ← json_skip_whitespace buf (h_st s);
      '(r, s) ← heap_or_else (heap_parse_object fuel' (heap_parse_value fuel'))
                 (heap_or_else (heap_parse_array fuel' (heap_parse_value fuel'))
                 (heap_or_else heap_string_value (heap_or_else heap_parse_number heap_parse_keyword))) value (Hst st (h_heap s));
      match r with
      | NoMatch => Done (Error, s)
      | _ => st ← json_skip_whitespace buf (h_st s); Done (r, Hst st (h_heap s))
      end
  end.

(** The root, or the null pointer after [release] has freed what it frees of it: only the
    root in [json_parse], what is linked to it in [json_parse_file]. *)
Definition heap_root (release : json_heap -> Z -> outcome json_heap) (fuel : nat) (h : json_heap)
    : outcome (Z * json_heap) :=
  let '(root, s) := new_block (BValue zero_value) (Hst (Pst 0 0) h) in
  if root =? 0 then Done (0, h_heap s)
  else
    '(r, s) ← heap_parse_value fuel root s;
    match r with
    | Match _ => Done (root, h_heap s)
    | _ => h ← release (h_heap s) root; Done (0, h)
    end.
End HeapParser.

(** ** Walking the cells *)

(** The string at [p] as [strcmp] reads it. *)
Definition heap_string (h : json_heap) (p : Z) : outcome (list Z) :=
  match h !! p with
  | Some (BString s) => Done s
  | _ => Fault (if p =? 0 then NullPointer else OutOfBounds)
  end.
Fixpoint heap_find (fuel : nat) (h : json_heap) (it : Z) (key : list Z) : outcome Z :=
  if it =? 0 then Done 0
  else
    match fuel with
    | O => OutOfFuel
    | S fuel' =>
        c ← get_value h it;
        k ← heap_string h (v_key c);
        if bool_decide (k = key) then Done it else heap_find fuel' h (v_next c) key
    end.
Definition heap_get_child (fuel : nat) (h : json_heap) (object : Z) (key : list Z) : outcome Z :=
  c ← get_value h object;
  if negb (v_type c =? JSON_TYPE_OBJECT) then Done 0
  else it ← u_value (v_u c); heap_find fuel h it key.
Fixpoint heap_count (fuel : nat) (h : json_heap) (it : Z) : outcome Z :=
  if it =? 0 then Done 0
  else
    match fuel with
    | O => OutOfFuel
    | S fuel' => c ← get_value h it; n ← heap_count fuel' h (v_next c); Done (n + 1)
    end.
Definition heap_count_children (fuel : nat) (h : json_heap) (array : Z) : outcome Z :=
  if array =? 0 then Done (-1)
  else
    c ← get_value h array;
    if negb (v_type c =? JSON_TYPE_ARRAY) then Done (-1)
    else it ← u_value (v_u c); heap_count fuel h it.
