(* ===== verification/JsonHeapProps.v ===== *)
(** * The JSON values in memory: properties

    What a value occupies is a heap of its own ([value_rep]); the heap of the program is the
    union of it and of the rest, from which it is disjoint. *)
From Stdlib Require Import String.
From S2P Require Import Prelude CString Hash Os Json JsonHeap.
#[local] Open Scope Z_scope.

(** ** Representation *)

Inductive key_rep : json_heap -> Z -> option (list Z) -> Prop :=
  | key_null : key_rep ∅ 0 None
  | key_at p s : p <> 0 -> key_rep {[p := BString s]} p (Some s).

(** The content of a value, and the chain of the children of an array or object. *)
Inductive value_rep : json_heap -> Z -> json_union -> json -> Prop :=
  | rep_true : value_rep ∅ JSON_TYPE_TRUE UZero JTrue
  | rep_false : value_rep ∅ JSON_TYPE_FALSE UZero JFalse
  | rep_null : value_rep ∅ JSON_TYPE_NULL UZero JNull
  | rep_number z : value_rep ∅ JSON_TYPE_NUMBER (UNumber z) (JNumber z)
  | rep_string m p s : key_rep m p s -> value_rep m JSON_TYPE_STRING (UString p) (JString s)
  | rep_array m p l : p <> 0 -> list_rep m p (map (pair None) l) -> value_rep m JSON_TYPE_ARRAY (UValue p) (JArray l)
  | rep_object m p l : p <> 0 -> list_rep m p l -> value_rep m JSON_TYPE_OBJECT (UValue p) (JObject l)
with list_rep : json_heap -> Z -> list (option (list Z) * json) -> Prop :=
  | rep_nil : list_rep ∅ 0 []
  | rep_cons p kp ty u next k v l mk mv ml : p <> 0 ->
      key_rep mk kp k -> value_rep mv ty u v -> list_rep ml next l ->
      mk ##ₘ mv -> mk ##ₘ ml -> mv ##ₘ ml -> mk !! p = None -> mv !! p = None -> ml !! p = None ->
      list_rep (<[p := BValue (JsonValue kp ty u next)]> (mk ∪ (mv ∪ ml))) p ((k, v) :: l).

Scheme value_rep_mind := Induction for value_rep Sort Prop
  with list_rep_mind := Induction for list_rep Sort Prop.
Combined Scheme rep_ind from value_rep_mind, list_rep_mind.

(** ** Heaps and their parts

    Equations between heaps are checked block by block. *)
Ltac split_disjoint :=
  repeat match goal with
  | H : ∅ ##ₘ _ |- _ => clear H
  | H : _ ##ₘ ∅ |- _ => clear H
  | H : (_ ∪ _) ##ₘ _ |- _ => apply map_disjoint_union_l in H as [? ?]
  | H : _ ##ₘ (_ ∪ _) |- _ => apply map_disjoint_union_r in H as [? ?]
  | H : <[_ := _]> _ ##ₘ _ |- _ => apply map_disjoint_insert_l in H as [? ?]
  | H : _ ##ₘ <[_ := _]> _ |- _ => apply map_disjoint_insert_r in H as [? ?]
  | H : {[_ := _]} ##ₘ _ |- _ => apply map_disjoint_singleton_l in H
  | H : _ ##ₘ {[_ := _]} |- _ => apply map_disjoint_singleton_r in H
  | H : (_ ∪ _) !! _ = None |- _ => apply lookup_union_None in H as [? ?]
  | H : <[_ := _]> _ !! _ = None |- _ => apply lookup_insert_None in H as [? ?]
  | H : {[_ := _]} !! _ = None |- _ => apply lookup_singleton_None in H
  | H : _ /\ _ |- _ => destruct H
  end.
Ltac solve_disjoint :=
  split_disjoint;
  repeat first
  [ assumption | apply map_disjoint_empty_l | apply map_disjoint_empty_r | apply lookup_empty
  | apply map_disjoint_union_l; split | apply map_disjoint_union_r; split
  | apply map_disjoint_insert_l; split | apply map_disjoint_insert_r; split
  | apply map_disjoint_singleton_l | apply map_disjoint_singleton_r
  | apply lookup_union_None; split | apply lookup_insert_None; split | apply lookup_singleton_None
  | apply map_disjoint_sym; assumption | congruence ].
(** A union reordered: at each block at most one part has something. *)
Ltac heap_cases i :=
  match goal with
  | |- context [?m !! i] =>
      is_var m; destruct (m !! i);
      repeat match goal with
      | H : Some _ = None |- _ => discriminate H
      | H : Some _ = None \/ _ |- _ => destruct H as [H|H]; [discriminate H|]
      | H : _ \/ Some _ = None |- _ => destruct H as [H|H]; [|discriminate H]
      | H : None = None \/ _ |- _ => clear H
      | H : _ \/ None = None |- _ => clear H
      | H : None = None |- _ => clear H
      | H : ?n !! i = None |- _ => rewrite H; clear H
      end; heap_cases i
  | |- _ => reflexivity
  end.
Ltac heap_eq :=
  split_disjoint; apply map_eq; let i := fresh "i" in intros i;
  repeat match goal with
  | H : ?m1 ##ₘ ?m2 |- _ => pose proof (proj1 (map_disjoint_alt m1 m2) H i); clear H
  end;
  rewrite ?lookup_insert, ?lookup_union, ?lookup_insert, ?lookup_union, ?lookup_insert, ?lookup_union,
    ?lookup_insert, ?lookup_union, ?lookup_singleton, ?lookup_empty;
  repeat case_decide; subst; try congruence;
  repeat match goal with
  | H : _ !! _ = None |- _ => rewrite !H in *; clear H
  end;
  heap_cases i.

Lemma free_key m kp k rest : key_rep m kp k -> m ##ₘ rest -> free (m ∪ rest) kp = Done rest.
Proof.
  intros Hk Hd. unfold free. destruct Hk as [|p s Hp]; [by rewrite (left_id_L ∅ _)|].
  rewrite (proj2 (Z.eqb_neq _ _) Hp). split_disjoint. rewrite <- insert_union_singleton_l, lookup_insert_eq.
  by rewrite delete_insert_id.
Qed.

Lemma get_value_at (h : json_heap) p c : get_value (<[p := BValue c]> h) p = Done c.
Proof. unfold get_value. by rewrite lookup_insert_eq. Qed.
Lemma free_at (h : json_heap) p b : p <> 0 -> h !! p = None -> free (<[p := b]> h) p = Done h.
Proof. intros Hp Hh. unfold free. rewrite (proj2 (Z.eqb_neq _ _) Hp), lookup_insert_eq. by rewrite delete_insert_id. Qed.

(** A value whose content can be freed is freed with it, and the rest stays. *)
Lemma free_node f p kp k ty u next mk mv rest : p <> 0 -> key_rep mk kp k ->
  (forall r, mv ##ₘ r -> free_content (json_free f) f (mv ∪ r) ty u = Done r) ->
  mk ##ₘ mv -> mk ##ₘ rest -> mv ##ₘ rest -> mk !! p = None -> mv !! p = None -> rest !! p = None ->
  json_free (S f) (<[p := BValue (JsonValue kp ty u next)]> (mk ∪ (mv ∪ rest))) p = Done rest.
Proof.
  intros Hp Hk Hv D1 D2 D3 N1 N2 N3. cbn [json_free]. rewrite get_value_at. run. cbn [v_key v_type v_u].
  rewrite insert_union_r by done. rewrite (free_key mk kp k) by (done || solve_disjoint). run.
  rewrite insert_union_r, Hv by (done || solve_disjoint). run. by apply free_at.
Qed.

Lemma free_rep :
  (forall m ty u v, value_rep m ty u v -> forall f rest, m ##ₘ rest -> (size m <= f)%nat ->
     free_content (json_free f) f (m ∪ rest) ty u = Done rest) /\
  (forall m p l, list_rep m p l -> forall f n rest, m ##ₘ rest -> (size m <= f)%nat -> (size m <= n)%nat ->
     free_loop (json_free f) n (m ∪ rest) p = Done rest).
Proof.
  apply rep_ind; try (intros; cbn; by rewrite (left_id_L ∅ _)).
  - intros m p s Hk f rest Hd _. unfold free_content. cbn. by apply (free_key m p s).
  - intros m p l Hp _ IH f rest Hd Hf. unfold free_content. cbn. by apply IH.
  - intros m p l Hp _ IH f rest Hd Hf. unfold free_content. cbn. by apply IH.
  - intros f n rest _ _ _. rewrite (left_id_L ∅ _). by destruct n.
  - intros p kp ty u next k v l mk mv ml Hp Hk _ IHv _ IHl D1 D2 D3 N1 N2 N3 f n rest Hd Hf Hn.
    rewrite map_size_insert_None, !map_size_disj_union in Hf, Hn by solve_disjoint. split_disjoint.
    destruct n as [|n]; [lia|]. destruct f as [|f]; [lia|]. cbn [free_loop]. rewrite (proj2 (Z.eqb_neq _ _) Hp).
    rewrite <- insert_union_l, get_value_at, <- !assoc_L by apply _. run.
    rewrite (free_node f p kp k) by (done || (intros; apply IHv; done || lia) || solve_disjoint). run.
    apply IHl; [done|lia|lia].
Qed.


(** What is left of a value when parsing it failed: children without an end, or a type
    whose union holds nothing. *)
Inductive part_rep : json_heap -> Z -> json_union -> Prop :=
  | part_value m ty u v : value_rep m ty u v -> part_rep m ty u
  | part_children m ty p l : ty = JSON_TYPE_ARRAY \/ ty = JSON_TYPE_OBJECT -> list_rep m p l -> part_rep m ty (UValue p)
  | part_nothing ty : part_rep ∅ ty UZero.

Lemma free_part m ty u f rest : part_rep m ty u -> m ##ₘ rest -> (size m <= f)%nat ->
  free_content (json_free f) f (m ∪ rest) ty u = Done rest.
Proof.
  destruct free_rep as [Fv Fl]. intros Hp Hd Hf. destruct Hp as [m ty u v Hv|m ty p l Ht Hl|ty].
  - by apply (Fv m ty u v).
  - unfold free_content. replace (_ || _) with true by (destruct Ht; by subst). by apply (Fl m p l).
  - rewrite (left_id_L ∅ _). unfold free_content. destruct (_ || _); [by destruct f|by destruct (ty =? JSON_TYPE_STRING)].
Qed.

(** ** The parser *)

Lemma bind_ext {A B} (m : outcome A) (k1 k2 : A -> outcome B) : (forall a, k1 a = k2 a) -> (m ≫= k1) = (m ≫= k2).
Proof. intros Hk. destruct m; [apply Hk|done..]. Qed.

Section Refinement.
Context (buf : list Z) (alloc : nat -> bool).

(** The heap has no block where the next ones are made. *)
Definition fresh (st : pst) (h : json_heap) : Prop := h !! 0 = None /\ forall a, address_of st <= a -> h !! a = None.
Definition same_allocs (st st' : pst) : Prop := allocs st' = allocs st.

Lemma fresh_same st st' h : same_allocs st st' -> fresh st h -> fresh st' h.
Proof. unfold same_allocs, fresh, address_of. by intros ->. Qed.
Lemma fresh_part st h h' : fresh st h -> (forall a, h !! a = None -> h' !! a = None) -> fresh st h'.
Proof. intros [H0 H1] Hs. split; auto. Qed.

Lemma input_allocs st ch st' : input buf st = Done (ch, st') -> same_allocs st st'.
Proof.
  unfold input, same_allocs. destruct (_ <=? _); [by intros [= _ <-]|]. destruct (_ <? 0); [done|].
  intros E. apply bind_done in E as (c & _ & [= _ <-]). done.
Qed.
Lemma skip_allocs st st' : json_skip_whitespace buf st = Done st' -> same_allocs st st'.
Proof.
  unfold json_skip_whitespace. intros E. apply bind_done in E as (st1 & E & [= <-]). unfold same_allocs. cbn.
  revert E. generalize (S (Z.to_nat (zlen buf - pos st))). intros n. revert st. induction n as [|n IH]; intros st E; [done|]. cbn [skip_loop] in E.
  apply bind_done in E as ([ch st2] & E2%input_allocs & E). rewrite <- E2.
  destruct (_ && _); [by apply IH|by injection E as ->].
Qed.
Lemma string_allocs room st s e st' : string_loop buf room st = Done (s, e, st') -> same_allocs st st'.
Proof.
  revert st s e st'. induction room as [|room IH]; intros st s e st' E; cbn [string_loop] in E;
    apply bind_done in E as ([ch st2] & E2%input_allocs & E); (destruct (_ || _); [by injection E as _ _ <-|]).
  - by injection E as _ _ <-.
  - apply bind_done in E as ([[s2 e2] st3] & E3%IH & [= _ _ <-]). unfold same_allocs in *. congruence.
Qed.
Lemma number_allocs room st s st' : number_loop buf room st = Done (s, st') -> same_allocs st st'.
Proof.
  revert st s st'. induction room as [|room IH]; intros st s st' E; cbn [number_loop] in E;
    apply bind_done in E as ([ch st2] & E2%input_allocs & E); (destruct (_ || _); [by injection E as _ <-|]).
  - by injection E as _ <-.
  - apply bind_done in E as ([s2 st3] & E3%IH & [= _ <-]). unfold same_allocs in *. congruence.
Qed.
Lemma keyword_allocs m ch st m' st' : keyword_loop buf m ch st = Done (m', st') -> same_allocs st st'.
Proof.
  revert ch st. induction m as [|c m IH]; intros ch st E; cbn [keyword_loop] in E; [by injection E as _ <-|].
  destruct (c =? ch); [|by injection E as _ <-].
  apply bind_done in E as ([ch2 st2] & E2%input_allocs & E3%IH). unfold same_allocs in *. congruence.
Qed.

(** A new block is not the null pointer and was not in the heap. *)
Lemma new_block_spec st h b ok st' : fresh st h -> calloc alloc st = (ok, st') ->
  if ok then exists p, new_block alloc b (Hst st h) = (p, Hst st' (<[p := b]> h)) /\ p <> 0 /\ h !! p = None /\ fresh st' (<[p := b]> h)
  else new_block alloc b (Hst st h) = (0, Hst st' h) /\ fresh st' h.
Proof.
  intros [H0 H1] E. unfold new_block. cbn [h_st h_heap]. rewrite E. unfold calloc in E. injection E as Eok <-. rewrite <- Eok.
  unfold address_of in *. destruct (alloc (allocs st)).
  - exists (Z.of_nat (S (allocs st))). split; [done|]. split; [lia|]. split; [by apply H1|]. split.
    + rewrite lookup_insert_ne by lia. done.
    + intros a Ha. unfold address_of in Ha. cbn [allocs] in Ha. rewrite lookup_insert_ne by lia. apply H1. lia.
  - split; [done|]. split; [done|]. intros a Ha. unfold address_of in Ha. cbn [allocs] in Ha. apply H1. lia.
Qed.

(** What a parser does to the value at [p] it is given, which holds zeros but for its key and
    link, in a heap that holds [h0] besides. *)
Definition erase {A} (r : parsed A) : parsed unit :=
  match r with NoMatch => NoMatch | Error => Error | Match _ => Match tt end.
Definition filled (p k nx ty : Z) (u : json_union) (h : json_heap) : json_heap := <[p := BValue (JsonValue k ty u nx)]> h.
Definition fills (r : parsed json) (p k nx : Z) (h0 h' : json_heap) : Prop :=
  match r with
  | NoMatch => h' = filled p k nx JSON_TYPE_UNKNOWN UZero h0
  | Match v => exists m ty u, value_rep m ty u v /\ m ##ₘ h0 /\ m !! p = None /\ h' = filled p k nx ty u (m ∪ h0)
  | Error => exists lost m ty u, part_rep m ty u /\ m ##ₘ h0 /\ lost ##ₘ h0 /\ lost ##ₘ m /\ m !! p = None /\ lost !! p = None /\
      h' = filled p k nx ty u (lost ∪ (m ∪ h0))
  end.
Definition refines (hp : hparser) (fp : parser) : Prop := forall p k nx h0 st r st',
  p <> 0 -> h0 !! p = None -> fresh st (filled p k nx JSON_TYPE_UNKNOWN UZero h0) -> fp st = Done (r, st') ->
  exists h', hp p (Hst st (filled p k nx JSON_TYPE_UNKNOWN UZero h0)) = Done (erase r, Hst st' h') /\
    fresh st' h' /\ fills r p k nx h0 h'.

Lemma put_filled p k nx ty u h f : put_value (filled p k nx ty u h) p f =
  Done (<[p := BValue (f (JsonValue k ty u nx))]> h).
Proof. unfold put_value, filled. rewrite get_value_at. run. by rewrite insert_insert_eq. Qed.
Lemma put_type p k nx ty u h ty' : put_value (filled p k nx ty u h) p (fun c => set_content c ty' (v_u c)) = Done (filled p k nx ty' u h).
Proof. apply put_filled. Qed.
Lemma put_key p k nx ty u h q : put_value (filled p k nx ty u h) p (fun c => set_key c q) = Done (filled p q nx ty u h).
Proof. apply put_filled. Qed.
Lemma put_link p k nx ty u h q : put_value (filled p k nx ty u h) p (fun c => set_link c q) = Done (filled p k q ty u h).
Proof. apply put_filled. Qed.
Lemma put_u p k nx ty u h u' : put_value (filled p k nx ty u h) p (fun c => set_u c u') = Done (filled p k nx ty u' h).
Proof. apply put_filled. Qed.
Lemma fresh_filled st p k nx ty u k' nx' ty' u' h : fresh st (filled p k nx ty u h) -> fresh st (filled p k' nx' ty' u' h).
Proof.
  intros Hf. apply (fresh_part _ _ _ Hf). unfold filled. intros a. rewrite !lookup_insert_None. tauto.
Qed.

Lemma parse_string_refines st h r st' : fresh st h -> json_parse_string buf alloc st = Done (r, st') ->
  match r with
  | Match s => exists q m, heap_parse_string buf alloc (Hst st h) = Done (Match q, Hst st' (m ∪ h)) /\ key_rep m q s /\ m ##ₘ h /\
      fresh st' (m ∪ h)
  | NoMatch => heap_parse_string buf alloc (Hst st h) = Done (NoMatch, Hst st' h) /\ fresh st' h
  | Error => heap_parse_string buf alloc (Hst st h) = Done (Error, Hst st' h) /\ fresh st' h
  end.
Proof.
  intros Hf E. unfold json_parse_string, heap_parse_string in *. cbn [h_st h_heap].
  apply bind_done in E as ([ch st1] & E1 & E). rewrite E1. run. apply input_allocs in E1.
  destruct (negb (ch =? 34)); [injection E as <- <-; split; [done|]; by apply (fresh_same st)|].
  apply bind_done in E as ([[s ch2] st2] & E2 & E). rewrite E2. run. apply string_allocs in E2.
  assert (Hf2 : fresh st2 h) by (apply (fresh_same st); [unfold same_allocs in *; congruence|done]).
  destruct (ch2 =? 0); [by injection E as <- <-|]. destruct (calloc alloc st2) as [ok st3] eqn:Ec. injection E as <- <-.
  pose proof (new_block_spec st2 h (BString s) ok st3 Hf2 Ec) as Hn. destruct ok.
  - destruct Hn as (p & -> & Hp & Hh & Hf3). exists p, {[p := BString s]}. rewrite <- insert_union_singleton_l. split_and!; [done|by constructor| |done].
    by apply map_disjoint_singleton_l.
  - destruct Hn as [-> Hf3]. exists 0, ∅. rewrite (left_id_L ∅ _). split_and!; [done|constructor|apply map_disjoint_empty_l|done].
Qed.

Lemma string_value_refines : refines (heap_string_value buf alloc) (parse_string_value buf alloc).
Proof.
  intros p k nx h0 st r st' Hp Hh Hf E. unfold parse_string_value in E. apply bind_done in E as ([rs st1] & E1 & E).
  injection E as <- <-. pose proof (parse_string_refines _ _ _ _ Hf E1) as Hs. unfold heap_string_value. destruct rs as [| |s].
  - destruct Hs as [-> Hs]. run. by eexists.
  - destruct Hs as [-> Hs]. run. eexists. split; [done|]. split; [done|]. exists ∅, ∅, JSON_TYPE_UNKNOWN, UZero.
    split_and!; try solve_disjoint; [constructor|]. by rewrite !(left_id_L ∅ _).
  - destruct Hs as (q & m & -> & Hk & Hd & Hf1). run. cbn [h_heap h_st].
    assert (Em : m ∪ filled p k nx JSON_TYPE_UNKNOWN UZero h0 = filled p k nx JSON_TYPE_UNKNOWN UZero (m ∪ h0)).
    { unfold filled in *. rewrite insert_union_r; [done|]. by split_disjoint. }
    rewrite Em in *. rewrite put_filled. run. eexists. split; [done|]. split; [by eapply fresh_filled|].
    unfold filled in Hd. split_disjoint. eexists m, _, _. split_and!; [by constructor|done..].
Qed.

Lemma number_refines : refines (heap_parse_number buf) (json_parse_number buf).
Proof.
  intros p k nx h0 st r st' Hp Hh Hf E. unfold json_parse_number, heap_parse_number in *. cbn [h_st h_heap].
  apply bind_done in E as ([ds st1] & E1 & E). rewrite E1. run. apply number_allocs in E1.
  assert (Hf1 : fresh (unput st1) (filled p k nx JSON_TYPE_UNKNOWN UZero h0)) by by apply (fresh_same st).
  destruct ds as [|d ds]; injection E as <- <-; [by eexists|]. rewrite put_filled. run. eexists. split; [done|].
  split; [by eapply fresh_filled|]. eexists ∅, _, _. split_and!; [constructor|solve_disjoint..|]. by rewrite (left_id_L ∅ _).
Qed.

Lemma keyword_refines : refines (heap_parse_keyword buf) (json_parse_keyword buf).
Proof.
  intros p k nx h0 st r st' Hp Hh Hf E. unfold json_parse_keyword, heap_parse_keyword in *. cbn [h_st h_heap].
  apply bind_done in E as ([ch st1] & E1 & E). rewrite E1. run. apply input_allocs in E1.
  assert (Ek : match keyword ch, keyword_type ch with
               | Some (m, v), Some (m', ty) => m = m' /\ value_rep ∅ ty UZero v
               | None, None => True
               | _, _ => False
               end).
  { unfold keyword, keyword_type. repeat (destruct (ch =? _); [split; [done|constructor]|]). done. }
  destruct (keyword ch) as [[m v]|], (keyword_type ch) as [[m' ty]|]; try done.
  2:{ injection E as <- <-. eexists. split; [done|]. split; [by apply (fresh_same st)|done]. }
  destruct Ek as [<- Hv]. rewrite put_filled. run. apply bind_done in E as ([m2 st2] & E2 & [= <- <-]). rewrite E2. run.
  apply keyword_allocs in E2. eexists. split; [by destruct m2|].
  split. { eapply fresh_filled, (fresh_same st); [|exact Hf]. unfold same_allocs in *. cbn. congruence. }
  destruct m2; cbn [fills].
  - eexists ∅, _, _. split_and!; [done|solve_disjoint..|]. by rewrite (left_id_L ∅ _).
  - eexists ∅, ∅, ty, UZero. split_and!; [constructor|solve_disjoint..|]. by rewrite !(left_id_L ∅ _).
Qed.
(** *** Children

    The loops of [Json] over elements and properties are one loop over children. *)
Abbreviation child := (option (list Z) * json)%type.
Fixpoint child_loop (fuel : nat) (parse_child : pst -> outcome (parsed child * pst)) (close : Z) (st : pst)
    : outcome (parsed (list child) * pst) :=
  match fuel with
  | O => OutOfFuel
  | S fuel' =>
      let '(ok, st) := calloc alloc st in
      if negb ok then Done (Error, st)
      else
        '(r, st) ← parse_child st;
        match r with
        | Match v =>
            '(ch, st) ← input buf st;
            if ch =? close then Done (Match [v], st)
            else if negb (ch =? 44) then Done (Error, st)
            else
              '(r, st) ← child_loop fuel' parse_child close st;
              Done (match r with Match l => Match (v :: l) | _ => Error end, st)
        | _ => Done (Error, st)
        end
  end.
Definition element (parse_value : parser) (st : pst) : outcome (parsed child * pst) :=
  '(r, st) ← parse_value st;
  Done (match r with Match v => Match (None, v) | NoMatch => NoMatch | Error => Error end, st).

Lemma object_children fuel fp st : object_loop buf alloc fuel fp st = child_loop fuel (json_parse_property buf alloc fp) 125 st.
Proof.
  revert st. induction fuel as [|fuel IH]; intros st; [done|]. cbn [object_loop child_loop].
  destruct (calloc alloc st) as [ok st1]. destruct (negb ok); [done|]. apply bind_ext. intros [r st2]. destruct r; try done.
  apply bind_ext. intros [ch st3]. by rewrite IH.
Qed.
Lemma array_children fuel fp st r st' : array_loop buf alloc fuel fp st = Done (r, st') ->
  exists r', child_loop fuel (element fp) 93 st = Done (r', st') /\
    match r with Match l => r' = Match (map (pair None) l) | _ => r' = Error end.
Proof.
  revert st r st'. induction fuel as [|fuel IH]; intros st r st' E; [done|]. cbn [array_loop child_loop] in *.
  destruct (calloc alloc st) as [ok st1]. destruct (negb ok); [injection E as <- <-; by eexists|].
  apply bind_done in E as ([rv st2] & E2 & E). 
  assert (Ee : element fp st1 = Done (match rv with Match v => Match (None, v) | NoMatch => NoMatch | Error => Error end, st2))
    by (unfold element; by rewrite E2).
  rewrite Ee. run.
  destruct rv as [| |v]; [injection E as <- <-; by eexists..|].
  apply bind_done in E as ([ch st3] & E3 & E). rewrite E3. run.
  destruct (ch =? 93); [injection E as <- <-; by eexists|]. destruct (negb (ch =? 44)); [injection E as <- <-; by eexists|].
  apply bind_done in E as ([rl st4] & E4 & [= <- <-]). destruct (IH _ _ _ E4) as (rl' & -> & Hl). run. eexists. split; [done|].
  destruct rl; by subst rl'.
Qed.

Lemma child_loop_match fuel fp close st r st' : child_loop fuel fp close st = Done (r, st') -> r <> NoMatch.
Proof.
  destruct fuel as [|fuel]; [done|]. cbn [child_loop]. destruct (calloc alloc st) as [ok st1]. destruct (negb ok); [congruence|].
  intros E. apply bind_done in E as ([[| |v] st2] & _ & E); [congruence..|]. apply bind_done in E as ([ch st3] & _ & E).
  destruct (ch =? close); [congruence|]. destruct (negb (ch =? 44)); [congruence|].
  apply bind_done in E as ([rl st4] & _ & [= <- <-]). by destruct rl.
Qed.

(** What parsing a child does to its value. *)
Definition child_fills (r : parsed child) (p : Z) (h0 h' : json_heap) : Prop :=
  match r with
  | Match (k, v) => exists mk mv kp ty u, key_rep mk kp k /\ value_rep mv ty u v /\ mk ##ₘ mv /\ mk ##ₘ h0 /\ mv ##ₘ h0 /\
      mk !! p = None /\ mv !! p = None /\ h' = filled p kp 0 ty u (mk ∪ (mv ∪ h0))
  | _ => exists lost c, lost ##ₘ h0 /\ lost !! p = None /\ h' = <[p := BValue c]> (lost ∪ h0)
  end.
Definition child_refines (hp : hparser) (fp : pst -> outcome (parsed child * pst)) : Prop := forall p h0 st r st',
  p <> 0 -> h0 !! p = None -> fresh st (<[p := BValue zero_value]> h0) -> fp st = Done (r, st') ->
  exists h', hp p (Hst st (<[p := BValue zero_value]> h0)) = Done (erase r, Hst st' h') /\ fresh st' h' /\ child_fills r p h0 h'.

Lemma element_refines hp fp : refines hp fp -> child_refines hp (element fp).
Proof.
  intros Hr p h0 st r st' Hp Hh Hf E. unfold element in E. apply bind_done in E as ([rv st1] & E1 & [= <- <-]).
  destruct (Hr p 0 0 h0 st rv st1) as (h' & Eh & Hf' & Hfill); [done..|]. exists h'.
  change (<[p := BValue zero_value]> h0) with (filled p 0 0 JSON_TYPE_UNKNOWN UZero h0). rewrite Eh. split; [by destruct rv|].
  split; [done|]. destruct rv as [| |v]; cbn [fills child_fills] in *.
  - exists ∅, zero_value. rewrite (left_id_L ∅ _). split_and!; [solve_disjoint..|done].
  - destruct Hfill as (lost & m & ty & u & _ & D1 & D2 & D3 & N1 & N2 & ->). exists (lost ∪ m). eexists.
    split_and!; [solve_disjoint..|]. by rewrite (assoc_L (∪)).
  - destruct Hfill as (m & ty & u & Hv & D & N & ->). exists ∅, m, 0, ty, u. split_and!; try solve_disjoint; [constructor|].
    by rewrite (left_id_L ∅ _).
Qed.

Lemma property_refines hp fp : refines hp fp -> child_refines (heap_parse_property buf alloc hp) (json_parse_property buf alloc fp).
Proof.
  intros Hr p h0 st r st' Hp Hh Hf E. unfold json_parse_property, heap_parse_property in *. cbn [h_st h_heap].
  apply bind_done in E as (st1 & E1 & E). rewrite E1. run. apply skip_allocs in E1. apply (fresh_same _ _ _ E1) in Hf.
  apply bind_done in E as ([rk st2] & E2 & E). pose proof (parse_string_refines _ _ _ _ Hf E2) as Hs.
  destruct rk as [| |k].
  1,2: destruct Hs as [-> Hf2]; run; injection E as <- <-; eexists; split; [done|]; split; [done|]; exists ∅, zero_value;
    rewrite (left_id_L ∅ _); split_and!; [solve_disjoint..|done].
  destruct Hs as (q & mk & -> & Hk & Dk & Hf2). run. cbn [h_st h_heap]. unfold zero_value in *.
  fold (filled p 0 0 JSON_TYPE_UNKNOWN UZero h0) in *.
  assert (Em : mk ∪ filled p 0 0 JSON_TYPE_UNKNOWN UZero h0 = filled p 0 0 JSON_TYPE_UNKNOWN UZero (mk ∪ h0)).
  { unfold filled in *. rewrite insert_union_r; [done|]. by split_disjoint. }
  rewrite Em in *. rewrite put_key. run. apply (fresh_filled _ _ _ _ _ _ q 0 JSON_TYPE_UNKNOWN UZero) in Hf2.
  unfold filled in Dk. split_disjoint.
  apply bind_done in E as (st3 & E3 & E). rewrite E3. run. apply skip_allocs in E3. apply (fresh_same _ _ _ E3) in Hf2.
  apply bind_done in E as ([ch st4] & E4 & E). rewrite E4. run. apply input_allocs in E4. apply (fresh_same _ _ _ E4) in Hf2.
  destruct (negb (ch =? 58)).
  { injection E as <- <-. eexists. split; [done|]. split; [done|]. exists mk. eexists. by split_and!; [| |done]. }
  apply bind_done in E as ([rv st5] & E5 & [= <- <-]).
  destruct (Hr p q 0 (mk ∪ h0) st4 rv st5) as (h' & -> & Hf' & Hfill); [done|solve_disjoint|done..|]. run.
  exists h'. split; [by destruct rv|]. split; [done|]. destruct rv as [| |v]; cbn [fills child_fills] in *.
  - exists mk. eexists. by split_and!; [| |exact Hfill].
  - destruct Hfill as (lost & m & ty & u & _ & D1 & D2 & D3 & N1 & N2 & ->). exists (lost ∪ (m ∪ mk)). eexists.
    split_and!; [solve_disjoint..|]. unfold filled. f_equal. heap_eq.
  - destruct Hfill as (m & ty & u & Hv & D & N & ->). exists mk, m, q, ty, u. split_and!; try solve_disjoint; try done.
    unfold filled. f_equal. heap_eq.
Qed.

Lemma get_filled p k nx ty u h : get_value (filled p k nx ty u h) p = Done (JsonValue k ty u nx).
Proof. apply get_value_at. Qed.
Lemma filled_comm p k nx ty u p' k' nx' ty' u' h : p <> p' ->
  filled p k nx ty u (filled p' k' nx' ty' u' h) = filled p' k' nx' ty' u' (filled p k nx ty u h).
Proof. intros Hp. unfold filled. by rewrite insert_insert_ne. Qed.
Lemma link_first ct ck cnx cty v h : link ct 0 v (filled ct ck cnx cty UZero h) = Done (filled ct ck cnx cty (UValue v) h).
Proof. unfold link. rewrite get_filled. run. cbn [v_u u_value]. run. cbn [Z.eqb]. by rewrite put_u. Qed.
Lemma link_after ct ck cnx cty first last lk nx lty lu v h : ct <> last -> first <> 0 -> last <> 0 ->
  link ct last v (filled ct ck cnx cty (UValue first) (filled last lk nx lty lu h)) =
  Done (filled ct ck cnx cty (UValue first) (filled last lk v lty lu h)).
Proof.
  intros Hne Hf Hl. unfold link. rewrite get_filled. run. cbn [v_u u_value]. run.
  rewrite (proj2 (Z.eqb_neq _ _) Hf). run. rewrite (proj2 (Z.eqb_neq _ _) Hl). cbn [negb].
  rewrite (filled_comm ct) by done. rewrite put_link. by rewrite filled_comm.
Qed.

(** The children that were linked, and what was lost, behind the last child so far. *)
Record chained (r : parsed (list child)) (h0 lost m : json_heap) (q : Z) : Prop := {
  ch_list : exists l, list_rep m q l /\ match r with Match l' => l = l' /\ lost = ∅ /\ q <> 0 | _ => True end;
  ch_apart : m ##ₘ h0 /\ lost ##ₘ h0 /\ lost ##ₘ m }.

Lemma chained_nothing (r : parsed (list child)) h0 : (forall l, r <> Match l) -> chained r h0 ∅ ∅ 0.
Proof.
  intros Hr. split; [exists []; split; [constructor|]|split_and!; solve_disjoint]. destruct r; [done|done|by destruct (Hr a)].
Qed.

(** One more child in front. *)
Lemma chained_cons p kp ty u k v mk mv base lost m q l : p <> 0 -> key_rep mk kp k -> value_rep mv ty u v ->
  mk ##ₘ mv -> mk ##ₘ base -> mv ##ₘ base -> mk !! p = None -> mv !! p = None -> base !! p = None ->
  list_rep m q l -> m ##ₘ filled p kp 0 ty u (mk ∪ (mv ∪ base)) -> lost ##ₘ filled p kp 0 ty u (mk ∪ (mv ∪ base)) -> lost ##ₘ m ->
  let m1 := filled p kp q ty u (mk ∪ (mv ∪ m)) in
  list_rep m1 p ((k, v) :: l) /\ m1 ##ₘ base /\ lost ##ₘ base /\ lost ##ₘ m1.
Proof.
  intros Hp Hk Hv D1 D2 D3 N1 N2 N3 Hl E1 E2 E3 m1. unfold m1, filled in *. split_disjoint.
  split; [constructor; try done; solve_disjoint|]. split_and!; solve_disjoint.
Qed.

Lemma children_after hp fp close ct ck cnx cty first : child_refines hp fp -> first <> 0 -> ct <> 0 ->
  forall fuel last lk lty lu h0 st r st', last <> 0 -> ct <> last -> h0 !! ct = None -> h0 !! last = None ->
  let H q h := filled ct ck cnx cty (UValue first) (filled last lk q lty lu h) in
  fresh st (H 0 h0) -> child_loop fuel fp close st = Done (r, st') ->
  exists lost m q, let h' := H q (lost ∪ (m ∪ h0)) in
    children_loop buf alloc fuel hp close ct last (Hst st (H 0 h0)) = Done (erase r, Hst st' h') /\ fresh st' h' /\
    chained r (H 0 h0) lost m q.
Proof.
  intros Hc Hfirst Hct. induction fuel as [|fuel IH]; intros last lk lty lu h0 st r st' Hlast Hne N1 N2 H Hf E; [done|].
  cbn [child_loop children_loop] in *. destruct (calloc alloc st) as [ok st1] eqn:Ea.
  pose proof (new_block_spec st (H 0 h0) (BValue zero_value) ok st1 Hf Ea) as Hn.
  assert (Hnothing : H 0 (∅ ∪ (∅ ∪ h0)) = H 0 h0) by by rewrite !(left_id_L ∅ _).
  destruct ok; cbn [negb] in E.
  2:{ destruct Hn as [-> Hf1]. injection E as <- <-. exists ∅, ∅, 0. cbv zeta. rewrite Hnothing. split_and!; [done..|].
      by apply chained_nothing. }
  destruct Hn as (p & -> & Hp & Np & Hf1). rewrite (proj2 (Z.eqb_neq _ _) Hp).
  apply bind_done in E as ([rv st2] & E2 & E).
  destruct (Hc p (H 0 h0) st1 rv st2) as (h2 & -> & Hf2 & Hfill); [done..|]. run. cbn [h_st h_heap].
  destruct rv as [| |[k v]].
  1,2: destruct Hfill as (lost & c & D & N & ->); cbn [erase]; rewrite free_at by solve_disjoint; run; injection E as <- <-;
    exists lost, ∅, 0; cbv zeta;
    assert (Hl : H 0 (lost ∪ (∅ ∪ h0)) = lost ∪ H 0 h0) by (unfold H, filled in *; heap_eq);
    rewrite Hl; split_and!; [done|apply (fresh_part _ _ _ Hf2); intros a; rewrite lookup_insert_None; tauto|];
    split; [exists []; by split; [constructor|]|split_and!; solve_disjoint].
  destruct Hfill as (mk & mv & kp & ty & u & Hk & Hv & D1 & D2 & D3 & N3 & N4 & ->). cbn [erase].
  assert (Nct : ct <> p /\ last <> p /\ h0 !! p = None) by (unfold H, filled in Np; split_disjoint; done). destruct Nct as (Ncp & Nlp & Nhp).
  set (h0' := filled last lk p lty lu (mk ∪ (mv ∪ h0))).
  set (H' q h := filled ct ck cnx cty (UValue first) (filled p kp q ty u h)).
  assert (Eh : filled p kp 0 ty u (mk ∪ (mv ∪ H 0 h0)) = filled ct ck cnx cty (UValue first) (filled last lk 0 lty lu (filled p kp 0 ty u (mk ∪ (mv ∪ h0))))).
  { unfold H, filled in *. heap_eq. }
  rewrite Eh, link_after by done. run.
  assert (Eh' : filled ct ck cnx cty (UValue first) (filled last lk p lty lu (filled p kp 0 ty u (mk ∪ (mv ∪ h0)))) = H' 0 h0').
  { unfold H', h0'. f_equal. by apply filled_comm. }
  rewrite Eh'. rewrite Eh in Hf2.
  assert (Hf3 : fresh st2 (H' 0 h0')).
  { apply (fresh_part _ _ _ Hf2). unfold H', h0', filled. intros a. rewrite !lookup_insert_None. tauto. }
  assert (Hstep : forall lost m q l, list_rep m q l -> m ##ₘ H' 0 h0' -> lost ##ₘ H' 0 h0' -> lost ##ₘ m ->
    let m1 := filled p kp q ty u (mk ∪ (mv ∪ m)) in
    H p (lost ∪ (m1 ∪ h0)) = H' q (lost ∪ (m ∪ h0')) /\ list_rep m1 p ((k, v) :: l) /\
    m1 ##ₘ H 0 h0 /\ lost ##ₘ H 0 h0 /\ lost ##ₘ m1).
  { intros lost m q l Hl E1 E3 E4 m1. split; [unfold H, H', h0', m1, filled in *; heap_eq|].
    apply (chained_cons p kp ty u k v mk mv (H 0 h0)); try done; unfold H, H', h0', filled in *; solve_disjoint. }
  apply bind_done in E as ([ch st3] & E3 & E). rewrite E3. run. apply input_allocs in E3. apply (fresh_same _ _ _ E3) in Hf3.
  destruct (Hstep ∅ ∅ 0 []) as (S1 & S2 & S3 & S4 & S5); [constructor|solve_disjoint..|]. rewrite !(left_id_L ∅ _) in S1.
  destruct (ch =? close).
  { injection E as <- <-. eexists ∅, _, p. cbv zeta. rewrite (left_id_L ∅ _), S1. split_and!; [done..|].
    split; [eexists; split; [exact S2|done]|done]. }
  destruct (negb (ch =? 44)).
  { injection E as <- <-. eexists ∅, _, p. cbv zeta. rewrite (left_id_L ∅ _), S1. split_and!; [done..|].
    split; [eexists; split; [exact S2|done]|done]. }
  apply bind_done in E as ([rl st4] & E4 & [= <- <-]).
  destruct (IH p kp ty u h0' st3 rl st4) as (lost & m & q & E5 & Hf4 & [(l & Hl & Hr) (A1 & A2 & A3)]);
    [done..|unfold h0', H, filled in *; solve_disjoint|unfold h0', H, filled in *; solve_disjoint|done|done|].
  change (filled ct ck cnx cty (UValue first) (filled p kp 0 ty u h0')) with (H' 0 h0') in E5. rewrite E5.
  destruct (Hstep lost m q l) as (T1 & T2 & T3 & T4 & T5); [done..|]. fold (H' q (lost ∪ (m ∪ h0'))) in *.
  eexists lost, _, p. cbv zeta. rewrite T1. apply child_loop_match in E4.
  split_and!; [by destruct rl|exact Hf4|].
  split; [|done]. eexists; split; [exact T2|]. destruct rl; [done..|]. destruct Hr as (-> & -> & _). done.
Qed.

Lemma children_first hp fp close fuel p k nx ty h0 st r st' : child_refines hp fp -> p <> 0 -> h0 !! p = None ->
  fresh st (filled p k nx ty UZero h0) -> child_loop fuel fp close st = Done (r, st') ->
  exists lost m q, let h' := filled p k nx ty (if q =? 0 then UZero else UValue q) (lost ∪ (m ∪ h0)) in
    children_loop buf alloc fuel hp close p 0 (Hst st (filled p k nx ty UZero h0)) = Done (erase r, Hst st' h') /\ fresh st' h' /\
    chained r (filled p k nx ty UZero h0) lost m q.
Proof.
  intros Hc Hp Np Hf E. destruct fuel as [|fuel]; [done|]. set (H := filled p k nx ty UZero h0) in *.
  cbn [child_loop children_loop] in *. destruct (calloc alloc st) as [ok st1] eqn:Ea.
  pose proof (new_block_spec st H (BValue zero_value) ok st1 Hf Ea) as Hn. destruct ok; cbn [negb] in E.
  2:{ destruct Hn as [-> Hf1]. injection E as <- <-. exists ∅, ∅, 0. cbv zeta. cbn [Z.eqb]. rewrite !(left_id_L ∅ _). split_and!; [done..|].
      by apply chained_nothing. }
  destruct Hn as (c & -> & Hcp & Nc & Hf1). rewrite (proj2 (Z.eqb_neq _ _) Hcp).
  apply bind_done in E as ([rv st2] & E2 & E).
  destruct (Hc c H st1 rv st2) as (h2 & -> & Hf2 & Hfill); [done..|]. run. cbn [h_st h_heap].
  destruct rv as [| |[ck cv]].
  1,2: destruct Hfill as (lost & b & D & N & ->); cbn [erase]; rewrite free_at by solve_disjoint; run; injection E as <- <-;
    exists lost, ∅, 0; cbv zeta; cbn [Z.eqb];
    assert (Hl : filled p k nx ty UZero (lost ∪ (∅ ∪ h0)) = lost ∪ H) by (unfold H, filled in *; heap_eq);
    rewrite Hl; split_and!; [done|apply (fresh_part _ _ _ Hf2); intros a; rewrite lookup_insert_None; tauto|];
    split; [exists []; by split; [constructor|]|split_and!; solve_disjoint].
  destruct Hfill as (mk & mv & kp & cty & u & Hk & Hv & D1 & D2 & D3 & N3 & N4 & ->). cbn [erase].
  assert (Npc : p <> c /\ h0 !! c = None) by (unfold H, filled in Nc; split_disjoint; done). destruct Npc as (Npc & Nhc).
  assert (Eh : filled c kp 0 cty u (mk ∪ (mv ∪ H)) = filled p k nx ty UZero (filled c kp 0 cty u (mk ∪ (mv ∪ h0)))).
  { unfold H, filled in *. heap_eq. }
  rewrite Eh in *. rewrite link_first. run.
  assert (Hf3 : fresh st2 (filled p k nx ty (UValue c) (filled c kp 0 cty u (mk ∪ (mv ∪ h0))))) by by eapply fresh_filled.
  assert (Hstep : forall lost m q l, list_rep m q l -> m ##ₘ filled p k nx ty (UValue c) (filled c kp 0 cty u (mk ∪ (mv ∪ h0))) ->
    lost ##ₘ filled p k nx ty (UValue c) (filled c kp 0 cty u (mk ∪ (mv ∪ h0))) -> lost ##ₘ m ->
    let m1 := filled c kp q cty u (mk ∪ (mv ∪ m)) in
    filled p k nx ty (UValue c) (lost ∪ (m1 ∪ h0)) =
      filled p k nx ty (UValue c) (filled c kp q cty u (lost ∪ (m ∪ (mk ∪ (mv ∪ h0))))) /\
    list_rep m1 c ((ck, cv) :: l) /\ m1 ##ₘ H /\ lost ##ₘ H /\ lost ##ₘ m1).
  { intros lost m q l Hl E1 E3 E4 m1. split; [unfold H, m1, filled in *; heap_eq|].
    apply (chained_cons c kp cty u ck cv mk mv H); try done; unfold H, filled in *; solve_disjoint. }
  apply bind_done in E as ([ch st3] & E3 & E). rewrite E3. run. apply input_allocs in E3. apply (fresh_same _ _ _ E3) in Hf3.
  destruct (Hstep ∅ ∅ 0 []) as (S1 & S2 & S3 & S4 & S5); [constructor|solve_disjoint..|]. rewrite !(left_id_L ∅ _) in S1.
  destruct (ch =? close).
  { injection E as <- <-. eexists ∅, _, c. cbv zeta. rewrite (proj2 (Z.eqb_neq _ _) Hcp), (left_id_L ∅ _), S1. split_and!; [done..|].
    split; [eexists; split; [exact S2|done]|done]. }
  destruct (negb (ch =? 44)).
  { injection E as <- <-. eexists ∅, _, c. cbv zeta. rewrite (proj2 (Z.eqb_neq _ _) Hcp), (left_id_L ∅ _), S1. split_and!; [done..|].
    split; [eexists; split; [exact S2|done]|done]. }
  apply bind_done in E as ([rl st4] & E4 & [= <- <-]).
  destruct (children_after hp fp close p k nx ty c Hc Hcp Hp fuel c kp cty u (mk ∪ (mv ∪ h0)) st3 rl st4)
    as (lost & m & q & E5 & Hf4 & [(l & Hl & Hr) (A1 & A2 & A3)]);
    [done..|unfold H, filled in *; solve_disjoint|unfold H, filled in *; solve_disjoint|done|done|].
  rewrite E5. destruct (Hstep lost m q l) as (T1 & T2 & T3 & T4 & T5); [done..|]. apply child_loop_match in E4.
  eexists lost, _, c. cbv zeta. rewrite (proj2 (Z.eqb_neq _ _) Hcp), T1. split_and!; [by destruct rl|exact Hf4|].
  split; [|done]. eexists; split; [exact T2|]. destruct rl; [done..|]. destruct Hr as (-> & -> & _). done.
Qed.

(** *** Values *)

Lemma list_rep_empty m l : list_rep m 0 l -> m = ∅ /\ l = [].
Proof. by inversion 1. Qed.

(** The children of a container that was given zeros. *)
Lemma container_refines hp fp close fuel ty (mk_value : list child -> json) p k nx h0 st r st' : child_refines hp fp ->
  ty = JSON_TYPE_ARRAY \/ ty = JSON_TYPE_OBJECT ->
  (forall m q l, q <> 0 -> list_rep m q l -> r = Match l -> value_rep m ty (UValue q) (mk_value l)) ->
  p <> 0 -> h0 !! p = None -> fresh st (filled p k nx JSON_TYPE_UNKNOWN UZero h0) -> child_loop fuel fp close st = Done (r, st') ->
  exists h', (h ← put_value (filled p k nx JSON_TYPE_UNKNOWN UZero h0) p (fun c => set_content c ty (v_u c));
              children_loop buf alloc fuel hp close p 0 (Hst st h)) = Done (erase r, Hst st' h') /\ fresh st' h' /\
    fills (match r with Match l => Match (mk_value l) | NoMatch => NoMatch | Error => Error end) p k nx h0 h'.
Proof.
  intros Hc Hty Hv Hp Np Hf E. rewrite put_type. run.
  destruct (children_first hp fp close fuel p k nx ty h0 st r st') as (lost & m & q & E1 & Hf' & [(l & Hl & Hr) (A1 & A2 & A3)]);
    [done..|by eapply fresh_filled|done|].
  rewrite E1. eexists. split; [done|]. split; [done|]. apply child_loop_match in E. unfold filled in A1, A2. split_disjoint.
  destruct r as [| |l']; [done| |]; cbn [fills].
  - destruct (decide (q = 0)) as [Hq|Hq]; [rewrite (proj2 (Z.eqb_eq _ _) Hq)|rewrite (proj2 (Z.eqb_neq _ _) Hq)].
    + rewrite Hq in Hl. apply list_rep_empty in Hl as [-> ->]. exists lost, ∅, ty, UZero. split_and!; try done; [constructor|solve_disjoint..].
    + exists lost, m, ty, (UValue q). split_and!; try done. by eapply part_children.
  - destruct Hr as (-> & -> & Hq). rewrite (proj2 (Z.eqb_neq _ _) Hq), (left_id_L ∅ _).
    exists m, ty, (UValue q). split_and!; try done. by apply Hv.
Qed.

Lemma elements_values (l : list json) : map snd (map (pair (None : option (list Z))) l) = l.
Proof. induction l as [|v l IH]; [done|]. cbn. by rewrite IH. Qed.
Lemma array_refines hp fp fuel : refines hp fp -> refines (heap_parse_array buf alloc fuel hp) (json_parse_array buf alloc fuel fp).
Proof.
  intros Hr p k nx h0 st r st' Hp Hh Hf E. unfold json_parse_array, heap_parse_array in *. cbn [h_st h_heap].
  apply bind_done in E as ([ch st1] & E1 & E). rewrite E1. run. apply input_allocs in E1. apply (fresh_same _ _ _ E1) in Hf.
  destruct (negb (ch =? 91)); [injection E as <- <-; by eexists|].
  apply bind_done in E as ([rl st2] & E2 & [= <- <-]). apply array_children in E2 as (rl' & E2 & Hrl).
  destruct (container_refines hp (element fp) 93 fuel JSON_TYPE_ARRAY (fun l => JArray (map snd l)) p k nx h0 st1 rl' st2)
    as (h' & -> & Hf' & Hfill); try done; [by apply element_refines|by left| |].
  { intros m q l Hq Hl ->. destruct rl as [| |l0]; try done. injection Hrl as ->. rewrite elements_values. by constructor. }
  exists h'. split; [destruct rl; by subst rl'|]. split; [done|]. destruct rl; subst rl'; cbn in *; try done.
  by rewrite elements_values in Hfill.
Qed.

Lemma object_refines hp fp fuel : refines hp fp -> refines (heap_parse_object buf alloc fuel hp) (json_parse_object buf alloc fuel fp).
Proof.
  intros Hr p k nx h0 st r st' Hp Hh Hf E. unfold json_parse_object, heap_parse_object in *. cbn [h_st h_heap].
  apply bind_done in E as ([ch st1] & E1 & E). rewrite E1. run. apply input_allocs in E1. apply (fresh_same _ _ _ E1) in Hf.
  destruct (negb (ch =? 123)); [injection E as <- <-; by eexists|].
  apply bind_done in E as ([rl st2] & E2 & [= <- <-]). rewrite object_children in E2.
  destruct (container_refines (heap_parse_property buf alloc hp) (json_parse_property buf alloc fp) 125 fuel JSON_TYPE_OBJECT JObject p k nx h0 st1 rl st2)
    as (h' & -> & Hf' & Hfill); try done; [by apply property_refines|by right| |].
  { intros m q l Hq Hl _. by constructor. }
  apply child_loop_match in E2. exists h'. split; [by destruct rl|]. split; [done|]. by destruct rl.
Qed.

Lemma or_else_refines hp1 hp2 fp1 fp2 : refines hp1 fp1 -> refines hp2 fp2 -> refines (heap_or_else hp1 hp2) (or_else fp1 fp2).
Proof.
  intros H1 H2 p k nx h0 st r st' Hp Hh Hf E. unfold or_else, heap_or_else in *.
  apply bind_done in E as ([r1 st1] & E1 & E). destruct (H1 p k nx h0 st r1 st1) as (h1 & -> & Hf1 & Hfill); [done..|]. run.
  destruct r1 as [| |v]; cbn [erase fills] in *; [subst h1; by apply H2|injection E as <- <-; by eexists..].
Qed.

Lemma value_refines fuel : refines (heap_parse_value buf alloc fuel) (json_parse_value buf alloc fuel).
Proof.
  induction fuel as [|fuel IH]; intros p k nx h0 st r st' Hp Hh Hf E; [done|]. cbn [json_parse_value heap_parse_value h_st h_heap] in *.
  apply bind_done in E as (st1 & E1 & E). rewrite E1. run. apply skip_allocs in E1. apply (fresh_same _ _ _ E1) in Hf.
  apply bind_done in E as ([r1 st2] & E2 & E).
  assert (Hall : refines
    (heap_or_else (heap_parse_object buf alloc fuel (heap_parse_value buf alloc fuel))
      (heap_or_else (heap_parse_array buf alloc fuel (heap_parse_value buf alloc fuel))
      (heap_or_else (heap_string_value buf alloc) (heap_or_else (heap_parse_number buf) (heap_parse_keyword buf)))))
    (or_else (json_parse_object buf alloc fuel (json_parse_value buf alloc fuel))
      (or_else (json_parse_array buf alloc fuel (json_parse_value buf alloc fuel))
      (or_else (parse_string_value buf alloc) (or_else (json_parse_number buf) (json_parse_keyword buf)))))).
  { repeat apply or_else_refines; [by apply object_refines|by apply array_refines|apply string_value_refines|apply number_refines|apply keyword_refines]. }
  destruct (Hall p k nx h0 st1 r1 st2) as (h' & -> & Hf' & Hfill); [done..|]. run. cbn [h_st h_heap].
  destruct r1 as [| |v]; cbn [erase].
  - injection E as <- <-. exists h'. split; [done|]. split; [done|]. cbn [fills] in *. subst h'.
    exists ∅, ∅, JSON_TYPE_UNKNOWN, UZero. rewrite !(left_id_L ∅ _). split_and!; try solve_disjoint; constructor.
  - apply bind_done in E as (st3 & E3 & [= <- <-]). rewrite E3. run. apply skip_allocs in E3. apply (fresh_same _ _ _ E3) in Hf'. by eexists.
  - apply bind_done in E as (st3 & E3 & [= <- <-]). rewrite E3. run. apply skip_allocs in E3. apply (fresh_same _ _ _ E3) in Hf'. by eexists.
Qed.
End Refinement.

(** ** The root *)

(** A value with its key and link, and its content in the heap [m]. *)
Definition tree_at (m : json_heap) (p : Z) (v : json) : Prop :=
  exists mv ty u, p <> 0 /\ value_rep mv ty u v /\ mv !! p = None /\ m = filled p 0 0 ty u mv.

Lemma free_tree f ty u p k nx mv rest : p <> 0 -> part_rep mv ty u -> mv ##ₘ rest -> mv !! p = None -> rest !! p = None ->
  (size mv <= f)%nat -> k = 0 -> json_free (S f) (filled p k nx ty u (mv ∪ rest)) p = Done rest.
Proof.
  intros Hp Hv D N1 N2 Hf ->. pose proof (free_node f p 0 None ty u nx ∅ mv rest Hp key_null) as H.
  rewrite (left_id_L ∅ _) in H. apply H; try solve_disjoint. intros r Dr. by apply free_part.
Qed.

Lemma json_root_refines buf alloc fuel h r : h !! 0 = None -> (forall a, 0 < a -> h !! a = None) -> parse_root buf alloc fuel = Done r ->
  match r with
  | Some v => exists root m, m ##ₘ h /\ tree_at m root v /\ forall release, heap_root buf alloc release fuel h = Done (root, m ∪ h)
  | None => exists lost, lost ##ₘ h /\ (exists lost', lost' ##ₘ h /\ heap_root buf alloc free fuel h = Done (0, lost' ∪ h)) /\
      exists f0, forall f, (f0 <= f)%nat -> heap_root buf alloc (json_free f) fuel h = Done (0, lost ∪ h)
  end.
Proof.
  intros H0 Hpos E. assert (Hf : fresh (Pst 0 0) h) by (split; [done|]; intros a Ha; apply Hpos; unfold address_of in Ha; lia).
  unfold parse_root in E. unfold heap_root. destruct (calloc alloc (Pst 0 0)) as [ok st] eqn:Ea.
  pose proof (new_block_spec alloc (Pst 0 0) h (BValue zero_value) ok st Hf Ea) as Hn. destruct ok; cbn [negb] in E.
  2:{ injection E as <-. destruct Hn as [Hn _]. rewrite Hn. cbn [Z.eqb h_heap]. exists ∅. split; [solve_disjoint|].
      split; [exists ∅; split; [solve_disjoint|]; by rewrite (left_id_L ∅ _)|]. exists 0%nat. intros f _. by rewrite (left_id_L ∅ _). }
  destruct Hn as (p & Hn & Hp & Np & Hf1). rewrite Hn, (proj2 (Z.eqb_neq _ _) Hp). apply bind_done in E as ([rv st2] & E2 & [= <-]).
  destruct (value_refines buf alloc fuel p 0 0 h st rv st2) as (h' & Eh & Hf' & Hfill); [done..|].
  change (<[p := BValue zero_value]> h) with (filled p 0 0 JSON_TYPE_UNKNOWN UZero h). rewrite Eh. run. cbn [h_heap].
  assert (Hfail : forall lost m ty u, part_rep m ty u -> m ##ₘ h -> lost ##ₘ h -> lost ##ₘ m -> m !! p = None -> lost !! p = None ->
    h' = filled p 0 0 ty u (lost ∪ (m ∪ h)) ->
    exists lost0, lost0 ##ₘ h /\ (exists lost', lost' ##ₘ h /\ (h1 ← free h' p; Done (0, h1)) = Done (0, lost' ∪ h)) /\
      exists f0, forall f, (f0 <= f)%nat -> (h1 ← json_free f h' p; Done (0, h1)) = Done (0, lost0 ∪ h)).
  { intros lost m ty u Hm D1 D2 D3 N1 N2 ->. exists lost. split; [done|]. split.
    - exists (lost ∪ m). split; [solve_disjoint|]. unfold filled. rewrite free_at by solve_disjoint. run. by rewrite (assoc_L (∪)).
    - exists (S (size m)). intros [|f] Hlf; [lia|].
      assert (Em : filled p 0 0 ty u (lost ∪ (m ∪ h)) = filled p 0 0 ty u (m ∪ (lost ∪ h))) by (unfold filled; f_equal; heap_eq).
      rewrite Em, (free_tree f ty u p 0 0 m (lost ∪ h)) by (done || lia || solve_disjoint). done. }
  destruct rv as [| |v]; cbn [fills erase] in *.
  - apply (Hfail ∅ ∅ JSON_TYPE_UNKNOWN UZero); try solve_disjoint; [constructor|]. by rewrite !(left_id_L ∅ _).
  - destruct Hfill as (lost & m & ty & u & Hm & D1 & D2 & D3 & N1 & N2 & ->). by apply (Hfail lost m ty u).
  - destruct Hfill as (m & ty & u & Hv & D & N & ->). exists p, (filled p 0 0 ty u m). unfold filled.
    split; [solve_disjoint|]. split; [by exists m, ty, u|]. intros _. by rewrite <- insert_union_l.
Qed.

(** ** Walking the cells *)

Lemma get_value_part (m rest : json_heap) p c : m !! p = Some (BValue c) -> get_value (m ∪ rest) p = Done c.
Proof. intros E. unfold get_value. by rewrite (lookup_union_Some_l _ _ _ _ E). Qed.

(** The child found is where the reader of [Json] finds it, and holds the same value. *)
Definition found (h : json_heap) (o : option json) (q : Z) : Prop :=
  match o with
  | None => q = 0
  | Some v => exists c mv, q <> 0 /\ h !! q = Some (BValue c) /\ value_rep mv (v_type c) (v_u c) v /\ mv ⊆ h
  end.
Lemma found_mono h h' o q : h ⊆ h' -> found h o q -> found h' o q.
Proof.
  intros Hs. destruct o as [v|]; [|done]. intros (c & mv & Hq & Hc & Hv & Hm). exists c, mv. split_and!; try done.
  - by eapply lookup_weaken.
  - by etrans.
Qed.

Lemma heap_find_refines m p l : list_rep m p l -> forall n rest key, m ##ₘ rest -> rest !! 0 = None -> m !! 0 = None -> (size m <= n)%nat ->
  match find_key l key with
  | Done o => exists q, heap_find n (m ∪ rest) p key = Done q /\ found (m ∪ rest) o q
  | Fault e => heap_find n (m ∪ rest) p key = Fault e
  | OutOfFuel => False
  end.
Proof.
  induction 1 as [|p kp ty u next k v l mk mv ml Hp Hk Hv Hl IH D1 D2 D3 N1 N2 N3]; intros n rest key Hd R0 M0 Hn.
  { cbn. exists 0. by destruct n. }
  rewrite map_size_insert_None, !map_size_disj_union in Hn by solve_disjoint. destruct n as [|n]; [lia|].
  set (M := <[p := BValue (JsonValue kp ty u next)]> (mk ∪ (mv ∪ ml))) in *.
  cbn [heap_find find_key]. rewrite (proj2 (Z.eqb_neq _ _) Hp).
  rewrite (get_value_part M rest p (JsonValue kp ty u next)) by (unfold M; by rewrite lookup_insert_eq). run. cbn [v_key v_next].
  destruct Hk as [|kp s Hkp]; cbn [of_option].
  { run. unfold heap_string. by rewrite (proj2 (lookup_union_None M rest 0) (conj M0 R0)). }
  assert (Ek : heap_string (M ∪ rest) kp = Done s).
  { unfold heap_string. rewrite (lookup_union_Some_l M rest kp (BString s)); [done|]. unfold M. apply lookup_singleton_None in N1.
    rewrite lookup_insert_ne by congruence. by rewrite (lookup_union_Some_l {[kp := BString s]} _ kp (BString s)) by apply lookup_singleton_eq. }
  rewrite Ek. run. case_bool_decide as Es.
  { exists p. split; [done|]. exists (JsonValue kp ty u next), mv. split_and!; [done| |done|].
    - apply lookup_union_Some_l. unfold M. by rewrite lookup_insert_eq.
    - etrans; [|apply map_union_subseteq_l]. unfold M. apply insert_subseteq_r; [done|]. etrans; [apply (map_union_subseteq_l mv ml)|].
      apply map_union_subseteq_r. solve_disjoint. }
  assert (EM : M ∪ rest = ml ∪ <[p := BValue (JsonValue kp ty u next)]> ({[kp := BString s]} ∪ (mv ∪ rest))).
  { unfold M in *. heap_eq. }
  rewrite EM. apply IH; [unfold M in *; solve_disjoint|unfold M in *; solve_disjoint|unfold M in *; solve_disjoint|lia].
Qed.

Lemma heap_count_refines m p l : list_rep m p l -> forall n rest, m ##ₘ rest -> (size m <= n)%nat ->
  heap_count n (m ∪ rest) p = Done (zlen l).
Proof.
  induction 1 as [|p kp ty u next k v l mk mv ml Hp Hk Hv Hl IH D1 D2 D3 N1 N2 N3]; intros n rest Hd Hn; [by destruct n|].
  rewrite map_size_insert_None, !map_size_disj_union in Hn by solve_disjoint. destruct n as [|n]; [lia|].
  set (M := <[p := BValue (JsonValue kp ty u next)]> (mk ∪ (mv ∪ ml))) in *.
  cbn [heap_count]. rewrite (proj2 (Z.eqb_neq _ _) Hp).
  rewrite (get_value_part M rest p (JsonValue kp ty u next)) by (unfold M; by rewrite lookup_insert_eq). run. cbn [v_next].
  assert (EM : M ∪ rest = ml ∪ <[p := BValue (JsonValue kp ty u next)]> (mk ∪ (mv ∪ rest))) by (unfold M in *; heap_eq).
  rewrite EM, IH by first [lia | unfold M in *; solve_disjoint]. run. f_equal. unfold zlen. cbn [length]. lia.
Qed.

(** ** Properties *)

(** C13: the parser that builds the linked cells in place does what the reader does.  When a
    value is read, the cells hold it, apart from everything that was there before, and
    [json_free] of the root frees every block of them, each once, and nothing else, so that
    the heap is as before; when the text is refused the result is the null pointer and no
    block that was there before has changed, although blocks may have been lost. *)
Theorem json_heap_lifecycle buf alloc fuel h r :
  h !! 0 = None -> (forall a, 0 < a -> h !! a = None) -> parse_root buf alloc fuel = Done r ->
  match r with
  | Some v => exists root m, m ##ₘ h /\ tree_at m root v /\
      (forall release, heap_root buf alloc release fuel h = Done (root, m ∪ h)) /\
      forall f, (size m <= f)%nat -> json_free f (m ∪ h) root = Done h
  | None => exists f0, forall release, (exists f, (f0 <= f)%nat /\ release = json_free f) \/ release = free ->
      exists lost, lost ##ₘ h /\ heap_root buf alloc release fuel h = Done (0, lost ∪ h)
  end.
Proof.
  intros H0 Hpos E. pose proof (json_root_refines buf alloc fuel h r H0 Hpos E) as Hr. destruct r as [v|].
  - destruct Hr as (root & m & Hd & Ht & Hroot). exists root, m. split_and!; [done..|]. intros f Hf.
    destruct Ht as (mv & ty & u & Hp & Hv & N & ->). unfold filled in *. rewrite map_size_insert_None in Hf by done.
    destruct f as [|f]; [lia|]. split_disjoint. rewrite <- insert_union_l.
    apply (free_tree f ty u root 0 0 mv h); [done|by eapply part_value|done..|lia|done].
  - destruct Hr as (lost & Hd & (lost' & Hd' & Hfree) & f0 & Hf). exists f0. intros release [(f & Hlf & ->)| ->].
    + exists lost. split; [done|]. by apply Hf.
    + by exists lost'.
Qed.

(** The children are found, and counted, as the reader finds and counts them. *)
Theorem json_walk_refines m root v key n h : tree_at m root v -> m ##ₘ h -> h !! 0 = None -> m !! 0 = None -> (size m <= n)%nat ->
  match json_get_child (Some v) key with
  | Done o => exists q, heap_get_child n (m ∪ h) root key = Done q /\ found (m ∪ h) o q
  | Fault e => heap_get_child n (m ∪ h) root key = Fault e
  | OutOfFuel => False
  end /\
  heap_count_children n (m ∪ h) root = Done (json_count_children (Some v)).
Proof.
  intros (mv & ty & u & Hp & Hv & N & ->) Hd H0 M0 Hn.
  unfold filled in *. rewrite map_size_insert_None in Hn by done. unfold heap_get_child, heap_count_children.
  rewrite (proj2 (Z.eqb_neq _ _) Hp), (get_value_part _ h root (JsonValue 0 ty u 0)) by by rewrite lookup_insert_eq. run. cbn [v_type v_u].
  assert (EM : <[root := BValue (JsonValue 0 ty u 0)]> mv ∪ h = mv ∪ <[root := BValue (JsonValue 0 ty u 0)]> h) by heap_eq.
  rewrite EM. destruct Hv as [| | |z|m p s Hk|m p l Hq Hl|m p l Hq Hl]; cbn; try (split; [by exists 0|done]).
  - split; [by exists 0|]. rewrite (heap_count_refines m p _ Hl) by first [lia | solve_disjoint]. f_equal. unfold zlen. by rewrite length_map.
  - split; [|done]. apply (heap_find_refines m p l Hl); try solve_disjoint. lia.
Qed.

(** A value that is refused behind a part that was read loses that part, and [json_parse],
    which frees the root only, everything below it. *)
Example refused_loses :
  (exists lost, heap_root (cstr "[[1 x") always (json_free 9) 9 ∅ = Done (0, lost) /\ size lost = 1%nat) /\
  (exists lost, heap_root (cstr "[1,2 x") always (json_free 9) 9 ∅ = Done (0, lost) /\ size lost = 0%nat) /\
  (exists lost, heap_root (cstr "[1,2 x") always free 9 ∅ = Done (0, lost) /\ size lost = 2%nat).
Proof. split_and!; (eexists; split; [vm_compute; reflexivity|vm_compute; reflexivity]). Qed.

(** ** Witnesses *)

Lemma json_heap_lifecycle_witness :
  let buf := cstr "{ " ++ quoted (cstr "a") ++ cstr " : [1, true] }" in
  let h := {[ -1 := BString (cstr "kept") ]} : json_heap in
  exists root m, m ##ₘ h /\ tree_at m root (JObject [(Some (cstr "a"), JArray [JNumber 1; JTrue])]) /\
    (forall release, heap_root buf always release (length buf) h = Done (root, m ∪ h)) /\
    forall f, (size m <= f)%nat -> json_free f (m ∪ h) root = Done h.
Proof.
  intros buf h. apply (json_heap_lifecycle buf always (length buf) h (Some (JObject [(Some (cstr "a"), JArray [JNumber 1; JTrue])]))).
  - reflexivity.
  - intros a Ha. unfold h. apply lookup_singleton_None. lia.
  - vm_compute. reflexivity.
Defined.
