(* ===== verification/Assoc.v ===== *)
(** * The string table of the protection domain mapper (pd-mapper/assoc.c, assoc.h)

    Open addressing with linear probing over two arrays, keys and values, that grow
    by a quarter when they are more than four fifths full.  Keys are copied by
    [assoc_set], so a key is the bytes of its string; a null pointer in the arrays is
    [None].  Memory for the arrays and the keys is taken to be available: the code
    does not look at the results of [calloc], [malloc] and [strdup]. *)
From S2P Require Import Prelude CString.
#[local] Open Scope Z_scope.

Abbreviation key := (list Z).

(** One character, and the whole string up to its terminator. *)
Definition hash_char (hash ch : Z) : Z :=
  let hash := u64 (u64 (Z.shiftl hash 4) + ch) in
  let g := Z.land hash 0xF0000000 in
  let hash := if negb (g =? 0) then Z.lxor hash (Z.shiftr g 24) else hash in
  Z.land hash (u64 (Z.lnot g)).
Definition assoc_hash (value : key) : Z := fold_left hash_char value 0.

Section Assoc.
Context {V : Type}.

(** A value that [malloc] left undefined is [None]. *)
Record assoc := Assoc {
  as_size : Z;
  as_fill : Z;
  as_keys : list (option key);
  as_values : list (option V) }.

Definition assoc_init (size : Z) : outcome assoc :=
  if negb (0 <? size) then Fault AssertFailed
  else Done (Assoc size 0 (replicate (Z.to_nat size) None) (replicate (Z.to_nat size) None)).

Definition home (a : assoc) (k : key) : outcome Z :=
  if as_size a =? 0 then Fault DivByZero else Done (assoc_hash k mod as_size a).

(** The probe loop of [assoc_get] and [_assoc_set]: the slot where it ends, and
    whether it holds the key. *)
Fixpoint probe_loop (n : nat) (a : assoc) (k : key) (hash : Z) : outcome (Z * bool) :=
  match n with
  | O => OutOfFuel
  | S n' =>
      o ← of_option OutOfBounds (as_keys a !! Z.to_nat hash);
      match o with
      | None => Done (hash, false)
      | Some k' => if bool_decide (k' = k) then Done (hash, true)
                   else probe_loop n' a k (u64 (hash + 1) mod as_size a)
      end
  end.
(** A round visits every slot; a table without a free slot is probed for ever when
    the key is not in it. *)
Definition assoc_probe (a : assoc) (k : key) : outcome (Z * bool) :=
  h ← home a k; probe_loop (Z.to_nat (as_size a)) a k h.

(** [None] is the null pointer of an absent key. *)
Definition assoc_get (a : assoc) (k : key) : outcome (option V) :=
  '(i, found) ← assoc_probe a k;
  if (found : bool) then
    v ← of_option OutOfBounds (as_values a !! Z.to_nat i); v ← of_option Uninitialised v; Done (Some v)
  else Done None.

(** The loop that moves the entries to the new arrays. *)
Fixpoint regrow (set : assoc -> key -> V -> outcome assoc) (keys : list (option key)) (values : list (option V))
    (a : assoc) : outcome assoc :=
  match keys with
  | [] => Done a
  | None :: keys' => regrow set keys' (tail values) a
  | Some k :: keys' =>
      v ← of_option OutOfBounds (head values); v ← of_option Uninitialised v;
      a ← set a k v; regrow set keys' (tail values) a
  end.

(** The part of [_assoc_set] behind the growing. *)
Definition assoc_store (a : assoc) (k : key) (v : V) : outcome assoc :=
  '(i, found) ← assoc_probe a k;
  if (found : bool) then Done (Assoc (as_size a) (as_fill a) (as_keys a) (<[Z.to_nat i := Some v]> (as_values a)))
  else Done (Assoc (as_size a) (u64 (as_fill a + 1)) (<[Z.to_nat i := Some k]> (as_keys a))
               (<[Z.to_nat i := Some v]> (as_values a))).

(** [_assoc_set]; growing calls [assoc_set] for the new arrays. *)
Fixpoint assoc_set_fuel (fuel : nat) (a : assoc) (k : key) (v : V) : outcome assoc :=
  match fuel with
  | O => OutOfFuel
  | S fuel' =>
      if negb (as_fill a <? as_size a) then Fault AssertFailed
      else if u64 (4 * as_size a) <? u64 (5 * as_fill a) then
        new_set ← assoc_init (u64 (as_size a * 5) / 4);
        a ← regrow (assoc_set_fuel fuel') (as_keys a) (as_values a) new_set;
        assoc_store a k v
      else assoc_store a k v
  end.
(** The new arrays have room for all entries, so that no more than one nested growth
    could be needed ([assoc_set_refines] shows that none is). *)
Definition assoc_set : assoc -> key -> V -> outcome assoc := assoc_set_fuel 2.

(** The loop of [assoc_next] from [it] on; [n] is the number of slots left. *)
Fixpoint next_loop (n : nat) (a : assoc) (it : Z) : outcome Z :=
  match n with
  | O => Done it
  | S n' =>
      o ← of_option OutOfBounds (as_keys a !! Z.to_nat it);
      match o with None => next_loop n' a (it + 1) | Some _ => Done it end
  end.
(** The key and its value, with the new [iter]; [None] at the end. *)
Definition assoc_next (a : assoc) (iter : Z) : outcome (option (key * option V) * Z) :=
  it ← next_loop (Z.to_nat (as_size a - iter)) a iter;
  if it =? as_size a then Done (None, iter)
  else if it <? as_size a then
    k ← of_option OutOfBounds (as_keys a !! Z.to_nat it);
    v ← of_option OutOfBounds (as_values a !! Z.to_nat it);
    Done (match k with Some k => Some (k, v) | None => None end, it + 1)
  else Done (None, it + 1).

(** What the loop visits. *)
Fixpoint foreach_loop (n : nat) (a : assoc) (iter : Z) : outcome (list (key * option V)) :=
  match n with
  | O => OutOfFuel
  | S n' =>
      '(r, iter) ← assoc_next a iter;
      match r with
      | None => Done []
      | Some kv => l ← foreach_loop n' a iter; Done (kv :: l)
      end
  end.
Definition assoc_foreach (a : assoc) : outcome (list (key * option V)) :=
  foreach_loop (S (Z.to_nat (as_size a))) a 0.

(** The keys that are freed, in order, and the table left behind. *)
Definition assoc_destroy (a : assoc) : list key * assoc := (omap id (as_keys a), Assoc 0 (as_fill a) [] []).
End Assoc.
Arguments assoc : clear implicits.

(** A table made from a list of pairs. *)
Fixpoint assoc_build {V} (a : assoc V) (l : list (key * V)) : outcome (assoc V) :=
  match l with
  | [] => Done a
  | (k, v) :: l' => a ← assoc_set a k v; assoc_build a l'
  end.

Example hash_examples :
  assoc_hash [97] = 97 /\ assoc_hash [97; 98] = 1650 /\
  assoc_hash (replicate 9 122) < 2 ^ 28.
Proof. split_and!; reflexivity. Qed.
