(* ===== verification/AssocProps.v ===== *)
(** * The string table refines finite maps of strings *)
From S2P Require Import Prelude CString Assoc.
#[local] Open Scope Z_scope.

Section Facts.
Context {V : Type}.
Implicit Types (a : assoc V) (M : gmap key V) (k : key) (v : V).

(** The slot at offset [d] on the probe path of [k]. *)
Definition slot_at a k (d : Z) : option (option key) :=
  as_keys a !! Z.to_nat ((assoc_hash k + d) mod as_size a).
Definition count (keys : list (option key)) : Z := zlen (omap id keys).
Definition holds (keys : list (option key)) (values : list (option V)) k v : Prop :=
  exists i : nat, keys !! i = Some (Some k) /\ values !! i = Some (Some v).
Definition distinct (keys : list (option key)) : Prop :=
  forall i j k, keys !! i = Some (Some k) -> keys !! j = Some (Some k) -> i = j.
Definition defined (keys : list (option key)) (values : list (option V)) : Prop :=
  forall i k, keys !! i = Some (Some k) -> exists v, values !! i = Some (Some v).

(** The invariant of every table, and the room that a table of six slots or more
    always has. *)
Record assoc_ok a : Prop := {
  ok_size : 0 < as_size a < 2 ^ 61;
  ok_keys : zlen (as_keys a) = as_size a;
  ok_values : zlen (as_values a) = as_size a;
  ok_fill : as_fill a = count (as_keys a);
  ok_defined : defined (as_keys a) (as_values a);
  ok_distinct : distinct (as_keys a);
  ok_path : forall i k, as_keys a !! i = Some (Some k) -> exists d, 0 <= d < as_size a /\
    Z.of_nat i = (assoc_hash k + d) mod as_size a /\ forall d', 0 <= d' < d -> slot_at a k d' <> Some None }.

Definition roomy a : Prop := 6 <= as_size a /\ 5 * (as_fill a - 1) <= 4 * as_size a.
Definition represents a M : Prop := forall k v, M !! k = Some v <-> holds (as_keys a) (as_values a) k v.

Lemma count_bounds (ks : list (option key)) : 0 <= count ks <= zlen ks.
Proof. unfold count, zlen. induction ks as [|[k|] ks IH]; cbn [omap list_omap id length] in *; lia. Qed.
Lemma count_full (ks : list (option key)) : (forall i : nat, ks !! i <> Some None) -> count ks = zlen ks.
Proof.
  unfold count, zlen. induction ks as [|[k|] ks IH]; intros H; cbn [omap list_omap id length]; [done| |].
  - cbn [length]. specialize (IH (fun i => H (S i))). cbn in *. lia.
  - by destruct (H 0%nat).
Qed.
Lemma count_insert (ks : list (option key)) i k : ks !! i = Some None -> count (<[i := Some k]> ks) = count ks + 1.
Proof.
  intros Hi. unfold count, zlen. rewrite insert_take_drop by (by eapply lookup_lt_Some).
  rewrite <- (take_drop_middle _ _ _ Hi) at 3. rewrite !omap_app, !length_app. cbn. lia.
Qed.

(** ** Probing *)

Definition stops a k d (o : option key) : Prop :=
  0 <= d < as_size a /\ slot_at a k d = Some o /\ (o = None \/ o = Some k) /\
  forall d', 0 <= d' < d -> exists k', slot_at a k d' = Some (Some k') /\ k' <> k.

Lemma slot_is_some a k d : 0 < as_size a -> zlen (as_keys a) = as_size a -> exists o, slot_at a k d = Some o.
Proof.
  intros Hs Hl. unfold slot_at. pose proof (Z.mod_pos_bound (assoc_hash k + d) _ Hs).
  destruct (lookup_lt_is_Some_2 (as_keys a) (Z.to_nat ((assoc_hash k + d) mod as_size a))) as [o ->]; [|by exists o].
  unfold zlen in *. lia.
Qed.

Lemma probe_loop_spec n a k d :
  0 < as_size a < 2 ^ 61 -> zlen (as_keys a) = as_size a -> 0 <= d -> d + Z.of_nat n = as_size a ->
  (forall d', 0 <= d' < d -> exists k', slot_at a k d' = Some (Some k') /\ k' <> k) ->
  (exists d' o, stops a k d' o /\
     probe_loop n a k ((assoc_hash k + d) mod as_size a) =
     Done ((assoc_hash k + d') mod as_size a, bool_decide (o = Some k))) \/
  (forall d', 0 <= d' < as_size a -> exists k', slot_at a k d' = Some (Some k') /\ k' <> k).
Proof.
  intros Hs Hl. revert d. induction n as [|n IH]; intros d Hd Hn Hpre.
  { right. intros d' Hd'. apply Hpre. lia. }
  destruct (slot_is_some a k d) as [o Ho]; [lia|done|]. cbn [probe_loop].
  fold (slot_at a k d). rewrite Ho. run. destruct o as [k'|].
  - case_bool_decide as Hk.
    + left. exists d, (Some k'). subst k'. split; [|by rewrite bool_decide_eq_true_2].
      split_and!; [lia..|done|by right|done].
    + pose proof (Z.mod_pos_bound (assoc_hash k + d) (as_size a) ltac:(lia)).
      rewrite u64_small, probe_next by lia. apply IH; [lia..|].
      intros d' Hd'. destruct (decide (d' = d)) as [->|]; [by exists k'|]. apply Hpre. lia.
  - left. exists d, None. split; [|by rewrite bool_decide_eq_false_2].
    split_and!; [lia..|done|by left|done].
Qed.

Lemma room_free a : roomy a -> as_fill a < as_size a.
Proof. intros []. lia. Qed.

Lemma slot_reached a i : 0 < as_size a -> zlen (as_keys a) = as_size a -> (i < length (as_keys a))%nat ->
  forall k, exists d, 0 <= d < as_size a /\ Z.of_nat i = (assoc_hash k + d) mod as_size a /\ slot_at a k d = as_keys a !! i.
Proof.
  intros Hs Hl Hi k. unfold zlen in Hl. exists ((Z.of_nat i - assoc_hash k) mod as_size a).
  assert ((assoc_hash k + (Z.of_nat i - assoc_hash k) mod as_size a) mod as_size a = Z.of_nat i) as E.
  { rewrite Z.add_mod_idemp_r by lia. replace (assoc_hash k + (Z.of_nat i - assoc_hash k)) with (Z.of_nat i) by lia.
    apply Z.mod_small. lia. }
  split; [by apply Z.mod_pos_bound|]. split; [done|]. unfold slot_at. by rewrite E, Nat2Z.id.
Qed.

Lemma probe_spec a k : assoc_ok a -> as_fill a < as_size a -> exists d o, stops a k d o /\
  assoc_probe a k = Done ((assoc_hash k + d) mod as_size a, bool_decide (o = Some k)).
Proof.
  intros Hok Hr. pose proof (ok_size _ Hok). unfold assoc_probe, home. rewrite (proj2 (Z.eqb_neq _ _)) by lia. run.
  destruct (probe_loop_spec (Z.to_nat (as_size a)) a k 0) as [H'|Hfull]; [lia|by apply ok_keys|lia..| |].
  { by rewrite Z.add_0_r in H'. }
  exfalso. rewrite (ok_fill _ Hok), <- (ok_keys _ Hok), count_full in Hr; [lia|].
  intros i Hi. destruct (slot_reached a i ltac:(lia) (ok_keys _ Hok) (lookup_lt_Some _ _ _ Hi) k) as (d & Hd & _ & Es).
  destruct (Hfull d Hd) as (k' & E & _). congruence.
Qed.

(** A free slot at the end of the probe means that the key is nowhere. *)
Lemma stops_absent a k d i : assoc_ok a -> stops a k d None -> as_keys a !! i <> Some (Some k).
Proof.
  intros Hok (Hd & Hs & _ & Hpre) Hi. destruct (ok_path _ Hok _ _ Hi) as (d0 & Hd0 & Ei & Hp).
  assert (slot_at a k d0 = Some (Some k)) as E0.
  { unfold slot_at. by rewrite <- Ei, Nat2Z.id. }
  destruct (Z.lt_trichotomy d d0) as [|[->|]]; [by apply (Hp d); [lia|]|congruence|].
  destruct (Hpre d0 ltac:(lia)) as (k' & E & Hne). congruence.
Qed.

Lemma get_spec a M k : assoc_ok a -> as_fill a < as_size a -> represents a M -> assoc_get a k = Done (M !! k).
Proof.
  intros Hok Hr Hrep. unfold assoc_get. destruct (probe_spec a k Hok Hr) as (d & o & Hst & ->). run.
  case_bool_decide as Ho; subst.
  - destruct Hst as (_ & Hs & _). destruct (ok_defined _ Hok _ _ Hs) as [v Hv]. rewrite Hv. run.
    rewrite (proj2 (Hrep k v)); [done|]. by exists (Z.to_nat ((assoc_hash k + d) mod as_size a)).
  - assert (o = None) as -> by (destruct Hst as (_ & _ & [->| ->] & _); done).
    destruct (M !! k) as [v|] eqn:E; [|done]. apply Hrep in E as (i & Hi & _).
    by apply (stops_absent _ _ _ i) in Hst.
Qed.

(** ** Storing *)

Lemma holds_insert keys values i k v k' v' : (i < length keys)%nat -> (i < length values)%nat ->
  (forall j, keys !! j = Some (Some k) -> j = i) -> (keys !! i = Some None \/ keys !! i = Some (Some k)) ->
  holds (<[i := Some k]> keys) (<[i := Some v]> values) k' v' <->
  (k' = k /\ v' = v) \/ (k' <> k /\ holds keys values k' v').
Proof.
  intros Hk Hv Huniq Hold. split.
  - intros (j & Hj1 & Hj2). destruct (decide (j = i)) as [->|Hne].
    + rewrite list_lookup_insert_eq in Hj1 by done. rewrite list_lookup_insert_eq in Hj2 by done. left. split; congruence.
    + rewrite list_lookup_insert_ne in Hj1 by done. rewrite list_lookup_insert_ne in Hj2 by done. right. split; [|by exists j].
      intros ->. by apply Hne, Huniq.
  - intros [[-> ->]|[Hne (j & Hj1 & Hj2)]].
    + exists i. by rewrite !list_lookup_insert_eq.
    + exists j. assert (j <> i) by (intros ->; destruct Hold; congruence). by rewrite !list_lookup_insert_ne.
Qed.

Definition stores a a' k v : Prop :=
  assoc_ok a' /\ as_size a' = as_size a /\ as_fill a' <= as_fill a + 1 /\
  forall k' v', holds (as_keys a') (as_values a') k' v' <->
    (k' = k /\ v' = v) \/ (k' <> k /\ holds (as_keys a) (as_values a) k' v').

(** Filling slot [i], where the probe for [k] stopped. *)
Lemma stored_slot a k v d o f : assoc_ok a -> stops a k d o -> f <= as_fill a + 1 ->
  let i := Z.to_nat ((assoc_hash k + d) mod as_size a) in
  f = count (<[i := Some k]> (as_keys a)) ->
  stores a (Assoc (as_size a) f (<[i := Some k]> (as_keys a)) (<[i := Some v]> (as_values a))) k v.
Proof.
  intros Hok Hst Hle i Ef. pose proof (ok_size _ Hok) as Hs. pose proof (ok_keys _ Hok) as Hlk.
  pose proof (ok_values _ Hok) as Hlv. unfold zlen in Hlk, Hlv.
  pose proof (Z.mod_pos_bound (assoc_hash k + d) (as_size a) ltac:(lia)) as Hb.
  assert (Hi : (i < length (as_keys a))%nat /\ (i < length (as_values a))%nat) by (unfold i; lia). destruct Hi as [Hi1 Hi2].
  assert (Huniq : forall j, as_keys a !! j = Some (Some k) -> j = i).
  { intros j Hj. destruct o as [k'|]; [|by apply (stops_absent _ _ _ j) in Hst].
    destruct Hst as (_ & Hsl & [?|[= ->]] & _); [done|]. by apply (ok_distinct _ Hok j i k Hj Hsl). }
  assert (Hold : as_keys a !! i = Some None \/ as_keys a !! i = Some (Some k)).
  { destruct Hst as (_ & Hsl & [->| ->] & _); auto. }
  split; [|split; [done|split; [cbn; lia|]]].
  2: { intros k' v'. by apply holds_insert. }
  split; cbn [as_size as_keys as_values as_fill].
  - done.
  - unfold zlen. rewrite length_insert. lia.
  - unfold zlen. rewrite length_insert. lia.
  - done.
  - intros j k' Hj. destruct (decide (j = i)) as [->|Hne].
    + exists v. by apply list_lookup_insert_eq.
    + rewrite list_lookup_insert_ne in Hj by done. destruct (ok_defined _ Hok _ _ Hj) as [w Hw].
      exists w. by rewrite list_lookup_insert_ne.
  - intros j1 j2 k' H1 H2. destruct (decide (j1 = i)) as [->|Hn1], (decide (j2 = i)) as [->|Hn2]; [done| | |].
    + rewrite list_lookup_insert_eq in H1 by done. rewrite list_lookup_insert_ne in H2 by done.
      injection H1 as ->. symmetry. by apply Huniq.
    + rewrite list_lookup_insert_eq in H2 by done. rewrite list_lookup_insert_ne in H1 by done.
      injection H2 as ->. by apply Huniq.
    + rewrite list_lookup_insert_ne in H1 by done. rewrite list_lookup_insert_ne in H2 by done. by eapply (ok_distinct _ Hok).
  - assert (Hslot : forall k' d', slot_at (Assoc (as_size a) f (<[i := Some k]> (as_keys a)) (<[i := Some v]> (as_values a))) k' d' <> Some None
       \/ slot_at (Assoc (as_size a) f (<[i := Some k]> (as_keys a)) (<[i := Some v]> (as_values a))) k' d' = slot_at a k' d').
    { intros k' d'. unfold slot_at. cbn. destruct (decide (Z.to_nat ((assoc_hash k' + d') mod as_size a) = i)) as [->|Hne].
      - left. rewrite list_lookup_insert_eq by done. done.
      - right. by apply list_lookup_insert_ne. }
    assert (Hkeep : forall k' d', slot_at a k' d' <> Some None ->
      slot_at (Assoc (as_size a) f (<[i := Some k]> (as_keys a)) (<[i := Some v]> (as_values a))) k' d' <> Some None).
    { intros k' d' Hn. destruct (Hslot k' d') as [|E]; [done|]. by rewrite E. }
    intros j k' Hj. destruct (decide (j = i)) as [->|Hne].
    + rewrite list_lookup_insert_eq in Hj by done. injection Hj as <-.
      exists d. split; [by destruct Hst|]. split; [unfold i; lia|].
      intros d' Hd'. apply Hkeep. destruct Hst as (_ & _ & _ & Hpre).
      destruct (Hpre d' Hd') as (k' & E & _). by rewrite E.
    + rewrite list_lookup_insert_ne in Hj by done. destruct (ok_path _ Hok _ _ Hj) as (d0 & Hd0 & E & Hp).
      exists d0. split; [done|]. split; [done|]. intros d' Hd'. by apply Hkeep, Hp.
Qed.

Lemma store_spec a k v : assoc_ok a -> as_fill a < as_size a ->
  exists a', assoc_store a k v = Done a' /\ stores a a' k v.
Proof.
  intros Hok Hr. unfold assoc_store. destruct (probe_spec a k Hok Hr) as (d & o & Hst & ->). run.
  pose proof (ok_size _ Hok) as Hs. pose proof (ok_fill _ Hok) as Hf. pose proof (count_bounds (as_keys a)) as Hc.
  case_bool_decide as Ho; subst; (eexists; split; [done|]).
  - assert (Hi : as_keys a !! Z.to_nat ((assoc_hash k + d) mod as_size a) = Some (Some k)) by apply Hst.
    pose proof (stored_slot a k v d (Some k) (as_fill a) Hok Hst ltac:(lia)) as H.
    cbn zeta in H. rewrite (list_insert_id _ _ _ Hi) in H. by apply H.
  - assert (o = None) as -> by (destruct Hst as (_ & _ & [->| ->] & _); done).
    assert (Hi : as_keys a !! Z.to_nat ((assoc_hash k + d) mod as_size a) = Some None) by apply Hst.
    rewrite u64_small by (pose proof (ok_keys _ Hok); lia).
    apply (stored_slot a k v d None); [done..|lia|]. rewrite count_insert by done. lia.
Qed.

Lemma stores_represents a a' k v M : stores a a' k v -> represents a M -> represents a' (<[k := v]> M).
Proof.
  intros (_ & _ & _ & Hh) Hrep k' v'. rewrite Hh, lookup_insert_Some, <- (Hrep k' v'). naive_solver.
Qed.

(** ** Growing *)

Lemma set_no_growth f a k v : assoc_ok a -> as_fill a < as_size a -> 5 * as_fill a <= 4 * as_size a ->
  assoc_set_fuel (S f) a k v = assoc_store a k v.
Proof.
  intros Hok Hfree Hr. pose proof (ok_size _ Hok).
  pose proof (ok_fill _ Hok). pose proof (count_bounds (as_keys a)). cbn [assoc_set_fuel].
  rewrite (proj2 (Z.ltb_lt _ _)), !u64_small, (proj2 (Z.ltb_ge _ _)) by lia. done.
Qed.

Lemma holds_cons o (ks : list (option key)) (w : option V) vs k v :
  holds (o :: ks) (w :: vs) k v <-> (o = Some k /\ w = Some v) \/ holds ks vs k v.
Proof.
  split.
  - intros ([|i] & H1 & H2); cbn in *; [left; split; congruence|right; by exists i].
  - intros [[-> ->]|(i & H1 & H2)]; [by exists 0%nat|by exists (S i)].
Qed.

Lemma regrow_spec f ks vs a :
  assoc_ok a -> 6 <= as_size a -> length vs = length ks -> defined ks vs -> distinct ks ->
  5 * (as_fill a + count ks - 1) <= 4 * as_size a ->
  exists a', regrow (assoc_set_fuel (S f)) ks vs a = Done a' /\ assoc_ok a' /\ as_size a' = as_size a /\
    as_fill a' <= as_fill a + count ks /\
    forall k v, holds (as_keys a') (as_values a') k v <->
      holds ks vs k v \/ ((forall i : nat, ks !! i <> Some (Some k)) /\ holds (as_keys a) (as_values a) k v).
Proof.
  revert vs a. induction ks as [|o ks IH]; intros vs a Hok H6 Hl Hdef Hdis Hroom; cbn [regrow].
  { exists a. destruct vs; [|done]. split_and!; [done..|unfold count, zlen; cbn; lia|].
    intros k v. split; [right; split; [done|done]|]. by intros [(i & Hi & _)|[_ H]]. }
  destruct vs as [|w vs]; [done|]. cbn [head tail]. injection Hl as Hl.
  assert (Hdef' : defined ks vs) by (intros i k Hi; exact (Hdef (S i) k Hi)).
  assert (Hdis' : distinct ks) by (intros i j k Hi Hj; specialize (Hdis (S i) (S j) k Hi Hj); lia).
  destruct o as [k0|].
  - destruct (Hdef 0%nat k0 eq_refl) as [v0 [= ->]]. run.
    assert (Hc : count (Some k0 :: ks) = count ks + 1) by (unfold count, zlen; cbn; lia).
    pose proof (count_bounds ks). rewrite set_no_growth by (done || lia).
    destruct (store_spec a k0 v0 Hok) as (a1 & -> & Hok1 & Hs1 & Hf1 & Hh1); [lia|]. run.
    destruct (IH vs a1) as (a' & E & Hok' & Hs' & Hf' & Hh'); try (done || lia).
    exists a'. split_and!; [done..|congruence|lia|]. intros k v. rewrite Hh', Hh1, holds_cons. split.
    + intros [H1|[Hno [[-> ->]|[Hne H1]]]]; [left; by right|left; by left|right].
      split; [|done]. intros [|i]; cbn; [congruence|apply Hno].
    + intros [[[[= ->] [= ->]]|H1]|[Hno H1]]; [right|by left|right].
      * split; [|by left]. intros i Hi. by specialize (Hdis 0%nat (S i) k eq_refl Hi).
      * split; [intros i; exact (Hno (S i))|]. right. split; [|done]. intros ->. by apply (Hno 0%nat).
  - assert (Hc : count (None :: ks) = count ks) by done.
    destruct (IH vs a) as (a' & E & Hok' & Hs' & Hf' & Hh'); try done.
    exists a'. split_and!; try done. intros k v. rewrite Hh', holds_cons. split.
    + intros [H1|[Hno H1]]; [left; by right|right]. split; [|done]. intros [|i]; [done|apply Hno].
    + intros [[[? _]|H1]|[Hno H1]]; [done|by left|right]. split; [|done]. intros i. exact (Hno (S i)).
Qed.

Lemma count_replicate n : count (replicate n None) = 0.
Proof. unfold count, zlen. induction n; cbn in *; lia. Qed.
Lemma init_ok n : 0 < n < 2 ^ 61 -> exists a, assoc_init n = Done a /\ assoc_ok a /\ as_size a = n /\ as_fill a = 0 /\
  forall k v, ~ holds (as_keys a) (as_values a) k v.
Proof.
  intros Hn. unfold assoc_init. rewrite (proj2 (Z.ltb_lt _ _)) by lia. eexists. split; [done|].
  assert (Hno : forall i k, replicate (Z.to_nat n) (@None key) !! i <> Some (Some k)).
  { intros i k [? _]%lookup_replicate_1. done. }
  split; [|split_and!; [done..|]; intros k v (i & Hi & _); by apply Hno in Hi].
  split; cbn; unfold zlen; rewrite ?length_replicate, ?count_replicate; try lia.
  - intros i k Hi. by apply Hno in Hi.
  - intros i j k Hi. by apply Hno in Hi.
  - intros i k Hi. by apply Hno in Hi.
Qed.

Lemma set_spec a k v : assoc_ok a -> roomy a -> as_size a < 2 ^ 60 ->
  exists a', assoc_set a k v = Done a' /\ assoc_ok a' /\ roomy a' /\
  as_fill a' <= as_fill a + 1 /\ as_size a' <= Z.max (as_size a) (2 * as_fill a) /\
  forall M, represents a M -> represents a' (<[k := v]> M).
Proof.
  intros Hok Hroom Hs60. pose proof (ok_size _ Hok) as Hs. pose proof (room_free _ Hroom) as Hfree. destruct Hroom as [H6 Hroom].
  pose proof (ok_fill _ Hok) as Hf. pose proof (count_bounds (as_keys a)) as Hc.
  destruct (Z.le_gt_cases (5 * as_fill a) (4 * as_size a)) as [Hle|Hgt].
  { unfold assoc_set. rewrite set_no_growth by done. destruct (store_spec a k v Hok Hfree) as (a' & -> & Hst).
    exists a'. split; [done|]. pose proof Hst as (Hok' & Hs' & Hf' & _). split_and!; [done|split; lia|lia|lia|].
    intros M. by apply stores_represents. }
  unfold assoc_set. cbn [assoc_set_fuel]. fold (@assoc_set_fuel V 1).
  rewrite (proj2 (Z.ltb_lt (as_fill a) _)), !u64_small, (proj2 (Z.ltb_lt (4 * _) _)) by lia. cbn [negb].
  set (n := as_size a * 5 / 4).
  assert (Hn : as_size a + 1 <= n /\ n * 4 <= as_size a * 5 <= n * 4 + 3) by (unfold n; Z.div_mod_to_equations; lia).
  destruct (init_ok n) as (b & -> & Hokb & Hsb & Hfb & Hb); [lia|]. run.
  assert (Hlen : length (as_values a) = length (as_keys a)).
  { pose proof (ok_keys _ Hok). pose proof (ok_values _ Hok). unfold zlen in *. lia. }
  destruct (regrow_spec 0 (as_keys a) (as_values a) b Hokb ltac:(lia) Hlen (ok_defined _ Hok) (ok_distinct _ Hok))
    as (c & E & Hokc & Hsc & Hfc & Hhc); [lia|].
  change (assoc_set_fuel 1) with (@assoc_set_fuel V 1) in E. rewrite E. run.
  destruct (store_spec c k v Hokc) as (a' & -> & Hst); [lia|]. exists a'. split; [done|].
  pose proof Hst as (Hok' & Hs' & Hf' & _). split_and!; [done|split; lia|lia|lia|].
  intros M HM. apply (stores_represents c); [done|]. intros k' v'. rewrite Hhc, (HM k' v'). split; [auto|].
  intros [H|[_ H]]; [done|by apply Hb in H].
Qed.

(** ** Iteration *)

(** The occupied slots in order. *)
Fixpoint entries (ks : list (option key)) (vs : list (option V)) : list (key * option V) :=
  match ks, vs with
  | Some k :: ks', v :: vs' => (k, v) :: entries ks' vs'
  | None :: ks', _ :: vs' => entries ks' vs'
  | _, _ => []
  end.
Definition entries_from a (it : Z) : list (key * option V) :=
  entries (drop (Z.to_nat it) (as_keys a)) (drop (Z.to_nat it) (as_values a)).

Lemma next_loop_spec n a it : assoc_ok a -> 0 <= it -> it + Z.of_nat n = as_size a ->
  exists j, next_loop n a it = Done j /\ it <= j <= as_size a /\ entries_from a it = entries_from a j /\
    (j < as_size a -> exists k w, as_keys a !! Z.to_nat j = Some (Some k) /\ as_values a !! Z.to_nat j = Some w /\
       entries_from a j = (k, w) :: entries_from a (j + 1)).
Proof.
  intros Hok. pose proof (ok_keys _ Hok) as Hk. pose proof (ok_values _ Hok) as Hv. unfold zlen in *.
  revert it. induction n as [|n IH]; intros it Hit Hn; cbn [next_loop].
  { exists it. split_and!; try done; lia. }
  destruct (lookup_lt_is_Some_2 (as_keys a) (Z.to_nat it)) as [o Ho]; [lia|].
  destruct (lookup_lt_is_Some_2 (as_values a) (Z.to_nat it)) as [v Hw]; [lia|]. rewrite Ho. run.
  assert (E : entries_from a it = match o with Some k => (k, v) :: entries_from a (it + 1) | None => entries_from a (it + 1) end).
  { unfold entries_from. rewrite (drop_S _ _ _ Ho), (drop_S _ _ _ Hw). replace (Z.to_nat (it + 1)) with (S (Z.to_nat it)) by lia.
    by destruct o. }
  destruct o as [k|].
  - exists it. split_and!; [done|lia|lia|done|]. intros _. by exists k, v.
  - destruct (IH (it + 1)) as (j & -> & Hj & Ej & Hs); [lia..|]. exists j. split_and!; [done|lia|lia|congruence|done].
Qed.

Lemma foreach_loop_spec n a it : assoc_ok a -> 0 <= it <= as_size a -> as_size a - it < Z.of_nat n ->
  foreach_loop n a it = Done (entries_from a it).
Proof.
  intros Hok. revert it. induction n as [|n IH]; intros it Hit Hn; [lia|]. cbn [foreach_loop]. unfold assoc_next.
  destruct (next_loop_spec (Z.to_nat (as_size a - it)) a it Hok) as (j & -> & Hj & -> & Hs); [lia..|]. run.
  destruct (Z.eqb_spec j (as_size a)) as [->|Hne]; run.
  { pose proof (ok_keys _ Hok) as Hk. unfold entries_from, zlen in *. rewrite drop_ge by lia. done. }
  rewrite (proj2 (Z.ltb_lt _ _)) by lia. destruct Hs as (k & v & -> & -> & ->); [lia|]. run.
  rewrite IH by lia. done.
Qed.
Lemma foreach_spec a : assoc_ok a -> assoc_foreach a = Done (entries (as_keys a) (as_values a)).
Proof.
  intros Hok. pose proof (ok_size _ Hok). unfold assoc_foreach. rewrite foreach_loop_spec by (done || lia). done.
Qed.

Lemma entries_in ks vs k w : (k, w) ∈ entries ks vs <-> exists i : nat, ks !! i = Some (Some k) /\ vs !! i = Some w.
Proof.
  revert vs. induction ks as [|o ks IH]; intros [|v vs].
  - split; [by intros ?%elem_of_nil|by intros (i & Hi & _)].
  - split; [by intros ?%elem_of_nil|by intros (i & Hi & _)].
  - split; [destruct o; by intros ?%elem_of_nil|by intros (i & _ & Hi)].
  - assert (Hc : (exists i : nat, (o :: ks) !! i = Some (Some k) /\ (v :: vs) !! i = Some w) <->
      (o = Some k /\ v = w) \/ (k, w) ∈ entries ks vs).
    { rewrite IH. split.
      - intros ([|i] & H1 & H2); cbn in *; [left; split; congruence|right; by exists i].
      - intros [[-> ->]|(i & H1 & H2)]; [by exists 0%nat|by exists (S i)]. }
    rewrite Hc. destruct o as [k0|]; cbn [entries]; [rewrite elem_of_cons|]; naive_solver.
Qed.
Lemma entries_nodup ks vs : distinct ks -> NoDup (entries ks vs).*1.
Proof.
  revert vs. induction ks as [|o ks IH]; intros vs Hd; [destruct vs; constructor|].
  assert (Hd' : distinct ks) by (intros i j k Hi Hj; specialize (Hd (S i) (S j) k Hi Hj); lia).
  destruct o as [k|], vs as [|w vs]; cbn [entries fmap list_fmap fst]; try constructor; [|by apply IH..].
  intros ([k' w'] & Ek & Hin)%list_elem_of_fmap. cbn in Ek. subst k'. apply entries_in in Hin as (i & Hi & _).
  by specialize (Hd 0%nat (S i) _ eq_refl Hi).
Qed.

(** The loop visits the map, each key once. *)
Definition visits (l : list (key * option V)) M : Prop :=
  exists l', l = (fun kv => (kv.1, Some kv.2)) <$> l' /\ l' ≡ₚ map_to_list M.

Lemma entries_visit a M : assoc_ok a -> represents a M -> visits (entries (as_keys a) (as_values a)) M.
Proof.
  intros Hok Hrep. set (es := entries _ _).
  assert (Hdef : Forall (fun kw => exists v, kw.2 = Some v) es).
  { apply Forall_forall. intros [k w] (i & H1 & H2)%entries_in.
    destruct (ok_defined _ Hok _ _ H1) as [v Hv]. exists v. cbn. congruence. }
  assert (Hl : exists l, es = (fun kv => (kv.1, Some kv.2)) <$> l).
  { clear -Hdef. induction Hdef as [|[k w] es [v Hv] _ [l ->]]; [by exists []|]. cbn in Hv. subst. by exists ((k, v) :: l). }
  destruct Hl as [l Hl]. exists l. split; [done|].
  assert (Hnd : NoDup l.*1).
  { pose proof (entries_nodup _ (as_values a) (ok_distinct _ Hok)) as Hnd. fold es in Hnd. rewrite Hl, <- list_fmap_compose in Hnd.
    exact Hnd. }
  apply NoDup_Permutation; [by eapply NoDup_fmap_1|apply NoDup_map_to_list|].
  intros [k v]. rewrite elem_of_map_to_list, (Hrep k v).
  assert (Hin : (k, v) ∈ l <-> (k, Some v) ∈ es).
  { rewrite Hl, list_elem_of_fmap. split; [intros H; by exists (k, v)|]. intros ([k' v'] & [= -> ->] & H). done. }
  rewrite Hin. apply entries_in.
Qed.

(** ** Sequences of insertions *)

Lemma build_spec l a M : assoc_ok a -> roomy a -> represents a M ->
  as_size a < 2 ^ 60 -> 2 * (as_fill a + zlen l) < 2 ^ 60 ->
  exists a', assoc_build a l = Done a' /\ assoc_ok a' /\ roomy a' /\ represents a' (list_to_map (reverse l) ∪ M).
Proof.
  revert a M. induction l as [|[k v] l IH]; intros a M Hok Hr Hrep Hb1 Hb2; cbn [assoc_build].
  { exists a. split_and!; try done.
    replace (list_to_map (reverse []) ∪ M) with M by (symmetry; apply (left_id_L ∅ (∪))). done. }
  assert (Hl : zlen ((k, v) :: l) = zlen l + 1) by (unfold zlen; cbn [length]; lia).
  pose proof (ok_fill _ Hok). pose proof (count_bounds (as_keys a)). assert (0 <= zlen l) by (unfold zlen; lia).
  destruct (set_spec a k v Hok Hr) as (a1 & -> & Hok1 & Hr1 & Hf1 & Hs1 & Hrep1); [lia|]. run.
  destruct (IH a1 (<[k := v]> M) Hok1 Hr1) as (a' & E & Hok' & Hr' & Hrep'); [by apply Hrep1|lia|lia|].
  exists a'. split_and!; try done. rewrite reverse_cons.
  replace (list_to_map (reverse l ++ [(k, v)]) ∪ M) with (list_to_map (reverse l) ∪ <[k := v]> M); [done|].
  rewrite list_to_map_app, list_to_map_cons, list_to_map_nil, insert_empty, <- (assoc_L (∪)), <- insert_union_singleton_l. done.
Qed.

(** ** Tables too small to grow *)

Lemma entries_count ks vs : length vs = length ks -> zlen (entries ks vs) = count ks.
Proof.
  unfold count, zlen. revert vs. induction ks as [|o ks IH]; intros [|w vs] Hl; try done.
  injection Hl as Hl. specialize (IH vs Hl). destruct o; cbn [entries omap list_omap id length] in *; lia.
Qed.
Lemma fill_size a M : assoc_ok a -> represents a M -> as_fill a = Z.of_nat (size M).
Proof.
  intros Hok Hrep. destruct (entries_visit a M Hok Hrep) as (l & El & Hl).
  pose proof (ok_keys _ Hok). pose proof (ok_values _ Hok). unfold zlen in *.
  rewrite (ok_fill _ Hok), <- (entries_count (as_keys a) (as_values a)), El by lia. unfold zlen.
  rewrite length_fmap, Hl. by rewrite length_map_to_list.
Qed.
Lemma count_all (ks : list (option key)) i o : count ks = zlen ks -> ks !! i = Some o -> exists k, o = Some k.
Proof.
  intros Hc Hi. destruct o as [k|]; [by exists k|]. exfalso.
  pose proof (count_insert ks i [] Hi). pose proof (count_bounds (<[i := Some []]> ks)) as Hb.
  unfold zlen in *. rewrite length_insert in Hb. lia.
Qed.

Lemma small_build l a M : assoc_ok a -> as_size a <= 5 -> represents a M -> as_fill a + zlen l <= as_size a ->
  exists a', assoc_build a l = Done a' /\ assoc_ok a' /\ as_size a' = as_size a /\
    represents a' (list_to_map (reverse l) ∪ M).
Proof.
  revert a M. induction l as [|[k v] l IH]; intros a M Hok H5 Hrep Hfit; cbn [assoc_build].
  { exists a. split_and!; try done.
    replace (list_to_map (reverse []) ∪ M) with M by (symmetry; apply (left_id_L ∅ (∪))). done. }
  assert (Hl : zlen ((k, v) :: l) = zlen l + 1) by (unfold zlen; cbn [length]; lia).
  assert (0 <= zlen l) by (unfold zlen; lia).
  unfold assoc_set. rewrite set_no_growth by (done || lia).
  destruct (store_spec a k v Hok) as (a1 & -> & Hst); [lia|]. run. pose proof Hst as (Hok1 & Hs1 & Hf1 & _).
  destruct (IH a1 (<[k := v]> M) Hok1) as (a' & E & Hok' & Hs' & Hrep'); [lia|by apply (stores_represents a)|lia|].
  exists a'. split_and!; [done..|congruence|]. rewrite reverse_cons.
  replace (list_to_map (reverse l ++ [(k, v)]) ∪ M) with (list_to_map (reverse l) ∪ <[k := v]> M); [done|].
  rewrite list_to_map_app, list_to_map_cons, list_to_map_nil, insert_empty, <- (assoc_L (∪)), <- insert_union_singleton_l.
  done.
Qed.

(** A table whose slots all hold other keys is probed for ever. *)
Lemma full_probe_diverges fuel a k h : 0 < as_size a < 2 ^ 61 -> 0 <= h < as_size a ->
  (forall i, 0 <= i < as_size a -> exists k', as_keys a !! Z.to_nat i = Some (Some k') /\ k' <> k) ->
  probe_loop fuel a k h = OutOfFuel.
Proof.
  intros Hs Hh Hfull. revert h Hh. induction fuel as [|fuel IH]; intros h Hh; cbn [probe_loop]; [done|].
  destruct (Hfull h Hh) as (k' & -> & Hne). run. rewrite bool_decide_eq_false_2 by done.
  apply IH. rewrite u64_small by lia. apply Z.mod_pos_bound. lia.
Qed.

Lemma small_full n l : 1 <= n <= 5 -> zlen l = n -> NoDup l.*1 ->
  exists a, (a ← assoc_init n; assoc_build a l) = Done a /\ assoc_ok a /\ as_size a = n /\ as_fill a = n /\
    forall k, k ∉ l.*1 -> forall i, 0 <= i < n -> exists k', as_keys a !! Z.to_nat i = Some (Some k') /\ k' <> k.
Proof.
  intros Hn Hl Hnd. destruct (init_ok n) as (a0 & -> & Hok0 & Hs0 & Hf0 & Hno); [lia|]. run.
  assert (Hrep0 : represents a0 ∅).
  { intros k v. rewrite lookup_empty. split; [done|]. intros H. by apply Hno in H. }
  destruct (small_build l a0 ∅ Hok0) as (a & E & Hok & Hs & Hrep); [lia|done|lia|]. rewrite (right_id_L ∅ (∪)) in Hrep.
  assert (Hnd' : NoDup (reverse l).*1) by (by rewrite reverse_Permutation).
  pose proof (fill_size _ _ Hok Hrep) as Hfill.
  assert (Hsz : size (list_to_map (reverse l) : gmap key V) = length l).
  { rewrite map_size_list_to_map by done. apply length_reverse. }
  unfold zlen in *. rewrite Hsz in Hfill.
  exists a. split_and!; [done..|lia|lia|]. intros k Hk i Hi. pose proof (ok_keys _ Hok) as Hlk. unfold zlen in *.
  destruct (lookup_lt_is_Some_2 (as_keys a) (Z.to_nat i)) as [o Ho]; [lia|].
  destruct (count_all _ _ _ ltac:(unfold zlen; rewrite <- (ok_fill _ Hok); lia) Ho) as [k' ->].
  exists k'. split; [done|]. intros ->. destruct (ok_defined _ Hok _ _ Ho) as [v Hv].
  assert (Hm : (list_to_map (reverse l) : gmap key V) !! k = Some v) by (apply (Hrep k v); exists (Z.to_nat i); split; [exact Ho|exact Hv]).
  apply elem_of_list_to_map_2 in Hm. rewrite reverse_Permutation in Hm. apply Hk, list_elem_of_fmap.
  exists (k, v). by split.
Qed.
End Facts.

(** ** Properties *)

(** C11: [assoc_set] implements insertion into a finite map: in every table of six
    slots or more, growing included, it returns, keeps the invariant, and afterwards
    every key is found with its value in the updated map, absent keys as null. *)
Theorem assoc_set_refines {V} (a : assoc V) (M : gmap key V) (k : key) (v : V) :
  assoc_ok a -> roomy a -> as_size a < 2 ^ 60 -> represents a M ->
  exists a', assoc_set a k v = Done a' /\ assoc_ok a' /\ roomy a' /\ represents a' (<[k := v]> M) /\
    as_fill a' = Z.of_nat (size (<[k := v]> M)) /\
    forall k', assoc_get a' k' = Done (<[k := v]> M !! k').
Proof.
  intros Hok Hr Hs Hrep. destruct (set_spec a k v Hok Hr Hs) as (a' & E & Hok' & Hr' & _ & _ & Hrep').
  specialize (Hrep' M Hrep). exists a'. split_and!; [done..|by apply fill_size|].
  intros k'. apply get_spec; [done|by apply room_free|done].
Qed.

(** C37: a table made with six slots or more and filled with any sequence of pairs is
    enumerated by [assoc_foreach] as the finite map of the pairs, the last value of a
    key counting: each key once, and with it the value [assoc_get] gives. *)
Theorem assoc_foreach_complete {V} n (l : list (key * V)) :
  6 <= n < 2 ^ 60 -> 2 * zlen l < 2 ^ 60 ->
  exists a es, (a ← assoc_init n; assoc_build a l) = Done a /\ assoc_foreach a = Done es /\
    visits es (list_to_map (reverse l)) /\
    forall k, assoc_get a k = Done ((list_to_map (reverse l) : gmap key V) !! k).
Proof.
  intros Hn Hl. destruct (@init_ok V n) as (a0 & -> & Hok0 & Hs0 & Hf0 & Hno); [lia|]. run.
  assert (Hrep0 : represents a0 ∅).
  { intros k v. rewrite lookup_empty. split; [done|]. intros H. by apply Hno in H. }
  destruct (build_spec l a0 ∅ Hok0) as (a & E & Hok & Hr & Hrep); [split; lia|done|lia|lia|].
  rewrite (right_id_L ∅ (∪)) in Hrep. exists a, (entries (as_keys a) (as_values a)).
  split_and!; [done|by apply foreach_spec|by apply entries_visit|].
  intros k. apply get_spec; [done|by apply room_free|done].
Qed.

(** A table of five slots or less fills up without growing: once it holds as
    many keys as slots, the next [assoc_set] fails its assertion, and looking up a
    key that is not there never ends. *)
Theorem assoc_small_table_stuck {V} n (l : list (key * V)) :
  1 <= n <= 5 -> zlen l = n -> NoDup l.*1 ->
  exists a, (a ← assoc_init n; assoc_build a l) = Done a /\
    (forall k v, assoc_set a k v = Fault AssertFailed) /\
    (forall k, k ∉ l.*1 -> forall fuel h, 0 <= h < n -> probe_loop fuel a k h = OutOfFuel).
Proof.
  intros Hn Hl Hnd. destruct (small_full n l Hn Hl Hnd) as (a & E & Hok & Hs & Hf & Hfull).
  exists a. split; [done|]. split.
  - intros k v. unfold assoc_set. cbn [assoc_set_fuel]. rewrite (proj2 (Z.ltb_ge _ _)) by lia. done.
  - intros k Hk fuel h Hh. pose proof (ok_size _ Hok). apply full_probe_diverges; [done|lia|].
    rewrite Hs. by apply Hfull.
Qed.

(** ** Witnesses *)

Definition demo_keys : list (key * Z) := (fun i => ([Z.of_nat i], Z.of_nat i)) <$> seq 1 5.

Lemma assoc_set_refines_witness : exists a', (a ← assoc_init 20; assoc_set a [97] 1) = Done a' /\
  assoc_get a' [97] = Done (Some 1) /\ assoc_get a' [98] = Done None.
Proof.
  destruct (@init_ok Z 20) as (a & E & Hok & Hs & Hf & Hno); [lia|].
  destruct (assoc_set_refines a ∅ [97] 1 Hok) as (a' & E' & _ & _ & _ & _ & Hg).
  - split; lia.
  - lia.
  - intros k v. rewrite lookup_empty. split; [discriminate|]. intros H. by apply Hno in H.
  - exists a'. rewrite E. split; [exact E'|]. split; rewrite Hg; reflexivity.
Defined.
Lemma assoc_foreach_complete_witness : exists a es, (a ← assoc_init 6; assoc_build a demo_keys) = Done a /\
  assoc_foreach a = Done es /\ visits es (list_to_map (reverse demo_keys)).
Proof.
  destruct (assoc_foreach_complete 6 demo_keys) as (a & es & E1 & E2 & E3 & _); [lia|vm_compute; reflexivity|].
  exists a, es. split; [exact E1|]. split; [exact E2|exact E3].
Defined.
Lemma assoc_small_table_stuck_witness : exists a, (a ← assoc_init 5; assoc_build a demo_keys) = Done a /\
  assoc_set a [9] 0 = Fault AssertFailed /\ probe_loop 1000 a [9] 0 = OutOfFuel.
Proof.
  destruct (assoc_small_table_stuck 5 demo_keys) as (a & E & Hset & Hget); [lia|reflexivity| |].
  - apply (bool_decide_unpack (NoDup demo_keys.*1)). vm_compute. exact I.
  - exists a. split; [exact E|]. split; [apply Hset|]. apply Hget; [|lia].
    apply (bool_decide_unpack ([9] ∉ demo_keys.*1)). vm_compute. exact I.
Defined.
