(* ===== verification/ServregLoc.v ===== *)
(** * The messages of the service registry locator (pd-mapper/servreg_loc.c, servreg_loc.h)

    The descriptor tables, with the offsets of the structures, and the response as a
    record with its memory image. *)
From S2P Require Import Prelude CString Hash Qrtr Qmi QmiFacts QmiDecode.
#[local] Open Scope Z_scope.

Definition SERVREG_QMI_SERVICE : Z := 64.
Definition SERVREG_QMI_VERSION : Z := 257.
Definition SERVREG_QMI_INSTANCE : Z := 0.
Definition QMI_RESULT_SUCCESS : Z := 0.
Definition QMI_RESULT_FAILURE : Z := 1.
Definition QMI_ERR_NONE : Z := 0.
Definition QMI_ERR_INTERNAL : Z := 1.
Definition QMI_ERR_MALFORMED_MSG : Z := 2.
Definition SERVREG_LOC_GET_DOMAIN_LIST : Z := 33.
Definition SERVREG_LOC_PFR : Z := 36.

Definition servreg_loc_qmi_result_ei : list qmi_elem_info :=
  [EI QMI_UNSIGNED_2_BYTE 2 0 0; EI QMI_UNSIGNED_2_BYTE 2 0 2; EI_END].

(** [name_len] at 0, [name] at 4, [instance_id] at 260, [service_data_valid] at 264,
    [service_data] at 268. *)
Definition servreg_loc_domain_list_entry_ei : list qmi_elem_info :=
  [ElemInfo QMI_STRING 256 1 NO_ARRAY 0 4 None; EI QMI_UNSIGNED_4_BYTE 4 0 260;
   EI QMI_UNSIGNED_1_BYTE 1 0 264; EI QMI_UNSIGNED_4_BYTE 4 0 268; EI_END].
Definition sizeof_domain_list_entry : Z := 272.
Definition sizeof_name : Z := 256.

Definition servreg_loc_get_domain_list_req_ei : list qmi_elem_info :=
  [ElemInfo QMI_STRING 256 1 VAR_LEN_ARRAY 1 4 None;
   EI QMI_OPT_FLAG 1 16 260; EI QMI_UNSIGNED_4_BYTE 4 16 264; EI_END].
Definition sizeof_get_domain_list_req : Z := 268.

Definition EI_SERVREG_RESULT : qmi_elem_info :=
  ElemInfo QMI_STRUCT 1 4 NO_ARRAY 2 0 (Some servreg_loc_qmi_result_ei).

(** [domain_list_len] at 16, the 255 entries from 20 on. *)
Definition servreg_loc_get_domain_list_resp_ei : list qmi_elem_info :=
  [EI_SERVREG_RESULT;
   EI QMI_OPT_FLAG 1 16 4; EI QMI_UNSIGNED_2_BYTE 2 16 6;
   EI QMI_OPT_FLAG 1 17 8; EI QMI_UNSIGNED_2_BYTE 2 17 10;
   EI QMI_OPT_FLAG 1 18 12; EI QMI_DATA_LEN 1 18 16;
   ElemInfo QMI_STRUCT 255 272 VAR_LEN_ARRAY 18 20 (Some servreg_loc_domain_list_entry_ei); EI_END].
Definition sizeof_get_domain_list_resp : Z := 69380.
Definition max_domains : Z := 255.

Definition servreg_loc_pfr_req_ei : list qmi_elem_info :=
  [ElemInfo QMI_STRING 256 1 VAR_LEN_ARRAY 1 4 None; ElemInfo QMI_STRING 256 1 VAR_LEN_ARRAY 2 264 None; EI_END].
Definition sizeof_pfr_req : Z := 520.
Definition servreg_loc_pfr_resp_ei : list qmi_elem_info := [EI_SERVREG_RESULT; EI_END].
Definition sizeof_pfr_resp : Z := 4.

(** ** The structures *)

Record domain_list_entry := DomainEntry { entry_name : list Z; instance_id : Z }.
(** The flags of the optional fields: [total_domains_valid], [db_revision_valid],
    [domain_list_valid]; the length of the list is [domain_list_len]. *)
Record get_domain_list_resp := DomainListResp {
  dl_result : Z;
  dl_error : Z;
  total_domains : option Z;
  db_revision : option Z;
  domain_list_valid : bool;
  domain_list : list domain_list_entry }.

Definition flagged (o : option Z) : list Z :=
  match o with Some v => [1; 0] ++ le_bytes 2 v | None => [0; 0; 0; 0] end.
(** [service_data] and its flag stay zero. *)
Definition entry_bytes (e : domain_list_entry) : list Z :=
  le_bytes 4 (zlen (entry_name e)) ++ entry_name e ++ replicate (Z.to_nat (sizeof_name - zlen (entry_name e))) 0
  ++ le_bytes 4 (instance_id e) ++ replicate 8 0.
Definition resp_head (r : get_domain_list_resp) : list Z :=
  le_bytes 2 (dl_result r) ++ le_bytes 2 (dl_error r) ++ flagged (total_domains r) ++ flagged (db_revision r)
  ++ [(if domain_list_valid r then 1 else 0); 0; 0; 0] ++ le_bytes 4 (zlen (domain_list r)).
Definition resp_bytes (r : get_domain_list_resp) : list Z :=
  resp_head r ++ concat (map entry_bytes (domain_list r))
  ++ replicate (Z.to_nat ((max_domains - zlen (domain_list r)) * sizeof_domain_list_entry)) 0.

(** ** The tables are well formed

    The strings inside the entries of the response are the exception: the check for
    them leaves out the header of the TLV. *)

Lemma servreg_decode_tables :
  forallb (fun '(t, size) => dtable_ok msg_fuel size t)
    [(servreg_loc_get_domain_list_req_ei, sizeof_get_domain_list_req);
     (servreg_loc_pfr_resp_ei, sizeof_pfr_resp)] = true
  /\ dtable_ok msg_fuel sizeof_pfr_req servreg_loc_pfr_req_ei = false.
Proof. split; vm_compute; reflexivity. Qed.
Lemma servreg_encode_tables :
  forallb (fun '(t, size) => table_ok msg_fuel 1 size t)
    [(servreg_loc_get_domain_list_req_ei, sizeof_get_domain_list_req);
     (servreg_loc_pfr_req_ei, sizeof_pfr_req); (servreg_loc_pfr_resp_ei, sizeof_pfr_resp)] = true
  /\ table_ok msg_fuel 1 sizeof_get_domain_list_resp servreg_loc_get_domain_list_resp_ei = false.
Proof. split; vm_compute; reflexivity. Qed.
