(* ===== verification/PdMapper.v ===== *)
(** * The protection domain mapper (pd-mapper/pd-mapper.c)

    Loading the maps from the JSON files next to the firmware, and answering which
    domains provide a service.  Directories, files and received datagrams are
    parameters; [malloc] of the strings of a map is taken to succeed, as the code
    does. *)
From Stdlib Require Import String.
From S2P Require Import Prelude CString Paths Hash Qrtr Qmi ServregLoc Os Json Assoc.
#[local] Open Scope Z_scope.

Definition EINTR : Z := 4.


Record pd_map := PdMap { pm_service : list Z; pm_domain : list Z; pm_instance : Z }.
(** A slot of the array [pd_maps]: memory that [realloc] added, the terminator whose
    service is null, or a map. *)
Inductive pd_slot := Undefined | Terminator | Mapped (m : pd_map).
(** The statics [pd_maps], null at first, and [num_pd_maps]. *)
Record pd_state := PdState { pd_maps : option (list pd_slot); num_pd_maps : Z }.
Definition pd_static : pd_state := PdState None 0.

(** ** Requests *)

(** What the uninitialised local [resp_buf] holds. *)
Record pd_stack := PdStack { pd_buf : list Z }.

(** [domain_list[i]] in the response. *)
Definition entry_at (i : Z) : Z := 20 + sizeof_domain_list_entry * i.

(** A matching map: the next entry of the list is counted, [strcpy] copies the domain from
    its name on, and its other fields are written.  A domain of 256 bytes or more runs into the
    fields behind the name and into the next entry; only behind the last entry it leaves
    the response. *)
Definition add_domain (resp : list Z) (m : pd_map) : outcome (list Z) :=
  len ← read_mem resp 16 4;
  let i := le_value len in
  resp ← write_mem resp 16 (le_bytes 4 (u32 (i + 1)));
  resp ← write_mem resp (entry_at i + 4) (pm_domain m ++ [0]);
  resp ← write_mem resp (entry_at i) (le_bytes 4 (u32 (zlen (pm_domain m))));
  write_mem resp (entry_at i + 4 + sizeof_name) (le_bytes 4 (u32 (pm_instance m))).

(** The loop over the maps; the entry behind the last one is out of bounds. *)
Fixpoint add_domains (maps : list pd_slot) (name resp : list Z) : outcome (list Z) :=
  match maps with
  | [] => Fault OutOfBounds
  | Undefined :: _ => Fault Uninitialised
  | Terminator :: _ => Done resp
  | Mapped m :: maps' =>
      if bool_decide (pm_service m = name) then resp ← add_domain resp m; add_domains maps' name resp
      else add_domains maps' name resp
  end.

(** [result], [error], [db_revision_valid] and [db_revision] in a response of zeros. *)
Definition blank_resp : list Z := replicate (Z.to_nat sizeof_get_domain_list_resp) 0.
Definition malformed_resp : outcome (list Z) :=
  resp ← write_mem blank_resp 0 (le_bytes 2 QMI_RESULT_FAILURE);
  write_mem resp 2 (le_bytes 2 QMI_ERR_MALFORMED_MSG).
Definition list_domains (maps : list pd_slot) (name : list Z) : outcome (list Z) :=
  resp ← write_mem blank_resp 0 (le_bytes 2 QMI_RESULT_SUCCESS);
  resp ← write_mem resp 8 [1];
  resp ← write_mem resp 10 (le_bytes 2 1);
  resp ← add_domains maps name resp;
  len ← read_mem resp 16 4;
  resp ← (if le_value len =? 0 then Done resp else write_mem resp 12 [1]);
  resp ← write_mem resp 4 [1];
  write_mem resp 6 (le_bytes 2 (le_value len)).

(** The datagram that is sent, if any; failing to send it is only logged.  When decoding
    fails before the transaction is read, this is uninitialised. *)
Definition handle_get_domain_list (maps : option (list pd_slot)) (pkt : qrtr_packet) (stale : list Z) (stk : pd_stack)
    : outcome (option (Z * Z * list Z)) :=
  '(req, ret, txn) ← qmi_decode_message msg_fuel (replicate (Z.to_nat sizeof_get_domain_list_req) 0) (qp_data pkt ++ stale)
                       (zlen (qp_data pkt)) QMI_REQUEST SERVREG_LOC_GET_DOMAIN_LIST
                       (Some servreg_loc_get_domain_list_req_ei);
  resp ← (if ret <? 0 then malformed_resp
          else
            req ← write_mem req (4 + sizeof_name - 1) [0];
            name ← read_cstr req 4;
            maps ← of_option NullPointer maps;
            list_domains maps name);
  txn ← of_option Uninitialised txn;
  '(data, data_len, len) ← qmi_encode_message msg_fuel (pd_buf stk) (zlen (pd_buf stk)) QMI_RESPONSE
                             SERVREG_LOC_GET_DOMAIN_LIST txn (Some resp) (Some servreg_loc_get_domain_list_resp_ei);
  if len <? 0 then Done None
  else bs ← read_mem data 0 data_len; Done (Some (qp_node pkt, qp_port pkt, bs)).

(** ** Loading *)

(** ["%s/%s"] and ["%s/%s/%s"] *)

Definition map_service (provider service : list Z) : list Z := provider ++ slash ++ service.
Definition map_domain (soc domain subdomain : list Z) : list Z := soc ++ slash ++ domain ++ slash ++ subdomain.

(** Converting a number to [int]. *)
Definition to_int (number : Z) : outcome Z :=
  if (- 2 ^ 31 <=? number) && (number <? 2 ^ 31) then Done number else Fault Overflow.

Definition put_slot (st : pd_state) (i : Z) (s : pd_slot) : outcome pd_state :=
  maps ← of_option NullPointer (pd_maps st);
  if (0 <=? i) && (i <? zlen maps) then Done (PdState (Some (<[Z.to_nat i := s]> maps)) (num_pd_maps st))
  else Fault OutOfBounds.

(** The loop over the services; [false] when one cannot be parsed. *)
Fixpoint load_services (st : pd_state) (l : list json) (domain : list Z) (number : Z) : outcome (pd_state * bool) :=
  match l with
  | [] => Done (st, true)
  | it :: l' =>
      provider ← json_get_string (Some it) (cstr "provider");
      service ← json_get_string (Some it) (cstr "service");
      match provider, service with
      | Some provider, Some service =>
          instance ← to_int number;
          st ← put_slot st (num_pd_maps st) (Mapped (PdMap (map_service provider service) domain instance));
          load_services (PdState (pd_maps st) (num_pd_maps st + 1)) l' domain number
      | _, _ => Done (st, false)
      end
  end.

(** [root] is what [json_parse_file] returned, [realloc] whether it succeeds. *)
Definition pd_load_map (st : pd_state) (root : option json) (realloc : bool) : outcome (pd_state * Z) :=
  match root with
  | None => Done (st, -1)
  | Some root =>
      sr_domain ← json_get_child (Some root) (cstr "sr_domain");
      soc ← json_get_string sr_domain (cstr "soc");
      domain ← json_get_string sr_domain (cstr "domain");
      subdomain ← json_get_string sr_domain (cstr "subdomain");
      number ← json_get_number sr_domain (cstr "qmi_instance_id");
      match number, soc, domain, subdomain with
      | Some number, Some soc, Some domain, Some subdomain =>
          sr_service ← json_get_child (Some root) (cstr "sr_service");
          let count := json_count_children sr_service in
          if count <? 0 then Done (st, count)
          else if negb realloc then Done (st, -1)
          else
            let maps := resize (Z.to_nat (num_pd_maps st + count + 1)) Undefined (default [] (pd_maps st)) in
            '(st, ok) ← load_services (PdState (Some maps) (num_pd_maps st))
                          (match sr_service with Some (JArray l) => l | _ => [] end)
                          (map_domain soc domain subdomain) number;
            if negb ok then Done (st, -1)
            else st ← put_slot st (num_pd_maps st) Terminator; Done (st, 0)
      | _, _, _, _ => Done (st, -1)
      end
  end.

(** ** Finding the files *)



Definition is_jsn (name : list Z) : bool :=
  negb (zlen name <? 5) && bool_decide (drop (Z.to_nat (zlen name - 4)) name = cstr ".jsn").

(** The inner loop, over the entries of the directory of a firmware. *)
Fixpoint add_jsons (json_set : assoc unit) (entries : list (list Z)) (path firmware_value : list Z)
    : outcome (assoc unit) :=
  match entries with
  | [] => Done json_set
  | name :: entries' =>
      if is_dot name || negb (is_jsn name)
         || (PATH_MAX <? zlen FIRMWARE_BASE + zlen firmware_value + 1 + zlen name + 1)
      then add_jsons json_set entries' path firmware_value
      else
        json_set ← assoc_set json_set (path ++ slash ++ name) tt;
        add_jsons json_set entries' path firmware_value
  end.

(** The directories: an entry of the class has the bytes read from its attribute,
    with the return value, or [None] when it cannot be opened; [opendir] gives the
    entries of a directory. *)
Section Enumerate.
Context (opendir : list Z -> option (list (list Z))).

Definition add_firmware (json_set : assoc unit) (name : list Z) (attr : option (Z * list Z)) : outcome (assoc unit) :=
  if is_dot name || (32 <? zlen name + 10) then Done json_set
  else
    match attr with
    | None => Done json_set
    | Some (n, bs) =>
        let n := u64 n in
        if PATH_MAX <=? n then Fault OutOfBounds
        else
          firmware_value ← read_cstr (bs ++ [0]) 0;
          if PATH_MAX <? zlen FIRMWARE_BASE + zlen firmware_value + 1 then Done json_set
          else
            let path := FIRMWARE_BASE ++ dirname firmware_value in
            entries ← of_option NullPointer (opendir path);
            add_jsons json_set entries path firmware_value
    end.
Fixpoint class_loop (json_set : assoc unit) (l : list (list Z * option (Z * list Z))) : outcome (assoc unit) :=
  match l with
  | [] => Done json_set
  | (name, attr) :: l' => json_set ← add_firmware json_set name attr; class_loop json_set l'
  end.
(** [None]: the class directory cannot be opened. *)
Definition pd_enumerate_jsons (json_set : assoc unit) (class_dir : option (list (list Z * option (Z * list Z))))
    : outcome (assoc unit) :=
  match class_dir with None => Done json_set | Some l => class_loop json_set l end.

(** The loop over the files, [parse] being [json_parse_file]. *)
Fixpoint load_files (parse : list Z -> outcome (option json)) (realloc : bool) (st : pd_state) (files : list (list Z))
    : outcome (pd_state * Z) :=
  match files with
  | [] => Done (st, 0)
  | f :: files' =>
      root ← parse f;
      '(st, ret) ← pd_load_map st root realloc;
      if ret <? 0 then Done (st, ret) else load_files parse realloc st files'
  end.
Definition pd_load_maps (parse : list Z -> outcome (option json)) (realloc : bool)
    (class_dir : option (list (list Z * option (Z * list Z)))) : outcome (pd_state * Z) :=
  json_set ← assoc_init 20;
  json_set ← pd_enumerate_jsons json_set class_dir;
  files ← assoc_foreach json_set;
  load_files parse realloc pd_static (map fst files).
End Enumerate.

(** ** The service *)

(** A turn of the loop: the results of [qrtr_poll] and [recvfrom], [errno], and what
    memory holds behind the datagram and in the locals. *)
Record pd_turn := PdTurn {
  pt_poll : Z; pt_errno : Z; pt_recv : Z + list Z * sockaddr_qrtr; pt_stale : list Z; pt_stack : pd_stack;
  pt_pkt : qrtr_packet }.

(** A datagram: the value to return when the loop ends, and what is sent. *)
Definition pd_datagram (maps : option (list pd_slot)) (t : pd_turn) : outcome (option Z * list (Z * Z * list Z)) :=
  match pt_recv t with
  | inl errno => Done (Some (- errno), [])
  | inr (data, sq) =>
      '(ret, pkt) ← qrtr_decode (pt_pkt t) data sq;
      if ret <? 0 then Done (Some ret, [])
      else if qp_type pkt =? QRTR_TYPE_DATA then
        '(ret, id) ← qmi_decode_header (qp_data pkt ++ pt_stale t) (zlen (qp_data pkt));
        if ret <? 0 then Done (None, [])
        else
          id ← of_option Uninitialised id;
          if id =? SERVREG_LOC_GET_DOMAIN_LIST then
            sent ← handle_get_domain_list maps pkt (pt_stale t) (pt_stack t);
            Done (None, match sent with Some m => [m] | None => [] end)
          else Done (None, [])
      else Done (None, [])
  end.
(** The result is [None] when the turns are used up and the service goes on. *)
Fixpoint pd_loop (maps : option (list pd_slot)) (turns : list pd_turn) : outcome (option Z * list (Z * Z * list Z)) :=
  match turns with
  | [] => Done (None, [])
  | t :: turns' =>
      if pt_poll t <? 0 then
        if pt_errno t =? EINTR then pd_loop maps turns' else Done (Some 0, [])
      else
        '(stop, sent) ← pd_datagram maps t;
        match stop with
        | Some ret => Done (Some ret, sent)
        | None => '(r, sent') ← pd_loop maps turns'; Done (r, sent ++ sent')
        end
  end.

(** [main] behind [pd_load_maps]; [sy] gives the results of the calls made to open
    the socket and publish the service. *)
Definition pd_main (loaded : pd_state * Z) (sy : sys) (turns : list pd_turn)
    : outcome (list call * (option Z * list (Z * Z * list Z))) :=
  let '(st, ret) := loaded in
  if negb (ret =? 0) then Done ([], (Some 1, []))
  else match pd_maps st with
       | None => Done ([], (Some 1, []))
       | Some _ =>
           let '(c1, fd) := qrtr_open sy 0 in
           if fd <? 0 then Done (c1, (Some 1, []))
           else
             let '(c2, ret) := qrtr_publish sy fd SERVREG_QMI_SERVICE SERVREG_QMI_VERSION SERVREG_QMI_INSTANCE in
             if ret <? 0 then Done (c1 ++ c2, (Some 1, []))
             else r ← pd_loop (pd_maps st) turns; Done (c1 ++ c2, r)
       end.
