(* ===== verification/PdMapperProps.v ===== *)
(** * The protection domain mapper: loading and answering *)
From Stdlib Require Import String.
From S2P Require Import Prelude CString Paths Hash Qrtr Qmi QmiFacts QmiDecode QmiProps QmiRef ServregLoc Os Json Assoc AssocProps PdMapper.
#[local] Open Scope Z_scope.

(** ** The bytes of an answer *)

Definition reply_entry (e : domain_list_entry) : list Z :=
  [zlen (entry_name e)] ++ entry_name e ++ le_bytes 4 (instance_id e) ++ [0] ++ [0; 0; 0; 0].
Definition reply_list (l : list domain_list_entry) : list Z := zlen l :: concat (map reply_entry l).
(** Result, number of domains, revision, and the list unless it is empty. *)
Definition reply_payload (l : list domain_list_entry) : list Z :=
  [2; 4; 0; 0; 0; 0; 0] ++ [16; 2; 0; zlen l; 0] ++ [17; 2; 0; 1; 0] ++
  match l with [] => [] | _ => tlv 1 18 (reply_list l) end.
Definition reply (txn : Z) (l : list domain_list_entry) : list Z :=
  header_bytes QMI_RESPONSE txn SERVREG_LOC_GET_DOMAIN_LIST (zlen (reply_payload l)) ++ reply_payload l.

Definition name_ok (s : list Z) : Prop := zlen s < 256 /\ Forall (fun b => b <> 0) s.

(** Evaluate the types and counts of the entries of a table. *)
Ltac open_table :=
  cbn [wire wire_fields length head mbind option_bind offset elem_size elem_len tlv_type tail data_type EI EI_END wire_data];
  repeat match goal with
  | |- context [is_type ?t ?e] => let b := eval vm_compute in (is_type t e) in change (is_type t e) with b
  | |- context [enc_count ?e ?n] => let b := eval vm_compute in (enc_count e n) in change (enc_count e n) with b
  end;
  cbn [wire wire_fields length head mbind option_bind offset elem_size elem_len tlv_type tail data_type EI EI_END wire_data
       Z.ltb Z.compare Z.eqb Pos.eqb Pos.compare Pos.compare_cont negb orb].

Lemma wire_entry c X e Y off : c = X ++ entry_bytes e ++ Y -> off = zlen X -> name_ok (entry_name e) ->
  wire 2 c (Some servreg_loc_domain_list_entry_ei) off 2 = Some (reply_entry e).
Proof.
  intros Hc Hoff [Hl Hn]. set (s := entry_name e) in *.
  assert (Hz : exists Z0, replicate (Z.to_nat (sizeof_name - zlen s)) 0 = 0 :: Z0 /\ zlen Z0 = 255 - zlen s).
  { unfold sizeof_name. replace (Z.to_nat (256 - zlen s)) with (S (Z.to_nat (255 - zlen s))) by (unfold zlen in *; lia).
    cbn [replicate]. eexists. split; [done|]. unfold zlen. rewrite length_replicate. unfold zlen in *. lia. }
  destruct Hz as (Z0 & EZ & HZ). unfold entry_bytes in Hc. fold s in Hc. rewrite EZ in Hc.
  assert (P1 : peek_string c (off + 4) = Some (zlen s)).
  { apply (strlen_at_field _ (X ++ le_bytes 4 (zlen s)) s (Z0 ++ le_bytes 4 (instance_id e) ++ replicate 8 0 ++ Y)); [|unfold zlen in *; rewrite length_app; cbn [length le_bytes]; lia|done].
    subst c. rewrite <- !app_assoc. done. }
  assert (P2 : peek c (off + 4) (zlen s) = Some s).
  { apply (peek_at _ (X ++ le_bytes 4 (zlen s)) s (0 :: Z0 ++ le_bytes 4 (instance_id e) ++ replicate 8 0 ++ Y)); [|unfold zlen in *; rewrite length_app; cbn [length le_bytes]; lia|done].
    subst c. rewrite <- !app_assoc. done. }
  set (P := X ++ le_bytes 4 (zlen s) ++ s ++ 0 :: Z0).
  assert (HP : zlen P = off + 260).
  { unfold P. subst off. unfold zlen in *. rewrite !length_app. cbn [length le_bytes]. lia. }
  assert (Hc' : c = P ++ le_bytes 4 (instance_id e) ++ [0] ++ [0; 0; 0] ++ [0; 0; 0; 0] ++ Y).
  { unfold P. subst c. rewrite <- !app_assoc. done. }
  assert (P3 : peek c (off + 260) (1 * 4) = Some (le_bytes 4 (instance_id e))) by (eapply peek_at; [exact Hc'|lia|done]).
  assert (P4 : peek c (off + 264) (1 * 1) = Some [0]).
  { apply (peek_at _ (P ++ le_bytes 4 (instance_id e)) [0] ([0; 0; 0] ++ [0; 0; 0; 0] ++ Y)); [by rewrite <- !app_assoc| |done].
    unfold zlen in *. rewrite length_app. cbn [length le_bytes]. lia. }
  assert (P5 : peek c (off + 268) (1 * 4) = Some [0; 0; 0; 0]).
  { apply (peek_at _ (P ++ le_bytes 4 (instance_id e) ++ [0] ++ [0; 0; 0]) [0; 0; 0; 0] Y); [by rewrite <- !app_assoc| |done].
    unfold zlen in *. rewrite !length_app. cbn [length le_bytes]. lia. }
  unfold servreg_loc_domain_list_entry_ei. open_table.
  rewrite P1. cbn [mbind option_bind]. rewrite (proj2 (Z.ltb_ge 256 (zlen s))) by lia. cbn [orb negb]. rewrite P2.
  open_table. rewrite P3. open_table. rewrite P4. open_table. rewrite P5. open_table.
  unfold reply_entry. fold s. assert (zlen s mod 256 = zlen s) as E by (apply Z.mod_small; unfold zlen in *; lia).
  unfold tlv. change (Z.to_nat (string_width _)) with 1%nat. cbn [Z.eqb Pos.eqb le_bytes app]. by rewrite E.
Qed.

Lemma entry_bytes_length e : zlen (entry_name e) < 256 -> zlen (entry_bytes e) = 272.
Proof.
  intros Hl. unfold entry_bytes, sizeof_name, zlen in *. rewrite !length_app, !length_replicate, !length_le_bytes. lia.
Qed.
Lemma wire_entries c l X Y off : c = X ++ concat (map entry_bytes l) ++ Y -> off = zlen X ->
  Forall (fun e => name_ok (entry_name e)) l ->
  wire_structs (wire 2 c) (Some servreg_loc_domain_list_entry_ei) (length l) off 272 2 = Some (concat (map reply_entry l)).
Proof.
  intros Hc Hoff Hl. revert X off Hc Hoff. induction Hl as [|e l He Hl IH]; intros X off Hc Hoff; [done|].
  cbn [map concat length wire_structs] in *. rewrite <- app_assoc in Hc.
  rewrite (wire_entry c X e _ off Hc Hoff He). cbn [mbind option_bind].
  rewrite (IH (X ++ entry_bytes e) (off + 272)); [done|by rewrite <- app_assoc|].
  destruct He as [Hn _]. pose proof (entry_bytes_length e Hn). unfold zlen in *. rewrite length_app. lia.
Qed.

(** A field within the head of the response. *)
Lemma peek_head h Y off n b : peek h off n = Some b -> peek (h ++ Y) off n = Some b.
Proof.
  unfold peek. destruct (_ && _) eqn:E; [|done]. reflect_bools. intros [= <-]. unfold zlen in *. rewrite length_app.
  rewrite (proj2 (Z.leb_le _ _)), (proj2 (Z.leb_le _ _)), (proj2 (Z.leb_le _ _)) by lia. cbn [andb].
  rewrite drop_app_le, take_app_le by (rewrite ?length_drop; lia). done.
Qed.

(** The responses of the handler as records. *)
Definition refused_resp : get_domain_list_resp :=
  DomainListResp QMI_RESULT_FAILURE QMI_ERR_MALFORMED_MSG None None false [].
Definition found_resp (l : list domain_list_entry) : get_domain_list_resp :=
  DomainListResp QMI_RESULT_SUCCESS QMI_ERR_NONE (Some (zlen l)) (Some 1) (negb (zlen l =? 0)) l.

Lemma wire_malformed : wire msg_fuel (resp_bytes refused_resp) (Some servreg_loc_get_domain_list_resp_ei) 0 1 =
  Some [2; 4; 0; 1; 0; 2; 0].
Proof. vm_compute. reflexivity. Qed.

(** The reference encoder on a response. *)
Lemma wire_found l : zlen l <= 255 -> Forall (fun e => name_ok (entry_name e)) l ->
  wire msg_fuel (resp_bytes (found_resp l)) (Some servreg_loc_get_domain_list_resp_ei) 0 1 = Some (reply_payload l).
Proof.
  intros Hlen Hl. unfold resp_bytes. set (h := resp_head (found_resp l)).
  set (Z0 := replicate _ 0). set (c := h ++ _).
  assert (Hc : c = h ++ concat (map entry_bytes l) ++ Z0) by done.
  assert (Hh : zlen h = 20) by done.
  assert (Hn : 0 <= zlen l) by (unfold zlen; lia).
  assert (P : forall off n b, peek h off n = Some b -> peek c off n = Some b) by (intros; by apply peek_head).
  assert (P0 : peek c 0 (1 * 2) = Some [0; 0]) by (apply P; done).
  assert (P2 : peek c 2 (1 * 2) = Some [0; 0]) by (apply P; done).
  assert (P4 : peek c 4 1 = Some [1]) by (apply P; done).
  assert (P6 : peek c 6 (1 * 2) = Some (le_bytes 2 (zlen l))) by (apply P; done).
  assert (P8 : peek c 8 1 = Some [1]) by (apply P; done).
  assert (P10 : peek c 10 (1 * 2) = Some [1; 0]) by (apply P; done).
  assert (P12 : peek c 12 1 = Some [if negb (zlen l =? 0) then 1 else 0]) by (apply P; done).
  assert (P16 : peek c 16 1 = Some [zlen l mod 256]) by (apply P; done).
  assert (H2 : le_bytes 2 (zlen l) = [zlen l; 0]).
  { cbn [le_bytes]. rewrite Z.div_small, Z.mod_small by lia. done. }
  assert (PL : wire_structs (wire 2 c) (Some servreg_loc_domain_list_entry_ei) (length l) 20 272 2 =
    Some (concat (map reply_entry l))) by (by apply (wire_entries c l h Z0)).
  clearbody c. clear P Hc.
  assert (PR : wire_data (wire 2 c) EI_SERVREG_RESULT 1 c (0 + 0) 1 = Some [0; 0; 0; 0]).
  { cbn [wire_data EI_SERVREG_RESULT data_type ei_array elem_size Z.ltb Z.compare]. unfold servreg_loc_qmi_result_ei.
    change (Z.to_nat 1) with 1%nat. cbn [wire_structs]. rewrite wire_unfold. cbn [length].
    rewrite (wire_entry_data _ _ _ _ _ _ _ _ 1 [] [0; 0]) by (done || exact P0).
    rewrite (wire_entry_data _ _ _ _ _ _ _ _ 1 [] [0; 0]) by (done || exact P2).
    rewrite wire_end by done. done. }
  unfold servreg_loc_get_domain_list_resp_ei, msg_fuel. rewrite wire_unfold. cbn [length].
  rewrite (wire_entry_data _ _ _ _ _ _ _ _ 1 [] [0; 0; 0; 0]) by (done || exact PR).
  erewrite (wire_flag _ _ _ _ _ _ _ _ _ 1) by (done || exact P4). cbn [Z.eqb].
  rewrite (wire_entry_data _ _ _ _ _ _ _ _ 1 [] [zlen l; 0]) by (done || (rewrite <- H2; exact P6)).
  erewrite (wire_flag _ _ _ _ _ _ _ _ _ 1) by (done || exact P8). cbn [Z.eqb].
  rewrite (wire_entry_data _ _ _ _ _ _ _ _ 1 [] [1; 0]) by (done || exact P10).
  erewrite (wire_flag _ _ _ _ _ _ _ _ _ _) by (done || exact P12).
  destruct l as [|e l]; [done|]. set (l' := e :: l) in *. assert (Hl1 : 0 < zlen l') by done.
  rewrite (proj2 (Z.eqb_neq (zlen l') 0)) by lia. cbn [negb Z.eqb].
  rewrite (wire_len _ _ _ _ _ _ _ _ _ _ (zlen l')) by (done || exact P16 || apply Z.mod_small; lia || lia).
  rewrite (wire_entry_data _ _ _ _ _ _ _ _ (zlen l') _ (concat (map reply_entry l'))); try done.
  - rewrite wire_end by done. cbn [mbind option_bind le_bytes app].
    rewrite (Z.mod_small (zlen l')) by lia. rewrite app_nil_r. reflexivity.
  - unfold enc_count. cbn [array_type elem_len]. rewrite (proj2 (Z.leb_gt _ _)), (proj2 (Z.ltb_ge _ _)) by lia. done.
  - unfold wire_data. cbn [data_type ei_array elem_size]. rewrite (proj2 (Z.ltb_ge (zlen l') 0)) by lia.
    replace (Z.to_nat (zlen l')) with (length l') by (unfold zlen; lia). exact PL.
Qed.

(** ** Requests *)

(** A request for the domains of [name]. *)
Definition request (txn : Z) (name : list Z) : list Z :=
  header_bytes QMI_REQUEST txn SERVREG_LOC_GET_DOMAIN_LIST (3 + zlen name) ++ [1; zlen name; 0] ++ name.
Definition request_struct (name : list Z) : list Z :=
  replicate 4 0 ++ name ++ 0 :: replicate (Z.to_nat (263 - zlen name)) 0.

Lemma request_length txn name : zlen (request txn name) = 10 + zlen name.
Proof. unfold request, zlen. rewrite !length_app. cbn [length header_bytes le_bytes app]. lia. Qed.

(** The string of the request is copied and terminated. *)
Lemma string_decoded c X name Y : c = X ++ name ++ Y -> zlen name < 256 ->
  qmi_decode_string_elem (ElemInfo QMI_STRING 256 1 VAR_LEN_ARRAY 1 4 None)
    (replicate 268 0) 4 c (zlen X) (zlen name) 1 = Done (request_struct name, zlen name).
Proof.
  intros Hc Hn. unfold qmi_decode_string_elem. cbn [elem_len elem_size Z.eqb Pos.eqb]. run.
  rewrite (proj2 (Z.ltb_ge 256 _)), (proj2 (Z.ltb_ge (zlen name) (zlen name))) by lia. rewrite Z.add_0_r.
  assert (Hz : zlen name <= zlen (replicate 264 0)) by (change (zlen (replicate 264 0)) with 264; lia).
  unfold qmi_decode_basic_elem. change (replicate 268 0) with (replicate 4 0 ++ replicate 264 0).
  rewrite (basic_bytes (replicate 4 0) _ c (zlen X) (zlen name) 1 name 4 eq_refl); [run| |unfold zlen; lia|done|lia].
  2: { rewrite Z.mul_1_r. by apply (peek_at c X name Y). }
  assert (Hr : drop (length name) (replicate 264 0) = 0 :: replicate (Z.to_nat (263 - zlen name)) 0).
  { rewrite drop_replicate. replace (264 - length name)%nat with (S (Z.to_nat (263 - zlen name))) by (unfold zlen in *; lia). done. }
  rewrite Hr, app_assoc. change (0 :: replicate (Z.to_nat (263 - zlen name)) 0) with ([0] ++ replicate (Z.to_nat (263 - zlen name)) 0).
  rewrite write_at; [|unfold zlen; rewrite length_app, length_replicate; lia|done]. run.
  unfold request_struct. by rewrite <- app_assoc.
Qed.

Lemma request_body c X name stale : c = X ++ [1; zlen name; 0] ++ name ++ stale -> zlen X = 7 -> zlen name < 256 ->
  qmi_decode msg_fuel (Some servreg_loc_get_domain_list_req_ei) (replicate 268 0) 0 c 7 (3 + zlen name) 1 =
  Done (request_struct name, 3 + zlen name).
Proof.
  intros Hc HX Hn. assert (Hn0 : 0 <= zlen name) by (unfold zlen; lia).
  assert (T0 : read_mem c 7 1 = Done [1]) by (eapply (read_at c X [1] ([zlen name; 0] ++ name ++ stale)); done).
  assert (T1 : read_mem c (7 + 1) 1 = Done [zlen name]).
  { eapply (read_at c (X ++ [1]) [zlen name] ([0] ++ name ++ stale)); [rewrite <- app_assoc; exact Hc| |done].
    unfold zlen in *. rewrite length_app. cbn [length]. lia. }
  assert (T2 : read_mem c (7 + 2) 1 = Done [0]).
  { eapply (read_at c (X ++ [1; zlen name]) [0] (name ++ stale)); [rewrite <- app_assoc; exact Hc| |done].
    unfold zlen in *. rewrite length_app. cbn [length]. lia. }
  assert (Hs : c = (X ++ [1; zlen name; 0]) ++ name ++ stale) by (rewrite <- app_assoc; exact Hc).
  assert (HX' : zlen (X ++ [1; zlen name; 0]) = 10) by (unfold zlen in *; rewrite length_app; cbn [length]; lia).
  pose proof (string_decoded c _ name stale Hs Hn) as Hstr. rewrite HX' in Hstr.
  unfold msg_fuel. cbn [qmi_decode]. unfold decode_fuel. cbn [Z.eqb Pos.eqb].
  replace (Z.to_nat (3 + zlen name)) with (S (Z.to_nat (2 + zlen name))) by lia.
  generalize (fun t out o0 src so in_buf_len level => qmi_decode 2 t out o0 src so in_buf_len level) as dec. intros _.
  match goal with |- decode_loop ?d _ _ _ _ _ _ _ = _ => generalize d as dec end. intros dec.
  cbn [decode_loop d_bytes d_src d_out d_ei d_dlen d_tlvlen Z.leb Z.compare Pos.compare Pos.compare_cont Z.eqb Pos.eqb].
  rewrite (proj2 (Z.ltb_lt 0 _)) by lia. cbn [negb]. run.
  assert (Hh : dec_header servreg_loc_get_domain_list_req_ei
      (DecState (replicate 268 0) servreg_loc_get_domain_list_req_ei 0 7 0 0) c =
    Done (inl (DecState (replicate 268 0) servreg_loc_get_domain_list_req_ei 0 10 (zlen name) 3, false))).
  { unfold dec_header, QMI_ENCDEC_DECODE_TLV. cbn [d_src d_out d_ei d_dlen d_bytes]. rewrite T0, T1, T2. run.
    cbn [le_value]. rewrite Z.mul_0_r, Z.add_0_r, Z.shiftl_0_l, Z.lor_0_r. reflexivity. }
  rewrite Hh. run.
  assert (He : dec_entry dec (DecState (replicate 268 0) servreg_loc_get_domain_list_req_ei 0 10 (zlen name) 3) 0 c 1 =
    Done (inl (DecState (request_struct name) (tail servreg_loc_get_domain_list_req_ei) 0 (10 + zlen name) (zlen name) (3 + zlen name)))).
  { unfold dec_entry, dec_opt_flag, dec_data_len, servreg_loc_get_domain_list_req_ei, ei_at.
    cbn [d_ei head of_option mbind outcome_bind]. change (is_type QMI_OPT_FLAG _) with false. run.
    cbn [d_ei head of_option mbind outcome_bind]. change (is_type QMI_DATA_LEN _) with false. run.
    cbn [d_ei head of_option mbind outcome_bind d_dlen]. cbn [dec_count array_type elem_len Z.ltb Z.compare].
    cbn [dec_elem data_type dec_set_dlen d_out d_src d_tlvlen d_ei d_dlen d_bytes offset]. rewrite Z.add_0_l, Hstr. run.
    rewrite (proj2 (Z.ltb_ge _ _)) by lia. run. unfold dec_next, dec_update, dec_set_dlen.
    cbn [d_out d_src d_tlvlen d_ei d_dlen d_bytes]. rewrite u32_small by lia. reflexivity. }
  rewrite He. run. destruct (Z.to_nat (2 + zlen name)) eqn:E2; [lia|].
  cbn [decode_loop d_bytes d_out]. rewrite Z.ltb_irrefl. cbn [negb]. by rewrite s32_small by lia.
Qed.

Lemma request_decoded txn name stale : zlen name < 256 -> 0 <= txn < 2 ^ 16 ->
  qmi_decode_message msg_fuel (replicate 268 0) (request txn name ++ stale) (zlen (request txn name)) QMI_REQUEST
    SERVREG_LOC_GET_DOMAIN_LIST (Some servreg_loc_get_domain_list_req_ei) =
  Done (request_struct name, 3 + zlen name, Some txn).
Proof.
  intros Hn Htxn. assert (Hn0 : 0 <= zlen name) by (unfold zlen; lia). unfold qmi_decode_message.
  rewrite request_length, (proj2 (Z.eqb_neq _ _)) by lia. set (c := request txn name ++ stale).
  set (L := le_bytes 2 (3 + zlen name)). set (K := [1; zlen name; 0] ++ name ++ stale).
  assert (Hc : c = le_bytes 1 QMI_REQUEST ++ le_bytes 2 txn ++ le_bytes 2 SERVREG_LOC_GET_DOMAIN_LIST ++ L ++ K).
  { unfold c, request, header_bytes, K, L. by rewrite <- !app_assoc. }
  clearbody c. unfold read_u8, read_u16.
  rewrite (read_at c [] (le_bytes 1 QMI_REQUEST) _ 0 1 Hc eq_refl eq_refl). run. cbn [le_bytes le_value QMI_REQUEST Z.eqb negb].
  assert (Ht : read_mem c 1 2 = Done (le_bytes 2 txn)) by (eapply (read_at c (le_bytes 1 QMI_REQUEST)); done).
  assert (Hi : read_mem c 3 2 = Done (le_bytes 2 SERVREG_LOC_GET_DOMAIN_LIST)).
  { eapply (read_at c (le_bytes 1 QMI_REQUEST ++ le_bytes 2 txn)); [rewrite <- app_assoc; exact Hc|done..]. }
  rewrite Hi, Ht. run. rewrite !le_value_bytes2 by done. change (negb _) with false. cbn match.
  unfold sizeof_header. rewrite u32_small by lia. replace (10 + zlen name - 7) with (3 + zlen name) by lia.
  rewrite (request_body c (le_bytes 1 QMI_REQUEST ++ le_bytes 2 txn ++ le_bytes 2 SERVREG_LOC_GET_DOMAIN_LIST ++ L) name stale);
    [run; reflexivity|by rewrite <- !app_assoc|done|done].
Qed.

(** ** Answers *)

(** The maps are an array that ends in the terminator. *)
Definition loaded (st : pd_state) (ms : list pd_map) : Prop :=
  num_pd_maps st = zlen ms /\ (pd_maps st = Some (map Mapped ms ++ [Terminator]) \/ pd_maps st = None /\ ms = []).

(** The domains that provide the service, in the order of the maps. *)
Definition domains_of (name : list Z) (ms : list pd_map) : list domain_list_entry :=
  map (fun m => DomainEntry (pm_domain m) (u32 (pm_instance m))) (filter (fun m => pm_service m = name) ms).

(** The response while the domains are copied, and the effect of copying one that fits its
    entry. *)
Definition listing (l : list domain_list_entry) : list Z := resp_bytes (DomainListResp 0 0 None (Some 1) false l).
Definition domain_entry (m : pd_map) : domain_list_entry := DomainEntry (pm_domain m) (u32 (pm_instance m)).

Lemma entries_length l : Forall (fun e => zlen (entry_name e) < 256) l -> zlen (concat (map entry_bytes l)) = 272 * zlen l.
Proof.
  induction 1 as [|e l He _ IH]; [done|]. cbn [map concat]. rewrite zlen_app, IH, entry_bytes_length by done.
  unfold zlen. cbn [length]. lia.
Qed.
Lemma listing_shape : exists h, zlen h = 16 /\ forall l', listing l' =
  h ++ le_bytes 4 (zlen l') ++ concat (map entry_bytes l') ++ replicate (Z.to_nat ((255 - zlen l') * 272)) 0.
Proof. exists [0; 0; 0; 0; 0; 0; 0; 0; 1; 0; 1; 0; 0; 0; 0; 0]. done. Qed.

Lemma add_domain_spec l m : zlen l < 255 -> Forall (fun e => zlen (entry_name e) < 256) l -> zlen (pm_domain m) < 256 ->
  add_domain (listing l) m = Done (listing (l ++ [domain_entry m])).
Proof.
  intros Hl Hn Hd. destruct listing_shape as (h & Hh & E). rewrite !E. clear E.
  pose proof (zlen_nonneg l) as Hl0. pose proof (zlen_nonneg (pm_domain m)) as Hd0. pose proof (entries_length l Hn) as HC.
  rewrite map_app, concat_app, zlen_app. change (zlen [domain_entry m]) with 1. cbn [map concat]. rewrite app_nil_r.
  set (C := concat (map entry_bytes l)) in *. set (d := pm_domain m) in *. set (inst := u32 (pm_instance m)).
  set (Y := replicate (Z.to_nat ((255 - (zlen l + 1)) * 272)) 0).
  assert (EZ : replicate (Z.to_nat ((255 - zlen l) * 272)) 0 =
    [0; 0; 0; 0] ++ replicate (Z.to_nat (zlen d + 1)) 0 ++ replicate (Z.to_nat (255 - zlen d)) 0 ++ [0; 0; 0; 0] ++ replicate 8 0 ++ Y).
  { change [0; 0; 0; 0] with (replicate 4 0). unfold Y. rewrite <- !replicate_add. f_equal. lia. }
  rewrite EZ. clear EZ. unfold add_domain. set (N := le_bytes 4 (zlen l)). assert (HN : zlen N = 4) by done.
  rewrite (read_at _ h N (C ++ [0; 0; 0; 0] ++ replicate (Z.to_nat (zlen d + 1)) 0 ++ replicate (Z.to_nat (255 - zlen d)) 0 ++ [0; 0; 0; 0] ++ replicate 8 0 ++ Y)) by (done || lia).
  run. assert (EV : le_value N = zlen l) by (apply le_value_bytes4; lia). rewrite EV. clear EV. rewrite (u32_small (zlen l + 1)) by lia. set (N' := le_bytes 4 (zlen l + 1)).
  rewrite (write_at h N) by (done || lia). run. set (H' := h ++ N' ++ C).
  assert (HH : zlen H' = entry_at (zlen l)) by (unfold H', entry_at, sizeof_domain_list_entry; rewrite !zlen_app; change (zlen N') with 4; lia).
  assert (R : forall x, h ++ N' ++ C ++ x = H' ++ x) by (intros x; unfold H'; by rewrite <- !app_assoc). rewrite !R. clear R.
  change (pm_domain m) with d. rewrite (app_assoc H').
  rewrite (write_at (H' ++ [0; 0; 0; 0]) (replicate (Z.to_nat (zlen d + 1)) 0));
    [run|rewrite zlen_app, HH; done|rewrite zlen_app; change (zlen [0]) with 1; unfold zlen at 2; rewrite length_replicate; lia].
  rewrite <- app_assoc, (u32_small (zlen d)) by lia. rewrite (write_at H' [0; 0; 0; 0]) by done. run.
  set (G := H' ++ le_bytes 4 (zlen d) ++ (d ++ [0]) ++ replicate (Z.to_nat (255 - zlen d)) 0).
  assert (R : forall x, H' ++ le_bytes 4 (zlen d) ++ (d ++ [0]) ++ replicate (Z.to_nat (255 - zlen d)) 0 ++ x = G ++ x)
    by (intros x; unfold G; by rewrite <- !app_assoc).
  rewrite R. clear R. rewrite (write_at G [0; 0; 0; 0]); [|unfold G, sizeof_name; rewrite !zlen_app, HH; unfold zlen; rewrite length_replicate, length_le_bytes; unfold zlen in *; cbn [length]; lia|done].
  f_equal. unfold G, H', entry_bytes, domain_entry, sizeof_name. cbn [entry_name instance_id]. fold d inst.
  replace (Z.to_nat (256 - zlen d)) with (S (Z.to_nat (255 - zlen d))) by lia. cbn [replicate]. rewrite <- !app_assoc. done.
Qed.

Lemma add_domains_spec ms name l : zlen l + zlen (domains_of name ms) <= 255 ->
  Forall (fun e => zlen (entry_name e) < 256) (l ++ domains_of name ms) ->
  add_domains (map Mapped ms ++ [Terminator]) name (listing l) = Done (listing (l ++ domains_of name ms)).
Proof.
  revert l. induction ms as [|m ms IH]; intros l Hl Hn; cbn [map app add_domains].
  { unfold domains_of. cbn. by rewrite app_nil_r. }
  unfold domains_of in *. rewrite filter_cons in *. case_bool_decide as E.
  - rewrite decide_True in * by done. cbn [map] in *. fold (domain_entry m) in *.
    pose proof Hn as [Hn1 [Hd _]%Forall_cons]%Forall_app.
    rewrite add_domain_spec; [run|unfold zlen in *; cbn [length] in Hl; lia|done|done].
    replace (l ++ domain_entry m :: map _ _) with ((l ++ [domain_entry m]) ++ map (fun m => DomainEntry (pm_domain m) (u32 (pm_instance m))) (filter (fun m => pm_service m = name) ms)) in * by (by rewrite <- app_assoc).
    rewrite IH; [done| |done]. rewrite zlen_app. unfold zlen in *. cbn [length] in *. lia.
  - rewrite decide_False in * by done. by apply IH.
Qed.

Lemma blank_split : blank_resp = replicate 20 0 ++ replicate (Z.to_nat 69360) 0.
Proof. unfold blank_resp, sizeof_get_domain_list_resp. rewrite <- replicate_add. done. Qed.
Lemma listed ms name : zlen (domains_of name ms) <= 255 -> Forall (fun e => name_ok (entry_name e)) (domains_of name ms) ->
  list_domains (map Mapped ms ++ [Terminator]) name = Done (resp_bytes (found_resp (domains_of name ms))).
Proof.
  intros Hl Hn. unfold list_domains.
  rewrite blank_split. set (Z0 := replicate (Z.to_nat 69360) 0).
  rewrite (write_at [] [0; 0] (replicate 18 0 ++ Z0)) by done. run.
  rewrite (write_at (replicate 8 0) [0] (replicate 11 0 ++ Z0) [1]) by done. run.
  rewrite (write_at (replicate 8 0 ++ [1; 0]) [0; 0] (replicate 8 0 ++ Z0) [1; 0]) by done. run.
  change ((replicate 8 0 ++ [1; 0]) ++ [1; 0] ++ replicate 8 0 ++ Z0) with (listing []).
  set (l := domains_of name ms) in *.
  rewrite (add_domains_spec ms name []); [|done|eapply Forall_impl; [exact Hn|by intros ? []]]. run. cbn [app]. fold l.
  unfold listing, found_resp, resp_bytes, resp_head. cbn [dl_result dl_error total_domains db_revision domain_list_valid domain_list].
  set (Y := concat (map entry_bytes l) ++ replicate _ 0). pose proof (zlen_nonneg l).
  assert (EN : exists a b c d, le_bytes 4 (zlen l) = [a; b; c; d]) by (by eexists _, _, _, _). destruct EN as (a & b & c & d & EN).
  assert (EV : le_value [a; b; c; d] = zlen l) by (rewrite <- EN; apply le_value_bytes4; lia). rewrite EN.
  rewrite (read_at _ [0; 0; 0; 0; 0; 0; 0; 0; 1; 0; 1; 0; 0; 0; 0; 0] [a; b; c; d] Y) by done. run. rewrite EV.
  set (v := if negb (zlen l =? 0) then 1 else 0).
  assert (E1 : (if zlen l =? 0 then Done ((le_bytes 2 0 ++ le_bytes 2 0 ++ flagged None ++ flagged (Some 1) ++ [0; 0; 0; 0] ++ [a; b; c; d]) ++ Y)
      else write_mem ((le_bytes 2 0 ++ le_bytes 2 0 ++ flagged None ++ flagged (Some 1) ++ [0; 0; 0; 0] ++ [a; b; c; d]) ++ Y) 12 [1]) =
    Done ([0; 0; 0; 0; 0; 0; 0; 0; 1; 0; 1; 0; v; 0; 0; 0; a; b; c; d] ++ Y)).
  { unfold v. destruct (zlen l =? 0); [done|].
    by rewrite (write_at [0; 0; 0; 0; 0; 0; 0; 0; 1; 0; 1; 0] [0] ([0; 0; 0; a; b; c; d] ++ Y) [1]). }
  rewrite E1. run.
  rewrite (write_at [0; 0; 0; 0] [0] ([0; 0; 0; 1; 0; 1; 0; v; 0; 0; 0; a; b; c; d] ++ Y) [1]) by done. run.
  rewrite (write_at [0; 0; 0; 0; 1; 0] [0; 0] ([1; 0; 1; 0; v; 0; 0; 0; a; b; c; d] ++ Y) (le_bytes 2 (zlen l))) by done. done.
Qed.
Lemma refused : malformed_resp = Done (resp_bytes refused_resp).
Proof.
  unfold malformed_resp. rewrite blank_split. set (Z0 := replicate (Z.to_nat 69360) 0).
  rewrite (write_at [] [0; 0] (replicate 18 0 ++ Z0) [1; 0]) by done. run.
  rewrite (write_at [1; 0] [0; 0] (replicate 16 0 ++ Z0) [2; 0]) by done. done.
Qed.

Lemma reply_length txn l : 26 + 10 * zlen l <= zlen (reply txn l) + 2.
Proof.
  unfold reply, reply_payload, zlen. rewrite !length_app. cbn [length header_bytes le_bytes app].
  assert (10 * Z.of_nat (length l) <= zlen (concat (map reply_entry l))).
  { unfold zlen. induction l as [|e l IH]; [done|]. cbn [map concat length]. rewrite length_app.
    unfold reply_entry at 1. rewrite !length_app, length_le_bytes. cbn [length]. lia. }
  destruct l as [|e l]; [cbn; lia|]. unfold tlv, reply_list, zlen in *. cbn [Z.eqb Pos.eqb]. rewrite length_app.
  cbn [length] in *. lia.
Qed.

(** The end of the handler: a response the reference encodes as [w]. *)
Lemma sent_reply (buf : list Z) resp txn w (pkt : qrtr_packet) :
  wire msg_fuel (resp_bytes resp) (Some servreg_loc_get_domain_list_resp_ei) 0 1 = Some w ->
  7 + zlen w <= zlen buf < 2 ^ 16 ->
  ('(data, data_len, len) ← qmi_encode_message msg_fuel buf (zlen buf) QMI_RESPONSE SERVREG_LOC_GET_DOMAIN_LIST txn
                             (Some (resp_bytes resp)) (Some servreg_loc_get_domain_list_resp_ei);
   if len <? 0 then Done None
   else bs ← read_mem data 0 data_len; Done (Some (qp_node pkt, qp_port pkt, bs))) =
  Done (Some (qp_node pkt, qp_port pkt, header_bytes QMI_RESPONSE txn SERVREG_LOC_GET_DOMAIN_LIST (zlen w) ++ w)).
Proof.
  intros Hw Hb. rewrite (qmi_encode_message_wire _ _ _ _ w) by (try done; unfold sizeof_header; lia). run.
  set (msg := header_bytes _ _ _ _ ++ w). rewrite (proj2 (Z.ltb_ge _ _)) by (unfold zlen; lia).
  rewrite (read_at _ [] msg (drop (length msg) buf) 0 (zlen msg)) by done. done.
Qed.

(** Everything that can be asked for fits the answer. *)
Definition answerable (ms : list pd_map) : Prop :=
  forall name txn, Forall (fun e => name_ok (entry_name e)) (domains_of name ms) /\
    zlen (reply txn (domains_of name ms)) <= 256.

Lemma answerable_count ms name : answerable ms -> zlen (domains_of name ms) <= 23.
Proof. intros H. destruct (H name 0) as [_ Hl]. pose proof (reply_length 0 (domains_of name ms)). lia. Qed.
Lemma found_sent ms name buf txn pkt : answerable ms -> zlen buf = 256 ->
  ('(data, data_len, len) ← qmi_encode_message msg_fuel buf (zlen buf) QMI_RESPONSE SERVREG_LOC_GET_DOMAIN_LIST txn
                             (Some (resp_bytes (found_resp (domains_of name ms)))) (Some servreg_loc_get_domain_list_resp_ei);
   if len <? 0 then Done None
   else bs ← read_mem data 0 data_len; Done (Some (qp_node pkt, qp_port pkt, bs))) =
  Done (Some (qp_node pkt, qp_port pkt, reply txn (domains_of name ms))).
Proof.
  intros Ha Hb. destruct (Ha name txn) as [Hn Hl]. pose proof (answerable_count ms name Ha).
  rewrite (sent_reply buf _ txn (reply_payload (domains_of name ms))); [done|apply wire_found; [lia|done]|].
  unfold reply in Hl. unfold zlen in *. rewrite length_app in Hl. cbn [length header_bytes le_bytes app] in Hl. lia.
Qed.

(** The name of a decoded request. *)
Lemma request_name name : name_ok name -> exists req,
  write_mem (request_struct name) (4 + sizeof_name - 1) [0] = Done req /\ read_cstr req 4 = Done name.
Proof.
  intros [Hl Hn]. assert (E : write_mem (request_struct name) 259 [0] = Done (request_struct name)).
  { assert (Hz : replicate (Z.to_nat (263 - zlen name)) 0 =
      replicate (Z.to_nat (254 - zlen name)) 0 ++ replicate (Z.to_nat (263 - zlen name) - Z.to_nat (254 - zlen name)) 0)
      by (rewrite <- replicate_add; f_equal; lia).
    unfold request_struct. destruct (decide (zlen name = 255)) as [E|E].
    - replace (replicate 4 0 ++ name ++ 0 :: replicate (Z.to_nat (263 - zlen name)) 0)
        with ((replicate 4 0 ++ name) ++ [0] ++ replicate (Z.to_nat (263 - zlen name)) 0) by (by rewrite <- app_assoc).
      apply write_at; [|done]. unfold zlen in *. rewrite length_app, length_replicate. lia.
    - set (k := Z.to_nat (254 - zlen name)). set (r := Z.to_nat (263 - zlen name)).
      assert (Hr : replicate r 0 = replicate k 0 ++ [0] ++ replicate (r - k - 1) 0).
      { change [0] with (replicate 1 0). rewrite <- !replicate_add. f_equal. unfold r, k, zlen in *. lia. }
      rewrite Hr. replace (replicate 4 0 ++ name ++ 0 :: replicate k 0 ++ [0] ++ replicate (r - k - 1) 0)
        with ((replicate 4 0 ++ name ++ 0 :: replicate k 0) ++ [0] ++ replicate (r - k - 1) 0)
        by (rewrite <- !app_assoc; done).
      apply write_at; [|done]. unfold k, zlen in *. rewrite !length_app, length_replicate. cbn [length].
      rewrite length_replicate. lia. }
  exists (request_struct name). split; [exact E|].
  apply (read_cstr_at _ _ _ (replicate (Z.to_nat (263 - zlen name)) 0)); [|done|done].
  unfold request_struct, zlen. rewrite length_app, length_replicate. lia.
Qed.

(** ** Any datagram *)

Lemma strlen_stops s i : s !! i = Some 0 -> exists n, strlen s = Done n /\ n <= Z.of_nat i.
Proof.
  revert i. induction s as [|b s IH]; intros i Hi; [done|]. cbn [strlen].
  destruct (b =? 0) eqn:E; [exists 0; split; [done|lia]|]. destruct i as [|i]; cbn in Hi; reflect_bools; [congruence|].
  destruct (IH i Hi) as (n & -> & Hn). run. exists (1 + n). split; [done|lia].
Qed.
Lemma read_name req : zlen req = 268 -> exists req' name,
  write_mem req (4 + sizeof_name - 1) [0] = Done req' /\ read_cstr req' 4 = Done name.
Proof.
  intros Hl. destruct (write_mem_ok req (4 + sizeof_name - 1) [0]) as [req' E]; [done|rewrite Hl; done|].
  pose proof (write_mem_length _ _ _ _ E) as Hl'. exists req'.
  assert (Hi : drop 4 req' !! 255%nat = Some 0).
  { rewrite lookup_drop, (write_mem_lookup _ _ _ _ _ E). done. }
  destruct (strlen_stops _ _ Hi) as (n & Hn & Hle). pose proof (strlen_range _ _ Hn) as Hr.
  unfold read_cstr. change (Z.to_nat 4) with 4%nat. rewrite Hn. run.
  destruct (read_mem_ok req' 4 n) as [name En]; [lia..|]. by exists name.
Qed.

(** A request of at least a header, with memory behind it, is answered or refused. *)
Definition reply_of (ms : list pd_map) (b : list Z) : Prop :=
  exists txn, b = header_bytes QMI_RESPONSE txn SERVREG_LOC_GET_DOMAIN_LIST 7 ++ [2; 4; 0; 1; 0; 2; 0] \/
    exists name, b = reply txn (domains_of name ms).

Definition slack : Z := 3 + wire_table msg_fuel servreg_loc_get_domain_list_req_ei.

(** A message of the right type and with the right id has a transaction. *)
Lemma decoded_txn fuel c data n type id t out rc txn : n <> 0 -> read_u8 data 0 = Done type -> read_u16 data 3 = Done id ->
  qmi_decode_message fuel c data n type id (Some t) = Done (out, rc, txn) -> is_Some txn.
Proof.
  intros Hn H8 H16. unfold qmi_decode_message. rewrite (proj2 (Z.eqb_neq _ _) Hn), H8. run. rewrite Z.eqb_refl. cbn [negb].
  rewrite H16. run. rewrite Z.eqb_refl. cbn [negb]. intros (tx & _ & ([o r] & _ & [= _ _ <-])%bind_done)%bind_done. by eexists.
Qed.

Lemma handle_returns st ms pkt stale stk : loaded st ms -> answerable ms -> zlen (pd_buf stk) = 256 ->
  pd_maps st <> None -> bytes_ok (qp_data pkt ++ stale) -> 7 <= zlen (qp_data pkt) < 2 ^ 16 -> slack <= zlen stale ->
  read_u8 (qp_data pkt ++ stale) 0 = Done QMI_REQUEST -> read_u16 (qp_data pkt ++ stale) 3 = Done SERVREG_LOC_GET_DOMAIN_LIST ->
  exists b, handle_get_domain_list (pd_maps st) pkt stale stk = Done (Some (qp_node pkt, qp_port pkt, b)) /\ reply_of ms b.
Proof.
  intros [_ [Hm|[Hm _]]] Ha Hb Hne Hby Hd Hs Hty Hid; [|done]. unfold handle_get_domain_list.
  destruct (decode_message_returns msg_fuel servreg_loc_get_domain_list_req_ei
    (replicate (Z.to_nat sizeof_get_domain_list_req) 0) (qp_data pkt ++ stale) (zlen (qp_data pkt)) QMI_REQUEST
    SERVREG_LOC_GET_DOMAIN_LIST) as (req & rc & txn & Edec & Hreq); try done.
  { unfold sizeof_header. lia. }
  { unfold slack in Hs. unfold zlen in *. rewrite length_app. lia. }
  pose proof Edec as Htx. apply decoded_txn in Htx as [tx ->]; [|lia|done..]. rewrite Edec. run. destruct (rc <? 0).
  - rewrite refused. run. rewrite (sent_reply _ _ tx _ pkt wire_malformed) by (change (zlen [2; 4; 0; 1; 0; 2; 0]) with 7; lia).
    eexists. split; [done|]. exists tx. by left.
  - destruct (read_name req Hreq) as (req' & name & -> & Hname). run. rewrite Hname. run. rewrite Hm. run.
    pose proof (answerable_count ms name Ha). destruct (Ha name 0) as [Hn _].
    rewrite listed by (done || lia). run. rewrite found_sent by done. eexists. split; [done|]. exists tx. right. by exists name.
Qed.

Record turn_ok (t : pd_turn) : Prop := {
  to_buf : zlen (pd_buf (pt_stack t)) = 256;
  to_slack : 7 + slack <= zlen (pt_stale t);
  to_bytes : bytes_ok (pt_stale t);
  to_type data sq : pt_recv t = inr (data, sq) ->
    qmi_decode_header (data ++ pt_stale t) (zlen data) = Done (0, Some SERVREG_LOC_GET_DOMAIN_LIST) ->
    read_u8 (data ++ pt_stale t) 0 = Done QMI_REQUEST;
  to_recv : forall data sq, pt_recv t = inr (data, sq) -> bytes_ok data /\ zlen data < 2 ^ 16 }.

(** A datagram is answered to its sender, if at all. *)
Definition answer_to (ms : list pd_map) (t : pd_turn) (m : Z * Z * list Z) : Prop :=
  exists data sq, pt_recv t = inr (data, sq) /\ m.1 = (sq_node sq, sq_port sq) /\ reply_of ms m.2.

Lemma datagram_returns st ms t : loaded st ms -> answerable ms -> pd_maps st <> None -> turn_ok t ->
  exists r sent, pd_datagram (pd_maps st) t = Done (r, sent) /\ Forall (answer_to ms t) sent /\ (length sent <= 1)%nat.
Proof.
  intros Hl Ha Hne [Hbuf Hslack Hby Htype Hrecv]. unfold pd_datagram. destruct (pt_recv t) as [e|[data sq]] eqn:Er.
  { eexists _, _. split; [done|]. split; [constructor|cbn; lia]. }
  destruct (Hrecv data sq eq_refl) as [Hd1 Hd2]. specialize (Htype data sq eq_refl). assert (Hs0 : 0 <= slack) by done.
  destruct (decide (sq_port sq = QRTR_PORT_CTRL)) as [Hp|Hp].
  { destruct (qrtr_decode_control (pt_pkt t) data sq Hp) as (rc & d & -> & Hrc). run.
    destruct Hrc as [Hrc|[-> Hty]].
    - rewrite (proj2 (Z.ltb_lt _ _) Hrc). eexists _, _. split; [done|]. split; [constructor|cbn; lia].
    - rewrite (proj2 (Z.eqb_neq _ _) Hty). eexists _, _. split; [done|]. split; [constructor|cbn; lia]. }
  destruct (qrtr_decode_message (pt_pkt t) data sq Hp) as (d & -> & Hty & Hdd & Hn & Hpo). run.
  rewrite Hty, Z.eqb_refl, Hdd. cbn [Z.ltb Z.compare].
  assert (Hread : forall off n, 0 <= off -> 0 <= n -> off + n <= 7 -> exists b, read_mem (data ++ pt_stale t) off n = Done b).
  { intros. apply read_mem_ok; unfold zlen in *; rewrite ?length_app; lia. }
  unfold qmi_decode_header, read_u16, sizeof_header in *.
  destruct (Hread 5 2) as [lb Elb]; [lia..|]. rewrite Elb in *. run. cbn [mbind outcome_bind] in Htype. destruct (negb (le_value lb =? u64 (zlen data - 7))) eqn:El.
  { eexists _, _. split; [done|]. split; [constructor|cbn; lia]. }
  destruct (Hread 3 2) as [ib Eib]; [lia..|]. rewrite Eib in *. run. cbn [mbind outcome_bind] in Htype. cbn [Z.ltb Z.compare of_option]. run.
  destruct (le_value ib =? SERVREG_LOC_GET_DOMAIN_LIST) eqn:Eid.
  2: { eexists _, _. split; [done|]. split; [constructor|cbn; lia]. }
  reflect_bools. assert (Hlen : 7 <= zlen data).
  { destruct (Z.lt_ge_cases (zlen data) 7) as [Hlt|]; [|done]. exfalso.
    pose proof (le_value_range lb) as Hr. rewrite (read_mem_length _ _ _ _ Elb) in Hr.
    assert (bytes_ok lb) by (eapply read_mem_bytes; [|exact Elb]; by apply Forall_app).
    assert (0 <= zlen data) by (unfold zlen; lia).
    assert (u64 (zlen data - 7) = zlen data - 7 + 2 ^ 64) as Hu.
    { unfold u64. rewrite <- (Z.mod_add _ 1) by done. apply Z.mod_small. lia. }
    specialize (Hr ltac:(done)). lia. }
  destruct (handle_returns st ms d (pt_stale t) (pt_stack t)) as (b & -> & Hb); try done.
  { rewrite Hdd. by apply Forall_app. }
  { rewrite Hdd. lia. }
  { lia. }
  { rewrite Hdd. apply Htype. by rewrite Eid. }
  { rewrite Hdd. unfold read_u16. rewrite Eib. run. by rewrite Eid. }
  run. eexists _, _. split; [done|]. split; [|done]. constructor; [|constructor].
  exists data, sq. cbn [fst snd]. by rewrite Hn, Hpo.
Qed.

(** *** Copies that leave the response

    The [i]-th domain does when its bytes and their terminator pass the end. *)
Definition leaves (ms : list pd_map) (name : list Z) (i : Z) : Prop :=
  exists k e, domains_of name ms !! k = Some e /\ sizeof_get_domain_list_resp < entry_at (i + Z.of_nat k) + 4 + zlen (entry_name e) + 1.

Lemma write_mem_outside m off bs : 0 <= off -> zlen m < off + zlen bs -> write_mem m off bs = Fault OutOfBounds.
Proof. intros Ho Hl. unfold write_mem. by rewrite (proj2 (Z.leb_le _ _) Ho), (proj2 (Z.leb_gt _ _) Hl). Qed.

(** [i] domains were copied so far. *)
Record copying (resp : list Z) (i : Z) : Prop := {
  cp_length : zlen resp = sizeof_get_domain_list_resp;
  cp_count : le_value <$> read_mem resp 16 4 = Done i }.

Lemma add_domain_cases resp i m : copying resp i -> 0 <= i <= 255 ->
  if sizeof_get_domain_list_resp <? entry_at i + 4 + zlen (pm_domain m) + 1 then add_domain resp m = Fault OutOfBounds
  else exists resp', add_domain resp m = Done resp' /\ copying resp' (i + 1) /\ i + 1 <= 255.
Proof.
  intros [Hl Hc] Hi. pose proof (zlen_nonneg (pm_domain m)) as Hd. unfold add_domain.
  destruct (read_mem resp 16 4) as [lb| |]; [|done..]. cbn in Hc. injection Hc as Hc. run. rewrite Hc, (u32_small (i + 1)) by lia.
  assert (Hz : forall z, zlen (le_bytes 4 z) = 4) by done.
  assert (He : 20 <= entry_at i) by (unfold entry_at, sizeof_domain_list_entry; lia).
  destruct (write_mem_ok resp 16 (le_bytes 4 (i + 1))) as [r1 E1]; [lia|rewrite Hl, Hz; done|]. rewrite E1. run.
  pose proof (write_mem_length _ _ _ _ E1) as L1. set (d := pm_domain m) in *.
  assert (Hd0 : zlen (d ++ [0]) = zlen d + 1) by (rewrite zlen_app; done).
  destruct (_ <? _) eqn:E; reflect_bools.
  { by rewrite write_mem_outside by lia. }
  assert (Hi' : i < 255) by (unfold entry_at, sizeof_domain_list_entry, sizeof_get_domain_list_resp in *; lia).
  destruct (write_mem_ok r1 (entry_at i + 4) (d ++ [0])) as [r2 E2]; [lia..|]. rewrite E2. run. pose proof (write_mem_length _ _ _ _ E2) as L2.
  destruct (write_mem_ok r2 (entry_at i) (le_bytes 4 (u32 (zlen d)))) as [r3 E3]; [lia|rewrite Hz; lia|]. rewrite E3. run.
  pose proof (write_mem_length _ _ _ _ E3) as L3.
  destruct (write_mem_ok r3 (entry_at i + 4 + sizeof_name) (le_bytes 4 (u32 (pm_instance m)))) as [r4 E4];
    [unfold sizeof_name; lia|rewrite Hz; unfold entry_at, sizeof_name, sizeof_domain_list_entry, sizeof_get_domain_list_resp in *; lia|].
  exists r4. split; [exact E4|]. pose proof (write_mem_length _ _ _ _ E4) as L4. split; [|lia]. split; [congruence|].
  rewrite (read_write_other _ _ _ _ 16 4 E4) by (unfold sizeof_name; lia). rewrite (read_write_other _ _ _ _ 16 4 E3) by lia.
  rewrite (read_write_other _ _ _ _ 16 4 E2) by lia. pose proof (read_write_same _ _ _ _ E1) as R. rewrite Hz in R. rewrite R.
  cbn. f_equal. apply le_value_bytes4. lia.
Qed.

Lemma domains_of_cons name m ms : domains_of name (m :: ms) =
  if bool_decide (pm_service m = name) then domain_entry m :: domains_of name ms else domains_of name ms.
Proof. unfold domains_of. rewrite filter_cons. case_bool_decide; case_decide; try done. Qed.

(** The loop ends, or leaves the response just when one of the copies does. *)
Lemma add_domains_cases ms name resp i : copying resp i -> 0 <= i <= 255 ->
  (leaves ms name i /\ add_domains (map Mapped ms ++ [Terminator]) name resp = Fault OutOfBounds) \/
  (~ leaves ms name i /\ exists resp', add_domains (map Mapped ms ++ [Terminator]) name resp = Done resp' /\
     copying resp' (i + zlen (domains_of name ms)) /\ zlen (domains_of name ms) <= 255 - i).
Proof.
  revert resp i. induction ms as [|m ms IH]; intros resp i Hc Hi; cbn [map app add_domains].
  { right. split; [by intros (k & e & Hk & _)|]. exists resp. change (zlen (domains_of name [])) with 0. rewrite Z.add_0_r. split_and!; [done..|lia]. }
  unfold leaves. rewrite domains_of_cons. case_bool_decide as E; [|by apply IH].
  pose proof (add_domain_cases resp i m Hc Hi) as Hm. destruct (_ <? _) eqn:Ed; reflect_bools.
  { left. rewrite Hm. split; [|done]. exists 0%nat, (domain_entry m). split; [done|]. rewrite Z.add_0_r. exact Ed. }
  destruct Hm as (r1 & -> & Hc1 & Hi1). run.
  assert (Hz : zlen (domain_entry m :: domains_of name ms) = 1 + zlen (domains_of name ms)) by (unfold zlen; cbn [length]; lia).
  destruct (IH r1 (i + 1) Hc1 ltac:(lia)) as [[(k & e & Hk & Hl) Ef]|[Hn (r2 & Er & Hc2 & Hle)]]; [left|right].
  - split; [|done]. exists (S k), e. split; [done|]. by replace (i + Z.of_nat (S k)) with (i + 1 + Z.of_nat k) by lia.
  - split.
    + intros ([|k] & e & Hk & Hl); [injection Hk as <-; rewrite Z.add_0_r in Hl; cbn [entry_name domain_entry] in Hl; lia|].
      apply Hn. exists k, e. split; [done|]. by replace (i + 1 + Z.of_nat k) with (i + Z.of_nat (S k)) by lia.
    + exists r2. rewrite Hz. split; [done|]. split; [|lia]. by replace (i + (1 + zlen (domains_of name ms))) with (i + 1 + zlen (domains_of name ms)) by lia.
Qed.

(** The whole response: it is a response of zeros but for its head when the loop starts. *)
Lemma listing_of ms name :
  (leaves ms name 0 /\ list_domains (map Mapped ms ++ [Terminator]) name = Fault OutOfBounds) \/
  (~ leaves ms name 0 /\ exists resp, list_domains (map Mapped ms ++ [Terminator]) name = Done resp /\
     copying resp (zlen (domains_of name ms)) /\ zlen (domains_of name ms) <= 255).
Proof.
  assert (Hc0 : copying (listing []) 0).
  { split; [|by vm_compute]. unfold listing, resp_bytes. rewrite !zlen_app. unfold zlen at 3. rewrite length_replicate. by vm_compute. }
  unfold list_domains. rewrite blank_split. set (Z0 := replicate (Z.to_nat 69360) 0).
  rewrite (write_at [] [0; 0] (replicate 18 0 ++ Z0)) by done. run.
  rewrite (write_at (replicate 8 0) [0] (replicate 11 0 ++ Z0) [1]) by done. run.
  rewrite (write_at (replicate 8 0 ++ [1; 0]) [0; 0] (replicate 8 0 ++ Z0) [1; 0]) by done. run.
  change ((replicate 8 0 ++ [1; 0]) ++ [1; 0] ++ replicate 8 0 ++ Z0) with (listing []).
  destruct (add_domains_cases ms name (listing []) 0 Hc0 ltac:(lia)) as [[Hl ->]|[Hn (r1 & -> & [L1 C1] & Hle)]]; [by left|right].
  split; [done|]. run. destruct (read_mem r1 16 4) as [lb| |] eqn:Eb; [|done..]. cbn in C1. injection C1 as C1. run. rewrite C1, Z.add_0_l in *.
  set (n := zlen (domains_of name ms)) in *. clearbody n.
  assert (E2 : exists r2, (if n =? 0 then Done r1 else write_mem r1 12 [1]) = Done r2 /\ zlen r2 = zlen r1 /\ read_mem r2 16 4 = Done lb).
  { destruct (n =? 0); [by exists r1|]. destruct (write_mem_ok r1 12 [1]) as [r2 E2]; [lia|rewrite L1; done|]. exists r2. split; [done|].
    rewrite (read_write_other _ _ _ _ 16 4 E2) by (right; done). split; [by eapply write_mem_length|done]. }
  destruct E2 as (r2 & -> & L2 & R2). run.
  destruct (write_mem_ok r2 4 [1]) as [r3 E3]; [lia|rewrite L2, L1; done|]. rewrite E3. run. pose proof (write_mem_length _ _ _ _ E3) as L3.
  destruct (write_mem_ok r3 6 (le_bytes 2 n)) as [r4 E4]; [lia|rewrite L3, L2, L1; done|]. exists r4. split; [done|]. split; [|lia].
  split; [rewrite (write_mem_length _ _ _ _ E4); congruence|].
  rewrite (read_write_other _ _ _ _ 16 4 E4), (read_write_other _ _ _ _ 16 4 E3), R2 by (right; done). cbn. by f_equal.
Qed.

(** ** Properties *)

(** A request for a service is answered with exactly the domains that provide it,
    in the order of the maps, with their instances, in one message to the sender
    that carries the transaction of the request; an unknown service gets the empty
    list. *)
Theorem get_domain_list_answers st ms name txn pkt stale stk :
  loaded st ms -> pd_maps st <> None -> name_ok name -> 0 <= txn < 2 ^ 16 ->
  Forall (fun e => name_ok (entry_name e)) (domains_of name ms) ->
  zlen (reply txn (domains_of name ms)) <= zlen (pd_buf stk) -> zlen (pd_buf stk) = 256 ->
  qp_data pkt = request txn name ->
  handle_get_domain_list (pd_maps st) pkt stale stk =
  Done (Some (qp_node pkt, qp_port pkt, reply txn (domains_of name ms))).
Proof.
  intros [_ [Hm|[Hm _]]] Hne Hname Htxn Hn Hfit Hbuf Hpkt; [|done]. unfold handle_get_domain_list. rewrite Hpkt.
  change (replicate (Z.to_nat sizeof_get_domain_list_req) 0) with (replicate 268 0).
  rewrite request_decoded by (done || apply Hname). run. cbn [default].
  assert (0 <= zlen name) by (unfold zlen; lia). rewrite (proj2 (Z.ltb_ge _ _)) by lia.
  destruct (request_name name Hname) as (req & -> & Hr). run. rewrite Hr. run. rewrite Hm. run.
  pose proof (reply_length txn (domains_of name ms)) as Hrl.
  rewrite listed by (done || lia). run.
  rewrite (sent_reply _ _ txn (reply_payload (domains_of name ms))); [done|apply wire_found; [lia|done]|].
  unfold reply in Hfit. unfold zlen in *. rewrite length_app in Hfit. cbn [length header_bytes le_bytes app] in Hfit. lia.
Qed.

(** C25: every sequence of datagrams is handled without a fault and in a bounded number of
    steps, and everything that is sent is an answer to the sender of one of them: a
    refusal, or the domains of some name.  This needs maps whose answers fit the structure and
    the packet of 256 bytes ([answerable]), memory behind each datagram, and that no datagram
    with the id of the request has another type: its answer carries an uninitialised
    transaction. *)
Theorem pd_loop_safe st ms turns :
  loaded st ms -> pd_maps st <> None -> answerable ms -> Forall turn_ok turns ->
  exists r sent, pd_loop (pd_maps st) turns = Done (r, sent) /\
    Forall (fun m => exists t, t ∈ turns /\ answer_to ms t m) sent /\ (length sent <= length turns)%nat.
Proof.
  intros Hl Hne Ha. induction 1 as [|t turns Ht Hts IH]; cbn [pd_loop].
  { eexists _, _. split; [done|]. split; [constructor|done]. }
  destruct IH as (r & sent & E & Hsent & Hlen).
  assert (Hmore : Forall (fun m => exists t', t' ∈ t :: turns /\ answer_to ms t' m) sent).
  { eapply Forall_impl; [exact Hsent|]. intros m (t' & Hin & Hm). exists t'. split; [by right|done]. }
  destruct (pt_poll t <? 0).
  { destruct (pt_errno t =? EINTR); eexists _, _; (split; [done|]); split; [done|cbn; lia|constructor|cbn; lia]. }
  destruct (datagram_returns st ms t Hl Ha Hne Ht) as (r' & sent' & -> & Hs & Hl'). run.
  assert (Hnow : Forall (fun m => exists t', t' ∈ t :: turns /\ answer_to ms t' m) sent').
  { eapply Forall_impl; [exact Hs|]. intros m Hm. exists t. split; [by left|done]. }
  destruct r' as [ret|].
  - eexists _, _. split; [done|]. split; [done|cbn; lia].
  - rewrite E. run. eexists _, _. split; [done|]. split; [by apply Forall_app|rewrite length_app; cbn; lia].
Qed.


(** ** Concrete runs *)

Definition demo_map (len : nat) : pd_map := PdMap (cstr "tms/servreg") (replicate len 97) 180.
Definition demo_request (maps : list pd_map) (node port : Z) : outcome (option (Z * Z * list Z)) :=
  handle_get_domain_list (Some (map Mapped maps ++ [Terminator]))
    (QrtrPacket QRTR_TYPE_DATA node port 0 0 0 (request 1 (cstr "tms/servreg"))) [] (PdStack (replicate 256 0xaa)).

(** Eight domains of 17 bytes are answered; with nine the answer does not fit the packet,
    and none is sent. *)
Example nine_domains_silent node port :
  is_done (demo_request (replicate 8 (demo_map 17)) node port) = true /\
  demo_request (replicate 8 (demo_map 17)) node port <> Done None /\
  demo_request (replicate 9 (demo_map 17)) node port = Done None.
Proof. split; [vm_compute; reflexivity|]. split; [vm_compute; congruence|vm_compute; reflexivity]. Qed.
(** The check of the encoder for a string leaves out the three bytes of the header: a
    domain of 228 to 230 bytes is written over the end of the packet; a longer one is
    refused. *)
Example packet_overflow node port :
  map (fun len => demo_request [demo_map len] node port) [228; 229; 230; 231]%nat =
  [Fault OutOfBounds; Fault OutOfBounds; Fault OutOfBounds; Done None].
Proof. vm_compute. reflexivity. Qed.

(** Longer domains stay inside the response, and the encoder refuses them: they do not fit the
    packet. *)
Example long_domains node port :
  map (fun len => demo_request [demo_map len; demo_map 17] node port) [256; 300; 383]%nat = [Done None; Done None; Done None].
Proof. vm_compute. reflexivity. Qed.
(** A datagram with the id of the request that is no request: decoding fails before the
    transaction is read, which the answer then takes from the stack. *)
Example uninitialised_transaction :
  handle_get_domain_list (Some [Terminator]) (QrtrPacket QRTR_TYPE_DATA 0 77 0 0 0 (header_bytes QMI_RESPONSE 1 SERVREG_LOC_GET_DOMAIN_LIST 0))
    [] (PdStack (replicate 256 0xaa)) = Fault Uninitialised.
Proof. vm_compute. reflexivity. Qed.

(** ** Witnesses *)

Definition demo_state : pd_state := PdState (Some [Mapped (demo_map 17); Terminator]) 1.
Lemma demo_loaded len : loaded (PdState (Some [Mapped (demo_map len); Terminator]) 1) [demo_map len].
Proof. split; [done|by left]. Qed.
Definition demo_pkt : qrtr_packet := QrtrPacket QRTR_TYPE_DATA 0 77 0 0 0 (request 1 (cstr "tms/servreg")).
Lemma name_ok_dec s : (zlen s <? 256) && forallb (fun b => negb (b =? 0)) s = true -> name_ok s.
Proof.
  intros [H1%Z.ltb_lt H2]%andb_true_iff. split; [done|]. apply Forall_forall. intros b Hb.
  rewrite forallb_forall in H2. specialize (H2 b). rewrite <- list_elem_of_In in H2. by apply H2 in Hb; reflect_bools.
Qed.
Lemma demo_answerable : answerable [demo_map 17].
Proof.
  intros name txn. unfold domains_of. rewrite filter_cons. destruct (decide _).
  - split; [constructor; [apply name_ok_dec; reflexivity|constructor]|]. vm_compute. discriminate.
  - split; [constructor|]. vm_compute. discriminate.
Qed.

Lemma get_domain_list_answers_witness :
  handle_get_domain_list (pd_maps demo_state) demo_pkt [] (PdStack (replicate 256 0xaa)) =
  Done (Some (0, 77, reply 1 (domains_of (cstr "tms/servreg") [demo_map 17]))).
Proof.
  apply (get_domain_list_answers demo_state [demo_map 17] (cstr "tms/servreg") 1 demo_pkt).
  - apply demo_loaded.
  - discriminate.
  - apply name_ok_dec. reflexivity.
  - lia.
  - apply demo_answerable. exact 0.
  - vm_compute. discriminate.
  - reflexivity.
  - reflexivity.
Defined.
Definition demo_turn : pd_turn :=
  PdTurn 1 0 (inr (request 1 (cstr "tms/servreg"), SockaddrQrtr AF_QIPCRTR 0 77)) (replicate 512 0)
    (PdStack (replicate 256 0xaa)) (QrtrPacket 0 0 0 0 0 0 []).
Lemma demo_turn_ok : turn_ok demo_turn.
Proof.
  split; [reflexivity|vm_compute; discriminate|apply Forall_replicate; unfold byte_ok; lia|intros data sq [= <- <-] _; vm_compute; reflexivity|].
  intros data sq [= <- <-]. split; [|reflexivity].
  vm_compute. repeat constructor; discriminate.
Qed.
Lemma pd_loop_safe_witness : exists r sent, pd_loop (pd_maps demo_state) [demo_turn] = Done (r, sent) /\ (length sent <= 1)%nat.
Proof.
  destruct (pd_loop_safe demo_state [demo_map 17] [demo_turn]) as (r & sent & E & _ & Hl).
  - apply demo_loaded.
  - discriminate.
  - exact demo_answerable.
  - constructor; [exact demo_turn_ok|constructor].
  - exists r, sent. split; [exact E|exact Hl].
Defined.
Lemma qmi_encode_message_reference_witness :
  let c := resp_bytes (found_resp (domains_of (cstr "tms/servreg") [demo_map 17])) in
  let w := reply_payload (domains_of (cstr "tms/servreg") [demo_map 17]) in
  let msg := header_bytes QMI_RESPONSE 1 SERVREG_LOC_GET_DOMAIN_LIST (zlen w) ++ w in
  qmi_encode_message msg_fuel (replicate 256 0xaa) (zlen (replicate 256 0xaa)) QMI_RESPONSE SERVREG_LOC_GET_DOMAIN_LIST 1
    (Some c) (Some servreg_loc_get_domain_list_resp_ei) =
  Done (msg ++ drop (length msg) (replicate 256 0xaa), zlen msg, zlen msg).
Proof.
  apply qmi_encode_message_reference.
  - apply wire_found; [vm_compute; discriminate|]. apply demo_answerable. exact 0.
  - split; vm_compute; [discriminate|reflexivity].
Defined.
