(* ===== verification/PdLoadProps.v ===== *)
(** * The protection domain mapper: loading the maps *)
From Stdlib Require Import String.
From S2P Require Import Prelude CString Paths Hash Qrtr Qmi QmiRef ServregLoc Os Json Assoc AssocProps PdMapper PdMapperProps.
#[local] Open Scope Z_scope.

(** ** The maps a document describes *)

(** No key of an object is a null pointer: the allocations of the parser succeeded. *)
Fixpoint keyed (v : json) : bool :=
  match v with
  | JArray l => forallb keyed l
  | JObject l => forallb (fun '(k, v) => match k with Some _ => keyed v | None => false end) l
  | _ => true
  end.

Definition field (o : option json) (k : list Z) : option json :=
  match o with
  | Some (JObject l) => option_map (fun r => r.2.2) (list_find (fun kv => kv.1 = Some k) l)
  | _ => None
  end.
Definition as_string (o : option json) : option (list Z) := match o with Some (JString s) => s | _ => None end.
Definition as_number (o : option json) : option Z := match o with Some (JNumber n) => Some n | _ => None end.
Definition as_array (o : option json) : option (list json) := match o with Some (JArray l) => Some l | _ => None end.

Definition service_map (domain : list Z) (number : Z) (it : json) : option pd_map :=
  provider ← as_string (field (Some it) (cstr "provider"));
  service ← as_string (field (Some it) (cstr "service"));
  Some (PdMap (map_service provider service) domain number).
(** One map for each service of the document, all of them in its domain. *)
Definition document_maps (root : json) : option (list pd_map) :=
  let d := field (Some root) (cstr "sr_domain") in
  number ← as_number (field d (cstr "qmi_instance_id"));
  soc ← as_string (field d (cstr "soc"));
  domain ← as_string (field d (cstr "domain"));
  subdomain ← as_string (field d (cstr "subdomain"));
  services ← as_array (field (Some root) (cstr "sr_service"));
  mapM (service_map (map_domain soc domain subdomain) number) services.
(** The instance fits an [int]. *)
Definition instance_ok (root : json) : Prop :=
  forall n, as_number (field (field (Some root) (cstr "sr_domain")) (cstr "qmi_instance_id")) = Some n ->
    - 2 ^ 31 <= n < 2 ^ 31.

(** ** The accessors *)

Lemma find_key_field l k : keyed (JObject l) = true -> find_key l k = Done (field (Some (JObject l)) k).
Proof.
  cbn [keyed field]. induction l as [|[[k'|] v] l IH]; cbn [forallb find_key list_find]; [done| |done].
  intros [_ Hl]%andb_true_iff. cbn [of_option fst]. run. case_bool_decide as E; case_decide as E'; try congruence.
  - done.
  - rewrite (IH Hl). f_equal. by destruct (list_find _ l) as [[]|].
Qed.
Lemma field_keyed o k v : (forall w, o = Some w -> keyed w = true) -> field o k = Some v -> keyed v = true.
Proof.
  intros Ho. destruct o as [[| | | | |l|l]|]; try done. cbn [field]. destruct (list_find _ l) as [[i [k' v']]|] eqn:E; [|done].
  intros [= <-]. apply list_find_Some in E as (Hi & _). specialize (Ho _ eq_refl). cbn [keyed] in Ho.
  rewrite forallb_forall in Ho. apply list_elem_of_lookup_2, list_elem_of_In in Hi. specialize (Ho _ Hi). cbn in Ho.
  by destruct k'.
Qed.
Lemma get_child_field root k : keyed root = true -> json_get_child (Some root) k = Done (field (Some root) k).
Proof. intros Hk. unfold json_get_child. run. destruct root; try done. by apply find_key_field. Qed.
Lemma get_string_field o k : (forall w, o = Some w -> keyed w = true) ->
  json_get_string o k = Done (as_string (field o k)).
Proof.
  intros Ho. unfold json_get_string. destruct o as [[| | | | |l|l]|]; try done.
  rewrite find_key_field by (by apply Ho). done.
Qed.
Lemma get_number_field o k : (forall w, o = Some w -> keyed w = true) ->
  json_get_number o k = Done (as_number (field o k)).
Proof.
  intros Ho. unfold json_get_number. destruct o as [[| | | | |l|l]|]; try done.
  rewrite find_key_field by (by apply Ho). done.
Qed.

(** ** Filling the array *)

Lemma put_slot_at pre x rest n s : n = zlen pre ->
  put_slot (PdState (Some (pre ++ x :: rest)) n) n s = Done (PdState (Some (pre ++ s :: rest)) n).
Proof.
  intros ->. unfold put_slot. cbn [pd_maps num_pd_maps of_option]. run. unfold zlen. rewrite length_app. cbn [length].
  rewrite (proj2 (Z.leb_le _ _)), (proj2 (Z.ltb_lt _ _)) by lia. cbn [andb]. rewrite Nat2Z.id.
  rewrite insert_app_r_alt, Nat.sub_diag by done. done.
Qed.

Lemma load_services_spec l pre rest domain number :
  forallb keyed l = true -> - 2 ^ 31 <= number < 2 ^ 31 -> (length l < length rest)%nat ->
  let st := PdState (Some (map Mapped pre ++ rest)) (zlen pre) in
  match mapM (service_map domain number) l with
  | Some new => exists rest', load_services st l domain number =
      Done (PdState (Some (map Mapped (pre ++ new) ++ rest')) (zlen (pre ++ new)), true) /\
      (length rest' + length l = length rest)%nat
  | None => exists st', load_services st l domain number = Done (st', false)
  end.
Proof.
  intros Hk Hn. revert pre rest Hk. induction l as [|it l IH]; intros pre rest Hk Hl st; cbn [load_services mapM].
  { exists rest. rewrite app_nil_r. split; [done|cbn; lia]. }
  cbn [forallb] in Hk. apply andb_true_iff in Hk as [Hit Hk].
  assert (Hw : forall w, Some it = Some w -> keyed w = true) by (by intros w [= <-]).
  rewrite !get_string_field by done. run.
  assert (HF : service_map domain number it = (provider ← as_string (field (Some it) (cstr "provider"));
    service ← as_string (field (Some it) (cstr "service")); Some (PdMap (map_service provider service) domain number))) by done.
  rewrite HF. clear HF.
  destruct (as_string (field (Some it) (cstr "provider"))) as [p|]; [|cbn [mbind option_bind]; by eexists].
  destruct (as_string (field (Some it) (cstr "service"))) as [s|]; [|cbn [mbind option_bind]; by eexists].
  cbn [mbind option_bind]. unfold to_int. rewrite (proj2 (Z.leb_le _ _)), (proj2 (Z.ltb_lt number _)) by lia. cbn [andb]. run.
  destruct rest as [|x rest]; [cbn in Hl; lia|]. unfold st. cbn [num_pd_maps].
  rewrite put_slot_at by (unfold zlen; by rewrite length_map). run. cbn [pd_maps num_pd_maps].
  set (m := PdMap _ _ _). specialize (IH (pre ++ [m]) rest Hk ltac:(cbn in Hl; lia)). cbn zeta in IH.
  replace (map Mapped (pre ++ [m]) ++ rest) with (map Mapped pre ++ Mapped m :: rest) in IH
    by (rewrite map_app, <- app_assoc; done).
  replace (zlen (pre ++ [m])) with (zlen pre + 1) in IH by (unfold zlen; rewrite length_app; cbn; lia).
  destruct (mapM _ l) as [new|]; cbn [mbind option_bind].
  - destruct IH as (rest' & E & Hr). exists rest'. rewrite <- app_assoc in E. split; [exact E|cbn; lia].
  - destruct IH as [st' E]. by exists st'.
Qed.

(** The array after [realloc]. *)
Lemma resized st ms n : loaded st ms -> 0 <= n ->
  exists rest, resize (Z.to_nat (num_pd_maps st + n + 1)) Undefined (default [] (pd_maps st)) = map Mapped ms ++ rest /\
    length rest = S (Z.to_nat n).
Proof.
  intros [Hnum Hm] Hn. rewrite Hnum. unfold zlen.
  exists (resize (S (Z.to_nat n)) Undefined (match pd_maps st with Some _ => [Terminator] | None => [] end)).
  rewrite length_resize. split; [|done]. destruct Hm as [-> | [-> ->]]; cbn [from_option id].
  - rewrite (resize_ge (map Mapped ms ++ [Terminator])) by (rewrite length_app, length_map; cbn [length]; lia). rewrite <- app_assoc. f_equal.
    rewrite (resize_ge [Terminator]) by (cbn [length]; lia). do 2 f_equal. rewrite length_app, length_map. cbn [length]. lia.
  - cbn [map app length]. f_equal. lia.
Qed.

Lemma load_map_spec st ms root : loaded st ms -> keyed root = true -> instance_ok root ->
  match document_maps root with
  | Some new => exists st', pd_load_map st (Some root) true = Done (st', 0) /\ loaded st' (ms ++ new) /\ pd_maps st' <> None
  | None => exists st' r, pd_load_map st (Some root) true = Done (st', r) /\ r < 0
  end.
Proof.
  intros Hl Hk Hi. unfold pd_load_map, document_maps. rewrite !get_child_field by done. run.
  set (d := field (Some root) (cstr "sr_domain")) in *.
  assert (Hd : forall w, d = Some w -> keyed w = true) by (intros w; apply field_keyed; by intros ? [= <-]).
  rewrite !get_string_field, get_number_field by done. run. unfold instance_ok in Hi. fold d in Hi.
  destruct (as_number _) as [number|]; [|cbn [mbind option_bind]; by eexists _, _]. specialize (Hi number eq_refl).
  destruct (as_string (field d (cstr "soc"))) as [soc|]; [|cbn [mbind option_bind]; by eexists _, _].
  destruct (as_string (field d (cstr "domain"))) as [domain|]; [|cbn [mbind option_bind]; by eexists _, _].
  destruct (as_string (field d (cstr "subdomain"))) as [subdomain|]; [|cbn [mbind option_bind]; by eexists _, _].
  destruct (field (Some root) (cstr "sr_service")) as [[| | | | |l|]|] eqn:Es; try (cbn [mbind option_bind as_array]; by eexists _, _).
  cbn [mbind option_bind as_array json_count_children]. rewrite (proj2 (Z.ltb_ge _ _)) by (unfold zlen; lia). cbn [negb].
  assert (Hkl : forallb keyed l = true).
  { change (keyed (JArray l) = true). eapply field_keyed; [|exact Es]. by intros w [= <-]. }
  destruct (resized st ms (zlen l) Hl) as (rest & -> & Hr); [unfold zlen; lia|].
  replace (num_pd_maps st) with (zlen ms) by (symmetry; apply Hl).
  pose proof (load_services_spec l ms rest (map_domain soc domain subdomain) number Hkl Hi) as H.
  cbn zeta in H. destruct (mapM _ l) as [new|].
  - destruct H as (rest' & -> & Hr'); [unfold zlen in *; lia|]. run. cbn [negb num_pd_maps].
    destruct rest' as [|x [|]]; [unfold zlen in *; cbn in *; lia| |unfold zlen in *; cbn in *; lia].
    rewrite put_slot_at by (unfold zlen; by rewrite length_map). run. eexists. split; [done|]. split; [|done].
    split; [done|by left].
  - destruct H as [st' ->]; [unfold zlen in *; lia|]. run. by eexists _, _.
Qed.

(** ** The files found *)

Section Found.
Context (opendir : list Z -> option (list (list Z))).

Definition firmware_dir (bs : list Z) : list Z := FIRMWARE_BASE ++ dirname (before_nul bs).
Definition json_paths (path firmware_value : list Z) (entries : list (list Z)) : list (list Z) :=
  map (fun name => path ++ slash ++ name)
    (List.filter (fun name => negb (is_dot name || negb (is_jsn name)
       || (PATH_MAX <? zlen FIRMWARE_BASE + zlen firmware_value + 1 + zlen name + 1))) entries).
(** The files next to the firmware of one remote processor. *)
Definition found_in (e : list Z * option (Z * list Z)) : list (list Z) :=
  match e.2 with
  | Some (n, bs) =>
      if is_dot e.1 || (32 <? zlen e.1 + 10) || (PATH_MAX <? zlen FIRMWARE_BASE + zlen (before_nul bs) + 1) then []
      else json_paths (firmware_dir bs) (before_nul bs) (default [] (opendir (firmware_dir bs)))
  | None => []
  end.
(** Every attribute that opens can be read, into less than the whole buffer, and names
    a directory that exists. *)
Definition readable (e : list Z * option (Z * list Z)) : Prop :=
  forall n bs, e.2 = Some (n, bs) -> 0 <= n < PATH_MAX /\ exists entries, opendir (firmware_dir bs) = Some entries.

Lemma assoc_build_app {V} (a : assoc V) l1 l2 : assoc_build a (l1 ++ l2) = (b ← assoc_build a l1; assoc_build b l2).
Proof.
  revert a. induction l1 as [|[k v] l1 IH]; intros a; cbn [app assoc_build]; [done|].
  destruct (assoc_set a k v); run; [apply IH|done..].
Qed.

Definition unit_pairs (l : list (list Z)) : list (list Z * unit) := map (fun p => (p, tt)) l.

Lemma add_jsons_build js entries path fv : add_jsons js entries path fv = assoc_build js (unit_pairs (json_paths path fv entries)).
Proof.
  revert js. unfold json_paths, unit_pairs. induction entries as [|name l IH]; intros js; cbn [add_jsons List.filter map]; [done|].
  destruct (_ || _); cbn [negb]; [apply IH|]. cbn [map assoc_build]. destruct (assoc_set js _ tt); run; [apply IH|done..].
Qed.
Lemma class_loop_build js l : Forall readable l ->
  class_loop opendir js l = assoc_build js (unit_pairs (concat (map found_in l))).
Proof.
  intros Hl. revert js. induction Hl as [|[name attr] l Hr Hl IH]; intros js; cbn [class_loop map concat]; [done|].
  unfold unit_pairs. rewrite map_app, assoc_build_app.
  assert (E : add_firmware opendir js name attr = assoc_build js (unit_pairs (found_in (name, attr)))).
  { unfold add_firmware, found_in. cbn [fst snd]. destruct attr as [[n bs]|].
    2: { by destruct (_ || _). }
    destruct (Hr n bs eq_refl) as [Hn [entries He]].
    destruct (is_dot name || _); [done|]. cbn [orb].
    rewrite u64_small, (proj2 (Z.leb_gt _ _)) by (unfold PATH_MAX in *; lia). rewrite read_before_nul. run.
    destruct (PATH_MAX <? _); [done|]. unfold firmware_dir in *. rewrite He. run. cbn [from_option id]. apply add_jsons_build. }
  rewrite E. unfold unit_pairs. destruct (assoc_build js _); run; [apply IH|done..].
Qed.
End Found.

(** The files one after the other. *)
Lemma load_files_spec parse doc files st ms :
  (forall f, f ∈ files -> parse f = Done (Some (doc f)) /\ keyed (doc f) = true /\ instance_ok (doc f) /\
     is_Some (document_maps (doc f))) -> loaded st ms ->
  exists st', load_files parse true st files = Done (st', 0) /\
    loaded st' (ms ++ concat (map (fun f => default [] (document_maps (doc f))) files)) /\
    (files <> [] -> pd_maps st' <> None).
Proof.
  revert st ms. induction files as [|f files IH]; intros st ms Hf Hl; cbn [load_files map concat].
  { exists st. by rewrite app_nil_r. }
  destruct (Hf f ltac:(left)) as (-> & Hk & Hi & [new Hnew]). run.
  pose proof (load_map_spec st ms (doc f) Hl Hk Hi) as H. rewrite Hnew in *. destruct H as (st1 & -> & Hl1 & Hne). run.
  destruct (IH st1 (ms ++ new)) as (st' & E & Hl' & Hne'); [intros g Hg; apply Hf; by right|done|].
  exists st'. cbn [Z.ltb Z.compare from_option id]. rewrite app_assoc. split; [exact E|]. split; [exact Hl'|].
  intros _. destruct files; [by injection E as <-|by apply Hne'].
Qed.

(** ** Properties *)

(** Loading a document appends one map for each of its services, in order, to the
    maps loaded before and terminates the array again; a document without the
    needed fields, or with a service without names, is reported as an error. *)
Theorem pd_load_map_appends st ms root : loaded st ms -> keyed root = true -> instance_ok root ->
  match document_maps root with
  | Some new => exists st', pd_load_map st (Some root) true = Done (st', 0) /\ loaded st' (ms ++ new) /\ pd_maps st' <> None
  | None => exists st' r, pd_load_map st (Some root) true = Done (st', r) /\ r < 0
  end.
Proof. exact (load_map_spec st ms root). Qed.

(** At the start every JSON file next to the firmware of a remote processor is
    loaded exactly once, however many processors share the directory: the maps of
    the service are those of all the documents. *)
Theorem pd_load_maps_complete opendir class_dir parse doc :
  let found := concat (map (found_in opendir) class_dir) in
  Forall (readable opendir) class_dir -> zlen found < 2 ^ 58 ->
  (forall f, f ∈ found -> parse f = Done (Some (doc f)) /\ keyed (doc f) = true /\ instance_ok (doc f) /\
     is_Some (document_maps (doc f))) ->
  exists st files, pd_load_maps opendir parse true (Some class_dir) = Done (st, 0) /\
    NoDup files /\ (forall f, f ∈ files <-> f ∈ found) /\
    loaded st (concat (map (fun f => default [] (document_maps (doc f))) files)) /\
    (found <> [] -> pd_maps st <> None).
Proof.
  intros found Hr Hz Hdoc. unfold pd_load_maps.
  destruct (@init_ok unit 20) as (a0 & -> & Hok0 & Hs0 & Hf0 & Hno); [lia|]. run.
  assert (Hrep0 : represents a0 ∅).
  { intros k v. rewrite lookup_empty. split; [done|]. intros H. by apply Hno in H. }
  cbn [pd_enumerate_jsons]. rewrite class_loop_build by done. fold found.
  assert (Hlen : zlen (unit_pairs found) = zlen found) by (unfold unit_pairs, zlen; by rewrite length_map).
  destruct (build_spec (unit_pairs found) a0 ∅ Hok0) as (a & -> & Hok & _ & Hrep); [split; lia|done|lia|lia|]. run.
  rewrite foreach_spec by done. run. rewrite (right_id_L ∅ (∪)) in Hrep.
  destruct (entries_visit a _ Hok Hrep) as (l & -> & Hl). set (files := map fst _).
  assert (Ef : files = l.*1) by (unfold files; by rewrite map_map).
  assert (Hin : forall f, f ∈ files <-> f ∈ found).
  { intros f. rewrite Ef, Hl, list_elem_of_fmap. split.
    - intros ([k []] & -> & H). apply elem_of_map_to_list, elem_of_list_to_map_2 in H. rewrite reverse_Permutation in H.
      unfold unit_pairs in H. by apply list_elem_of_fmap in H as (p & [= ->] & Hp).
    - intros Hf. destruct ((list_to_map (reverse (unit_pairs found)) : gmap key unit) !! f) as [[]|] eqn:E.
      + exists (f, tt). split; [done|]. by apply elem_of_map_to_list.
      + apply not_elem_of_list_to_map in E. exfalso. apply E. rewrite reverse_Permutation. apply list_elem_of_fmap.
        exists (f, tt). split; [done|]. apply list_elem_of_fmap. by exists f. }
  assert (Hnd : NoDup files) by (rewrite Ef, Hl; apply NoDup_fst_map_to_list).
  destruct (load_files_spec parse doc files pd_static []) as (st & E & Hload & Hne).
  { intros f Hf. by apply Hdoc, Hin. }
  { split; [done|by right]. }
  exists st, files. split_and!; [exact E|done|done|exact Hload|]. intros Hfound. apply Hne. intros ->.
  destruct found as [|f found']; [done|]. assert (Hf : f ∈ f :: found') by left. apply Hin in Hf. by apply elem_of_nil in Hf.
Qed.

(** ** Witnesses *)

Definition pair_text (k v : list Z) : list Z := quoted k ++ cstr ":" ++ v.
Definition demo_text : list Z :=
  cstr "{" ++ pair_text (cstr "sr_domain")
    (cstr "{" ++ pair_text (cstr "soc") (quoted (cstr "msm")) ++ cstr ", " ++ pair_text (cstr "domain") (quoted (cstr "modem"))
     ++ cstr ", " ++ pair_text (cstr "subdomain") (quoted (cstr "root_pd")) ++ cstr ", " ++ pair_text (cstr "qmi_instance_id") (cstr "180")
     ++ cstr "}")
  ++ cstr ", " ++ pair_text (cstr "sr_service")
    (cstr "[ {" ++ pair_text (cstr "provider") (quoted (cstr "tms")) ++ cstr "," ++ pair_text (cstr "service") (quoted (cstr "servreg"))
     ++ cstr "} ] }").
Definition demo_doc : json := match parse_bytes demo_text with Done (Some v) => v | _ => JNull end.
Definition demo_class : list (list Z * option (Z * list Z)) :=
  [(cstr ".", None); (cstr "remoteproc0", Some (13, cstr "qcom/mdm.mdt" ++ [10]));
   (cstr "remoteproc1", Some (13, cstr "qcom/adsp.mdt")); (cstr "remoteproc2", None)].
Definition demo_dir (path : list Z) : option (list (list Z)) :=
  if bool_decide (path = cstr "/vendor/firmware/qcom") then Some [cstr ".."; cstr "modem.jsn"; cstr "mdm.mdt"; cstr "modemuw.jsn"] else None.

Lemma demo_doc_ok : parse_bytes demo_text = Done (Some demo_doc) /\ keyed demo_doc = true /\ instance_ok demo_doc /\
  document_maps demo_doc = Some [PdMap (cstr "tms/servreg") (cstr "msm/modem/root_pd") 180].
Proof.
  split; [vm_compute; reflexivity|]. split; [vm_compute; reflexivity|]. split; [|vm_compute; reflexivity].
  intros n E. assert (n = 180) as ->; [|lia]. vm_compute in E. congruence.
Qed.

Lemma pd_load_map_appends_witness : exists st', pd_load_map pd_static (Some demo_doc) true = Done (st', 0) /\
  loaded st' [PdMap (cstr "tms/servreg") (cstr "msm/modem/root_pd") 180].
Proof.
  pose proof (pd_load_map_appends pd_static [] demo_doc) as H.
  destruct demo_doc_ok as (_ & Hk & Hi & Hd). rewrite Hd in H. destruct H as (st' & E & Hl & _).
  - split; [reflexivity|]. right. split; reflexivity.
  - exact Hk.
  - exact Hi.
  - exists st'. split; [exact E|exact Hl].
Defined.
Lemma demo_readable : Forall (readable demo_dir) demo_class.
Proof.
  assert (Hx : forall bs, firmware_dir bs = cstr "/vendor/firmware/qcom" -> exists l, demo_dir (firmware_dir bs) = Some l).
  { intros bs ->. by eexists. }
  apply Forall_forall. intros e He. unfold demo_class in He. rewrite !elem_of_cons, elem_of_nil in He.
  destruct He as [-> |[-> |[-> |[-> |[]]]]]; intros n bs E; try discriminate E; injection E as <- <-;
    (split; [unfold PATH_MAX; lia|apply Hx; reflexivity]).
Qed.
(** Two processors share the directory; each of its two documents is loaded once. *)
Lemma pd_load_maps_complete_witness : exists st (files : list (list Z)),
  pd_load_maps demo_dir (fun _ => parse_bytes demo_text) true (Some demo_class) = Done (st, 0) /\ NoDup files /\
  loaded st (concat (map (fun _ : list Z => [PdMap (cstr "tms/servreg") (cstr "msm/modem/root_pd") 180]) files)).
Proof.
  destruct demo_doc_ok as (Hp & Hk & Hi & Hd).
  destruct (pd_load_maps_complete demo_dir demo_class (fun _ => parse_bytes demo_text) (fun _ => demo_doc)) as (st & files & E & Hnd & _ & Hl & _).
  - exact demo_readable.
  - vm_compute. reflexivity.
  - intros f _. split; [exact Hp|]. split; [exact Hk|]. split; [exact Hi|]. rewrite Hd. by eexists.
  - exists st, files. split; [exact E|]. split; [exact Hnd|]. rewrite Hd in Hl. exact Hl.
Defined.

(** Without its directory, and when reading the attribute fails, a firmware faults: the
    directory is read and the buffer terminated without a look at the results. *)
Example missing_directory : pd_load_maps (fun _ => None) (fun _ => Done None) true (Some demo_class) = Fault NullPointer.
Proof. vm_compute. reflexivity. Qed.
Example unreadable_attribute :
  pd_load_maps demo_dir (fun _ => Done None) true (Some [(cstr "remoteproc0", Some (-1, []))]) = Fault OutOfBounds.
Proof. vm_compute. reflexivity. Qed.
