(* ===== verification/PdServeProps.v ===== *)
(** * The protection domain mapper as a whole: from the files to the answers *)
From Stdlib Require Import String.
From S2P Require Import Prelude CString Paths Hash Qrtr Qmi QmiRef ServregLoc Os Json JsonProps Assoc AssocProps PdMapper PdMapperProps PdLoadProps.
#[local] Open Scope Z_scope.

(** ** Files *)

(** A file holds a text of the grammar, with white space around it. *)
Definition holds (content : list Z) (doc : json) : Prop :=
  exists w1 t w2, content = w1 ++ t ++ w2 /\ jtext doc t /\ ws w1 /\ ws w2.
(** [json_parse_file] on a file that can be read, with memory for its values. *)
Definition parse_content (content : list Z) : outcome (option json) :=
  json_parse_file (length content) (Some (zlen content, (zlen content, content))) always.

Lemma content_parses content doc : holds content doc -> parse_content content = Done (Some doc).
Proof.
  intros (w1 & t & w2 & -> & Ht & Hw1 & Hw2). unfold parse_content, json_parse_file.
  rewrite (proj2 (Z.ltb_ge _ _)), Z.eqb_refl by (unfold zlen; lia). cbn [negb].
  apply root_parses; try done. rewrite !length_app. lia.
Qed.

(** The grammar has no keys that are missing. *)
Lemma text_keyed :
  (forall v t, jtext v t -> keyed v = true) /\ (forall l t, jitems l t -> forallb keyed l = true) /\
  (forall l t, jprops l t -> keyed (JObject l) = true) /\ (forall (k : list Z) v t, jprop k v t -> keyed v = true).
Proof.
  apply json_ind; try done; cbn [keyed forallb]; intros; rewrite ?andb_true_r; try done; by apply andb_true_iff.
Qed.

(** ** Requests *)

(** A client, what it asks for, and what memory holds where the request is received. *)
Record pd_request := PdRequest {
  pr_txn : Z; pr_name : list Z; pr_from : sockaddr_qrtr; pr_stale : list Z; pr_stack : pd_stack; pr_pkt : qrtr_packet }.
Definition request_turn (r : pd_request) : pd_turn :=
  PdTurn 1 0 (inr (request (pr_txn r) (pr_name r), pr_from r)) (pr_stale r) (pr_stack r) (pr_pkt r).
Record request_ok (ms : list pd_map) (r : pd_request) : Prop := {
  ro_txn : 0 <= pr_txn r < 2 ^ 16;
  ro_name : name_ok (pr_name r);
  ro_from : sq_port (pr_from r) <> QRTR_PORT_CTRL;
  ro_buf : zlen (pd_buf (pr_stack r)) = 256;
  ro_domains : Forall (fun e => name_ok (entry_name e)) (domains_of (pr_name r) ms);
  ro_fits : zlen (reply (pr_txn r) (domains_of (pr_name r) ms)) <= 256 }.
Definition pd_answer (ms : list pd_map) (r : pd_request) : Z * Z * list Z :=
  (sq_node (pr_from r), sq_port (pr_from r), reply (pr_txn r) (domains_of (pr_name r) ms)).

Lemma request_header txn name rest : name_ok name -> 0 <= txn < 2 ^ 16 ->
  qmi_decode_header (request txn name ++ rest) (zlen (request txn name)) = Done (0, Some SERVREG_LOC_GET_DOMAIN_LIST).
Proof.
  intros [Hl _] Ht. unfold qmi_decode_header, read_u16. assert (0 <= zlen name) by apply zlen_nonneg.
  set (n := 3 + zlen name). rewrite request_length. unfold request. fold n. set (body := [1; zlen name; 0] ++ name).
  rewrite (read_at _ (le_bytes 1 QMI_REQUEST ++ le_bytes 2 txn ++ le_bytes 2 SERVREG_LOC_GET_DOMAIN_LIST) (le_bytes 2 n) (body ++ rest) 5 2),
    (read_at _ (le_bytes 1 QMI_REQUEST ++ le_bytes 2 txn) (le_bytes 2 SERVREG_LOC_GET_DOMAIN_LIST) (le_bytes 2 n ++ body ++ rest) 3 2)
    by first [done | unfold header_bytes; by rewrite <- !app_assoc].
  run. rewrite le_value_bytes2, u64_small by (unfold n, sizeof_header; lia). unfold sizeof_header.
  replace (10 + zlen name - 7) with n by (unfold n; lia). by rewrite Z.eqb_refl.
Qed.

Lemma request_served st ms r : loaded st ms -> pd_maps st <> None -> request_ok ms r ->
  pd_datagram (pd_maps st) (request_turn r) = Done (None, [pd_answer ms r]).
Proof.
  intros Hl Hne [Ht Hn Hp Hb Hd Hf]. unfold pd_datagram. cbn [request_turn pt_recv pt_pkt pt_stale pt_stack].
  destruct (qrtr_decode_message (pr_pkt r) (request (pr_txn r) (pr_name r)) (pr_from r) Hp) as (d & -> & Hty & Hdd & Hnode & Hport). run.
  rewrite Hty, Z.eqb_refl, Hdd. cbn [Z.ltb Z.compare]. rewrite request_header by done. run. cbn [Z.ltb Z.compare of_option]. run.
  rewrite Z.eqb_refl. rewrite (get_domain_list_answers st ms (pr_name r) (pr_txn r)) by (done || by rewrite Hb). run.
  by rewrite Hnode, Hport.
Qed.

Lemma requests_served st ms rs : loaded st ms -> pd_maps st <> None -> Forall (request_ok ms) rs ->
  pd_loop (pd_maps st) (map request_turn rs) = Done (None, map (pd_answer ms) rs).
Proof.
  intros Hl Hne. induction 1 as [|r rs Hr _ IH]; [done|]. cbn [map pd_loop request_turn pt_poll Z.ltb Z.compare].
  fold (request_turn r). rewrite (request_served st ms r) by done. run. rewrite IH. done.
Qed.

(** ** Property *)

(** C9: the mapper from the files to the answers.  When the files next to the firmware of the
    remote processors hold documents of the grammar that describe services, and the socket
    can be opened and registered, then the program answers every request for a service whose
    answer fits its packet of 256 bytes (domains of at most 255 bytes, and with them fewer than
    256), in any order and from any client, with exactly the domains that provide it in these
    documents, each document taken once however many processors share its directory, in one
    message to the client with the transaction of the request. *)
Theorem pd_mapper_serves opendir class_dir content doc sy c1 fd c2 ret :
  let found := concat (map (found_in opendir) class_dir) in
  Forall (readable opendir) class_dir -> found <> [] -> zlen found < 2 ^ 58 ->
  (forall f, f ∈ found -> holds (content f) (doc f) /\ instance_ok (doc f) /\ is_Some (document_maps (doc f))) ->
  qrtr_open sy 0 = (c1, fd) -> 0 <= fd ->
  qrtr_publish sy fd SERVREG_QMI_SERVICE SERVREG_QMI_VERSION SERVREG_QMI_INSTANCE = (c2, ret) -> 0 <= ret ->
  exists st files, let ms := concat (map (fun f => default [] (document_maps (doc f))) files) in
    NoDup files /\ (forall f, f ∈ files <-> f ∈ found) /\
    pd_load_maps opendir (fun f => parse_content (content f)) true (Some class_dir) = Done (st, 0) /\
    forall rs, Forall (request_ok ms) rs ->
      pd_main (st, 0) sy (map request_turn rs) = Done (c1 ++ c2, (None, map (pd_answer ms) rs)).
Proof.
  intros found Hr Hne Hz Hf Ho Hfd Hp Hret.
  destruct (pd_load_maps_complete opendir class_dir (fun f => parse_content (content f)) doc) as (st & files & E & Hnd & Hin & Hl & Hmaps); try done.
  { intros f Hin. destruct (Hf f Hin) as (Hh & Hi & Hd). split; [by apply content_parses|]. split_and!; [|done..].
    destruct Hh as (w1 & t & w2 & _ & Ht & _). by eapply (proj1 text_keyed). }
  exists st, files. intros ms. split_and!; [done..|]. intros rs Hrs. specialize (Hmaps Hne). unfold pd_main. cbn [Z.eqb negb].
  destruct (pd_maps st) as [maps|] eqn:Em; [|done]. rewrite Ho, (proj2 (Z.ltb_ge _ _) Hfd), Hp, (proj2 (Z.ltb_ge _ _) Hret).
  rewrite <- Em, (requests_served st ms rs); [done|done|by rewrite Em|done].
Qed.

(** ** Witness *)

Definition str (s : String.string) : json := JString (Some (cstr s)).
Definition served_doc : json :=
  JObject [(Some (cstr "sr_domain"), JObject [(Some (cstr "soc"), str "msm"); (Some (cstr "domain"), str "modem");
              (Some (cstr "subdomain"), str "root_pd"); (Some (cstr "qmi_instance_id"), JNumber 180)]);
           (Some (cstr "sr_service"), JArray [JObject [(Some (cstr "provider"), str "tms"); (Some (cstr "service"), str "servreg")]])].
Definition served_content : list Z := [32] ++ print served_doc ++ [10].
Lemma str_ok_dec s : (length s <=? 127)%nat && forallb (fun b => negb (b =? 0) && negb (b =? 34)) s = true -> str_ok s.
Proof.
  intros [H1%Nat.leb_le H2]%andb_true_iff. split; [done|]. apply Forall_forall. intros b Hb%list_elem_of_In.
  rewrite forallb_forall in H2. specialize (H2 b Hb). reflect_bools. done.
Qed.
Ltac printable_text := first
  [ apply pr_string, str_ok_dec; reflexivity | apply pr_number; lia
  | apply pr_array; [printable_text|repeat (constructor; [printable_text|]); constructor]
  | apply pr_object; [apply str_ok_dec; reflexivity|printable_text|];
    repeat (constructor; [split; [eexists; split; [reflexivity|apply str_ok_dec; reflexivity]|printable_text]|]); constructor ].
Lemma served_content_holds : holds served_content served_doc.
Proof.
  exists [32], (print served_doc), [10]. split; [done|]. split; [|by split; repeat constructor].
  apply print_has_text. unfold served_doc, str. printable_text.
Qed.
Lemma served_doc_maps : instance_ok served_doc /\ document_maps served_doc = Some [PdMap (cstr "tms/servreg") (cstr "msm/modem/root_pd") 180].
Proof. split; [|reflexivity]. intros n E. vm_compute in E. injection E as <-. lia. Qed.

Definition served_sys : sys := Sys 5 0 0 (0, SockaddrQrtr AF_QIPCRTR 1 77, sizeof_sockaddr_qrtr) 20.
Definition served_request (name : String.string) (n : Z) : pd_request :=
  PdRequest n (cstr name) (SockaddrQrtr AF_QIPCRTR n 9) [] (PdStack (replicate 256 0xaa)) (QrtrPacket 0 0 0 0 0 0 []).

(** The domains found in a few copies of the document, and those of a service that is not there. *)
Lemma served_domains n name txn : (n <= 4)%nat -> name = cstr "tms/servreg" \/ name = cstr "tms/none" ->
  let ds := domains_of name (concat (replicate n [PdMap (cstr "tms/servreg") (cstr "msm/modem/root_pd") 180])) in
  Forall (fun e => name_ok (entry_name e)) ds /\ zlen (reply txn ds) <= 256.
Proof.
  intros Hn Hname. split.
  - apply Forall_forall. intros e He. unfold domains_of in He. apply list_elem_of_fmap in He as (m & -> & [_ Hm]%list_elem_of_filter).
    apply list_elem_of_In, in_concat in Hm as (l & Hl & Hm). apply list_elem_of_In, elem_of_replicate_inv in Hl as ->.
    destruct Hm as [<-|[]]. apply name_ok_dec. reflexivity.
  - destruct Hname as [-> | ->]; do 5 (destruct n as [|n]; [vm_compute; discriminate|]); lia.
Qed.

(** Two processors share the two files; one client asks for their service and another for
    one that is not there. *)
Lemma pd_mapper_serves_witness : exists st files calls,
  let ms := concat (map (fun _ : list Z => [PdMap (cstr "tms/servreg") (cstr "msm/modem/root_pd") 180]) files) in
  let rs := [served_request "tms/servreg" 2; served_request "tms/none" 3] in
  (forall f, f ∈ files <-> f ∈ concat (map (found_in demo_dir) demo_class)) /\
  pd_load_maps demo_dir (fun _ => parse_content served_content) true (Some demo_class) = Done (st, 0) /\
  pd_main (st, 0) served_sys (map request_turn rs) = Done (calls, (None, map (pd_answer ms) rs)).
Proof.
  destruct served_doc_maps as [Hi Hd].
  destruct (pd_mapper_serves demo_dir demo_class (fun _ => served_content) (fun _ => served_doc) served_sys
    (qrtr_open served_sys 0).1 5 (qrtr_publish served_sys 5 SERVREG_QMI_SERVICE SERVREG_QMI_VERSION SERVREG_QMI_INSTANCE).1 0)
    as (st & files & Hnd & Hin & E & Hs).
  - exact demo_readable.
  - vm_compute. discriminate.
  - vm_compute. reflexivity.
  - intros f _. split; [exact served_content_holds|]. split; [exact Hi|]. rewrite Hd. by eexists.
  - reflexivity.
  - lia.
  - reflexivity.
  - lia.
  - exists st, files. eexists. split; [exact Hin|]. split; [exact E|]. rewrite Hd in Hs. apply Hs.
    assert (Hlen : (length files <= 4)%nat).
    { etransitivity; [apply submseteq_length, (NoDup_submseteq _ (concat (map (found_in demo_dir) demo_class)) Hnd); intros f; apply Hin|].
      vm_compute. lia. }
    assert (Hrep : map (fun _ : list Z => default [] (Some [PdMap (cstr "tms/servreg") (cstr "msm/modem/root_pd") 180])) files =
      replicate (length files) [PdMap (cstr "tms/servreg") (cstr "msm/modem/root_pd") 180]).
    { clear. induction files as [|f fs IH]; [reflexivity|]. cbn [map length replicate]. f_equal. exact IH. }
    rewrite Hrep. apply Forall_cons; split; [|apply Forall_cons; split; [|constructor]].
    all: split; cbn [served_request pr_txn pr_name pr_from pr_stack]; [lia|apply name_ok_dec; reflexivity|vm_compute; discriminate|reflexivity| |];
      [apply (served_domains _ _ 0)|apply served_domains]; auto.
Defined.
