(* ===== verification/Translate.v ===== *)
(** * Opening the files of the TFTP server (tqftpserv/translate.c)

    The system calls of the server are the class [TftpOps]; this file defines it and
    models the translation of the paths a client asks for. *)
From Stdlib Require Import String.
From S2P Require Import Prelude CString Paths Qrtr.
#[local] Open Scope Z_scope.

Inductive open_flags := O_RDONLY | O_WRONLY_CREAT.

(** Calls on a state [W] of the system.  [tw_remoteproc] are the entries of
    /sys/class/remoteproc with the bytes that reading their attribute stores and its
    return value, [None] when it cannot be opened; [tw_sys] and [tw_calls] connect
    the calls of the client library of QRTR, which records them. *)
Class TftpOps (W : Type) := {
  tw_errno : W -> Z;
  tw_remoteproc : W -> option (list (list Z * option (Z * list Z)));
  tw_open : W -> list Z -> W * Z;
  tw_mkdir : W -> list Z -> W * Z;
  tw_openat : W -> Z -> list Z -> open_flags -> W * Z;
  tw_close : W -> Z -> W;
  tw_fstat : W -> Z -> Z;
  tw_pread : W -> Z -> Z -> Z -> W * Z * list Z;
  tw_write : W -> Z -> list Z -> W * Z;
  tw_malloc : W -> Z -> bool;
  tw_connect : W -> Z -> sockaddr_qrtr -> W * Z;
  tw_send : W -> Z -> list Z -> W * Z;
  tw_sys : W -> sys;
  tw_calls : W -> list call -> W }.

Definition READONLY_PATH : list Z := cstr "/readonly/firmware/image/".
Definition READWRITE_PATH : list Z := cstr "/readwrite/".
Definition TQFTPSERV_TMP : list Z := cstr "/data/vendor/tmp/tqftpserv".
Definition EEXIST : Z := 17.

Section Translate.
Context {W : Type} `{TftpOps W}.

(** The path next to a firmware. *)
Definition firmware_path (firmware_value file : list Z) : list Z :=
  FIRMWARE_BASE ++ dirname firmware_value ++ slash ++ file.

(** The loop over the remote processors; [fd] is the result so far. *)
Fixpoint readonly_loop (w : W) (l : list (list Z * option (Z * list Z))) (file : list Z) (fd : Z) : outcome (W * Z) :=
  match l with
  | [] => Done (w, fd)
  | (name, attr) :: l' =>
      if is_dot name || (32 <? zlen name + 10) then readonly_loop w l' file fd
      else
        match attr with
        | None => readonly_loop w l' file fd
        | Some (n, bs) =>
            if n <? 0 then readonly_loop w l' file fd
            else if PATH_MAX <=? n then Fault OutOfBounds
            else
              firmware_value ← read_cstr (bs ++ [0]) 0;
              if PATH_MAX <? zlen FIRMWARE_BASE + zlen firmware_value + 1 + zlen file + 1
              then readonly_loop w l' file fd
              else
                let '(w, fd) := tw_open w (firmware_path firmware_value file) in
                if 0 <=? fd then Done (w, fd) else readonly_loop w l' file fd
        end
  end.
Definition translate_readonly (w : W) (file : list Z) : outcome (W * Z) :=
  match tw_remoteproc w with
  | None => Done (w, -1)
  | Some l => readonly_loop w l file (-1)
  end.

Definition translate_readwrite (w : W) (file : list Z) (flags : open_flags) : W * Z :=
  let '(w, ret) := tw_mkdir w TQFTPSERV_TMP in
  if (ret <? 0) && negb (tw_errno w =? EEXIST) then (w, -1)
  else
    let '(w, base) := tw_open w TQFTPSERV_TMP in
    if base <? 0 then (w, -1)
    else
      let '(w, fd) := tw_openat w base file flags in
      (tw_close w base, fd).

(** [strncmp] with a prefix. *)
Definition has_prefix (prefix path : list Z) : bool := bool_decide (take (length prefix) path = prefix).
Definition translate_open (w : W) (path : list Z) (flags : open_flags) : outcome (W * Z) :=
  if has_prefix READONLY_PATH path then translate_readonly w (drop (length READONLY_PATH) path)
  else if has_prefix READWRITE_PATH path then Done (translate_readwrite w (drop (length READWRITE_PATH) path) flags)
  else Done (w, -1).
End Translate.
