(* ===== verification/Tftp.v ===== *)
(** * The TFTP server of the modem (tqftpserv/tqftpserv.c)

    The lists of readers and writers are sequences: the server appends clients,
    visits them in order and removes the one it is visiting (tqftpserv/list.h).
    Strings of a request are read from the receive buffer up to their terminators,
    wherever these are. *)
From Stdlib Require Import String.
From S2P Require Import Prelude CString Paths Qrtr Translate.
#[local] Open Scope Z_scope.

Definition OP_RRQ : Z := 1.
Definition OP_WRQ : Z := 2.
Definition OP_DATA : Z := 3.
Definition OP_ACK : Z := 4.
Definition OP_ERROR : Z := 5.
Definition OP_OACK : Z := 6.
Definition EINTR : Z := 4.
Definition FD_SETSIZE : Z := 1024.

(** [size_t] fields are between 0 and 2^64. *)
Record tftp_client := TftpClient {
  c_sq : sockaddr_qrtr;
  c_sock : Z;
  c_fd : Z;
  c_blksize : Z;
  c_rsize : Z;
  c_wsize : Z;
  c_timeoutms : Z }.

(** The high and the low byte of a 16-bit word, as [htons] stores them. *)
Definition be16 (v : Z) : list Z := [Z.land (Z.shiftr v 8) 0xff; Z.land v 0xff].
Definition be16_value (hi lo : Z) : Z := Z.lor (Z.shiftl hi 8) lo.

Definition data_packet (block : Z) (payload : list Z) : list Z := [0; OP_DATA] ++ be16 block ++ payload.
Definition ack_packet (block : Z) : list Z := be16 OP_ACK ++ be16 block.
Definition error_packet (code : Z) (msg : list Z) : list Z := be16 OP_ERROR ++ be16 code ++ msg ++ [0].

Definition text_option (name : list Z) (value : Z) : list Z := name ++ [0] ++ print_int value ++ [0].
Definition when {A} (o : option A) (f : A -> list Z) : list Z := match o with Some a => f a | None => [] end.
(** The options that are not null; [%d] prints the unsigned [timeoutms]. *)
Definition oack_packet (blocksize tsize wsize timeoutms rsize : option Z) : list Z :=
  [0; OP_OACK] ++ when blocksize (fun v => text_option (cstr "blksize") (s64 v))
  ++ when timeoutms (fun v => text_option (cstr "timeoutms") (s32 v))
  ++ when tsize (fun v => if u64 v =? 2 ^ 64 - 1 then [] else text_option (cstr "tsize") (s64 v))
  ++ when wsize (fun v => text_option (cstr "wsize") (s64 v))
  ++ when rsize (fun v => text_option (cstr "rsize") (s64 v)).

Section Tftp.
Context {W : Type} `{TftpOps W}.

Record tftp := Tftpd { tf_w : W; readers : list tftp_client; writers : list tftp_client }.
Definition set_world (st : tftp) (w : W) : tftp := Tftpd w (readers st) (writers st).

(** ** Packets *)

Definition tftp_send_data (w : W) (client : tftp_client) (block offset : Z) : outcome (W * Z) :=
  let size := u64 (4 + c_blksize client) in
  if negb (tw_malloc w size) then Fault NullPointer
  else if size <? 4 then Fault OutOfBounds
  else
    let '(w, len, bs) := tw_pread w (c_fd client) (c_blksize client) offset in
    if len <=? 0 then Done (w, len)
    else Done (tw_send w (c_sock client) (data_packet block bs)).
Definition tftp_send_ack (w : W) (sock block : Z) : W * Z := tw_send w sock (ack_packet block).
Definition tftp_send_oack (w : W) (sock : Z) (blocksize tsize wsize timeoutms rsize : option Z) : outcome (W * Z) :=
  let p := oack_packet blocksize tsize wsize timeoutms rsize in
  if 512 <? zlen p then Fault OutOfBounds else Done (tw_send w sock p).
Definition tftp_send_error (w : W) (sock code : Z) (msg : list Z) : W * Z :=
  if negb (tw_malloc w (4 + zlen msg + 1)) then (w, -1) else tw_send w sock (error_packet code msg).

(** ** Requests *)

(** The string at [p] and the position behind its terminator. *)
Definition next_str (m : list Z) (p : Z) : outcome (list Z * Z) :=
  s ← read_cstr m p; Done (s, p + zlen s + 1).

Record rrq_options := RrqOptions { o_blksize : Z; o_timeoutms : Z; o_tsize : Z; o_rsize : Z; o_wsize : Z }.
Definition default_options : rrq_options := RrqOptions 512 1000 (-1) 0 0.
Definition set_option (o : rrq_options) (opt value : list Z) : rrq_options :=
  let v := atoi value in
  if bool_decide (opt = cstr "blksize") then RrqOptions (u64 v) (o_timeoutms o) (o_tsize o) (o_rsize o) (o_wsize o)
  else if bool_decide (opt = cstr "timeoutms") then RrqOptions (o_blksize o) (u32 v) (o_tsize o) (o_rsize o) (o_wsize o)
  else if bool_decide (opt = cstr "tsize") then RrqOptions (o_blksize o) (o_timeoutms o) v (o_rsize o) (o_wsize o)
  else if bool_decide (opt = cstr "rsize") then RrqOptions (o_blksize o) (o_timeoutms o) (o_tsize o) (u64 v) (o_wsize o)
  else if bool_decide (opt = cstr "wsize") then RrqOptions (o_blksize o) (o_timeoutms o) (o_tsize o) (o_rsize o) (u64 v)
  else o.
(** Every turn advances by two bytes or more. *)
Fixpoint options_loop (n : nat) (m : list Z) (p len : Z) (o : rrq_options) : outcome rrq_options :=
  match n with
  | O => OutOfFuel
  | S n' =>
      if p <? len then
        '(opt, p) ← next_str m p;
        '(value, p) ← next_str m p;
        options_loop n' m p len (set_option o opt value)
      else Done o
  end.

Definition nonzero (v : Z) : option Z := if v =? 0 then None else Some v.
Definition open_socket (w : W) : W * Z := let '(calls, sock) := qrtr_open (tw_sys w) 0 in (tw_calls w calls, sock).

(** [m] is the receive buffer, [len] the length of the datagram in it. *)
Definition handle_rrq (st : tftp) (m : list Z) (len : Z) (sq : sockaddr_qrtr) : outcome tftp :=
  '(filename, p) ← next_str m 2;
  '(mode, p) ← next_str m p;
  if negb (same_ignoring_case mode (cstr "octet")) then Done st
  else
    let do_oack := p <? len in
    o ← options_loop (S (Z.to_nat len)) m p len default_options;
    let '(w, sock) := open_socket (tf_w st) in
    if sock <? 0 then Done (set_world st w)
    else
      let '(w, ret) := tw_connect w sock sq in
      if ret <? 0 then Done (set_world st w)
      else
        '(w, fd) ← translate_open w filename O_RDONLY;
        if fd <? 0 then Done (set_world st (tftp_send_error w sock 1 (cstr "file not found")).1)
        else
          let tsize := if o_tsize o =? -1 then o_tsize o else tw_fstat w fd in
          if negb (tw_malloc w 72) then Fault NullPointer
          else
            let client := TftpClient sq sock fd (o_blksize o) (o_rsize o) (o_wsize o) (o_timeoutms o) in
            '(w, _) ← (if (do_oack : bool) then
                         tftp_send_oack w sock (Some (o_blksize o)) (nonzero tsize) (nonzero (o_wsize o))
                           (Some (o_timeoutms o)) (nonzero (o_rsize o))
                       else tftp_send_data w client 1 0);
            Done (Tftpd w (readers st ++ [client]) (writers st)).

Definition handle_wrq (st : tftp) (m : list Z) (sq : sockaddr_qrtr) : outcome tftp :=
  '(filename, p) ← next_str m 2;
  '(mode, _) ← next_str m p;
  if negb (same_ignoring_case mode (cstr "octet")) then Done st
  else
    '(w, fd) ← translate_open (tf_w st) filename O_WRONLY_CREAT;
    if fd <? 0 then Done (set_world st w)
    else
      let '(w, sock) := open_socket w in
      if sock <? 0 then Done (set_world st w)
      else
        let '(w, ret) := tw_connect w sock sq in
        if ret <? 0 then Done (set_world st w)
        else if negb (tw_malloc w 72) then Fault NullPointer
        else
          let '(w, ret) := tftp_send_ack w sock 0 in
          if ret <? 0 then Done (set_world st (tw_close (tw_close w sock) fd))
          else Done (Tftpd w (readers st) (writers st ++ [TftpClient sq sock fd 0 0 0 0])).

(** ** Transfers *)

(** What [recvfrom] gives: the error, or the bytes stored and the sender. *)
Definition received : Type := Z + list Z * sockaddr_qrtr.
(** A buffer of the stack, with the datagram over what it held before. *)
Definition overlay (data junk : list Z) : list Z := data ++ drop (length data) junk.
Definition byte_at (m : list Z) (i : nat) : outcome Z := of_option OutOfBounds (m !! i).
Definition word_at (m : list Z) (i : nat) : outcome Z := hi ← byte_at m i; lo ← byte_at m (S i); Done (be16_value hi lo).

Definition same_peer (a b : sockaddr_qrtr) : bool := (sq_node a =? sq_node b) && (sq_port a =? sq_port b).

(** The loop over the blocks of a window; [block] is a [uint16_t], [limit] a
    [size_t]. *)
Fixpoint window_loop (fuel : nat) (w : W) (client : tftp_client) (block limit : Z) : outcome W :=
  if block <? limit then
    match fuel with
    | O => OutOfFuel
    | S fuel' =>
        '(w, n) ← tftp_send_data w client (block + 1) (u64 (block * c_blksize client));
        if n <=? 0 then Done w else window_loop fuel' w client (u16 (block + 1)) limit
    end
  else Done w.

(** [junk] is the buffer of 128 bytes.  The result tells whether the client stays. *)
Definition handle_reader (fuel : nat) (w : W) (client : tftp_client) (r : received) (junk : list Z)
    : outcome (W * bool) :=
  match r with
  | inl _ => Done (w, false)
  | inr (data, sq) =>
      let buf := overlay data junk in
      if negb (same_peer sq (c_sq client)) then Done (w, false)
      else
        opcode ← word_at buf 0;
        if opcode =? OP_ERROR then
          (if zlen data <? zlen buf then Done (w, false) else Fault OutOfBounds)
        else if negb (opcode =? OP_ACK) then Done (w, false)
        else
          last ← word_at buf 2;
          w ← window_loop fuel w client last (u64 (last + c_wsize client));
          Done (w, true)
  end.

(** [junk] is the buffer of 516 bytes.  The length of a shorter packet wraps. *)
Definition handle_writer (w : W) (client : tftp_client) (r : received) (junk : list Z) : outcome (W * bool) :=
  match r with
  | inl _ => Done (w, false)
  | inr (data, sq) =>
      let buf := overlay data junk in
      if negb (same_peer sq (c_sq client)) then Done (w, false)
      else
        opcode ← word_at buf 0;
        block ← word_at buf 2;
        if negb (opcode =? OP_DATA) then
          Done ((tftp_send_error w (c_sock client) 4 (cstr "Expected DATA opcode")).1, false)
        else
          let payload := u64 (zlen data - 4) in
          bs ← read_mem buf 4 payload;
          let '(w, ret) := tw_write w (c_fd client) bs in
          if ret <? 0 then Done (w, false)
          else
            let '(w, _) := tftp_send_ack w (c_sock client) block in
            Done (w, payload =? 512)
  end.

Definition client_close (w : W) (client : tftp_client) : W := tw_close (tw_close w (c_sock client)) (c_fd client).

(** A pass over a list with [list_for_each_entry_safe]: the clients whose socket is
    ready are handled, those that are through are closed and removed. *)
Fixpoint clients_pass (handle : W -> tftp_client -> received -> outcome (W * bool)) (ready : Z -> option received)
    (w : W) (l : list tftp_client) : outcome (W * list tftp_client) :=
  match l with
  | [] => Done (w, [])
  | c :: l' =>
      match ready (c_sock c) with
      | None => '(w, l'') ← clients_pass handle ready w l'; Done (w, c :: l'')
      | Some r =>
          '(w, stays) ← handle w c r;
          if (stays : bool) then '(w, l'') ← clients_pass handle ready w l'; Done (w, c :: l'')
          else clients_pass handle ready (client_close w c) l'
      end
  end.
Fixpoint close_if (p : tftp_client -> bool) (w : W) (l : list tftp_client) : W * list tftp_client :=
  match l with
  | [] => (w, [])
  | c :: l' =>
      if p c then close_if p (client_close w c) l'
      else let '(w, l'') := close_if p w l' in (w, c :: l'')
  end.

(** ** The loop around [select] *)

(** A turn: the results of [select], the sockets of clients that are ready with what
    arrives on them, the buffers on the stack, and what arrives on the socket of the
    server, with the rest of its buffer of 4096 bytes. *)
Record tftp_turn := TftpTurn {
  tt_select : Z;
  tt_errno : Z;
  tt_ready : Z -> option received;
  tt_junk_reader : list Z;
  tt_junk_writer : list Z;
  tt_server : option received;
  tt_stale : list Z;
  tt_pkt : qrtr_packet }.

(** The datagram of the server's socket; [inl] is the value [main] returns. *)
Definition handle_server (st : tftp) (t : tftp_turn) (r : received) : outcome (Z + tftp) :=
  match r with
  | inl errno => Done (inl (- errno))
  | inr (data, sq) =>
      if sq_port sq =? QRTR_PORT_CTRL then
        '(ret, pkt) ← qrtr_decode (tt_pkt t) data sq;
        if ret <? 0 then Done (inl ret)
        else if qp_type pkt =? QRTR_TYPE_BYE then
          let '(w, l) := close_if (fun c => sq_node (c_sq c) =? sq_node sq) (tf_w st) (writers st) in
          Done (inr (Tftpd w (readers st) l))
        else if qp_type pkt =? QRTR_TYPE_DEL_CLIENT then
          let '(w, l) := close_if (fun c => bool_decide (c_sq c = sq)) (tf_w st) (writers st) in
          Done (inr (Tftpd w (readers st) l))
        else Done (inr st)
      else if zlen data <? 2 then Done (inr st)
      else
        let m := data ++ tt_stale t in
        opcode ← word_at m 0;
        if opcode =? OP_RRQ then st ← handle_rrq st m (zlen data) sq; Done (inr st)
        else if opcode =? OP_WRQ then st ← handle_wrq st m sq; Done (inr st)
        else Done (inr st)
  end.

(** A socket that does not fit an [fd_set] cannot be watched. *)
Definition watchable (st : tftp) : bool := forallb (fun c => c_sock c <? FD_SETSIZE) (writers st ++ readers st).

Definition tftp_step (fuel : nat) (st : tftp) (t : tftp_turn) : outcome (Z + tftp) :=
  if negb (watchable st) then Fault OutOfBounds
  else if tt_select t <? 0 then Done (if tt_errno t =? EINTR then inr st else inl 0)
  else
    '(w, ws) ← clients_pass (fun w c r => handle_writer w c r (tt_junk_writer t)) (tt_ready t) (tf_w st) (writers st);
    '(w, rs) ← clients_pass (fun w c r => handle_reader fuel w c r (tt_junk_reader t)) (tt_ready t) w (readers st);
    let st := Tftpd w rs ws in
    match tt_server t with
    | None => Done (inr st)
    | Some r => handle_server st t r
    end.

(** The result is the value of [main], or the state when the turns are used up. *)
Fixpoint tftp_loop (fuel : nat) (st : tftp) (turns : list tftp_turn) : outcome (Z + tftp) :=
  match turns with
  | [] => Done (inr st)
  | t :: turns' =>
      r ← tftp_step fuel st t;
      match r with inl ret => Done (inl ret) | inr st => tftp_loop fuel st turns' end
  end.
Definition tftp_main (fuel : nat) (w : W) (turns : list tftp_turn) : outcome (Z + tftp) :=
  let '(w, fd) := open_socket w in
  if fd <? 0 then Done (inl 1)
  else
    let '(calls, ret) := qrtr_publish (tw_sys w) fd 4096 1 0 in
    let w := tw_calls w calls in
    if ret <? 0 then Done (inl 1) else tftp_loop fuel (Tftpd w [] []) turns.
End Tftp.
Arguments tftp : clear implicits.
