(* ===== verification/TftpProps.v ===== *)
(** * The TFTP server: transfers, requests, and where they go wrong *)
From Stdlib Require Import String.
From S2P Require Import Prelude CString Paths Qrtr Translate Tftp.
#[local] Open Scope Z_scope.

(** [bs] written over [f] at [pos]. *)
Definition splice (pos : nat) (bs f : list Z) : list Z := take pos f ++ bs ++ drop (pos + length bs) f.
Lemma splice_app pos a b f : (pos <= length f)%nat -> splice (pos + length a) b (splice pos a f) = splice pos (a ++ b) f.
Proof.
  intros Hp. unfold splice.
  assert (El : length (take pos f) = pos) by (rewrite length_take; lia).
  rewrite (app_assoc (take pos f) a), take_app_length' by (rewrite length_app; lia).
  rewrite drop_app_ge by (rewrite length_app; lia). rewrite drop_drop, <- !app_assoc. do 4 f_equal.
  rewrite !length_app, El. lia.
Qed.

(** ** What is relied on

    A file that is open has contents and, for [write], a position; [pread] gives the
    bytes that are there, [write] and [send] take everything. *)
Class TftpLaws (W : Type) `{TftpOps W} := {
  tl_file : W -> Z -> list Z;
  tl_pos : W -> Z -> Z;
  tl_sent : W -> list (Z * list Z);
  tl_pread w fd len off : 0 <= len -> 0 <= off ->
    tw_pread w fd len off =
    (w, zlen (take (Z.to_nat len) (drop (Z.to_nat off) (tl_file w fd))),
     take (Z.to_nat len) (drop (Z.to_nat off) (tl_file w fd)));
  tl_send w sock bs : exists w', tw_send w sock bs = (w', zlen bs) /\ tl_sent w' = tl_sent w ++ [(sock, bs)] /\
    tl_file w' = tl_file w /\ tl_pos w' = tl_pos w /\ tw_malloc w' = tw_malloc w;
  tl_write w fd bs : 0 <= tl_pos w fd <= zlen (tl_file w fd) -> exists w', tw_write w fd bs = (w', zlen bs) /\
    tl_sent w' = tl_sent w /\ tw_malloc w' = tw_malloc w /\ tl_pos w' fd = tl_pos w fd + zlen bs /\
    tl_file w' fd = splice (Z.to_nat (tl_pos w fd)) bs (tl_file w fd) }.

(** ** Packets *)

Lemma be16_word v : 0 <= v < 2 ^ 16 -> be16_value (Z.land (Z.shiftr v 8) 0xff) (Z.land v 0xff) = v.
Proof.
  intros Hv. unfold be16_value. rewrite !land_ff, Z.shiftr_div_pow2, Z.shiftl_mul_pow2, lor_add by word_lia.
  word_lia.
Qed.

Lemma s64_print v : zlen (print_int (s64 v)) <= 21.
Proof. apply print_int_length. unfold s64. pose proof (Z.mod_pos_bound (v + 2 ^ 63) (2 ^ 64) ltac:(lia)). lia. Qed.
Lemma s32_print v : zlen (print_int (s32 v)) <= 21.
Proof. apply print_int_length. unfold s32. pose proof (Z.mod_pos_bound (v + 2 ^ 31) (2 ^ 32) ltac:(lia)). lia. Qed.
Lemma text_option_length name v n : zlen (print_int v) <= 21 -> zlen name <= n -> zlen (text_option name v) <= n + 23.
Proof. intros H1 H2. unfold text_option, zlen in *. rewrite !length_app. cbn [length]. lia. Qed.

Lemma oack_length b t w m r : zlen (oack_packet b t w m r) <= 168.
Proof.
  assert (Hw : forall (o : option Z) f n, (forall v, zlen (f v) <= n) -> 0 <= n -> zlen (when o f) <= n)
    by (intros [v|] f n Hf Hn; [apply Hf|done]).
  assert (Ht : forall name n v, zlen name <= n -> zlen (text_option name (s64 v)) <= n + 23)
    by (intros; apply text_option_length; [apply s64_print|done]).
  unfold oack_packet, zlen. rewrite !length_app.
  pose proof (Hw b _ 30 (fun v => Ht (cstr "blksize") 7 v ltac:(done)) ltac:(lia)) as H1.
  pose proof (Hw w _ 28 (fun v => Ht (cstr "wsize") 5 v ltac:(done)) ltac:(lia)) as H2.
  pose proof (Hw r _ 28 (fun v => Ht (cstr "rsize") 5 v ltac:(done)) ltac:(lia)) as H3.
  assert (H4 : zlen (when m (fun v => text_option (cstr "timeoutms") (s32 v))) <= 32).
  { apply Hw; [|done]. intros v. apply (text_option_length _ _ 9); [apply s32_print|done]. }
  assert (H5 : zlen (when t (fun v => if u64 v =? 2 ^ 64 - 1 then [] else text_option (cstr "tsize") (s64 v))) <= 28).
  { apply Hw; [|done]. intros v. destruct (_ =? _); [done|]. by apply (Ht (cstr "tsize") 5). }
  unfold zlen in *. cbn [length]. lia.
Qed.

(** ** Sending a file *)

Section Transfer.
Context {W : Type} `{TftpLaws W}.

Definition tl_slice (f : list Z) (blksize : Z) (i : nat) : list Z :=
  take (Z.to_nat blksize) (drop (Z.to_nat (Z.of_nat i * blksize)) f).
(** The blocks of [f] from the [i]-th, [n] of them or as many as there are. *)
Fixpoint pieces (f : list Z) (blksize : Z) (n i : nat) : list (list Z) :=
  match n with
  | O => []
  | S n' => match tl_slice f blksize i with [] => [] | p => p :: pieces f blksize n' (S i) end
  end.
Definition numbered (sock : Z) (first : nat) (ps : list (list Z)) : list (Z * list Z) :=
  imap (fun k p => (sock, data_packet (Z.of_nat (first + k) + 1) p)) ps.

Lemma slice_step f b i : 0 <= b -> drop (Z.to_nat (Z.of_nat i * b)) f = tl_slice f b i ++ drop (Z.to_nat (Z.of_nat (S i) * b)) f.
Proof.
  intros Hb. unfold tl_slice. rewrite <- (take_drop (Z.to_nat b) (drop (Z.to_nat (Z.of_nat i * b)) f)) at 1.
  rewrite drop_drop. do 2 f_equal. lia.
Qed.
Lemma slice_nil f b i j : 0 < b -> tl_slice f b i = [] -> (i <= j)%nat -> tl_slice f b j = [].
Proof.
  intros Hb Hi Hij. unfold tl_slice in *. apply (f_equal length) in Hi. rewrite length_take, length_drop in Hi.
  apply nil_length_inv. rewrite length_take, length_drop. cbn [length] in *. nia.
Qed.
Lemma pieces_nil f b n i : tl_slice f b i = [] -> pieces f b n i = [].
Proof. intros Hs. destruct n; [done|]. cbn [pieces]. by rewrite Hs. Qed.
Lemma pieces_cons f b n i : tl_slice f b i <> [] -> pieces f b (S n) i = tl_slice f b i :: pieces f b n (S i).
Proof. intros Hs. cbn [pieces]. by destruct (tl_slice f b i). Qed.
Lemma pieces_concat f b n i : 0 < b -> concat (pieces f b n i) = take (n * Z.to_nat b) (drop (Z.to_nat (Z.of_nat i * b)) f).
Proof.
  intros Hb. revert i. induction n as [|n IH]; intros i; [by rewrite take_0|].
  rewrite slice_step by lia. destruct (decide (tl_slice f b i = [])) as [Hs|Hs].
  - rewrite pieces_nil by done. rewrite Hs. unfold tl_slice in Hs. apply (f_equal length) in Hs.
    rewrite length_take, length_drop in Hs. cbn [length] in Hs. cbn [concat app]. rewrite drop_ge by nia. by rewrite take_nil.
  - rewrite pieces_cons by done. cbn [concat]. rewrite IH.
    assert (Hl : (length (tl_slice f b i) <= Z.to_nat b)%nat) by (unfold tl_slice; rewrite length_take; lia).
    destruct (decide (length (tl_slice f b i) = Z.to_nat b)) as [El|El].
    + rewrite take_app_ge by lia. do 2 f_equal. lia.
    + rewrite (drop_ge f (Z.to_nat (Z.of_nat (S i) * b))); [by rewrite take_nil, !app_nil_r, take_ge by nia|].
      unfold tl_slice in El. rewrite length_take, length_drop in El. nia.
Qed.
Lemma pieces_app f b n m i : 0 < b -> pieces f b (n + m) i = pieces f b n i ++ pieces f b m (i + n).
Proof.
  intros Hb. revert i. induction n as [|n IH]; intros i; [by rewrite Nat.add_0_r|].
  cbn [Nat.add]. destruct (decide (tl_slice f b i = [])) as [Hs|Hs].
  - rewrite !pieces_nil; [done| |done..]. apply (slice_nil f b i); [done..|lia].
  - rewrite !pieces_cons, IH by done. cbn [app]. do 3 f_equal. lia.
Qed.
Lemma pieces_length f b n i : (length (pieces f b n i) <= n)%nat.
Proof.
  revert i. induction n as [|n IH]; intros i; [done|]. destruct (decide (tl_slice f b i = [])) as [Hs|Hs].
  - rewrite pieces_nil by done. cbn. lia.
  - rewrite pieces_cons by done. cbn [length]. specialize (IH (S i)). lia.
Qed.
Lemma numbered_cons sock i p ps : numbered sock i (p :: ps) = (sock, data_packet (Z.of_nat i + 1) p) :: numbered sock (S i) ps.
Proof.
  unfold numbered. rewrite imap_cons, Nat.add_0_r. f_equal. apply imap_ext. intros k x _. unfold compose.
  by rewrite Nat.add_succ_r.
Qed.
Lemma numbered_pieces sock f b n m i : 0 < b ->
  numbered sock i (pieces f b (n + m) i) =
  numbered sock i (pieces f b n i) ++ numbered sock (i + n) (pieces f b m (i + n)).
Proof.
  intros Hb. revert i. induction n as [|n IH]; intros i; [by rewrite Nat.add_0_r|].
  cbn [Nat.add]. destruct (decide (tl_slice f b i = [])) as [Hs|Hs].
  - rewrite !pieces_nil; [done| |done..]. apply (slice_nil f b i); [done..|lia].
  - rewrite !pieces_cons, !numbered_cons, IH by done. by rewrite Nat.add_succ_comm.
Qed.

(** [l] was sent from [w] to [w'] and nothing else happened. *)
Definition only_sent (w w' : W) (l : list (Z * list Z)) : Prop :=
  tl_sent w' = tl_sent w ++ l /\ tl_file w' = tl_file w /\ tl_pos w' = tl_pos w /\ tw_malloc w' = tw_malloc w.
Lemma only_sent_refl w : only_sent w w [].
Proof. by repeat split; rewrite ?app_nil_r. Qed.
Lemma only_sent_trans w1 w2 w3 l1 l2 : only_sent w1 w2 l1 -> only_sent w2 w3 l2 -> only_sent w1 w3 (l1 ++ l2).
Proof. intros (E1 & E2 & E3 & E4) (F1 & F2 & F3 & F4). repeat split; congruence || by rewrite F1, E1, app_assoc. Qed.
Lemma send_only w sock bs : exists w', tw_send w sock bs = (w', zlen bs) /\ only_sent w w' [(sock, bs)].
Proof. destruct (tl_send w sock bs) as (w' & E & F). by exists w'. Qed.

(** A client whose blocks fit the memory. *)
Definition sends (w : W) (c : tftp_client) : Prop :=
  0 < c_blksize c < 2 ^ 47 /\ tw_malloc w (4 + c_blksize c) = true.
Lemma sends_only w w' l c : only_sent w w' l -> sends w c -> sends w' c.
Proof. intros (_ & _ & _ & F) [H1 H2]. unfold sends. by rewrite F. Qed.

Abbreviation slice w c i := (tl_slice (tl_file w (c_fd c)) (c_blksize c) i).
Lemma send_data_slice w c i : sends w c -> Z.of_nat i < 2 ^ 16 ->
  (slice w c i = [] -> tftp_send_data w c (Z.of_nat i + 1) (u64 (Z.of_nat i * c_blksize c)) = Done (w, 0)) /\
  (slice w c i <> [] -> exists w' n, 0 < n /\
     tftp_send_data w c (Z.of_nat i + 1) (u64 (Z.of_nat i * c_blksize c)) = Done (w', n) /\
     only_sent w w' [(c_sock c, data_packet (Z.of_nat i + 1) (slice w c i))]).
Proof.
  intros [H1 H2] Hi. unfold tftp_send_data. rewrite (u64_small (4 + _)), (u64_small (Z.of_nat i * _)) by nia.
  rewrite H2, (proj2 (Z.ltb_ge _ _)) by lia. cbn [negb]. rewrite tl_pread by nia. fold (slice w c i).
  split; intros Hs; [by rewrite Hs|]. rewrite (proj2 (Z.leb_gt _ _)).
  - destruct (send_only w (c_sock c) (data_packet (Z.of_nat i + 1) (slice w c i))) as (w' & -> & Ho).
    exists w', (zlen (data_packet (Z.of_nat i + 1) (slice w c i))). split_and!; [|done..]. unfold zlen, data_packet. cbn [length app]. lia.
  - destruct (slice w c i); [done|]. unfold zlen. cbn [length]. lia.
Qed.

Lemma window_sends n fuel w c i : sends w c -> (n <= fuel)%nat -> Z.of_nat (i + n) < 2 ^ 16 ->
  exists w', window_loop fuel w c (Z.of_nat i) (Z.of_nat (i + n)) = Done w' /\
    only_sent w w' (numbered (c_sock c) i (pieces (tl_file w (c_fd c)) (c_blksize c) n i)).
Proof.
  revert fuel w i. induction n as [|n IH]; intros fuel w i Hw Hf Hi.
  - exists w. split; [|apply only_sent_refl]. destruct fuel; cbn [window_loop]; by rewrite Nat.add_0_r, Z.ltb_irrefl.
  - destruct fuel as [|fuel]; [lia|]. cbn [window_loop]. rewrite (proj2 (Z.ltb_lt _ _)) by lia.
    destruct (send_data_slice w c i Hw ltac:(lia)) as [Hend Hsend]. pose proof Hw as [Hb _].
    destruct (decide (slice w c i = [])) as [Hs|Hs].
    + rewrite pieces_nil, Hend by done. exists w. split; [done|apply only_sent_refl].
    + destruct (Hsend Hs) as (w1 & k & Hk & -> & Ho). run. rewrite (proj2 (Z.leb_gt _ _)) by lia.
      rewrite u16_small by lia. replace (Z.of_nat i + 1) with (Z.of_nat (S i)) by lia.
      destruct (IH fuel w1 (S i) (sends_only _ _ _ _ Ho Hw) ltac:(lia) ltac:(lia)) as (w2 & Ew & Ho2).
      rewrite Nat.add_succ_comm in Ew. exists w2. split; [done|].
      rewrite pieces_cons, numbered_cons by done. pose proof (only_sent_trans _ _ _ _ _ Ho Ho2) as Ht.
      by rewrite (proj1 (proj2 Ho)) in Ht.
Qed.

Lemma pieces_lookup f b n i k p : pieces f b n i !! k = Some p -> p = tl_slice f b (i + k) /\ p <> [].
Proof.
  revert i k. induction n as [|n IH]; intros i k; [done|].
  destruct (decide (tl_slice f b i = [])) as [Hs|Hs]; [by rewrite pieces_nil|]. rewrite pieces_cons by done.
  destruct k as [|k]; cbn [lookup list_lookup]; [intros [= <-]; by rewrite Nat.add_0_r|].
  intros Hk. destruct (IH (S i) k Hk) as [-> Hp]. by rewrite Nat.add_succ_comm in *.
Qed.

(** What a client whose socket is ready has: an acknowledgement of [block]. *)
Definition ack_turn (c : tftp_client) (junk : list Z) (pkt : qrtr_packet) (block : Z) : tftp_turn :=
  TftpTurn 1 0 (fun s => if s =? c_sock c then Some (inr (ack_packet block, c_sq c)) else None) junk [] None [] pkt.
Lemma same_peer_refl sq : same_peer sq sq = true.
Proof. unfold same_peer. by rewrite !Z.eqb_refl. Qed.
Lemma reader_ack fuel w c junk i : 0 <= i < 2 ^ 16 ->
  handle_reader fuel w c (inr (ack_packet i, c_sq c)) junk =
  (w ← window_loop fuel w c i (u64 (i + c_wsize c)); Done (w, true)).
Proof.
  intros Hi. unfold handle_reader. rewrite same_peer_refl. cbn [negb].
  assert (Hop : word_at (overlay (ack_packet i) junk) 0 = Done OP_ACK) by done. rewrite Hop. run.
  assert (Hb : word_at (overlay (ack_packet i) junk) 2 = Done i) by (rewrite <- (be16_word i) at 2 by done; done).
  by rewrite Hb.
Qed.
Lemma ack_step fuel w c junk pkt i : c_sock c < FD_SETSIZE -> 0 <= i < 2 ^ 16 ->
  tftp_step fuel (Tftpd w [c] []) (ack_turn c junk pkt i) =
  (w ← window_loop fuel w c i (u64 (i + c_wsize c)); Done (inr (Tftpd w [c] []))).
Proof.
  intros Hs Hi. unfold tftp_step, watchable. cbn [readers writers app forallb]. rewrite (proj2 (Z.ltb_lt _ _)) by done.
  cbn [andb negb ack_turn tt_select tt_ready tt_server tt_junk_reader tf_w clients_pass Z.ltb Z.compare]. run.
  rewrite Z.eqb_refl, reader_ack by done. by destruct (window_loop _ _ _ _ _).
Qed.

Lemma acks_send fuel c junk pkt ws n k w : sends w c -> c_sock c < FD_SETSIZE ->
  c_wsize c = Z.of_nat ws -> (ws <= fuel)%nat -> Z.of_nat ((k + n) * ws) < 2 ^ 16 ->
  exists w', tftp_loop fuel (Tftpd w [c] []) (map (fun j => ack_turn c junk pkt (Z.of_nat (j * ws))) (seq k n)) =
    Done (inr (Tftpd w' [c] [])) /\
    only_sent w w' (numbered (c_sock c) (k * ws) (pieces (tl_file w (c_fd c)) (c_blksize c) (n * ws) (k * ws))).
Proof.
  intros Hw Hsock Hws Hf. revert k w Hw. induction n as [|n IH]; intros k w Hw Hk.
  - exists w. split; [done|apply only_sent_refl].
  - cbn [seq map tftp_loop]. rewrite ack_step, u64_small by lia. rewrite Hws, <- Nat2Z.inj_add.
    destruct (window_sends ws fuel w c (k * ws) Hw Hf ltac:(lia)) as (w1 & -> & Ho). run.
    destruct (IH (S k) w1 (sends_only _ _ _ _ Ho Hw) ltac:(lia)) as (w2 & -> & Ho2). exists w2. split; [done|].
    cbn [Nat.mul]. rewrite numbered_pieces by (by destruct Hw as [[? _] _]).
    pose proof (only_sent_trans _ _ _ _ _ Ho Ho2) as Ht. rewrite (proj1 (proj2 Ho)), (Nat.add_comm (k * ws)) in *.
    exact Ht.
Qed.

(** A file of at most 65535 blocks is sent whole, in blocks that are numbered from 1:
    the client acknowledges 0 and every window until all blocks have been sent. *)
Lemma acks_send_file fuel w c junk pkt ws n : sends w c -> c_sock c < FD_SETSIZE ->
  c_wsize c = Z.of_nat ws -> (ws <= fuel)%nat -> Z.of_nat (n * ws) < 2 ^ 16 ->
  zlen (tl_file w (c_fd c)) <= Z.of_nat (n * ws) * c_blksize c ->
  exists w' ps, tftp_loop fuel (Tftpd w [c] []) (map (fun j => ack_turn c junk pkt (Z.of_nat (j * ws))) (seq 0 n)) =
      Done (inr (Tftpd w' [c] [])) /\
    only_sent w w' (numbered (c_sock c) 0 ps) /\ concat ps = tl_file w (c_fd c) /\
    (forall i p, ps !! i = Some p -> p <> [] /\ p = slice w c i).
Proof.
  intros Hw Hsock Hws Hf Hn Hlen. pose proof Hw as [[Hb _] _].
  destruct (acks_send fuel c junk pkt ws n 0 w Hw Hsock Hws Hf ltac:(lia)) as (w' & E & Ho).
  exists w', (pieces (tl_file w (c_fd c)) (c_blksize c) (n * ws) 0). split_and!; [done|done| |].
  - rewrite pieces_concat, drop_0, take_ge by (unfold zlen in *; lia). done.
  - intros i p Hp. by apply pieces_lookup in Hp as [-> Hp].
Qed.

(** The block number of a window is a [uint16_t]: a window that reaches behind block
    65535 of a file that goes on has no end. *)
Theorem tftp_window_never_ends fuel w c block limit : sends w c ->
  65535 * c_blksize c < zlen (tl_file w (c_fd c)) -> 0 <= block < 2 ^ 16 -> 2 ^ 16 <= limit ->
  window_loop fuel w c block limit = OutOfFuel.
Proof.
  intros Hw Hlen. revert w block Hw Hlen. induction fuel as [|fuel IH]; intros w block Hw Hlen Hb Hl; cbn [window_loop];
    rewrite (proj2 (Z.ltb_lt _ _)) by lia; [done|].
  destruct (send_data_slice w c (Z.to_nat block) Hw ltac:(lia)) as [_ Hsend]. rewrite Z2Nat.id in Hsend by lia.
  destruct Hsend as (w1 & k & Hk & -> & Ho).
  { pose proof Hw as [[Hpos _] _]. unfold tl_slice. intros Hs. apply (f_equal length) in Hs. rewrite length_take, length_drop in Hs.
    cbn [length] in Hs. unfold zlen in Hlen. nia. }
  run. rewrite (proj2 (Z.leb_gt _ _)) by lia. apply IH; [by apply (sends_only _ _ _ _ Ho)| | |done].
  - by rewrite (proj1 (proj2 Ho)).
  - unfold u16. by apply Z.mod_pos_bound.
Qed.

(** ** Receiving a file *)

Definition data_turn (c : tftp_client) (junk : list Z) (pkt : qrtr_packet) (d : Z * list Z) : tftp_turn :=
  TftpTurn 1 0 (fun s => if s =? c_sock c then Some (inr (data_packet d.1 d.2, c_sq c)) else None) [] junk None [] pkt.
(** [bs] was written and [acks] sent. *)
Definition wrote (w w' : W) (fd : Z) (bs : list Z) (acks : list (Z * list Z)) : Prop :=
  tl_pos w' fd = tl_pos w fd + zlen bs /\ tl_sent w' = tl_sent w ++ acks /\
  tl_file w' fd = splice (Z.to_nat (tl_pos w fd)) bs (tl_file w fd).
Definition positioned (w : W) (fd : Z) : Prop := 0 <= tl_pos w fd <= zlen (tl_file w fd).
Lemma wrote_trans w1 w2 w3 fd a b l1 l2 : positioned w1 fd ->
  wrote w1 w2 fd a l1 -> wrote w2 w3 fd b l2 -> wrote w1 w3 fd (a ++ b) (l1 ++ l2).
Proof.
  unfold positioned, zlen. intros Hp (E1 & E2 & E3) (F1 & F2 & F3). unfold wrote, zlen in *. split_and!.
  - rewrite F1, E1, length_app. lia.
  - by rewrite F2, E2, app_assoc.
  - rewrite F3, E3, E1. replace (Z.to_nat (_ + _)) with (Z.to_nat (tl_pos w1 fd) + length a)%nat by lia.
    apply splice_app. lia.
Qed.
Lemma wrote_positioned w w' fd bs l : positioned w fd -> wrote w w' fd bs l -> positioned w' fd.
Proof.
  unfold positioned, zlen, wrote. intros Hp (E1 & _ & E3). rewrite E1, E3. unfold splice, zlen.
  rewrite !length_app, length_take, length_drop. lia.
Qed.

Lemma writer_data w c junk b p : positioned w (c_fd c) -> 0 <= b < 2 ^ 16 -> length junk = 516%nat -> (length p <= 512)%nat ->
  exists w', handle_writer w c (inr (data_packet b p, c_sq c)) junk = Done (w', zlen p =? 512) /\
    wrote w w' (c_fd c) p [(c_sock c, ack_packet b)].
Proof.
  intros Hpos Hb Hj Hp. unfold handle_writer. rewrite same_peer_refl. cbn [negb].
  assert (Hop : word_at (overlay (data_packet b p) junk) 0 = Done OP_DATA) by done. rewrite Hop. run.
  assert (Hw : word_at (overlay (data_packet b p) junk) 2 = Done b) by (rewrite <- (be16_word b) at 2 by done; done).
  rewrite Hw. run. cbn [negb Z.eqb OP_DATA Pos.eqb].
  assert (Hlen : zlen (data_packet b p) = 4 + zlen p) by (unfold zlen, data_packet, be16; cbn [length app]; lia).
  replace (zlen (data_packet b p) - 4) with (zlen p) by lia. rewrite u64_small by (unfold zlen; lia).
  assert (Hr : read_mem (overlay (data_packet b p) junk) 4 (zlen p) = Done p).
  { apply read_mem_done. unfold overlay. split_and!; [unfold zlen; lia..| |].
    - unfold zlen in *. rewrite length_app, length_drop. lia.
    - unfold zlen. rewrite Nat2Z.id. change (data_packet b p) with ([0; 3] ++ be16 b ++ p) at 1.
      change (Z.to_nat 4) with 4%nat. cbn [app be16 drop]. by rewrite drop_0, take_app_length. }
  rewrite Hr. run. destruct (tl_write w (c_fd c) p Hpos) as (w1 & -> & F1 & _ & F2 & F3).
  rewrite (proj2 (Z.ltb_ge _ _)) by (unfold zlen; lia).
  unfold tftp_send_ack. destruct (send_only w1 (c_sock c) (ack_packet b)) as (w2 & -> & G1 & G2 & G3 & _).
  exists w2. split; [done|]. unfold wrote. rewrite G1, G2, G3, F1, F2, F3. done.
Qed.
Lemma data_step fuel w c junk pkt b p : positioned w (c_fd c) -> c_sock c < FD_SETSIZE -> 0 <= b < 2 ^ 16 ->
  length junk = 516%nat -> (length p <= 512)%nat ->
  exists w', tftp_step fuel (Tftpd w [] [c]) (data_turn c junk pkt (b, p)) =
      Done (inr (if zlen p =? 512 then Tftpd w' [] [c] else Tftpd (client_close w' c) [] [])) /\
    wrote w w' (c_fd c) p [(c_sock c, ack_packet b)].
Proof.
  intros Hpos Hs Hb Hj Hp. destruct (writer_data w c junk b p Hpos Hb Hj Hp) as (w' & E & Hw). exists w'. split; [|done].
  unfold tftp_step, watchable. cbn [readers writers app forallb]. rewrite (proj2 (Z.ltb_lt _ _)) by done.
  cbn [andb negb data_turn tt_select tt_ready tt_server tt_junk_writer tf_w clients_pass Z.ltb Z.compare fst snd]. run.
  rewrite Z.eqb_refl, E. run. by destruct (_ =? _).
Qed.

Definition acks (c : tftp_client) (ds : list (Z * list Z)) : list (Z * list Z) := map (fun d => (c_sock c, ack_packet d.1)) ds.
Definition payloads (ds : list (Z * list Z)) : list Z := concat (map snd ds).
(** C23: data packets are written one behind the other, from the position of the file on,
    whatever their block numbers are, and each is acknowledged by its number; a
    packet of less than 512 bytes closes the transfer.  What the file had before
    stays, in front of the data and behind it. *)
Theorem tftp_receives_file fuel w c junk pkt ds b p : positioned w (c_fd c) -> c_sock c < FD_SETSIZE ->
  length junk = 516%nat -> Forall (fun d => 0 <= d.1 < 2 ^ 16 /\ length d.2 = 512%nat) ds ->
  0 <= b < 2 ^ 16 -> (length p < 512)%nat ->
  exists w', tftp_loop fuel (Tftpd w [] [c]) (map (data_turn c junk pkt) (ds ++ [(b, p)])) =
      Done (inr (Tftpd (client_close w' c) [] [])) /\
    wrote w w' (c_fd c) (payloads (ds ++ [(b, p)])) (acks c (ds ++ [(b, p)])).
Proof.
  intros Hpos Hs Hj Hds Hb Hp. revert w Hpos. induction Hds as [|[b' p'] ds [Hb' Hp'] _ IH]; intros w Hpos; cbn [app map tftp_loop].
  - destruct (data_step fuel w c junk pkt b p Hpos Hs Hb Hj ltac:(lia)) as (w1 & -> & Hw). run.
    rewrite (proj2 (Z.eqb_neq _ _)) by (unfold zlen; lia). exists w1. split; [done|].
    unfold payloads. cbn [map concat snd]. by rewrite app_nil_r.
  - cbn [fst snd] in *. destruct (data_step fuel w c junk pkt b' p' Hpos Hs Hb' Hj ltac:(lia)) as (w1 & -> & Hw). run.
    rewrite (proj2 (Z.eqb_eq _ _)) by (unfold zlen; lia).
    destruct (IH w1 (wrote_positioned _ _ _ _ _ Hpos Hw)) as (w2 & -> & Hw2). exists w2. split; [done|].
    by apply (wrote_trans _ _ _ _ _ _ _ _ Hpos Hw Hw2).
Qed.
End Transfer.

(** ** Requests *)

Definition no_nul (s : list Z) : Prop := Forall (fun b => b <> 0) s.
Lemma no_nul_check s : forallb (fun b => negb (b =? 0)) s = true -> no_nul s.
Proof. intros Hs. apply Forall_forall. intros b Hb ->. rewrite forallb_forall in Hs. apply list_elem_of_In in Hb. by specialize (Hs 0 Hb). Qed.
Lemma print_no_nul v : - 10 ^ 20 < v < 10 ^ 20 -> no_nul (print_int v).
Proof.
  assert (Hd : forall z, 0 <= z < 10 ^ 20 -> no_nul (dec 20 z)).
  { intros z Hz. eapply Forall_impl; [exact (proj1 (dec_digits 20 z ltac:(lia) ltac:(lia)))|].
    intros d Hd. apply digit_range in Hd. lia. }
  intros Hv. unfold print_int. destruct (v <? 0) eqn:E; reflect_bools; [constructor; [done|]|]; apply Hd; lia.
Qed.
Lemma next_str_at m p s junk : 0 <= p <= zlen m -> drop (Z.to_nat p) m = s ++ 0 :: junk -> no_nul s ->
  next_str m p = Done (s, p + zlen s + 1) /\ 0 <= p + zlen s + 1 <= zlen m /\ drop (Z.to_nat (p + zlen s + 1)) m = junk.
Proof.
  intros Hp Hd Hs. unfold next_str. rewrite (read_cstr_at _ _ _ _ Hp Hd Hs). split_and!; [done|unfold zlen; lia| |].
  - apply (f_equal length) in Hd. rewrite length_drop, length_app in Hd. unfold zlen in *. cbn [length] in Hd. lia.
  - replace (Z.to_nat (p + zlen s + 1)) with (Z.to_nat p + S (length s))%nat by (unfold zlen; lia).
    rewrite <- drop_drop, Hd. rewrite (cons_middle 0 s), app_assoc. apply drop_app_length'. rewrite length_app. cbn. lia.
Qed.

(** Options with their values, as text and as what they set. *)
Definition options_text (opts : list (list Z * Z)) : list Z := concat (map (fun ov => text_option ov.1 ov.2) opts).
Definition options_of (opts : list (list Z * Z)) (o : rrq_options) : rrq_options :=
  fold_left (fun o ov => set_option o ov.1 (print_int ov.2)) opts o.
Definition option_ok (ov : list Z * Z) : Prop := no_nul ov.1 /\ - 2 ^ 31 <= ov.2 < 2 ^ 31.

Lemma options_parse n m p opts rest o : 0 <= p <= zlen m -> drop (Z.to_nat p) m = options_text opts ++ rest ->
  Forall option_ok opts -> (length opts < n)%nat ->
  options_loop n m p (p + zlen (options_text opts)) o = Done (options_of opts o).
Proof.
  intros Hp Hd Hopts. revert n p o Hp Hd. induction Hopts as [|[name v] opts [Hname Hv] _ IH]; intros n p o Hp Hd Hn;
    (destruct n as [|n]; [cbn in Hn; lia|]); cbn [options_loop].
  - unfold zlen. cbn. by rewrite Z.add_0_r, Z.ltb_irrefl.
  - cbn [fst snd] in *. unfold options_text in *. cbn [map concat fst snd] in *. set (text := concat _) in *.
    assert (Hlen : zlen (text_option name v ++ text) = zlen name + 1 + (zlen (print_int v) + 1 + zlen text)).
    { unfold text_option, zlen. rewrite !length_app. cbn [length]. lia. }
    rewrite Hlen, (proj2 (Z.ltb_lt _ _)) by (unfold zlen; lia).
    unfold text_option in Hd. rewrite <- !app_assoc in Hd. cbn [app] in Hd.
    destruct (next_str_at m p _ _ Hp Hd Hname) as (-> & Hp1 & Hd1). run.
    destruct (next_str_at m _ _ _ Hp1 Hd1 (print_no_nul v ltac:(lia))) as (-> & Hp2 & Hd2). run.
    replace (p + (zlen name + 1 + (zlen (print_int v) + 1 + zlen text)))
      with (p + zlen name + 1 + zlen (print_int v) + 1 + zlen text) by lia.
    apply IH; [done|done|cbn [length] in Hn; lia].
Qed.

(** The acknowledgement of options fits the buffer of 512 bytes, whatever their values are. *)
Theorem oack_fits {W : Type} `{TftpOps W} (w : W) sock b t ws m r :
  tftp_send_oack w sock b t ws m r = Done (tw_send w sock (oack_packet b t ws m r)).
Proof.
  unfold tftp_send_oack. pose proof (oack_length b t ws m r). by rewrite (proj2 (Z.ltb_ge _ _)) by lia.
Qed.

(** The options, tagged to be told apart without comparing strings. *)
Inductive opt_tag := OptBlksize | OptTimeoutms | OptTsize | OptRsize | OptWsize.
Definition opt_name (k : opt_tag) : list Z :=
  match k with
  | OptBlksize => cstr "blksize" | OptTimeoutms => cstr "timeoutms" | OptTsize => cstr "tsize"
  | OptRsize => cstr "rsize" | OptWsize => cstr "wsize"
  end.
Definition put_option (o : rrq_options) (k : opt_tag) (v : Z) : rrq_options :=
  match k with
  | OptBlksize => RrqOptions v (o_timeoutms o) (o_tsize o) (o_rsize o) (o_wsize o)
  | OptTimeoutms => RrqOptions (o_blksize o) v (o_tsize o) (o_rsize o) (o_wsize o)
  | OptTsize => RrqOptions (o_blksize o) (o_timeoutms o) v (o_rsize o) (o_wsize o)
  | OptRsize => RrqOptions (o_blksize o) (o_timeoutms o) (o_tsize o) v (o_wsize o)
  | OptWsize => RrqOptions (o_blksize o) (o_timeoutms o) (o_tsize o) (o_rsize o) v
  end.
Definition tagged (l : list (opt_tag * Z)) : list (list Z * Z) := map (fun kv => (opt_name kv.1, kv.2)) l.
Lemma set_option_print o k v : 0 <= v < 2 ^ 31 -> set_option o (opt_name k) (print_int v) = put_option o k v.
Proof.
  intros Hv. pose proof (atoi_print v Hv) as Ha.
  transitivity (put_option o k (match k with OptTsize => atoi (print_int v) | OptTimeoutms => u32 (atoi (print_int v))
                                | _ => u64 (atoi (print_int v)) end)); [by destruct k|].
  rewrite Ha, u64_small, u32_small by lia. by destruct k.
Qed.
Lemma options_of_tagged l o : Forall (fun kv => 0 <= kv.2 < 2 ^ 31) l ->
  options_of (tagged l) o = fold_left (fun o kv => put_option o kv.1 kv.2) l o.
Proof.
  intros Hl. revert o. induction Hl as [|[k v] l Hv _ IH]; intros o; [done|]. unfold options_of, tagged in *.
  cbn [map fold_left fst snd]. rewrite IH. cbn [fst snd] in Hv. by rewrite set_option_print.
Qed.
Lemma tagged_ok l : Forall (fun kv => 0 <= kv.2 < 2 ^ 31) l -> Forall option_ok (tagged l).
Proof.
  intros Hl. unfold tagged. apply Forall_map. eapply Forall_impl; [exact Hl|]. intros [k v] Hv. cbn [snd] in Hv.
  split; [|cbn [snd]; lia]. apply no_nul_check. by destruct k.
Qed.
Lemma text_length opts : (length opts <= length (options_text opts))%nat.
Proof.
  induction opts as [|[name v] opts IH]; [done|]. unfold options_text in *. cbn [map concat length].
  unfold text_option at 1. rewrite !length_app. cbn [length]. lia.
Qed.
(** The acknowledgement names the options in the form of a request: read as the options of
    one, it gives the values it was made of. *)
Theorem oack_roundtrip b t ws m r stale : 0 <= b < 2 ^ 31 -> 0 <= t < 2 ^ 31 -> 0 <= ws < 2 ^ 31 ->
  0 <= m < 2 ^ 31 -> 0 <= r < 2 ^ 31 ->
  let p := oack_packet (Some b) (nonzero t) (nonzero ws) (Some m) (nonzero r) in
  options_loop (S (length p)) (p ++ stale) 2 (zlen p) default_options =
  Done (RrqOptions b m (if t =? 0 then -1 else t) r ws).
Proof.
  intros Hb Ht Hws Hm Hr p.
  pose (opt k v := if v =? 0 then [] else [(k, v) : opt_tag * Z]).
  pose (l := [(OptBlksize, b); (OptTimeoutms, m)] ++ opt OptTsize t ++ opt OptWsize ws ++ opt OptRsize r).
  assert (Hl : Forall (fun kv : opt_tag * Z => 0 <= kv.2 < 2 ^ 31) l).
  { assert (Hopt : forall k v, 0 <= v < 2 ^ 31 -> Forall (fun kv : opt_tag * Z => 0 <= kv.2 < 2 ^ 31) (opt k v)).
    { intros k v Hv. unfold opt. destruct (v =? 0); [done|]. constructor; [done|constructor]. }
    repeat (constructor; [done|]). repeat (apply Forall_app; split); by apply Hopt. }
  assert (Ep : p = [0; OP_OACK] ++ options_text (tagged l)).
  { subst p l opt. unfold oack_packet, options_text, nonzero, tagged.
    assert (Hs64 : forall v, 0 <= v < 2 ^ 31 -> s64 v = v) by (intros; unfold s64; rewrite Z.mod_small; lia).
    destruct (t =? 0) eqn:Et, (ws =? 0), (r =? 0); reflect_bools; cbn [when map concat fst snd app opt_name];
      rewrite ?(u64_small t), ?(proj2 (Z.eqb_neq t _)), !Hs64, s32_small, ?app_nil_r by lia; by rewrite <- ?app_assoc. }
  pose proof (text_length (tagged l)) as Hlen. rewrite Ep.
  replace (zlen ([0; OP_OACK] ++ options_text (tagged l))) with (2 + zlen (options_text (tagged l)))
    by (unfold zlen; rewrite length_app; cbn [length]; lia).
  rewrite (options_parse _ _ 2 (tagged l) stale);
    [|unfold zlen; rewrite length_app; cbn; lia|done|by apply tagged_ok|rewrite length_app; cbn [length]; lia].
  f_equal. rewrite options_of_tagged by done. subst l opt. cbv beta.
  destruct (t =? 0) eqn:Et, (ws =? 0) eqn:Ew, (r =? 0) eqn:Er; reflect_bools; cbn [fold_left app fst snd put_option
    default_options o_blksize o_timeoutms o_tsize o_rsize o_wsize]; congruence.
Qed.

Section Request.
Context {W : Type} `{TftpLaws W}.

Definition rrq_packet (name mode : list Z) (opts : list (list Z * Z)) : list Z :=
  be16 OP_RRQ ++ name ++ [0] ++ mode ++ [0] ++ options_text opts.
Definition client_of (sq : sockaddr_qrtr) (sock fd : Z) (o : rrq_options) : tftp_client :=
  TftpClient sq sock fd (o_blksize o) (o_rsize o) (o_wsize o) (o_timeoutms o).
(** The socket is connected to the client and the file is open. *)
Definition prepared (w : W) (name : list Z) (sq : sockaddr_qrtr) (sock fd : Z) (w3 : W) : Prop :=
  exists w1 w2 r, open_socket w = (w1, sock) /\ 0 <= sock /\ tw_connect w1 sock sq = (w2, r) /\ 0 <= r /\
    translate_open w2 name O_RDONLY = Done (w3, fd) /\ 0 <= fd.
(** What answers a request: the options, or the first block when it named none. *)
Definition first_answer (w : W) (sock fd : Z) (opts : list (list Z * Z)) : list (Z * list Z) :=
  let o := options_of opts default_options in
  match opts with
  | [] => numbered sock 0 (pieces (tl_file w fd) 512 1 0)
  | _ => [(sock, oack_packet (Some (o_blksize o)) (nonzero (if o_tsize o =? -1 then -1 else tw_fstat w fd))
                   (nonzero (o_wsize o)) (Some (o_timeoutms o)) (nonzero (o_rsize o)))]
  end.

Lemma rrq_packet_strings name mode opts stale : no_nul name -> no_nul mode -> Forall option_ok opts ->
  let m := rrq_packet name mode opts ++ stale in
  exists p1 p2, next_str m 2 = Done (name, p1) /\ next_str m p1 = Done (mode, p2) /\
    0 <= p2 <= zlen m /\ drop (Z.to_nat p2) m = options_text opts ++ stale /\
    zlen (rrq_packet name mode opts) = p2 + zlen (options_text opts).
Proof.
  intros Hn Hm Ho m.
  assert (Hd : drop (Z.to_nat 2) m = name ++ 0 :: (mode ++ 0 :: options_text opts ++ stale)).
  { subst m. unfold rrq_packet, be16. cbn [app]. change (Z.to_nat 2) with 2%nat. cbn [drop]. rewrite drop_0, <- !app_assoc.
    cbn [app]. by rewrite <- !app_assoc. }
  destruct (next_str_at m 2 _ _ ltac:(subst m; unfold zlen, rrq_packet, be16; cbn [app length]; lia) Hd Hn) as (E1 & Hp1 & Hd1).
  destruct (next_str_at m _ _ _ Hp1 Hd1 Hm) as (E2 & Hp2 & Hd2). do 2 eexists. split_and!; [exact E1|exact E2|lia..|exact Hd2|].
  unfold rrq_packet, be16, zlen. rewrite !length_app. cbn [length]. lia.
Qed.

Lemma rrq_opens st name mode opts stale sq sock fd w3 :
  no_nul name -> no_nul mode -> same_ignoring_case mode (cstr "octet") = true -> Forall option_ok opts ->
  prepared (tf_w st) name sq sock fd w3 -> tw_malloc w3 72 = true -> tw_malloc w3 516 = true ->
  exists w', handle_rrq st (rrq_packet name mode opts ++ stale) (zlen (rrq_packet name mode opts)) sq =
      Done (Tftpd w' (readers st ++ [client_of sq sock fd (options_of opts default_options)]) (writers st)) /\
    only_sent w3 w' (first_answer w3 sock fd opts).
Proof.
  intros Hn Hm Hoct Hopts (w1 & w2 & r & Hs & Hsock & Hc & Hr & Ht & Hfd) Hm1 Hm2.
  destruct (rrq_packet_strings name mode opts stale Hn Hm Hopts) as (p1 & p2 & E1 & E2 & Hp & Hd & Hlen).
  unfold handle_rrq. rewrite E1. run. rewrite E2. run. rewrite Hoct. cbn [negb]. rewrite Hlen.
  rewrite (options_parse _ _ _ _ _ _ Hp Hd Hopts) by (pose proof (text_length opts); unfold zlen; lia). run.
  rewrite Hs, (proj2 (Z.ltb_ge _ _)), Hc, (proj2 (Z.ltb_ge _ _)), Ht by done. run. rewrite (proj2 (Z.ltb_ge _ _)), Hm1 by done.
  cbn [negb]. fold (client_of sq sock fd (options_of opts default_options)). destruct opts as [|ov opts].
  - cbn [options_text map concat]. change (zlen (@nil Z)) with 0. rewrite Z.add_0_r, Z.ltb_irrefl.
    set (c := client_of _ _ _ _). destruct (send_data_slice w3 c 0) as [Hend Hsend]; [by repeat split|lia|].
    change (Z.of_nat 0 + 1) with 1 in Hend, Hsend. change (u64 (Z.of_nat 0 * c_blksize c)) with 0 in Hend, Hsend.
    cbn [options_of fold_left first_answer]. destruct (decide (tl_slice (tl_file w3 fd) 512 0 = [])) as [Ee|Ee].
    + rewrite Hend by done. run. exists w3. rewrite pieces_nil by done. split; [done|apply only_sent_refl].
    + destruct (Hsend Ee) as (w' & k & _ & -> & Ho). run. exists w'. split; [done|]. by rewrite pieces_cons.
  - assert (E : (p2 <? p2 + zlen (options_text (ov :: opts))) = true).
    { apply Z.ltb_lt. pose proof (text_length (ov :: opts)) as Hl. unfold zlen. cbn [length] in Hl. lia. }
    rewrite E. unfold tftp_send_oack. pose proof (oack_length (Some (o_blksize (options_of (ov :: opts) default_options)))) as Hl.
    rewrite (proj2 (Z.ltb_ge 512 _)) by (etrans; [apply Hl|done]).
    match goal with |- context [tw_send w3 sock ?p] => destruct (send_only w3 sock p) as (w' & -> & Ho) end. run.
    exists w'. split; [done|]. cbn [first_answer]. destruct (o_tsize _ =? -1) eqn:E1'; reflect_bools; [by rewrite E1' in Ho|done].
Qed.

Definition rrq_turn (name mode : list Z) (opts : list (list Z * Z)) (sq : sockaddr_qrtr) (stale : list Z) (pkt : qrtr_packet) : tftp_turn :=
  TftpTurn 1 0 (fun _ => None) [] [] (Some (inr (rrq_packet name mode opts, sq))) stale pkt.
Lemma rrq_step fuel w name mode opts sq stale pkt sock fd w3 :
  no_nul name -> no_nul mode -> same_ignoring_case mode (cstr "octet") = true -> Forall option_ok opts ->
  sq_port sq <> QRTR_PORT_CTRL -> prepared w name sq sock fd w3 -> tw_malloc w3 72 = true -> tw_malloc w3 516 = true ->
  exists w', tftp_step fuel (Tftpd w [] []) (rrq_turn name mode opts sq stale pkt) =
      Done (inr (Tftpd w' [client_of sq sock fd (options_of opts default_options)] [])) /\
    only_sent w3 w' (first_answer w3 sock fd opts).
Proof.
  intros Hn Hm Hoct Hopts Hport Hprep Hm1 Hm2.
  destruct (rrq_opens (Tftpd w [] []) name mode opts stale sq sock fd w3 Hn Hm Hoct Hopts Hprep Hm1 Hm2) as (w' & E & Ho).
  exists w'. split; [|done]. unfold tftp_step, watchable. cbn [readers writers app forallb negb rrq_turn tt_select tt_ready
    tt_server tf_w clients_pass Z.ltb Z.compare]. run.
  unfold handle_server. rewrite (proj2 (Z.eqb_neq _ _) Hport), (proj2 (Z.ltb_ge _ _)) by
    (unfold rrq_packet, be16, zlen; rewrite !length_app; cbn [length]; lia).
  assert (Hop : forall l, word_at (rrq_packet name mode opts ++ l) 0 = Done OP_RRQ) by done.
  cbn [tt_stale]. rewrite Hop. run. cbn [Z.eqb OP_RRQ Pos.eqb rrq_turn tt_stale]. rewrite E. by run.
Qed.

(** C15: a download: a request with options and the acknowledgements of its windows get
    the answer to the options and then all bytes of the file, in numbered blocks of the
    size that was asked for.  The client names a positive block size, and a window size
    ([ws] blocks) that it uses in its acknowledgements; the file can be opened and its socket
    works; and the blocks of all windows, and so those of the file, are at most 65535: behind
    that the block numbers wrap around and the server does not come to an end
    ([tftp_window_never_ends]). *)
Theorem tftp_download fuel w name mode opts sq stale junk pkt sock fd w3 ws n :
  no_nul name -> no_nul mode -> same_ignoring_case mode (cstr "octet") = true -> Forall option_ok opts ->
  sq_port sq <> QRTR_PORT_CTRL -> prepared w name sq sock fd w3 -> sock < FD_SETSIZE ->
  tw_malloc w3 72 = true -> tw_malloc w3 516 = true ->
  let o := options_of opts default_options in let c := client_of sq sock fd o in
  sends w3 c -> o_wsize o = Z.of_nat ws -> (ws <= fuel)%nat -> Z.of_nat (n * ws) < 2 ^ 16 ->
  zlen (tl_file w3 fd) <= Z.of_nat (n * ws) * o_blksize o ->
  exists w' ps, tftp_loop fuel (Tftpd w [] [])
      (rrq_turn name mode opts sq stale pkt :: map (fun j => ack_turn c junk pkt (Z.of_nat (j * ws))) (seq 0 n)) =
      Done (inr (Tftpd w' [c] [])) /\
    only_sent w3 w' (first_answer w3 sock fd opts ++ numbered sock 0 ps) /\ concat ps = tl_file w3 fd /\
    (forall i p, ps !! i = Some p -> p <> [] /\ p = tl_slice (tl_file w3 fd) (o_blksize o) i).
Proof.
  intros Hn Hm Hoct Hopts Hport Hprep Hsock Hm1 Hm2 o c Hw Hws Hf Hn2 Hlen.
  destruct (rrq_step fuel w name mode opts sq stale pkt sock fd w3 Hn Hm Hoct Hopts Hport Hprep Hm1 Hm2) as (w1 & E & Ho).
  cbn [tftp_loop]. rewrite E. run. fold o. fold c. pose proof (proj1 (proj2 Ho)) as Efile.
  destruct (acks_send_file fuel w1 c junk pkt ws n) as (w' & ps & -> & Ho2 & Hps & Hslice);
    [by apply (sends_only _ _ _ _ Ho)|done..|by rewrite Efile|].
  exists w', ps. rewrite Efile in Hps, Hslice. split_and!; [done|by apply (only_sent_trans _ _ _ _ _ Ho)|done..].
Qed.
End Request.

(** ** Control packets *)

Section Control.
Context {W : Type} `{TftpOps W}.

(** No client has the address of the name service. *)
Definition no_control (l : list tftp_client) : Prop := Forall (fun c => sq_port (c_sq c) <> QRTR_PORT_CTRL) l.
Definition peers_ok (st : tftp W) : Prop := no_control (readers st) /\ no_control (writers st).

Lemma close_if_spec p (w : W) l :
  close_if p w l = (fold_left client_close (List.filter p l) w, List.filter (fun c => negb (p c)) l).
Proof.
  revert w. induction l as [|c l IH]; intros w; [done|]. cbn [close_if List.filter].
  destruct (p c); cbn [negb fold_left]; [apply IH|]. by rewrite IH.
Qed.
Lemma filter_keeps (P : tftp_client -> Prop) p l : Forall P l -> Forall P (List.filter p l).
Proof. induction 1 as [|c l Hc _ IH]; [constructor|]. cbn [List.filter]. destruct (p c); [by constructor|done]. Qed.
Lemma clients_pass_keeps (P : tftp_client -> Prop) handle ready (w w' : W) l l' :
  clients_pass handle ready w l = Done (w', l') -> Forall P l -> Forall P l'.
Proof.
  intros E Hl. revert w w' l' E. induction Hl as [|c l Hc _ IH]; intros w w' l' E; cbn [clients_pass] in E.
  - injection E as <- <-. constructor.
  - destruct (ready (c_sock c)) as [r|]; inv_done.
    + destruct r0 as [w1 [|]]; inv_done; [|by apply (IH _ _ _ E)]. destruct r0 as [w2 l2]. injection E as <- <-.
      constructor; [done|by apply (IH _ _ _ Hrun0)].
    + destruct r as [w1 l1]. injection E as <- <-. constructor; [done|by apply (IH _ _ _ Hrun)].
Qed.

(** A request adds at most a client, with the address it came from. *)
Lemma handle_rrq_clients st m len sq st' : handle_rrq st m len sq = Done st' ->
  writers st' = writers st /\ (readers st' = readers st \/ exists c, readers st' = readers st ++ [c] /\ c_sq c = sq).
Proof.
  unfold handle_rrq. intros E. inv_done. destruct r as [name p]. inv_done. destruct r as [mode p2].
  destruct (negb _); [injection E as <-; eauto|]. inv_done.
  destruct (open_socket _) as [w1 sock]. destruct (sock <? 0); [injection E as <-; eauto|].
  destruct (tw_connect _ _ _) as [w2 ret]. destruct (ret <? 0); [injection E as <-; eauto|].
  inv_done. destruct r0 as [w3 fd]. destruct (fd <? 0); [injection E as <-; eauto|].
  destruct (negb _); [done|]. inv_done. destruct r0 as [w4 n]. injection E as <-. cbn. eauto.
Qed.
Lemma handle_wrq_clients st m sq st' : handle_wrq st m sq = Done st' ->
  readers st' = readers st /\ (writers st' = writers st \/ exists c, writers st' = writers st ++ [c] /\ c_sq c = sq).
Proof.
  unfold handle_wrq. intros E. inv_done. destruct r as [name p]. inv_done. destruct r as [mode p2].
  destruct (negb _); [injection E as <-; eauto|]. inv_done. destruct r as [w3 fd].
  destruct (fd <? 0); [injection E as <-; eauto|].
  destruct (open_socket _) as [w1 sock]. destruct (sock <? 0); [injection E as <-; eauto|].
  destruct (tw_connect _ _ _) as [w2 ret]. destruct (ret <? 0); [injection E as <-; eauto|].
  destruct (negb _); [done|]. destruct (tftp_send_ack _ _ _) as [w4 n].
  destruct (n <? 0); injection E as <-; cbn; eauto.
Qed.
Lemma added_ok l l' sq : no_control l -> sq_port sq <> QRTR_PORT_CTRL ->
  l' = l \/ (exists c, l' = l ++ [c] /\ c_sq c = sq) -> no_control l'.
Proof.
  intros Hl Hsq [->|(c & -> & <-)]; [done|]. apply Forall_app. split; [done|]. by constructor; [|constructor].
Qed.

Lemma handle_server_peers st t r st' : peers_ok st -> handle_server st t r = Done (inr st') -> peers_ok st'.
Proof.
  intros [Hr Hw] E. destruct r as [|[data sq]]; [done|]. unfold handle_server in E.
  destruct (sq_port sq =? QRTR_PORT_CTRL) eqn:Eport; reflect_bools.
  - inv_done. destruct r as [ret d]. destruct (ret <? 0); [done|].
    destruct (qp_type d =? _); [|destruct (qp_type d =? _)]; [| |by injection E as <-];
      rewrite close_if_spec in E; injection E as <-; (split; [done|by apply filter_keeps]).
  - destruct (zlen data <? 2); [by injection E as <-|]. inv_done.
    destruct (_ =? OP_RRQ); [|destruct (_ =? OP_WRQ)]; inv_done; [| |by subst].
    + subst. destruct (handle_rrq_clients _ _ _ _ _ Hrun0) as [E1 E2]. split; [|by rewrite E1]. by apply (added_ok _ _ _ Hr Eport).
    + subst. destruct (handle_wrq_clients _ _ _ _ Hrun0) as [E1 E2]. split; [by rewrite E1|]. by apply (added_ok _ _ _ Hw Eport).
Qed.
Lemma tftp_step_peers fuel st t st' : peers_ok st -> tftp_step fuel st t = Done (inr st') -> peers_ok st'.
Proof.
  intros [Hr Hw] E. unfold tftp_step in E. destruct (negb _); [done|]. destruct (_ <? 0).
  { destruct (_ =? EINTR); simplify_eq E; intros <-; by split. }
  inv_done. destruct r as [w1 ws]. inv_done. destruct r as [w2 rs].
  assert (Hst : peers_ok (Tftpd w2 rs ws))
    by (split; [by apply (clients_pass_keeps _ _ _ _ _ _ _ Hrun0)|by apply (clients_pass_keeps _ _ _ _ _ _ _ Hrun)]).
  destruct (tt_server t); [by apply (handle_server_peers _ _ _ _ Hst E)|by injection E as <-].
Qed.
Lemma tftp_main_peers fuel w turns st : tftp_main fuel w turns = Done (inr st) -> peers_ok st.
Proof.
  unfold tftp_main. destruct (open_socket w) as [w1 fd]. destruct (fd <? 0); [done|].
  destruct (qrtr_publish _ _ _ _ _) as [calls ret]. destruct (ret <? 0); [done|]. generalize (tw_calls w1 calls) as w2. intros w2.
  assert (H0 : peers_ok (Tftpd w2 [] [])) by (split; constructor). revert H0. generalize (Tftpd w2 [] []) as st0.
  induction turns as [|t turns IH]; intros st0 H0 E; cbn [tftp_loop] in E; [by injection E as <-|].
  inv_done. destruct r as [ret'|st1]; [done|]. by apply (IH st1 (tftp_step_peers _ _ _ _ H0 Hrun)).
Qed.

(** No client of the running server has the address of the name service, so that of the
    control packets only BYE has an effect: it closes the writers of its node, in order, and
    no others, and leaves the readers.  DEL_CLIENT closes nothing. *)
Theorem tftp_control_packets fuel w turns st t data sq d : tftp_main fuel w turns = Done (inr st) ->
  sq_port sq = QRTR_PORT_CTRL -> qrtr_decode (tt_pkt t) data sq = Done (0, d) ->
  let on_node c := sq_node (c_sq c) =? sq_node sq in
  handle_server st t (inr (data, sq)) =
  Done (inr (if qp_type d =? QRTR_TYPE_BYE
             then Tftpd (fold_left client_close (List.filter on_node (writers st)) (tf_w st)) (readers st)
                    (List.filter (fun c => negb (on_node c)) (writers st))
             else st)).
Proof.
  intros E Hsq Hd on_node. pose proof (tftp_main_peers _ _ _ _ E) as [_ Hw]. unfold handle_server.
  rewrite Hsq, Z.eqb_refl, Hd. run. cbn [Z.ltb Z.compare]. destruct (qp_type d =? QRTR_TYPE_BYE).
  - by rewrite close_if_spec.
  - destruct (qp_type d =? QRTR_TYPE_DEL_CLIENT); [|done]. rewrite close_if_spec.
    assert (Hno : forall c, c ∈ writers st -> bool_decide (c_sq c = sq) = false).
    { intros c Hc. apply bool_decide_eq_false. intros <-. by apply (proj1 (Forall_forall _ _) Hw c Hc). }
    destruct st as [w' rs ws]. cbn [writers tf_w readers] in *. clear - Hno.
    assert (List.filter (fun c => bool_decide (c_sq c = sq)) ws = [] /\
                 List.filter (fun c => negb (bool_decide (c_sq c = sq))) ws = ws) as [-> ->]; [|done].
    induction ws as [|c ws IH]; [done|]. cbn [List.filter]. rewrite Hno by (by left). cbn [negb].
    destruct IH as [-> ->]; [intros c' Hc'; apply Hno; by right|done].
Qed.
End Control.

(** ** A system to try it on

    One file, behind every descriptor, with a position for [write]. *)
Record disk := Disk { d_path : list Z; d_file : list Z; d_pos : Z; d_sent : list (Z * list Z); d_closed : list Z }.
Definition d_open (w : disk) (path : list Z) : disk * Z := (w, if bool_decide (path = d_path w) then 7 else if bool_decide (path = TQFTPSERV_TMP) then 8 else -1).
#[export] Instance disk_ops : TftpOps disk := {
  tw_errno _ := 0;
  tw_remoteproc _ := Some [(cstr ".", None); (cstr "remoteproc0", Some (11, cstr "qcom/adsp.x"))];
  tw_open := d_open;
  tw_mkdir w _ := (w, 0);
  tw_openat w _ file _ := (w, if bool_decide (file = d_path w) then 7 else -1);
  tw_close w fd := Disk (d_path w) (d_file w) (d_pos w) (d_sent w) (d_closed w ++ [fd]);
  tw_fstat w _ := zlen (d_file w);
  tw_pread w _ len off :=
    let bs := take (Z.to_nat len) (drop (Z.to_nat off) (d_file w)) in (w, zlen bs, bs);
  tw_write w _ bs := (Disk (d_path w) (splice (Z.to_nat (d_pos w)) bs (d_file w)) (d_pos w + zlen bs) (d_sent w) (d_closed w), zlen bs);
  tw_malloc _ n := n <? 2 ^ 20;
  tw_connect w _ _ := (w, 0);
  tw_send w sock bs := (Disk (d_path w) (d_file w) (d_pos w) (d_sent w ++ [(sock, bs)]) (d_closed w), zlen bs);
  tw_sys _ := Sys 9 0 0 (0, SockaddrQrtr AF_QIPCRTR 1 77, 12) 0;
  tw_calls w _ := w }.
#[export] Instance disk_laws : TftpLaws disk.
Proof.
  refine {| tl_file w _ := d_file w; tl_pos w _ := d_pos w; tl_sent := d_sent |}.
  - done.
  - intros w sock bs. eexists. split; [done|]. by cbn.
  - intros w fd bs _. eexists. split; [done|]. by cbn.
Defined.

Definition peer : sockaddr_qrtr := SockaddrQrtr AF_QIPCRTR 0 5.
Definition no_pkt : qrtr_packet := QrtrPacket 0 0 0 0 0 0 [].
Definition demo_disk (f : list Z) (pos : Z) : disk := Disk (cstr "/vendor/firmware/qcom/modem.b00") f pos [] [].
Definition demo_file : list Z := map (fun i => Z.of_nat i mod 256) (seq 0 20).
Definition demo_opts : list (list Z * Z) := [(cstr "blksize", 6); (cstr "tsize", 0); (cstr "wsize", 2)].
Definition demo_name : list Z := cstr "/readonly/firmware/image/modem.b00".

Lemma tftp_download_witness :
  prepared (demo_disk demo_file 0) demo_name peer 9 7 (demo_disk demo_file 0) /\
  exists w' ps, tftp_loop 2 (Tftpd (demo_disk demo_file 0) [] [])
      (rrq_turn demo_name (cstr "OCTET") demo_opts peer [] no_pkt ::
       map (fun j => ack_turn (client_of peer 9 7 (options_of demo_opts default_options)) [] no_pkt (Z.of_nat (j * 2))) (seq 0 2)) =
      Done (inr (Tftpd w' [client_of peer 9 7 (options_of demo_opts default_options)] [])) /\
    only_sent (demo_disk demo_file 0) w' (first_answer (demo_disk demo_file 0) 9 7 demo_opts ++ numbered 9 0 ps) /\
    concat ps = tl_file (demo_disk demo_file 0) 7 /\
    (forall i p, ps !! i = Some p -> p <> [] /\
       p = tl_slice (tl_file (demo_disk demo_file 0) 7) (o_blksize (options_of demo_opts default_options)) i).
Proof.
  assert (Hp : prepared (demo_disk demo_file 0) demo_name peer 9 7 (demo_disk demo_file 0)).
  { exists (demo_disk demo_file 0), (demo_disk demo_file 0), 0. by vm_compute. }
  split; [exact Hp|].
  assert (Hopts : Forall option_ok demo_opts).
  { repeat (constructor; [split; [by apply no_nul_check|done]|]). constructor. }
  exact (tftp_download 2 (demo_disk demo_file 0) demo_name (cstr "OCTET") demo_opts peer [] [] no_pkt 9 7
           (demo_disk demo_file 0) 2 2 ltac:(by apply no_nul_check) ltac:(by apply no_nul_check) ltac:(by vm_compute) Hopts
           ltac:(by vm_compute) Hp ltac:(done) ltac:(done) ltac:(done) ltac:(by vm_compute) ltac:(by vm_compute) ltac:(lia)
           ltac:(by vm_compute) ltac:(by vm_compute)).
Defined.

Lemma tftp_control_packets_witness :
  let bye := pkt_bytes (CtrlPkt QRTR_TYPE_BYE 0 0 0 0) in let from := SockaddrQrtr AF_QIPCRTR 0 QRTR_PORT_CTRL in
  exists st t d, tftp_main 0 (demo_disk [] 0) [] = Done (inr st) /\ qrtr_decode (tt_pkt t) bye from = Done (0, d) /\
  handle_server st t (inr (bye, from)) =
  Done (inr (if qp_type d =? QRTR_TYPE_BYE
             then Tftpd (fold_left client_close (List.filter (fun c => sq_node (c_sq c) =? 0) (writers st)) (tf_w st)) (readers st)
                    (List.filter (fun c => negb (sq_node (c_sq c) =? 0)) (writers st))
             else st)).
Proof.
  intros bye from. exists (Tftpd (demo_disk [] 0) [] []), (TftpTurn 1 0 (fun _ => None) [] [] None [] no_pkt),
    (set_qp_addr (set_qp_type no_pkt QRTR_TYPE_BYE) 0 0). split; [done|]. split; [done|].
  apply (tftp_control_packets 0 (demo_disk [] 0) [] (Tftpd (demo_disk [] 0) [] [])
           (TftpTurn 1 0 (fun _ => None) [] [] None [] no_pkt) bye from); done.
Defined.

Lemma tftp_window_never_ends_witness :
  window_loop 10 (demo_disk (replicate (Z.to_nat 65536) 1) 0) (TftpClient peer 9 7 1 0 2 1000) 65534 65536 = OutOfFuel.
Proof.
  apply tftp_window_never_ends; [by repeat split| |done..].
  cbn [tl_file disk_laws demo_disk d_file]. unfold zlen. rewrite length_replicate. done.
Defined.

Lemma tftp_receives_file_witness :
  exists w', tftp_loop 0 (Tftpd (demo_disk [1; 2; 3; 4; 5] 0) [] [TftpClient peer 9 7 0 0 0 0])
      (map (data_turn (TftpClient peer 9 7 0 0 0 0) (replicate 516 0) no_pkt) ([] ++ [(1, [8; 9])])) =
      Done (inr (Tftpd (client_close w' (TftpClient peer 9 7 0 0 0 0)) [] [])) /\
    wrote (demo_disk [1; 2; 3; 4; 5] 0) w' 7 (payloads ([] ++ [(1, [8; 9])])) (acks (TftpClient peer 9 7 0 0 0 0) ([] ++ [(1, [8; 9])])).
Proof.
  apply (tftp_receives_file 0 (demo_disk [1; 2; 3; 4; 5] 0) (TftpClient peer 9 7 0 0 0 0) (replicate 516 0) no_pkt [] 1 [8; 9]);
    [by vm_compute|done|by rewrite length_replicate|constructor|done|cbn; lia].
Defined.
Lemma oack_roundtrip_witness :
  let p := oack_packet (Some 1024) (nonzero 4711) (nonzero 0) (Some 1000) (nonzero 7) in
  options_loop (S (length p)) (p ++ [65; 66]) 2 (zlen p) default_options = Done (RrqOptions 1024 1000 4711 7 0).
Proof. apply (oack_roundtrip 1024 4711 0 1000 7 [65; 66]); done. Defined.

(** ** What goes wrong *)

(** A [blksize] of -1 is accepted; the first acknowledgement then has three bytes
    allocated and a header of four bytes written to them. *)
Theorem tftp_negative_blksize_overflows {W : Type} `{TftpLaws W} fuel (w w3 : W) name mode sq stale junk pkt sock fd :
  no_nul name -> no_nul mode -> same_ignoring_case mode (cstr "octet") = true -> sq_port sq <> QRTR_PORT_CTRL ->
  prepared w name sq sock fd w3 -> sock < FD_SETSIZE ->
  tw_malloc w3 72 = true -> tw_malloc w3 516 = true -> tw_malloc w3 3 = true ->
  let opts := [(cstr "blksize", -1); (cstr "wsize", 1)] in
  tftp_loop (S fuel) (Tftpd w [] []) [rrq_turn name mode opts sq stale pkt;
    ack_turn (client_of sq sock fd (options_of opts default_options)) junk pkt 0] = Fault OutOfBounds.
Proof.
  intros Hn Hm Hoct Hport Hprep Hsock Hm1 Hm2 Hm3 opts.
  assert (Hopts : Forall option_ok opts) by (repeat (constructor; [split; [by apply no_nul_check|done]|]); constructor).
  destruct (rrq_step (S fuel) w name mode opts sq stale pkt sock fd w3 Hn Hm Hoct Hopts Hport Hprep Hm1 Hm2) as (w1 & E & Ho).
  cbn [tftp_loop]. rewrite E. run. clear E. rewrite ack_step by done.
  assert (Eo : options_of opts default_options = RrqOptions (2 ^ 64 - 1) 1000 (-1) 0 1) by by vm_compute.
  rewrite Eo. destruct Ho as (_ & _ & _ & Em).
  cbn [window_loop client_of c_wsize o_wsize]. change (u64 (0 + 1)) with 1. cbn [Z.ltb Z.compare].
  unfold tftp_send_data. cbn [c_blksize o_blksize client_of]. change (u64 (4 + (2 ^ 64 - 1))) with 3. by rewrite Em, Hm3.
Qed.
Lemma tftp_negative_blksize_overflows_witness :
  tftp_loop 1 (Tftpd (demo_disk demo_file 0) [] []) [rrq_turn demo_name (cstr "octet") [(cstr "blksize", -1); (cstr "wsize", 1)] peer [] no_pkt;
    ack_turn (client_of peer 9 7 (options_of [(cstr "blksize", -1); (cstr "wsize", 1)] default_options)) [] no_pkt 0] = Fault OutOfBounds.
Proof.
  apply (tftp_negative_blksize_overflows 0 (demo_disk demo_file 0) (demo_disk demo_file 0)); try done;
    [by apply no_nul_check..|]. exists (demo_disk demo_file 0), (demo_disk demo_file 0), 0. by vm_compute.
Defined.

(** A name is opened as it is: it may leave its directory, by a parent or by a slash. *)
Lemma path_escapes :
  firmware_path (cstr "qcom/adsp.mbn") (cstr "../../../data/key") = cstr "/vendor/firmware/qcom/../../../data/key" /\
  exists w, translate_open (Disk (cstr "/etc/hosts") [] 0 [] []) (cstr "/readwrite//etc/hosts") O_WRONLY_CREAT = Done (w, 7).
Proof. split; [done|]. exists (Disk (cstr "/etc/hosts") [] 0 [] [8]). by vm_compute. Qed.
