(* ===== verification/TftpShare.v ===== *)
(** * The TFTP server with several readers at once

    In every turn of the loop any of the clients may have acknowledged a window.  Whatever
    the order is, each of them gets the blocks it would get alone. *)
From Stdlib Require Import String.
From S2P Require Import Prelude CString Paths Qrtr Translate Tftp TftpProps.
#[local] Open Scope Z_scope.

Section Share.
Context {W : Type} `{TftpLaws W}.
Implicit Types (w : W) (c : tftp_client) (k : Z -> nat) (who : Z -> bool).

(** ** Turns

    [k s] is the number of windows that the client on socket [s] has acknowledged, [who]
    tells which sockets are ready. *)
Definition windows c : nat := Z.to_nat (c_wsize c).
Definition acked c (n : nat) : received := inr (ack_packet (Z.of_nat (n * windows c)), c_sq c).
Definition acks_ready (cs : list tftp_client) who k (s : Z) : option received :=
  if who s then (fun c => acked c (k s)) <$> List.find (fun c => c_sock c =? s) cs else None.
Definition acks_turn cs junk who k : tftp_turn := TftpTurn 1 0 (acks_ready cs who k) junk [] None [] (QrtrPacket 0 0 0 0 0 0 []).
Definition advance who k (s : Z) : nat := if who s then S (k s) else k s.
Fixpoint acks_turns cs junk (sched : list (Z -> bool)) k : list tftp_turn :=
  match sched with
  | [] => []
  | who :: sched' => acks_turn cs junk who k :: acks_turns cs junk sched' (advance who k)
  end.
Definition times (s : Z) (sched : list (Z -> bool)) : nat := length (List.filter (fun who => who s) sched).

(** The clients are on sockets of their own, and their files are short enough for what they
    are going to ask for. *)
Record readers_ok (w : W) (cs : list tftp_client) (fuel : nat) (n : Z -> nat) : Prop := {
  rd_sockets : NoDup (map c_sock cs);
  rd_sends : Forall (sends w) cs;
  rd_watch : Forall (fun c => c_sock c < FD_SETSIZE) cs;
  rd_window : Forall (fun c => 0 <= c_wsize c /\ (windows c <= fuel)%nat) cs;
  rd_blocks : Forall (fun c => Z.of_nat (n (c_sock c) * windows c) < 2 ^ 16) cs }.

Lemma find_socket cs c : NoDup (map c_sock cs) -> c ∈ cs -> List.find (fun c' => c_sock c' =? c_sock c) cs = Some c.
Proof.
  induction cs as [|c' cs IH]; [by intros _ ?%elem_of_nil|]. cbn [map List.find]. intros [Hn Hnd]%NoDup_cons [->|Hc]%elem_of_cons.
  - by rewrite Z.eqb_refl.
  - rewrite (proj2 (Z.eqb_neq _ _)); [by apply IH|]. intros E. apply Hn. rewrite E. by apply list_elem_of_fmap_2.
Qed.

(** ** What a turn sends *)

Definition window w c (n i : nat) : list (Z * list Z) :=
  numbered (c_sock c) (i * windows c) (pieces (tl_file w (c_fd c)) (c_blksize c) (n * windows c) (i * windows c)).
Definition turn_sends w who k c : list (Z * list Z) := if who (c_sock c) then window w c 1 (k (c_sock c)) else [].

Lemma turn_sends_file w w' who k c : tl_file w' = tl_file w -> turn_sends w' who k c = turn_sends w who k c.
Proof. unfold turn_sends, window. by intros ->. Qed.

Lemma readers_pass fuel junk who k ready w l : Forall (sends w) l ->
  Forall (fun c => 0 <= c_wsize c /\ (windows c <= fuel)%nat) l ->
  Forall (fun c => who (c_sock c) = true -> Z.of_nat (S (k (c_sock c)) * windows c) < 2 ^ 16) l ->
  Forall (fun c => ready (c_sock c) = if who (c_sock c) then Some (acked c (k (c_sock c))) else None) l ->
  exists w', clients_pass (fun w c r => handle_reader fuel w c r junk) ready w l = Done (w', l) /\
    only_sent w w' (concat (map (turn_sends w who k) l)).
Proof.
  intros Hs Hw Hb Hr. revert w Hs. induction l as [|c l IH]; intros w Hs.
  { exists w. split; [done|apply only_sent_refl]. }
  apply Forall_cons in Hs as [Hs Hsl], Hw as [[Hw1 Hw2] Hwl], Hb as [Hb Hbl], Hr as [Hr Hrl].
  specialize (IH Hwl Hbl Hrl). cbn [clients_pass map concat]. rewrite Hr. unfold turn_sends at 1.
  destruct (who (c_sock c)) eqn:Ew.
  - specialize (Hb eq_refl). unfold acked. rewrite reader_ack by lia. set (i := (k (c_sock c) * windows c)%nat) in *.
    assert (El : u64 (Z.of_nat i + c_wsize c) = Z.of_nat (i + windows c)).
    { unfold windows in *. rewrite u64_small by (unfold i in *; lia). lia. }
    rewrite El. destruct (window_sends (windows c) fuel w c i Hs Hw2) as (w1 & -> & Ho); [unfold i; lia|]. run.
    destruct (IH w1) as (w2 & -> & Ho2); [by eapply Forall_impl; [exact Hsl|]; intros; eapply sends_only|]. run.
    exists w2. split; [done|]. unfold window. rewrite Nat.mul_1_l. fold i.
    rewrite (map_ext (turn_sends w1 who k) (turn_sends w who k)) in Ho2 by (intros; apply turn_sends_file, Ho).
    exact (only_sent_trans _ _ _ _ _ Ho Ho2).
  - destruct (IH w Hsl) as (w2 & -> & Ho2). run. by exists w2.
Qed.

(** Of what the clients of a list are sent, each gets its own. *)
Lemma own_packets (g : tftp_client -> list (Z * list Z)) l c : NoDup (map c_sock l) -> c ∈ l ->
  (forall c', Forall (fun p => p.1 = c_sock c') (g c')) ->
  List.filter (fun p => p.1 =? c_sock c) (concat (map g l)) = g c.
Proof.
  intros Hnd Hc Hg.
  assert (Hall : List.filter (fun p => p.1 =? c_sock c) (g c) = g c).
  { specialize (Hg c). induction Hg as [|p ps Hp _ IH]; [done|]. cbn [List.filter]. by rewrite Hp, Z.eqb_refl, IH. }
  assert (Hnone : forall c', c_sock c' <> c_sock c -> List.filter (fun p => p.1 =? c_sock c) (g c') = []).
  { intros c' Hne. specialize (Hg c'). induction Hg as [|p ps Hp _ IH]; [done|]. cbn [List.filter].
    by rewrite Hp, (proj2 (Z.eqb_neq _ _) Hne), IH. }
  assert (Hout : forall l, c_sock c ∉ map c_sock l -> List.filter (fun p => p.1 =? c_sock c) (concat (map g l)) = []).
  { clear - Hnone. intros l. induction l as [|c' l IH]; [done|]. cbn [map concat]. intros [Hne Hn]%not_elem_of_cons.
    rewrite List.filter_app, IH, Hnone by done. done. }
  induction l as [|c' l IH]; [by apply elem_of_nil in Hc|]. cbn [map concat] in *. apply NoDup_cons in Hnd as [Hn Hnd].
  rewrite List.filter_app. apply elem_of_cons in Hc as [->|Hc].
  - rewrite Hall, Hout by done. by rewrite app_nil_r.
  - rewrite Hnone, IH by first [done | intros E; apply Hn; rewrite E; by apply list_elem_of_fmap_2]. done.
Qed.
Lemma numbered_socket sock i ps : Forall (fun p => p.1 = sock) (numbered sock i ps).
Proof.
  apply Forall_forall. intros p Hp. unfold numbered in Hp. apply elem_of_lookup_imap in Hp as (j & x & -> & _). done.
Qed.

Lemma turn_own w who k c : Forall (fun p => p.1 = c_sock c) (turn_sends w who k c).
Proof. unfold turn_sends. destruct (who _); [apply numbered_socket|constructor]. Qed.
Lemma window_split w c n i : 0 < c_blksize c -> window w c (S n) i = window w c 1 i ++ window w c n (S i).
Proof.
  intros Hb. unfold window. change (S n * windows c)%nat with (windows c + n * windows c)%nat. rewrite numbered_pieces by done.
  change (S i * windows c)%nat with (windows c + i * windows c)%nat. by rewrite Nat.mul_1_l, (Nat.add_comm (windows c)).
Qed.
Lemma turn_then w who k c n : 0 < c_blksize c ->
  turn_sends w who k c ++ window w c n (advance who k (c_sock c)) =
  window w c (if who (c_sock c) then S n else n) (k (c_sock c)).
Proof. intros Hb. unfold turn_sends, advance. destruct (who _); [by rewrite (window_split w c n)|done]. Qed.
Lemma times_cons s who sched : times s (who :: sched) = if who s then S (times s sched) else times s sched.
Proof. unfold times. cbn [List.filter]. by destruct (who s). Qed.

(** ** The loop *)

Lemma shared_step fuel junk cs who k w sched : readers_ok w cs fuel (fun s => k s + times s (who :: sched))%nat ->
  exists w', tftp_step fuel (Tftpd w cs []) (acks_turn cs junk who k) = Done (inr (Tftpd w' cs [])) /\
    only_sent w w' (concat (map (turn_sends w who k) cs)) /\
    readers_ok w' cs fuel (fun s => advance who k s + times s sched)%nat.
Proof.
  intros [Hnd Hs Hw Hwin Hb]. unfold tftp_step, watchable. cbn [writers readers app].
  rewrite (proj2 (forallb_forall _ _)). 2: { intros c Hc%list_elem_of_In. apply Z.ltb_lt. exact (proj1 (Forall_forall _ _) Hw c Hc). }
  cbn [negb acks_turn tt_select tt_ready tt_server tt_junk_reader tf_w clients_pass Z.ltb Z.compare]. run.
  destruct (readers_pass fuel junk who k (acks_ready cs who k) w cs Hs Hwin) as (w' & -> & Ho).
  - eapply Forall_impl; [exact Hb|]. cbn beta. intros c Hc Hwho. rewrite times_cons, Hwho in Hc. nia.
  - apply Forall_forall. intros c Hc. unfold acks_ready. by rewrite find_socket by done.
  - run. exists w'. split; [done|]. split; [done|]. split; try done.
    + eapply Forall_impl; [exact Hs|]. intros. by eapply sends_only.
    + eapply Forall_impl; [exact Hb|]. cbn beta. intros c Hc. rewrite times_cons in Hc. unfold advance.
      destruct (who (c_sock c)); nia.
Qed.

Lemma shared_loop fuel junk cs sched k w : readers_ok w cs fuel (fun s => k s + times s sched)%nat ->
  exists w' out, tftp_loop fuel (Tftpd w cs []) (acks_turns cs junk sched k) = Done (inr (Tftpd w' cs [])) /\
    only_sent w w' out /\
    forall c, c ∈ cs -> List.filter (fun p => p.1 =? c_sock c) out = window w c (times (c_sock c) sched) (k (c_sock c)).
Proof.
  revert k w. induction sched as [|who sched IH]; intros k w Hok.
  - exists w, []. split; [done|]. split; [apply only_sent_refl|]. intros c Hc. done.
  - cbn [acks_turns tftp_loop]. destruct (shared_step fuel junk cs who k w sched Hok) as (w1 & -> & Ho & Hok1). run.
    destruct (IH _ _ Hok1) as (w2 & out & -> & Ho2 & Hown). do 2 eexists. split; [done|].
    split; [exact (only_sent_trans _ _ _ _ _ Ho Ho2)|]. intros c Hc. destruct Hok as [Hnd Hs _ _ _].
    rewrite List.filter_app, (own_packets _ cs c Hnd Hc (turn_own w who k)), Hown, times_cons by done.
    unfold window at 1. rewrite (proj1 (proj2 Ho)). fold (window w c (times (c_sock c) sched) (advance who k (c_sock c))).
    apply turn_then. apply (proj1 (Forall_forall _ _) Hs c Hc).
Qed.
End Share.

(** ** Property *)

(** C16: clients that read at the same time, each on a socket of its own that works, with a
    positive block size and fewer than 65536 blocks in the windows it acknowledges, do not
    disturb each other.  In every turn any of them may acknowledge its next window, several at
    once or none: in the end all are still there, and what was sent on the socket of each is a
    prefix of its own file in blocks of its own size, numbered from 1, as long as the windows
    it has acknowledged, and the whole file as soon as they cover it.  A client behind the
    65536th block would keep the server from all others ([tftp_window_never_ends]). *)
Theorem tftp_readers_share {W : Type} `{TftpLaws W} fuel junk cs sched (w : W) :
  readers_ok w cs fuel (fun s => times s sched) ->
  exists w' out, tftp_loop fuel (Tftpd w cs []) (acks_turns cs junk sched (fun _ => O)) = Done (inr (Tftpd w' cs [])) /\
    only_sent w w' out /\
    forall c, c ∈ cs -> exists ps,
      List.filter (fun p => p.1 =? c_sock c) out = numbered (c_sock c) 0 ps /\
      concat ps = take (times (c_sock c) sched * windows c * Z.to_nat (c_blksize c)) (tl_file w (c_fd c)) /\
      (zlen (tl_file w (c_fd c)) <= Z.of_nat (times (c_sock c) sched * windows c) * c_blksize c -> concat ps = tl_file w (c_fd c)) /\
      forall i p, ps !! i = Some p -> p <> [] /\ p = tl_slice (tl_file w (c_fd c)) (c_blksize c) i.
Proof.
  intros Hok. destruct (shared_loop fuel junk cs sched (fun _ => O) w Hok) as (w' & out & E & Ho & Hown).
  exists w', out. split; [done|]. split; [done|]. intros c Hc.
  exists (pieces (tl_file w (c_fd c)) (c_blksize c) (times (c_sock c) sched * windows c) 0). split; [by apply Hown|].
  assert (Hb : 0 < c_blksize c) by (destruct Hok as [_ Hs _ _ _]; apply (proj1 (Forall_forall _ _) Hs c Hc)).
  rewrite pieces_concat, drop_0 by done. split; [done|]. split; [intros Hall; apply take_ge; unfold zlen in Hall; nia|].
  intros i p Hp. by apply pieces_lookup in Hp as [-> Hp].
Qed.

(** ** Witness *)

(** Two clients read the file of 20 bytes with different blocks; their windows alternate. *)
Definition quick_reader : tftp_client := TftpClient peer 9 7 6 0 2 1000.
Definition slow_reader : tftp_client := TftpClient peer 10 7 16 0 1 1000.
Definition demo_sched : list (Z -> bool) := [Z.eqb 10; fun _ => true; Z.eqb 9].

Lemma tftp_readers_share_witness : exists w' out,
  tftp_loop 2 (Tftpd (demo_disk demo_file 0) [quick_reader; slow_reader] [])
    (acks_turns [quick_reader; slow_reader] [] demo_sched (fun _ => O)) = Done (inr (Tftpd w' [quick_reader; slow_reader] [])) /\
  forall c, c ∈ [quick_reader; slow_reader] -> exists ps,
    List.filter (fun p => p.1 =? c_sock c) out = numbered (c_sock c) 0 ps /\ concat ps = demo_file.
Proof.
  destruct (tftp_readers_share 2 [] [quick_reader; slow_reader] demo_sched (demo_disk demo_file 0)) as (w' & out & E & _ & Hown).
  - split.
    + apply (bool_decide_unpack _). vm_compute. exact I.
    + repeat (constructor; [by repeat split|]). constructor.
    + repeat (constructor; [reflexivity|]). constructor.
    + repeat (constructor; [split; [discriminate|vm_compute; lia]|]). constructor.
    + repeat (constructor; [reflexivity|]). constructor.
  - exists w', out. split; [exact E|]. intros c Hc. destruct (Hown c Hc) as (ps & E1 & _ & E2 & _). exists ps. split; [exact E1|].
    clear - Hc E2. repeat (apply elem_of_cons in Hc as [->|Hc]; [apply E2; vm_compute; discriminate|]). by apply elem_of_nil in Hc.
Defined.
