(* ===== verification/Bridge.v ===== *)
(** * The RPC bridge to the microcontroller (imola-gpio/imola-bridge.c)

    A program connected to two servers: requests in MessagePack arrive on the socket of
    the router, the pins are set by commands to the debugger.  Calls to the system are
    the class [BridgeOps]; messages for the terminal are left out. *)
From Stdlib Require Import String.
From S2P Require Import Prelude CString Paths.
#[local] Open Scope Z_scope.

Inductive peer_addr := OpenocdAddr | RouterAddr.
Inductive sock_family := AF_INET | AF_UNIX.

(** The calls, on a state [W] of the system.  [br_read] gives what [read] returns and
    the bytes it stores; what [recv] stores is not looked at. *)
Class BridgeOps (W : Type) := {
  br_socket : W -> sock_family -> W * Z;
  br_connect : W -> Z -> peer_addr -> W * Z;
  br_close : W -> Z -> W;
  br_sleep : W -> Z -> W;
  br_recv : W -> Z -> Z -> W;
  br_write : W -> Z -> list Z -> W * Z;
  br_read : W -> Z -> Z -> W * Z * list Z }.

(** ** Requests in MessagePack *)

(** A parser sees the buffer and the number of bytes in use; it gives the code of
    failure (0: more data is needed, -1: not a request) or a value. *)
Definition rpc_parser (A : Type) : Type := list Z -> Z -> outcome (Z + A).
Definition rpc_ret {A} (a : A) : rpc_parser A := fun _ _ => Done (inr a).
Definition rpc_bind {A B} (p : rpc_parser A) (k : A -> rpc_parser B) : rpc_parser B :=
  fun m len => r ← p m len; match r with inl c => Done (inl c) | inr a => k a m len end.
Definition rpc_fail {A} : rpc_parser A := fun _ _ => Done (inl (-1)).
(** [if (len < n) return 0]. *)
Definition rpc_need (n : Z) : rpc_parser unit := fun _ len => Done (if len <? n then inl 0 else inr tt).
Definition rpc_byte (pos : Z) : rpc_parser Z := fun m _ => b ← read_mem m pos 1; Done (inr (le_value b)).
Definition rpc_bytes (pos n : Z) : rpc_parser (list Z) := fun m _ => bs ← read_mem m pos n; Done (inr bs).
#[local] Notation "'let*' x ':=' p 'in' k" := (rpc_bind p (fun x => k)) (at level 10, x pattern, p at level 100, k at level 200).

Record rpc_request := Rpc { r_msg_id : Z; r_method : list Z; r_pin : list Z; r_val : Z }.

(** The identifier: a small number or a word of one, two or four bytes; with the
    position behind it. *)
Definition rpc_msg_id (pos : Z) : rpc_parser (Z * Z) :=
  let* b := rpc_byte pos in
  if b <=? 0x7f then rpc_ret (b, pos + 1)
  else if b =? 0xcc then
    let* _ := rpc_need (pos + 2) in
    let* b0 := rpc_byte (pos + 1) in
    rpc_ret (b0, pos + 2)
  else if b =? 0xcd then
    let* _ := rpc_need (pos + 3) in
    let* b1 := rpc_byte (pos + 1) in
    let* b0 := rpc_byte (pos + 2) in
    rpc_ret (Z.lor (Z.shiftl b1 8) b0, pos + 3)
  else if b =? 0xce then
    let* _ := rpc_need (pos + 5) in
    let* b3 := rpc_byte (pos + 1) in
    let* b2 := rpc_byte (pos + 2) in
    let* b1 := rpc_byte (pos + 3) in
    let* b0 := rpc_byte (pos + 4) in
    rpc_ret (Z.lor (Z.lor (Z.lor (u32 (Z.shiftl b3 24)) (Z.shiftl b2 16)) (Z.shiftl b1 8)) b0, pos + 5)
  else rpc_fail.
(** A short string, cut to the buffer of [max] bytes it is copied to. *)
Definition rpc_fixstr (pos max : Z) : rpc_parser (list Z * Z) :=
  let* _ := rpc_need (pos + 1) in
  let* b := rpc_byte pos in
  if negb (Z.land b 0xe0 =? 0xa0) then rpc_fail
  else
    let n := Z.land b 0x1f in
    let* _ := rpc_need (pos + 1 + n) in
    let* s := rpc_bytes (pos + 1) (if n <? max - 1 then n else max - 1) in
    rpc_ret (s, pos + 1 + n).
Definition rpc_value (pos : Z) : rpc_parser (Z * Z) :=
  let* _ := rpc_need (pos + 1) in
  let* v := rpc_byte pos in
  if (v =? 0xc3) || (v =? 0x01) then rpc_ret (1, pos + 1)
  else if (v =? 0xc2) || (v =? 0x00) then rpc_ret (0, pos + 1)
  else if v =? 0xcc then
    let* _ := rpc_need (pos + 2) in
    let* b := rpc_byte (pos + 1) in
    rpc_ret (if b =? 0 then 0 else 1, pos + 2)
  else rpc_ret (0, pos + 1).

Definition method_max : Z := 32.
Definition pin_max : Z := 32.
(** The request and the number of its bytes.  The caller looks at the results only
    when there are some. *)
Definition parse_rpc_request : rpc_parser (Z * rpc_request) :=
  let* _ := rpc_need 4 in
  let* b0 := rpc_byte 0 in
  if negb (b0 =? 0x94) then rpc_fail
  else
    let* b1 := rpc_byte 1 in
    if negb (b1 =? 0) then rpc_fail
    else
      let* (msg_id, pos) := rpc_msg_id 2 in
      let* (method, pos) := rpc_fixstr pos method_max in
      let* _ := rpc_need (pos + 1) in
      let* c := rpc_byte pos in
      if negb (Z.land c 0xf0 =? 0x90) then rpc_fail
      else
        let param_count := Z.land c 0x0f in
        let* (pin, pos) := if 1 <=? param_count then rpc_fixstr (pos + 1) pin_max else rpc_ret ([], pos + 1) in
        let* (val, pos) := if 2 <=? param_count then rpc_value pos else rpc_ret (0, pos) in
        rpc_ret (pos, Rpc msg_id method pin val).

(** The response. *)
Definition encode_msg_id (id : Z) : list Z :=
  if id <=? 0x7f then [u8 id]
  else if id <=? 0xff then [0xcc; u8 id]
  else if id <=? 0xffff then [0xcd; u8 (Z.shiftr id 8); u8 (Z.land id 0xff)]
  else [0xce; u8 (Z.shiftr id 24); u8 (Z.land (Z.shiftr id 16) 0xff); u8 (Z.land (Z.shiftr id 8) 0xff); u8 (Z.land id 0xff)].
Definition resp_pkt (id : Z) : list Z := [0x94; 0x01] ++ encode_msg_id id ++ [0xc0; 0xc3].

(** ** The debugger *)

Section Bridge.
Context {W : Type} `{BridgeOps W}.

(** The system and the connection to the debugger, -1 when there is none. *)
Record bridge := BridgeSt { b_w : W; g_openocd_fd : Z }.

Definition connect_openocd (w : W) : W * Z :=
  let '(w, fd) := br_socket w AF_INET in
  if fd <? 0 then (w, -1)
  else
    let '(w, r) := br_connect w fd OpenocdAddr in
    if r <? 0 then (br_close w fd, -1)
    else
      let w := br_sleep w 50000 in
      (br_recv w fd 1024, fd).

(** The line as [snprintf] leaves it in a buffer of 256 bytes; [write] takes the
    length of the whole line from it. *)
Definition snprintf_line (cmd : list Z) : outcome (list Z) :=
  let line := cmd ++ [10] in
  read_mem (take 255 line ++ [0]) 0 (zlen line).
Definition send_openocd (st : bridge) (cmd : list Z) : outcome bridge :=
  let '(w, fd) := if g_openocd_fd st <? 0 then connect_openocd (b_w st) else (b_w st, g_openocd_fd st) in
  if fd <? 0 then Done (BridgeSt w fd)
  else
    line ← snprintf_line cmd;
    let '(w, r) := br_write w fd line in
    let '(w, fd) :=
      if r <? 0 then
        let '(w, fd) := connect_openocd (br_close w fd) in
        if 0 <=? fd then ((br_write w fd line).1, fd) else (w, fd)
      else (w, fd) in
    let w := br_sleep w 2000 in
    Done (BridgeSt (br_recv w fd 512) fd).
Fixpoint send_all (st : bridge) (cmds : list (list Z)) : outcome bridge :=
  match cmds with
  | [] => Done st
  | cmd :: cmds' => st ← send_openocd st cmd; send_all st cmds'
  end.

Definition init_stm32_hw (st : bridge) : outcome bridge :=
  send_all st [cstr "mww 0x46020c8c 0x000001ff"; cstr "mww 0x42020400 0x04000000"; cstr "mww 0x42021c00 0x55500000";
               cstr "mww 0x42021c18 0x0000fc00"; cstr "mww 0x42020418 0x20000000"].

(** The command that drives a pin of port H low or high. *)
Definition led_cmd (val low high : Z) : list Z :=
  cstr "mww 0x42021c18 0x" ++ hex_digits 8 (if val =? 0 then low else high).
Definition execute_pin_action (st : bridge) (pin : list Z) (val : Z) : outcome bridge :=
  if bool_decide (pin = cstr "D13") then
    (if negb (val =? 0)
     then send_all st [cstr "mww 0x42020418 0x00002000"; cstr "mww 0x42021c18 0x10000000"]
     else send_all st [cstr "mww 0x42020418 0x20000000"; cstr "mww 0x42021c18 0x00001000"])
  else if bool_decide (pin = cstr "LED3_R") then send_openocd st (led_cmd val 0x04000000 0x00000400)
  else if bool_decide (pin = cstr "LED3_G") then send_openocd st (led_cmd val 0x08000000 0x00000800)
  else if bool_decide (pin = cstr "LED3_B") then send_openocd st (led_cmd val 0x10000000 0x00001000)
  else if bool_decide (pin = cstr "LED4_R") then send_openocd st (led_cmd val 0x20000000 0x00002000)
  else if bool_decide (pin = cstr "LED4_G") then send_openocd st (led_cmd val 0x40000000 0x00004000)
  else if bool_decide (pin = cstr "LED4_B") then send_openocd st (led_cmd val 0x80000000 0x00008000)
  else Done st.

(** ** The loop *)

(** [memmove] to the start of the buffer, of the bytes between [n] and [len]. *)
Definition shift_down (m : list Z) (n len : Z) : list Z :=
  take (Z.to_nat (len - n)) (drop (Z.to_nat n) m) ++ drop (Z.to_nat (len - n)) m.
(** The next place behind [skip] where a request may start. *)
Fixpoint resync (fuel : nat) (m : list Z) (skip len : Z) : outcome Z :=
  if skip + 1 <? len then
    b0 ← read_mem m skip 1;
    b1 ← read_mem m (skip + 1) 1;
    if (le_value b0 =? 0x94) && (le_value b1 =? 0) then Done skip
    else match fuel with O => OutOfFuel | S fuel' => resync fuel' m (skip + 1) len end
  else Done skip.

(** A request that was parsed: the action and the response; [None] when writing the
    response failed. *)
Definition answer (st : bridge) (sock : Z) (r : rpc_request) : outcome (bridge * bool) :=
  st ← (if bool_decide (before_nul (r_method r) = cstr "set_pin_by_name")
        then execute_pin_action st (before_nul (r_pin r)) (r_val r) else Done st);
  let '(w, n) := br_write (b_w st) sock (resp_pkt (r_msg_id r)) in
  Done (BridgeSt w (g_openocd_fd st), negb (n <? 0)).

(** The messages in the buffer; every turn takes a byte or more from it.  The last
    result tells whether to go on. *)
Fixpoint process (fuel : nat) (st : bridge) (sock : Z) (m : list Z) (buf_pos : Z) : outcome (bridge * list Z * Z * bool) :=
  if 0 <? buf_pos then
    match fuel with
    | O => OutOfFuel
    | S fuel' =>
        r ← parse_rpc_request m buf_pos;
        match r with
        | inl c =>
            if c =? 0 then Done (st, m, buf_pos, true)
            else
              skip ← resync (Z.to_nat buf_pos) m 1 buf_pos;
              process fuel' st sock (shift_down m skip buf_pos) (buf_pos - skip)
        | inr (consumed, r) =>
            '(st, ok) ← answer st sock r;
            if (ok : bool) then process fuel' st sock (shift_down m consumed buf_pos) (buf_pos - consumed)
            else Done (st, m, buf_pos, false)
        end
    end
  else Done (st, m, buf_pos, true).

Definition sizeof_buf : Z := 4096.
(** [n] bytes read to the place at [off]. *)
Definition store (m : list Z) (off : Z) (bs : list Z) : list Z := take (Z.to_nat off) m ++ bs ++ drop (Z.to_nat off + length bs) m.
Definition cleanup (st : bridge) (sock : Z) : W :=
  br_close (if 0 <=? g_openocd_fd st then br_close (b_w st) (g_openocd_fd st) else b_w st) sock.
(** Each turn reads once; the fuel bounds the turns.  A full buffer is not read into. *)
Fixpoint request_loop (fuel : nat) (st : bridge) (sock : Z) (m : list Z) (buf_pos : Z) : outcome W :=
  match fuel with
  | O => OutOfFuel
  | S fuel' =>
      let '(w, n, bs) := if 0 <? sizeof_buf - buf_pos then br_read (b_w st) sock (sizeof_buf - buf_pos) else (b_w st, 0, []) in
      let st := BridgeSt w (g_openocd_fd st) in
      if (0 <? sizeof_buf - buf_pos) && (n <=? 0) then Done (cleanup st sock)
      else
        '(st, m, buf_pos, go) ← process (Z.to_nat (buf_pos + n)) st sock (store m buf_pos bs) (buf_pos + n);
        if (go : bool) then request_loop fuel' st sock m buf_pos else Done (cleanup st sock)
  end.

(** The loops that wait for the servers. *)
Fixpoint wait_openocd (retries : nat) (w : W) (fd : Z) : W * Z :=
  match retries with
  | O => (w, fd)
  | S n =>
      let '(w, fd) := connect_openocd w in
      if 0 <=? fd then (w, fd) else wait_openocd n (br_sleep w 1000000) fd
  end.
Fixpoint wait_router (retries : nat) (w : W) (sock : Z) : W :=
  match retries with
  | O => w
  | S n =>
      let '(w, r) := br_connect w sock RouterAddr in
      if r =? 0 then w else wait_router n (br_sleep w 1000000) sock
  end.

(** The request [[0, 1, ..register, [set_pin_by_name]]]. *)
Definition reg_pkt : list Z := [0x94; 0; 1; 0xaa] ++ cstr "$/register" ++ [0x91; 0xaf] ++ cstr "set_pin_by_name".
(** [m] is the buffer of 4096 bytes before anything is read.  The result is the value
    of [main] with the state of the system. *)
Definition bridge_main (fuel : nat) (w : W) (m : list Z) : outcome (Z * W) :=
  let '(w, fd) := wait_openocd 10 w (-1) in
  st ← (if 0 <=? fd then init_stm32_hw (BridgeSt w fd) else Done (BridgeSt w fd));
  let '(w, sock) := br_socket (b_w st) AF_UNIX in
  if sock <? 0 then Done (1, w)
  else
    let w := wait_router 15 w sock in
    let '(w, n) := br_write w sock reg_pkt in
    if n <? 0 then Done (1, br_close w sock)
    else
      let '(w, n, bs) := br_read w sock sizeof_buf in
      if n <=? 0 then Done (1, br_close w sock)
      else
        w ← request_loop fuel (BridgeSt w (g_openocd_fd st)) sock (store m 0 bs) 0;
        Done (0, w).
End Bridge.
Arguments bridge : clear implicits.
