(* ===== verification/BridgeProps.v ===== *)
(** * The RPC bridge: parsing the stream, and the pins *)
From Stdlib Require Import String.
From S2P Require Import Prelude CString Paths Bridge.
#[local] Open Scope Z_scope.

(** ** Parsers

    [rpc_ok p m len Q]: on a buffer with [len] bytes in use [p] does not fail, depends on
    these bytes only, gives the same value or refusal when more bytes follow, asks for
    more only when there are few, and its values satisfy [Q]. *)
Definition rpc_ok {A} (p : rpc_parser A) (m : list Z) (len : Z) (Q : A -> Prop) : Prop :=
  exists r, p m len = Done r /\
    (forall m' len', take (Z.to_nat len) m' = take (Z.to_nat len) m -> len <= len' <= zlen m' ->
       r <> inl 0 \/ len' = len -> p m' len' = Done r) /\
    match r with inr a => Q a | inl c => c = 0 /\ len < 74 \/ c = -1 end.

Section Parsers.
Context (m : list Z) (len : Z) (Hlen : 0 <= len <= zlen m).

Lemma ok_ret {A} (a : A) (Q : A -> Prop) : Q a -> rpc_ok (rpc_ret a) m len Q.
Proof. intros Ha. by exists (inr a). Qed.
Lemma ok_fail {A} (Q : A -> Prop) : rpc_ok rpc_fail m len Q.
Proof. exists (inl (-1)). split; [done|]. split; [done|by right]. Qed.
Lemma ok_bind {A B} (p : rpc_parser A) (k : A -> rpc_parser B) Q R :
  rpc_ok p m len Q -> (forall a, Q a -> rpc_ok (k a) m len R) -> rpc_ok (rpc_bind p k) m len R.
Proof.
  intros ([c|a] & E & Hm & Ha) Hk.
  - exists (inl c). split; [unfold rpc_bind; rewrite E; done|]. split; [|done].
    intros m' len' H1 H2 H3. unfold rpc_bind. rewrite (Hm m' len' H1 H2); [done|]. destruct H3; [left; congruence|by right].
  - destruct (Hk a Ha) as (r & E2 & Hm2 & Hr). exists r. split; [unfold rpc_bind; rewrite E; exact E2|]. split; [|done].
    intros m' len' H1 H2 H3. unfold rpc_bind. rewrite (Hm m' len' H1 H2) by (by left). by apply Hm2.
Qed.
Lemma ok_if {A} (b : bool) (p q : rpc_parser A) Q :
  (b = true -> rpc_ok p m len Q) -> (b = false -> rpc_ok q m len Q) -> rpc_ok (if b then p else q) m len Q.
Proof. destruct b; auto. Qed.
Lemma ok_need n : n <= 74 -> rpc_ok (rpc_need n) m len (fun _ => n <= len).
Proof.
  intros Hn. unfold rpc_need. destruct (len <? n) eqn:E; reflect_bools.
  - exists (inl 0). split; [by rewrite (proj2 (Z.ltb_lt _ _) E)|]. split; [|left; lia].
    intros m' len' _ H2 [H3| ->]; [done|]. by rewrite (proj2 (Z.ltb_lt _ _) E).
  - exists (inr tt). split; [by rewrite (proj2 (Z.ltb_ge _ _) E)|]. split; [|lia].
    intros m' len' _ H2 _. by rewrite (proj2 (Z.ltb_ge _ _)) by lia.
Qed.
Lemma same_bytes m' len' pos n : take (Z.to_nat len) m' = take (Z.to_nat len) m -> len <= len' <= zlen m' ->
  0 <= pos -> 0 <= n -> pos + n <= len -> exists bs, read_mem m pos n = Done bs /\ read_mem m' pos n = Done bs /\ zlen bs = n.
Proof.
  intros H1 H2 Hp Hn Hs. exists (take (Z.to_nat n) (drop (Z.to_nat pos) m)).
  assert (Hcut : forall l : list Z, take (Z.to_nat n) (drop (Z.to_nat pos) l) =
                   take (Z.to_nat n) (drop (Z.to_nat pos) (take (Z.to_nat len) l))).
  { intros l. rewrite !take_drop_commute, take_take. do 2 f_equal. lia. }
  split_and!.
  - apply read_mem_done. split_and!; [lia..|done].
  - apply read_mem_done. split_and!; [lia..|]. by rewrite (Hcut m'), H1, <- Hcut.
  - unfold zlen in *. rewrite length_take, length_drop. lia.
Qed.
Lemma ok_bytes pos n : 0 <= pos -> 0 <= n -> pos + n <= len -> rpc_ok (rpc_bytes pos n) m len (fun bs => zlen bs = n).
Proof.
  intros Hp Hn Hs. destruct (same_bytes m len pos n) as (bs & E & _ & Hz); [done|lia..|].
  exists (inr bs). unfold rpc_bytes. rewrite E. run. split; [done|]. split; [|done].
  intros m' len' H1 H2 _. destruct (same_bytes m' len' pos n) as (bs' & E1 & E2 & _); [done..|]. rewrite E2. run. congruence.
Qed.
Lemma ok_byte pos : 0 <= pos -> pos + 1 <= len -> rpc_ok (rpc_byte pos) m len (fun _ => True).
Proof.
  intros Hp Hs. destruct (same_bytes m len pos 1) as (bs & E & _ & Hz); [done|lia..|].
  exists (inr (le_value bs)). unfold rpc_byte. rewrite E. run. split; [done|]. split; [|done].
  intros m' len' H1 H2 _. destruct (same_bytes m' len' pos 1) as (bs' & E1 & E2 & _); [done|lia..|]. rewrite E2. run. congruence.
Qed.
End Parsers.

Ltac rpc_step :=
  first [ apply ok_if; intros ? | apply ok_ret | apply ok_fail
        | eapply ok_bind; [apply ok_need; lia|cbn beta; intros _ ?]
        | eapply ok_bind; [apply ok_byte; [done|lia..]|intros ? _]
        | eapply ok_bind; [apply ok_bytes; [done|lia..]|cbn beta; intros ? ?] ].

Section Request.
Context (m : list Z) (len : Z) (Hlen : 0 <= len <= zlen m).

Lemma ok_msg_id : 3 <= len -> rpc_ok (rpc_msg_id 2) m len (fun '(_, pos) => 3 <= pos <= 7 /\ pos <= len).
Proof. intros H3. unfold rpc_msg_id. repeat rpc_step; lia. Qed.
Lemma ok_fixstr pos max : 0 <= pos <= 42 -> pos <= len -> max = 32 ->
  rpc_ok (rpc_fixstr pos max) m len (fun '(s, pos') => pos < pos' <= pos + 32 /\ pos' <= len /\ zlen s <= 31).
Proof.
  intros Hp Hl ->. unfold rpc_fixstr. repeat rpc_step.
  match goal with |- context [Z.land ?b 31] => set (n := Z.land b 31) end.
  assert (Hn : 0 <= n < 32) by (subst n; change 31 with (Z.ones 5); rewrite Z.land_ones by lia; by apply Z.mod_pos_bound).
  assert (Ecut : (if n <? 32 - 1 then n else 32 - 1) = n) by (destruct (n <? 32 - 1) eqn:E; reflect_bools; lia).
  rewrite Ecut. repeat rpc_step; lia.
Qed.
Lemma ok_value pos : 0 <= pos <= 72 -> pos <= len -> rpc_ok (rpc_value pos) m len (fun '(v, pos') => pos < pos' <= pos + 2 /\ pos' <= len /\ 0 <= v <= 1).
Proof. intros Hp Hl. unfold rpc_value. repeat rpc_step; try lia. case_match; lia. Qed.
Lemma ok_request : rpc_ok parse_rpc_request m len (fun '(n, r) => 0 < n <= len /\ zlen (r_method r) <= 31 /\ zlen (r_pin r) <= 31).
Proof.
  unfold parse_rpc_request. repeat rpc_step.
  eapply ok_bind; [apply ok_msg_id; lia|]. intros [id p1] [K1 K2].
  eapply ok_bind; [apply ok_fixstr; [lia..|done]|]. intros [method p2] (K3 & K4 & K5). repeat rpc_step.
  eapply ok_bind with (Q := fun '(s, p3) => p2 < p3 <= p2 + 33 /\ p3 <= len /\ zlen s <= 31).
  { apply ok_if; intros _; [|apply ok_ret; unfold zlen; cbn; lia].
    destruct (ok_fixstr (p2 + 1) pin_max ltac:(lia) ltac:(lia) eq_refl) as (r & E & Hm & Hr). exists r. split; [done|].
    split; [done|]. destruct r as [|[s p3]]; [done|lia]. }
  intros [pin p3] (K6 & K7 & K8).
  eapply ok_bind with (Q := fun '(v, p4) => p3 <= p4 /\ p4 <= len).
  { apply ok_if; intros _; [|apply ok_ret; lia].
    destruct (ok_value p3 ltac:(lia) ltac:(lia)) as (r & E & Hm & Hr). exists r. split; [done|].
    split; [done|]. destruct r as [|[v p4]]; [done|lia]. }
  intros [val p4] [K9 K10]. apply ok_ret. cbn [r_method r_pin]. lia.
Qed.
End Request.

(** ** Requests on the wire *)

Definition fixstr (s : list Z) : list Z := (0xa0 + zlen s) :: s.
Definition wire_request (r : rpc_request) : list Z :=
  [0x94; 0] ++ encode_msg_id (r_msg_id r) ++ fixstr (r_method r) ++ [0x92] ++ fixstr (r_pin r)
  ++ [if r_val r =? 0 then 0xc2 else 0xc3].
Definition request_ok (r : rpc_request) : Prop :=
  0 <= r_msg_id r < 2 ^ 32 /\ zlen (r_method r) <= 31 /\ zlen (r_pin r) <= 31 /\ 0 <= r_val r <= 1.

Lemma byte_at_mid pre b rest pos len : pos = zlen pre -> rpc_byte pos (pre ++ b :: rest) len = Done (inr b).
Proof.
  intros ->. unfold rpc_byte. rewrite (proj2 (read_mem_done _ (zlen pre) 1 [b])); [run; do 2 f_equal; cbn; lia|].
  unfold zlen. rewrite length_app. cbn [length]. split_and!; [lia..|]. rewrite Nat2Z.id, drop_app_length. done.
Qed.
Lemma bytes_at_mid pre s rest pos n len : pos = zlen pre -> n = zlen s -> rpc_bytes pos n (pre ++ s ++ rest) len = Done (inr s).
Proof.
  intros -> ->. unfold rpc_bytes. rewrite (proj2 (read_mem_done _ (zlen pre) (zlen s) s)); [done|].
  unfold zlen. rewrite !length_app. split_and!; [lia..|]. by rewrite !Nat2Z.id, drop_app_length, take_app_length.
Qed.
Lemma need_there n m len : n <= len -> rpc_need n m len = Done (inr tt).
Proof. intros Hn. unfold rpc_need. by rewrite (proj2 (Z.ltb_ge _ _)). Qed.
Lemma bind_value {A B} (p : rpc_parser A) (k : A -> rpc_parser B) m len a :
  p m len = Done (inr a) -> rpc_bind p k m len = k a m len.
Proof. intros E. unfold rpc_bind. by rewrite E. Qed.

Lemma fixstr_at pre s rest pos max len : pos = zlen pre -> zlen s <= 31 -> max = 32 -> pos + 1 + zlen s <= len ->
  rpc_fixstr pos max (pre ++ fixstr s ++ rest) len = Done (inr (s, pos + 1 + zlen s)).
Proof.
  intros Hpos Hs -> Hlen. assert (Hz : 0 <= zlen s) by (unfold zlen; lia). unfold rpc_fixstr, fixstr. cbn [app].
  rewrite (bind_value _ _ _ _ tt) by (apply need_there; lia).
  rewrite (bind_value _ _ _ _ (160 + zlen s)) by by apply byte_at_mid.
  assert (Hhi : Z.land (160 + zlen s) 224 = 160 /\ Z.land (160 + zlen s) 31 = zlen s).
  { assert (E : 0 <= zlen s < 32) by lia. revert E. generalize (zlen s) as z. intros z Hzz.
    assert (Hall : forallb (fun z => (Z.land (160 + z) 224 =? 160) && (Z.land (160 + z) 31 =? z)) (map Z.of_nat (seq 0 32)) = true) by done.
    rewrite forallb_forall in Hall. specialize (Hall z). rewrite andb_true_iff, !Z.eqb_eq in Hall. apply Hall.
    apply in_map_iff. exists (Z.to_nat z). split; [lia|]. apply in_seq. lia. }
  destruct Hhi as [-> ->]. cbn [negb Z.eqb Pos.eqb]. change (32 - 1) with 31.
  rewrite (bind_value _ _ _ _ tt) by (apply need_there; lia).
  assert ((if zlen s <? 31 then zlen s else 31) = zlen s) as -> by (destruct (zlen s <? 31) eqn:E; reflect_bools; lia).
  rewrite (cons_middle _ pre), app_assoc.
  rewrite (bind_value _ _ _ _ s); [done|]. apply bytes_at_mid; [|done]. unfold zlen in *. rewrite length_app. cbn [length]. lia.
Qed.

Lemma byte_nth pre l pos (k : nat) b len : pos = zlen pre -> l !! k = Some b ->
  rpc_byte (pos + Z.of_nat k) (pre ++ l) len = Done (inr b).
Proof.
  intros -> Hk. rewrite <- (take_drop_middle l k b Hk), app_assoc. apply byte_at_mid. apply lookup_lt_Some in Hk.
  unfold zlen. rewrite length_app, length_take. lia.
Qed.
Lemma word16_bytes v : 0 <= v < 2 ^ 16 -> Z.lor (Z.shiftl (u8 (Z.shiftr v 8)) 8) (u8 (Z.land v 0xff)) = v.
Proof. intros Hv. rewrite land_ff, Z.shiftr_div_pow2, Z.shiftl_mul_pow2, lor_add by word_lia. word_lia. Qed.
Lemma word32_bytes v : 0 <= v < 2 ^ 32 ->
  Z.lor (Z.lor (Z.lor (u32 (Z.shiftl (u8 (Z.shiftr v 24)) 24)) (Z.shiftl (u8 (Z.land (Z.shiftr v 16) 0xff)) 16))
    (Z.shiftl (u8 (Z.land (Z.shiftr v 8) 0xff)) 8)) (u8 (Z.land v 0xff)) = v.
Proof.
  intros Hv. rewrite !land_ff, !Z.shiftr_div_pow2, !Z.shiftl_mul_pow2 by lia. unfold u8.
  set (a := (v / 2 ^ 24) mod 2 ^ 8). set (b := ((v / 2 ^ 16) mod 256) mod 2 ^ 8).
  set (c := ((v / 2 ^ 8) mod 256) mod 2 ^ 8). set (d := (v mod 256) mod 2 ^ 8).
  assert (Ha : 0 <= a < 256) by (subst a; word_lia). assert (Hb : 0 <= b < 256) by (subst b; word_lia).
  assert (Hc : 0 <= c < 256) by (subst c; word_lia). assert (Hd : 0 <= d < 256) by (subst d; word_lia).
  assert (Hsum : a * 2 ^ 24 + b * 2 ^ 16 + c * 2 ^ 8 + d = v) by (subst a b c d; word_lia).
  rewrite u32_small by lia. rewrite (lor_add a (b * 2 ^ 16) 24) by lia.
  replace (a * 2 ^ 24 + b * 2 ^ 16) with ((a * 2 ^ 8 + b) * 2 ^ 16) by lia. rewrite lor_add by lia.
  replace ((a * 2 ^ 8 + b) * 2 ^ 16 + c * 2 ^ 8) with (((a * 2 ^ 8 + b) * 2 ^ 8 + c) * 2 ^ 8) by lia.
  rewrite lor_add by lia. lia.
Qed.

Ltac rpc_run := repeat first
  [ rewrite (bind_value (rpc_need _) _ _ _ tt) by (apply need_there; lia)
  | erewrite (bind_value (rpc_byte (_ + 1)) _ _ _) by (by apply (byte_nth _ _ _ 1))
  | erewrite (bind_value (rpc_byte (_ + 2)) _ _ _) by (by apply (byte_nth _ _ _ 2))
  | erewrite (bind_value (rpc_byte (_ + 3)) _ _ _) by (by apply (byte_nth _ _ _ 3))
  | erewrite (bind_value (rpc_byte (_ + 4)) _ _ _) by (by apply (byte_nth _ _ _ 4)) ].
Lemma msg_id_at pre id rest pos len : pos = zlen pre -> 0 <= id < 2 ^ 32 -> pos + zlen (encode_msg_id id) <= len ->
  rpc_msg_id pos (pre ++ encode_msg_id id ++ rest) len = Done (inr (id, pos + zlen (encode_msg_id id))).
Proof.
  intros Hpos Hid. unfold encode_msg_id, rpc_msg_id. destruct (id <=? 0x7f) eqn:E1; reflect_bools.
  { intros _. rewrite (bind_value _ _ _ _ (u8 id)) by by apply byte_at_mid.
    assert (u8 id = id) as -> by (unfold u8; apply Z.mod_small; lia). by rewrite (proj2 (Z.leb_le _ _)). }
  destruct (id <=? 0xff) eqn:E2; [|destruct (id <=? 0xffff) eqn:E3]; reflect_bools; unfold zlen at 1; cbn [length]; intros Hlen;
    (erewrite (bind_value (rpc_byte pos)) by by apply byte_at_mid); cbn [Z.leb Z.eqb Z.compare Pos.compare Pos.compare_cont Pos.eqb];
    rpc_run.
  - by assert (u8 id = id) as -> by (unfold u8; apply Z.mod_small; lia).
  - by rewrite word16_bytes by lia.
  - by rewrite word32_bytes by lia.
Qed.

(** A request is parsed to itself, whatever follows it. *)
Lemma parse_wire r rest len : request_ok r -> zlen (wire_request r) <= len ->
  parse_rpc_request (wire_request r ++ rest) len = Done (inr (zlen (wire_request r), r)).
Proof.
  destruct r as [id method pin val]. intros (Hid & Hm & Hp & Hv) Hlen. cbn [r_msg_id r_method r_pin r_val] in *.
  unfold wire_request in *. cbn [r_msg_id r_method r_pin r_val] in *.
  set (ids := encode_msg_id id) in *. set (v := if val =? 0 then 0xc2 else 0xc3) in *.
  assert (Hz : zlen ([148; 0] ++ ids ++ fixstr method ++ [146] ++ fixstr pin ++ [v]) =
               2 + zlen ids + 1 + zlen method + 1 + 1 + zlen pin + 1).
  { unfold zlen, fixstr. rewrite !length_app. cbn [length]. rewrite ?length_app. cbn [length]. lia. }
  rewrite Hz in *. assert (Hi : 1 <= zlen ids) by (unfold ids, encode_msg_id, zlen; repeat case_match; cbn; lia).
  assert (0 <= zlen method /\ 0 <= zlen pin) as [Hm0 Hp0] by (unfold zlen; lia).
  unfold parse_rpc_request. rewrite <- !app_assoc. cbn [app].
  rewrite (bind_value (rpc_need 4) _ _ _ tt) by (apply need_there; lia).
  rewrite (bind_value (rpc_byte 0) _ _ _ 148) by (by apply (byte_at_mid [])). cbn [negb Z.eqb Pos.eqb].
  rewrite (bind_value (rpc_byte 1) _ _ _ 0) by (by apply (byte_at_mid [148])). cbn [negb Z.eqb].
  rewrite (bind_value (rpc_msg_id 2) _ _ _ (id, 2 + zlen ids)) by (apply (msg_id_at [148; 0]); [done..|unfold ids in *; lia]).
  set (pre1 := [148; 0] ++ ids). set (pre2 := pre1 ++ fixstr method). set (pre3 := pre2 ++ [146] ++ fixstr pin).
  assert (Hl1 : zlen pre1 = 2 + zlen ids) by (unfold pre1, zlen; rewrite length_app; cbn [length]; lia).
  assert (Hl2 : zlen pre2 = zlen pre1 + 1 + zlen method) by (unfold pre2, fixstr, zlen; rewrite length_app; cbn [length]; lia).
  assert (Hl3 : zlen pre3 = zlen pre2 + 1 + 1 + zlen pin) by (unfold pre3, fixstr, zlen; rewrite !length_app; cbn [length]; lia).
  rewrite <- Hl1 in *.
  assert (Em : 148 :: 0 :: ids ++ fixstr method ++ 146 :: fixstr pin ++ v :: rest = pre3 ++ v :: rest).
  { unfold pre3, pre2, pre1. by rewrite <- !app_assoc. }
  assert (Em2 : pre3 ++ v :: rest = pre2 ++ 146 :: fixstr pin ++ v :: rest) by (unfold pre3; by rewrite <- !app_assoc).
  assert (Em1 : pre3 ++ v :: rest = pre1 ++ fixstr method ++ 146 :: fixstr pin ++ v :: rest)
    by (unfold pre3, pre2; by rewrite <- !app_assoc).
  rewrite Em. rewrite (bind_value (rpc_fixstr (zlen pre1) method_max) _ _ _ (method, zlen pre2))
    by (rewrite Em1, Hl2; apply fixstr_at; [done|lia|done|lia]).
  rewrite (bind_value (rpc_need _) _ _ _ tt) by (apply need_there; lia).
  rewrite (bind_value (rpc_byte (zlen pre2)) _ _ _ 146) by (rewrite Em2; by apply byte_at_mid).
  cbv beta iota zeta. change (Z.land 146 240) with 144. change (Z.land 146 15) with 2. cbn [negb Z.eqb Pos.eqb Z.leb Z.compare Pos.compare Pos.compare_cont].
  rewrite (bind_value (rpc_fixstr (zlen pre2 + 1) pin_max) _ _ _ (pin, zlen pre3)).
  2:{ rewrite Em2, Hl3, (cons_middle _ pre2), app_assoc. apply fixstr_at; [|lia|done|lia]. unfold zlen. rewrite length_app. cbn [length]. lia. }
  rewrite (bind_value (rpc_value (zlen pre3)) _ _ _ (val, zlen pre3 + 1)).
  - unfold rpc_ret. do 3 f_equal. lia.
  - unfold rpc_value. rewrite (bind_value (rpc_need _) _ _ _ tt) by (apply need_there; lia).
    rewrite (bind_value (rpc_byte (zlen pre3)) _ _ _ v) by by apply byte_at_mid. unfold v.
    destruct (val =? 0) eqn:Ev; reflect_bools; cbn; unfold rpc_ret; do 3 f_equal; lia.
Qed.

(** ** What is relied on

    The debugger and the router take what is written; [bl_in] are the pieces in which the
    bytes of the router will be read, [bl_log] is what was written. *)
Class BridgeLaws (W : Type) `{BridgeOps W} := {
  bl_in : W -> list (list Z);
  bl_log : W -> list (Z * list Z);
  bl_write w fd bs : exists w', br_write w fd bs = (w', zlen bs) /\ bl_log w' = bl_log w ++ [(fd, bs)] /\ bl_in w' = bl_in w;
  bl_sleep w us : bl_log (br_sleep w us) = bl_log w /\ bl_in (br_sleep w us) = bl_in w;
  bl_recv w fd n : bl_log (br_recv w fd n) = bl_log w /\ bl_in (br_recv w fd n) = bl_in w;
  bl_read w fd n : 0 < n -> exists w', bl_log w' = bl_log w /\
    match bl_in w with
    | [] => br_read w fd n = (w', 0, [])
    | c :: cs => zlen c <= n -> br_read w fd n = (w', zlen c, c) /\ bl_in w' = cs
    end }.

(** ** Pins *)

Definition GPIOB_BSRR : Z := 0x42020418.
Definition GPIOH_BSRR : Z := 0x42021c18.
(** The pin of port H behind a light. *)
Definition leds : list (list Z * Z) :=
  [(cstr "LED3_R", 10); (cstr "LED3_G", 11); (cstr "LED3_B", 12); (cstr "LED4_R", 13); (cstr "LED4_G", 14); (cstr "LED4_B", 15)].
Definition led_pin (name : list Z) : option Z := option_map snd (find (fun kv => bool_decide (name = kv.1)) leds).
(** A bit of the register sets a pin, the bit 16 places above it resets it. *)
Definition drive (pin : Z) (high : bool) : Z := if high then 2 ^ pin else 2 ^ (pin + 16).
(** The writes of registers that make an action. *)
Definition pin_writes (name : list Z) (val : Z) : list (Z * Z) :=
  let high := negb (val =? 0) in
  if bool_decide (name = cstr "D13") then [(GPIOB_BSRR, drive 13 high); (GPIOH_BSRR, drive 12 (negb high))]
  else match led_pin name with Some pin => [(GPIOH_BSRR, drive pin high)] | None => [] end.
Definition mww (av : Z * Z) : list Z := cstr "mww 0x" ++ hex_digits 8 av.1 ++ cstr " 0x" ++ hex_digits 8 av.2.

(** The output bits of a port behind each register, after a write. *)
Definition bsrr (odr v : Z) : Z := Z.lor (Z.ldiff odr (Z.shiftr v 16)) (Z.land v 0xffff).
Definition registers : Type := Z -> Z.
Definition reg_write (regs : registers) (av : Z * Z) : registers :=
  fun a => if a =? av.1 then bsrr (regs a) av.2 else regs a.

Lemma bsrr_drive odr pin high i : 0 <= pin < 16 -> 0 <= i ->
  Z.testbit (bsrr odr (drive pin high)) i = if i =? pin then high else Z.testbit odr i.
Proof.
  intros Hp Hi. unfold bsrr, drive. change 0xffff with (Z.ones 16). rewrite Z.lor_spec, Z.ldiff_spec, Z.shiftr_spec by lia.
  rewrite Z.land_spec. destruct high; rewrite !Z.pow2_bits_eqb by lia.
  - rewrite (proj2 (Z.eqb_neq pin (i + 16))) by lia. cbn [negb]. rewrite andb_true_r.
    destruct (Z.eqb_spec i pin) as [->|Hn].
    + rewrite Z.eqb_refl, Z.ones_spec_low by lia. by rewrite orb_true_r.
    + rewrite (proj2 (Z.eqb_neq pin i)) by lia. by rewrite orb_false_r.
  - destruct (Z.eqb_spec i pin) as [->|Hn].
    + rewrite Z.eqb_refl, (proj2 (Z.eqb_neq (pin + 16) pin)) by lia. by rewrite andb_false_r.
    + rewrite (proj2 (Z.eqb_neq (pin + 16) (i + 16))) by lia. rewrite andb_true_r.
      destruct (Z.eqb_spec (pin + 16) i); [|by rewrite orb_false_r]. subst. rewrite Z.ones_spec_high by lia. by rewrite orb_false_r.
Qed.

Section Serve.
Context {W : Type} `{BridgeLaws W}.

Definition logged (w w' : W) (l : list (Z * list Z)) : Prop := bl_log w' = bl_log w ++ l /\ bl_in w' = bl_in w.
Lemma logged_refl w : logged w w [].
Proof. by split; rewrite ?app_nil_r. Qed.
Lemma logged_trans w1 w2 w3 l1 l2 : logged w1 w2 l1 -> logged w2 w3 l2 -> logged w1 w3 (l1 ++ l2).
Proof. intros [E1 E2] [F1 F2]. split; [by rewrite F1, E1, app_assoc|congruence]. Qed.
Lemma write_logged w fd bs : exists w', br_write w fd bs = (w', zlen bs) /\ logged w w' [(fd, bs)].
Proof. destruct (bl_write w fd bs) as (w' & E & F). by exists w'. Qed.

(** The lines of commands, for a debugger that is connected. *)
Definition lines (fd : Z) (cmds : list (list Z)) : list (Z * list Z) := map (fun c => (fd, c ++ [10])) cmds.
Lemma send_connected w fd cmd : 0 <= fd -> zlen cmd <= 254 ->
  exists w', send_openocd (BridgeSt w fd) cmd = Done (BridgeSt w' fd) /\ logged w w' (lines fd [cmd]).
Proof.
  intros Hfd Hc. unfold send_openocd. cbn [g_openocd_fd b_w]. rewrite !(proj2 (Z.ltb_ge _ _)) by done.
  assert (El : snprintf_line cmd = Done (cmd ++ [10])).
  { unfold snprintf_line, zlen in *. rewrite take_ge by (rewrite length_app; cbn [length]; lia). apply read_mem_done.
    unfold zlen. rewrite !length_app. cbn [length]. split_and!; [lia..|]. rewrite drop_0, Nat2Z.id.
    rewrite take_app_length' by (rewrite length_app; cbn; lia). done. }
  rewrite El. run. destruct (write_logged w fd (cmd ++ [10])) as (w1 & -> & Hl).
  rewrite (proj2 (Z.ltb_ge _ _)) by (unfold zlen; lia). eexists. split; [done|].
  destruct (bl_sleep w1 2000) as [E1 E2]. destruct (bl_recv (br_sleep w1 2000) fd 512) as [E3 E4].
  destruct Hl as [F1 F2]. split; unfold lines; cbn [map]; congruence.
Qed.
Lemma send_all_connected cmds w fd : 0 <= fd -> Forall (fun c => zlen c <= 254) cmds ->
  exists w', send_all (BridgeSt w fd) cmds = Done (BridgeSt w' fd) /\ logged w w' (lines fd cmds).
Proof.
  intros Hfd Hc. revert w. induction Hc as [|cmd cmds Hcmd _ IH]; intros w.
  - exists w. split; [done|apply logged_refl].
  - cbn [send_all]. destruct (send_connected w fd cmd Hfd Hcmd) as (w1 & -> & H1). run.
    destruct (IH w1) as (w2 & -> & H2). exists w2. split; [done|]. apply (logged_trans _ _ _ _ _ H1 H2).
Qed.

Lemma pin_action w fd pin val : 0 <= fd ->
  exists w', execute_pin_action (BridgeSt w fd) pin val = Done (BridgeSt w' fd) /\
    logged w w' (lines fd (map mww (pin_writes pin val))).
Proof.
  intros Hfd. unfold execute_pin_action, pin_writes. case_bool_decide as E0.
  { destruct (val =? 0); by apply send_all_connected; [|repeat constructor]. }
  assert (Hled : forall n low high, low = 2 ^ (n + 16) -> high = 2 ^ n ->
    zlen (led_cmd val low high) <= 254 /\ led_cmd val low high = mww (GPIOH_BSRR, drive n (negb (val =? 0)))).
  { intros n low high -> ->. unfold led_cmd, drive. by destruct (val =? 0). }
  unfold led_pin, leds. cbn [find fst].
  repeat (case_bool_decide; [cbn [option_map snd map]; match goal with |- context [drive ?n _] =>
    destruct (Hled n _ _ eq_refl eq_refl) as [Hz Hc]; rewrite <- Hc; by apply send_connected end|]).
  exists w. split; [done|apply logged_refl].
Qed.

(** ** The stream of requests *)

(** What a request makes the bridge write. *)
Definition served (fd sock : Z) (r : rpc_request) : list (Z * list Z) :=
  (if bool_decide (before_nul (r_method r) = cstr "set_pin_by_name")
   then lines fd (map mww (pin_writes (before_nul (r_pin r)) (r_val r))) else []) ++ [(sock, resp_pkt (r_msg_id r))].
Lemma answer_served w fd sock r : 0 <= fd ->
  exists w', answer (BridgeSt w fd) sock r = Done (BridgeSt w' fd, true) /\ logged w w' (served fd sock r).
Proof.
  intros Hfd. unfold answer, served. case_bool_decide.
  - destruct (pin_action w fd (before_nul (r_pin r)) (r_val r) Hfd) as (w1 & -> & L1). run. cbn [b_w].
    destruct (write_logged w1 sock (resp_pkt (r_msg_id r))) as (w2 & -> & L2). exists w2.
    rewrite (proj2 (Z.ltb_ge _ _)) by (unfold zlen; lia). split; [done|]. by apply (logged_trans _ _ _ _ _ L1).
  - run. cbn [b_w]. destruct (write_logged w sock (resp_pkt (r_msg_id r))) as (w2 & -> & L2). exists w2.
    by rewrite (proj2 (Z.ltb_ge _ _)) by (unfold zlen; lia).
Qed.

Lemma wire_nonempty r : 0 < zlen (wire_request r).
Proof. unfold wire_request, zlen. cbn [app length]. lia. Qed.
(** The bytes in use that are left. *)
Lemma shift_down_take m n k : 0 <= n <= k -> k <= zlen m ->
  zlen (shift_down m n k) = zlen m /\ take (Z.to_nat (k - n)) (shift_down m n k) = drop (Z.to_nat n) (take (Z.to_nat k) m).
Proof.
  intros Hn Hk. unfold shift_down, zlen in *. split.
  - rewrite length_app, length_take, !length_drop. lia.
  - assert (El : length (take (Z.to_nat (k - n)) (drop (Z.to_nat n) m)) = Z.to_nat (k - n)) by (rewrite length_take, length_drop; lia).
    rewrite take_app_le by lia. rewrite take_take, Nat.min_id, take_drop_commute. do 2 f_equal. lia.
Qed.
(** A request that is not complete is not taken for anything else. *)
Lemma parse_incomplete m k r x : 0 <= k <= zlen m -> request_ok r -> k < zlen (wire_request r) ->
  (exists y, take (Z.to_nat k) m ++ x = wire_request r ++ y) -> parse_rpc_request m k = Done (inl 0) /\ k < 74.
Proof.
  intros Hk Hr Hlt [y Ey]. destruct (ok_request m k Hk) as (res & E & Hmono & Hres).
  assert (Hor : res = inl 0 \/ res <> inl 0)
    by (destruct res as [c|a]; [destruct (decide (c = 0)) as [->|]; [by left|right; congruence]|by right]).
  destruct Hor as [->|Hn]; [split; [done|]; lia|].
  assert (E2 : parse_rpc_request (take (Z.to_nat k) m ++ x) (zlen (wire_request r)) = Done res).
  { apply Hmono; [| |by left].
    - rewrite take_app_le by (rewrite length_take; unfold zlen in Hk; lia). by rewrite take_take, Nat.min_id.
    - rewrite Ey. unfold zlen in *. rewrite length_app. lia. }
  rewrite Ey, parse_wire in E2 by done || lia. injection E2 as <-. lia.
Qed.

Lemma stream_done rs : concat (map wire_request rs) = [] -> rs = [].
Proof.
  destruct rs as [|r rs]; [done|]. pose proof (wire_nonempty r) as Hr. intros Hs. apply (f_equal length) in Hs.
  cbn [map concat] in Hs. rewrite length_app in Hs. unfold zlen in Hr. cbn [length] in Hs. lia.
Qed.

(** The buffer holds the beginning of the stream [rs], the rest of which is [x]. *)
Definition holds (m : list Z) (k : Z) (x : list Z) (rs : list rpc_request) : Prop :=
  0 <= k <= zlen m /\ take (Z.to_nat k) m ++ x = concat (map wire_request rs).
(** What processing leaves: a piece of a request, if anything. *)
Definition left_over (m : list Z) (k : Z) (x : list Z) (rs : list rpc_request) : Prop :=
  holds m k x rs /\ k < 74 /\ (x = [] -> rs = []).

Lemma process_serves fuel w fd sock m k x rs : 0 <= fd -> (Z.to_nat k <= fuel)%nat -> Forall request_ok rs -> holds m k x rs ->
  exists w' m' k' now later, rs = now ++ later /\
    process fuel (BridgeSt w fd) sock m k = Done (BridgeSt w' fd, m', k', true) /\ zlen m' = zlen m /\
    left_over m' k' x later /\ logged w w' (concat (map (served fd sock) now)).
Proof.
  intros Hfd. revert w m k rs. induction fuel as [|fuel IH]; intros w m k rs Hf Hrs [Hk Hs]; cbn [process].
  all: destruct (0 <? k) eqn:E; reflect_bools; [try lia|exists w, m, k, [], rs].
  1,3: assert (k = 0) as -> by lia; split_and!; try done; [|apply logged_refl];
    split; [done|]; split; [lia|]; intros ->; by apply stream_done.
  destruct Hrs as [|r rs Hr Hrs].
  { apply (f_equal length) in Hs. rewrite length_app, length_take in Hs. unfold zlen in Hk. cbn [map concat length] in Hs. lia. }
  cbn [map concat] in Hs. destruct (Z.lt_ge_cases k (zlen (wire_request r))) as [Hlt|Hge].
  - destruct (parse_incomplete m k r x Hk Hr Hlt ltac:(by eexists)) as [-> H74]. run. cbn [Z.eqb].
    exists w, m, k, [], (r :: rs). split_and!; try done; [|apply logged_refl]. split; [done|]. split; [done|].
    intros ->. rewrite app_nil_r in Hs. apply (f_equal length) in Hs. rewrite length_take, length_app in Hs.
    unfold zlen in *. lia.
  - pose proof (wire_nonempty r) as Hne. set (n := zlen (wire_request r)) in *.
    assert (Ew : take (Z.to_nat n) m = wire_request r).
    { apply (f_equal (take (Z.to_nat n))) in Hs. rewrite take_app_le, take_take, Nat.min_l in Hs by (rewrite ?length_take; unfold zlen in Hk; lia).
      rewrite Hs. unfold n, zlen. by rewrite Nat2Z.id, take_app_length. }
    assert (Ep : parse_rpc_request m k = Done (inr (n, r))).
    { rewrite <- (take_drop (Z.to_nat n) m), Ew. apply parse_wire; [done|lia]. }
    rewrite Ep. run. destruct (answer_served w fd sock r Hfd) as (w1 & -> & L1). run.
    destruct (shift_down_take m n k ltac:(lia) ltac:(lia)) as [Hz Ht].
    destruct (IH w1 (shift_down m n k) (k - n) rs ltac:(lia) Hrs) as (w2 & m' & k' & now & later & -> & -> & Hz' & Hl & L2).
    { split; [lia|]. rewrite Ht. apply (f_equal (drop (Z.to_nat n))) in Hs. rewrite drop_app_le in Hs by (rewrite length_take; unfold zlen in Hk; lia).
      rewrite Hs. unfold n, zlen. by rewrite Nat2Z.id, drop_app_length. }
    exists w2, m', k', (r :: now), later. split_and!; try done; [lia|]. by apply (logged_trans _ _ _ _ _ L1 L2).
Qed.

Lemma store_take m k bs : 0 <= k -> k + zlen bs <= zlen m ->
  zlen (store m k bs) = zlen m /\ take (Z.to_nat (k + zlen bs)) (store m k bs) = take (Z.to_nat k) m ++ bs.
Proof.
  intros Hk Hb. unfold store, zlen in *. assert (El : length (take (Z.to_nat k) m) = Z.to_nat k) by (rewrite length_take; lia). split.
  - rewrite !length_app, El, length_drop. lia.
  - rewrite app_assoc, take_app_le by (rewrite length_app; lia). apply take_ge. rewrite length_app. lia.
Qed.

Lemma loop_serves cs fuel w fd sock m k rs : 0 <= fd -> zlen m = sizeof_buf -> bl_in w = cs ->
  Forall (fun c => 0 < zlen c <= 4000) cs -> Forall request_ok rs -> left_over m k (concat cs) rs -> (length cs < fuel)%nat ->
  exists w', request_loop fuel (BridgeSt w fd) sock m k = Done (cleanup (BridgeSt w' fd) sock) /\
    bl_log w' = bl_log w ++ concat (map (served fd sock) rs).
Proof.
  intros Hfd. revert fuel w m k rs. induction cs as [|c cs IH]; intros fuel w m k rs Hm Hin Hcs Hrs ([Hk Hs] & H74 & Hend) Hf;
    (destruct fuel as [|fuel]; [cbn in Hf; lia|]); cbn [request_loop g_openocd_fd b_w];
    unfold sizeof_buf in *; rewrite (proj2 (Z.ltb_lt 0 _)) by lia;
    destruct (bl_read w sock (4096 - k) ltac:(lia)) as (w1 & El & Er); rewrite Hin in Er.
  - rewrite Er. cbn [andb Z.leb Z.compare]. exists w1. rewrite (Hend eq_refl), El. split; [done|]. by rewrite app_nil_r.
  - apply Forall_cons in Hcs as [Hc Hcs]. destruct (Er ltac:(lia)) as [-> Hin1]. rewrite (proj2 (Z.leb_gt _ _)), andb_false_r by lia.
    destruct (store_take m k c ltac:(lia) ltac:(lia)) as [Hz Ht].
    destruct (process_serves (Z.to_nat (k + zlen c)) w1 fd sock (store m k c) (k + zlen c) (concat cs) rs Hfd ltac:(lia) Hrs)
      as (w2 & m' & k' & now & later & -> & -> & Hz' & Hl & L1 & L2).
    { split; [lia|]. by rewrite Ht, <- app_assoc. }
    run. destruct (IH fuel w2 m' k' later) as (w3 & -> & L3); [lia|congruence|done|by apply Forall_app in Hrs as [_ Hrs]|done|cbn in Hf; lia|].
    exists w3. split; [done|]. by rewrite L3, L1, El, map_app, concat_app, app_assoc.
Qed.

(** C5: however the stream of requests is cut into pieces, each request is answered, once and
    in order, after its pin was driven; a piece of a request stays in the buffer until
    the rest of it has come. *)
Theorem bridge_serves_stream fuel w fd sock m rs : 0 <= fd -> zlen m = sizeof_buf -> Forall request_ok rs ->
  Forall (fun c => 0 < zlen c <= 4000) (bl_in w) -> concat (bl_in w) = concat (map wire_request rs) ->
  (length (bl_in w) < fuel)%nat ->
  exists w', request_loop fuel (BridgeSt w fd) sock m 0 = Done (cleanup (BridgeSt w' fd) sock) /\
    bl_log w' = bl_log w ++ concat (map (served fd sock) rs).
Proof.
  intros Hfd Hm Hrs Hcs Hs Hf. apply (loop_serves (bl_in w)); try done. split; [|split; [lia|intros E]].
  - split; [unfold sizeof_buf in Hm; lia|]. by rewrite take_0.
  - apply stream_done. by rewrite <- Hs.
Qed.

(** C30: the writes of an action drive the output it names to the value, and with D13 the blue
    light to its opposite; no other output of the ports changes. *)
Theorem pin_action_drives w fd pin val (regs : registers) port i : 0 <= fd -> 0 <= i ->
  exists w', execute_pin_action (BridgeSt w fd) pin val = Done (BridgeSt w' fd) /\
    logged w w' (lines fd (map mww (pin_writes pin val))) /\
    let high := negb (val =? 0) in
    Z.testbit (fold_left reg_write (pin_writes pin val) regs port) i =
    if bool_decide (pin = cstr "D13") && (port =? GPIOB_BSRR) && (i =? 13) then high
    else if bool_decide (pin = cstr "D13") && (port =? GPIOH_BSRR) && (i =? 12) then negb high
    else if (port =? GPIOH_BSRR) && bool_decide (led_pin pin = Some i) then high
    else Z.testbit (regs port) i.
Proof.
  intros Hfd Hi. destruct (pin_action w fd pin val Hfd) as (w' & E & L). exists w'. split; [done|]. split; [done|]. cbv zeta.
  unfold pin_writes. case_bool_decide as E0.
  - subst pin. cbn [fold_left andb]. unfold reg_write. cbn [fst snd].
    destruct (Z.eqb_spec port GPIOB_BSRR) as [->|Hb].
    + change (GPIOB_BSRR =? GPIOH_BSRR) with false. cbn [andb]. by rewrite bsrr_drive.
    + destruct (Z.eqb_spec port GPIOH_BSRR) as [->|Hh]; cbn [andb]; [|done]. rewrite bsrr_drive by lia.
      change (led_pin (cstr "D13")) with (@None Z). done.
  - cbn [andb]. assert (Hpin : forall n, led_pin pin = Some n -> 0 <= n < 16).
    { unfold led_pin, leds. cbn [find]. intros n. repeat case_match; cbn [option_map snd]; intros [= <-]; lia || done. }
    destruct (led_pin pin) as [n|]; cbn [fold_left].
    + unfold reg_write. cbn [fst snd]. destruct (Z.eqb_spec port GPIOH_BSRR) as [->|Hh]; cbn [andb]; [|done].
      rewrite bsrr_drive by by auto. case_bool_decide as E1; [injection E1 as ->; by rewrite Z.eqb_refl|].
      rewrite (proj2 (Z.eqb_neq i n)); [done|congruence].
    + by rewrite andb_false_r.
Qed.
End Serve.

(** ** Any bytes at all *)

Section Total.
Context {W : Type} `{BridgeOps W}.

Lemma send_openocd_returns st cmd : zlen cmd <= 254 -> exists st', send_openocd st cmd = Done st'.
Proof.
  intros Hc. unfold send_openocd. destruct (if g_openocd_fd st <? 0 then _ else _) as [w fd].
  destruct (fd <? 0); [by eexists|]. unfold snprintf_line.
  assert (zlen (cmd ++ [10]) <= zlen (take 255 (cmd ++ [10]) ++ [0])) as Hz.
  { unfold zlen in *. rewrite !length_app, length_take, length_app. cbn [length]. lia. }
  destruct (read_mem_ok (take 255 (cmd ++ [10]) ++ [0]) 0 (zlen (cmd ++ [10]))) as [line ->]; [lia|unfold zlen; lia|lia|]. run.
  destruct (br_write w fd _) as [w1 r]. destruct (if r <? 0 then _ else _) as [w2 fd2]. by eexists.
Qed.
Lemma send_all_returns cmds st : Forall (fun c => zlen c <= 254) cmds -> exists st', send_all st cmds = Done st'.
Proof.
  intros Hc. revert st. induction Hc as [|cmd cmds Hcmd _ IH]; intros st; [by eexists|]. cbn [send_all].
  destruct (send_openocd_returns st cmd Hcmd) as [st1 ->]. apply IH.
Qed.
Lemma execute_returns st pin val : exists st', execute_pin_action st pin val = Done st'.
Proof.
  unfold execute_pin_action. repeat case_match; try (by eexists); try (by apply send_all_returns; repeat constructor);
    apply send_openocd_returns; unfold led_cmd; by destruct (val =? 0).
Qed.
Lemma answer_returns st sock r : exists st' ok, answer st sock r = Done (st', ok).
Proof.
  unfold answer. case_bool_decide; [destruct (execute_returns st (before_nul (r_pin r)) (r_val r)) as [st1 ->]|]; run;
    destruct (br_write _ sock _) as [w n]; by do 2 eexists.
Qed.
Lemma resync_returns fuel m skip len : 0 <= skip <= len -> len <= zlen m -> len - skip <= Z.of_nat fuel ->
  exists s, resync fuel m skip len = Done s /\ skip <= s <= len.
Proof.
  revert skip. induction fuel as [|fuel IH]; intros skip Hs Hl Hf; cbn [resync].
  all: destruct (skip + 1 <? len) eqn:E; reflect_bools; [|exists skip; split; [done|lia]]; try lia.
  destruct (read_mem_ok m skip 1) as [b0 ->]; [lia..|]. destruct (read_mem_ok m (skip + 1) 1) as [b1 ->]; [lia..|]. run.
  destruct (_ && _); [exists skip; split; [done|lia]|]. destruct (IH (skip + 1)) as (s & -> & Hss); [lia..|]. exists s. split; [done|lia].
Qed.

(** The buffer is processed to its end. *)
Lemma process_returns st sock m k : 0 <= k <= zlen m ->
  exists st' m' k' go, process (Z.to_nat k) st sock m k = Done (st', m', k', go) /\ zlen m' = zlen m /\ 0 <= k' <= k /\
    (go = true -> k' < 74).
Proof.
  remember (Z.to_nat k) as fuel eqn:Ef. assert (Hf : (Z.to_nat k <= fuel)%nat) by lia. clear Ef. revert st m k Hf.
  induction fuel as [|fuel IH]; intros st m k Hf Hk; cbn [process].
  all: destruct (0 <? k) eqn:E; reflect_bools; [try lia|exists st, m, k, true; split_and!; done || lia].
  destruct (ok_request m k Hk) as ([c|[n r]] & -> & _ & Hr); run.
  - destruct (Z.eqb_spec c 0) as [->|Hc]; [exists st, m, k, true; split_and!; done || lia|].
    destruct (resync_returns (Z.to_nat k) m 1 k) as (s & -> & Hs); [lia..|]. run.
    destruct (shift_down_take m s k ltac:(lia) ltac:(lia)) as [Hz _].
    destruct (IH st (shift_down m s k) (k - s)) as (st' & m' & k' & go & -> & Hz' & Hk' & Hgo); [lia..|].
    exists st', m', k', go. split_and!; done || lia.
  - destruct (answer_returns st sock r) as (st1 & ok & ->). run.
    destruct ok; [|exists st1, m, k, false; split_and!; done || lia].
    destruct (shift_down_take m n k ltac:(lia) ltac:(lia)) as [Hz _].
    destruct (IH st1 (shift_down m n k) (k - n)) as (st' & m' & k' & go & -> & Hz' & Hk' & Hgo); [lia..|].
    exists st', m', k', go. split_and!; done || lia.
Qed.

(** C29: whatever bytes the buffer holds, processing ends, without reading behind them, and when
    it is to go on less than 74 bytes are left: the buffer never fills up. *)
Theorem process_terminates st sock m k : 0 <= k <= zlen m ->
  exists st' m' k' go, process (Z.to_nat k) st sock m k = Done (st', m', k', go) /\ zlen m' = zlen m /\ 0 <= k' <= k /\
    (go = true -> k' < 74).
Proof. apply process_returns. Qed.

(** [read] stores the bytes it counts, and not more than it may. *)
Definition reads_fit : Prop :=
  forall (w w' : W) fd n r bs, br_read w fd n = (w', r, bs) -> 0 < r -> zlen bs = r /\ r <= n.

Lemma request_loop_safe fuel st sock m k f : reads_fit -> zlen m = sizeof_buf -> 0 <= k < 74 ->
  request_loop fuel st sock m k <> Fault f.
Proof.
  intros Hread. revert st m k. induction fuel as [|fuel IH]; intros st m k Hm Hk; cbn [request_loop]; [done|].
  unfold sizeof_buf in *. rewrite (proj2 (Z.ltb_lt 0 _)) by lia. destruct (br_read (b_w st) sock (4096 - k)) as [[w n] bs] eqn:Er.
  cbn [andb]. destruct (n <=? 0) eqn:En; reflect_bools; [done|]. destruct (Hread _ _ _ _ _ _ Er En) as [Hbs Hn].
  destruct (store_take m k bs ltac:(lia) ltac:(lia)) as [Hz _].
  destruct (process_returns (BridgeSt w (g_openocd_fd st)) sock (store m k bs) (k + n)) as (st' & m' & k' & go & -> & Hz' & Hk' & Hgo);
    [lia|]. run. destruct go; [|done]. apply IH; [lia|]. specialize (Hgo eq_refl). lia.
Qed.

(** Whatever the router sends and whatever fails, the bridge never leaves its buffers. *)
Theorem bridge_main_safe fuel w m : reads_fit -> zlen m = sizeof_buf -> forall f, bridge_main fuel w m <> Fault f.
Proof.
  intros Hread Hm f. unfold bridge_main. destruct (wait_openocd 10 w (-1)) as [w1 fd].
  assert (Hinit : exists st, (if 0 <=? fd then init_stm32_hw (BridgeSt w1 fd) else Done (BridgeSt w1 fd)) = Done st).
  { destruct (0 <=? fd); [|by eexists]. by apply send_all_returns; repeat constructor. }
  destruct Hinit as [st ->]. run. destruct (br_socket (b_w st) AF_UNIX) as [w2 sock]. destruct (sock <? 0); [done|].
  destruct (br_write (wait_router 15 w2 sock) sock reg_pkt) as [w3 n]. destruct (n <? 0); [done|].
  destruct (br_read w3 sock sizeof_buf) as [[w4 n2] bs] eqn:Er. destruct (n2 <=? 0) eqn:En; reflect_bools; [done|].
  destruct (Hread _ _ _ _ _ _ Er En) as [Hbs Hn]. destruct (store_take m 0 bs ltac:(lia) ltac:(lia)) as [Hz _].
  pose proof (request_loop_safe fuel (BridgeSt w4 (g_openocd_fd st)) sock (store m 0 bs) 0 f Hread ltac:(lia) ltac:(lia)) as Hl.
  revert Hl. destruct (request_loop _ _ _ _ _); run; congruence.
Qed.
End Total.

(** ** A system to try it on *)

Record wires := Wires { wi_in : list (list Z); wi_log : list (Z * list Z) }.
#[local] Instance wires_ops : BridgeOps wires := {
  br_socket w fam := (w, match fam with AF_INET => 5 | AF_UNIX => 6 end);
  br_connect w _ _ := (w, 0);
  br_close w _ := w;
  br_sleep w _ := w;
  br_recv w _ _ := w;
  br_write w fd bs := (Wires (wi_in w) (wi_log w ++ [(fd, bs)]), zlen bs);
  br_read w _ n :=
    match wi_in w with
    | [] => (w, 0, [])
    | c :: cs => if zlen c <=? n then (Wires cs (wi_log w), zlen c, c) else (w, -1, [])
    end }.
#[local] Instance wires_laws : BridgeLaws wires.
Proof.
  refine {| bl_in := wi_in; bl_log := wi_log |}; [|done|done|].
  - intros w fd bs. by eexists.
  - intros w fd n _. destruct w as [[|c cs] log].
    + by eexists.
    + exists (Wires cs log). split; [done|]. intros Hc. cbn. by rewrite (proj2 (Z.leb_le _ _)).
Defined.

Definition demo_requests : list rpc_request :=
  [Rpc 7 (cstr "set_pin_by_name") (cstr "LED3_G") 0; Rpc 70000 (cstr "set_pin_by_name") (cstr "D13") 1; Rpc 300 (cstr "ping") [] 0].
(** The requests of the demonstration, in pieces of seven bytes. *)
Definition demo_pieces : list (list Z) :=
  let s := concat (map wire_request demo_requests) in map (fun i => take 7 (drop (7 * i) s)) (seq 0 10).
Lemma bridge_serves_stream_witness :
  concat demo_pieces = concat (map wire_request demo_requests) /\
  exists w', request_loop 13 (BridgeSt (Wires demo_pieces []) 5) 6 (replicate 4096 0) 0 = Done (cleanup (BridgeSt w' 5) 6) /\
    bl_log w' = bl_log (Wires demo_pieces []) ++ concat (map (served 5 6) demo_requests).
Proof.
  assert (E : concat demo_pieces = concat (map wire_request demo_requests)) by by vm_compute.
  split; [exact E|]. apply (bridge_serves_stream 13 (Wires demo_pieces []) 5 6 (replicate 4096 0) demo_requests).
  - lia.
  - by vm_compute.
  - unfold request_ok. apply (bool_decide_unpack _). by vm_compute.
  - apply (bool_decide_unpack _). by vm_compute.
  - exact E.
  - vm_compute. lia.
Defined.
Lemma pin_action_drives_witness :
  exists w', execute_pin_action (BridgeSt (Wires [] []) 5) (cstr "LED4_R") 1 = Done (BridgeSt w' 5) /\
    logged (Wires [] []) w' (lines 5 (map mww (pin_writes (cstr "LED4_R") 1))) /\
    let high := negb (1 =? 0) in
    Z.testbit (fold_left reg_write (pin_writes (cstr "LED4_R") 1) (fun _ => 0) GPIOH_BSRR) 13 =
    if bool_decide (cstr "LED4_R" = cstr "D13") && (GPIOH_BSRR =? GPIOB_BSRR) && (13 =? 13) then high
    else if bool_decide (cstr "LED4_R" = cstr "D13") && (GPIOH_BSRR =? GPIOH_BSRR) && (13 =? 12) then negb high
    else if (GPIOH_BSRR =? GPIOH_BSRR) && bool_decide (led_pin (cstr "LED4_R") = Some 13) then high
    else Z.testbit ((fun _ => 0) GPIOH_BSRR) 13.
Proof. apply (pin_action_drives (Wires [] []) 5 (cstr "LED4_R") 1 (fun _ => 0) GPIOH_BSRR 13); lia. Defined.
Lemma process_terminates_witness :
  exists st' m' k' go, process (Z.to_nat 4) (BridgeSt (Wires [] []) 5) 6 [1; 0x94; 0; 2; 9; 9] 4 = Done (st', m', k', go) /\
    zlen m' = zlen [1; 0x94; 0; 2; 9; 9] /\ 0 <= k' <= 4 /\ (go = true -> k' < 74).
Proof. apply (process_terminates (BridgeSt (Wires [] []) 5) 6 [1; 0x94; 0; 2; 9; 9] 4). by vm_compute. Defined.
Lemma wires_fit : @reads_fit wires _.
Proof.
  intros [[|c cs] log] w' fd n r bs; cbn; [intros [= <- <- <-]; lia|].
  destruct (zlen c <=? n) eqn:E; reflect_bools; intros [= <- <- <-]; [done|lia].
Qed.
Lemma bridge_main_safe_witness : bridge_main 3 (Wires [[0x94]; [1; 2; 3; 4; 5]] []) (replicate 4096 0) <> Fault OutOfBounds.
Proof. apply (bridge_main_safe 3 _ (replicate 4096 0) wires_fit). by vm_compute. Defined.
