(* ===== verification/Waiter.v ===== *)
(** * Waiting for sockets and timers (qrtr/src/waiter.c)

    Tickets are named by numbers; the list of a waiter holds the names in the order of
    the intrusive list ([CList] shows that the list is one).  A callback may change the
    waiter while the list is walked: the walk continues from the ticket it is at. *)
From S2P Require Import Prelude.
#[local] Open Scope Z_scope.

Inductive ticket_kind := WATCH_TYPE_NULL | WATCH_TYPE_FD (filedes : Z) | WATCH_TYPE_TIMEOUT (interval : Z).
(** [callback] is the data of the callback, when there is one; [start] has 64 bits,
    an interval 32. *)
Record ticket := Ticket { tk_kind : ticket_kind; tk_callback : option Z; tk_start : Z; tk_updated : bool }.
(** The array behind a pollset has [ps_size] places; [ps_fds] are those in use. *)
Record pollset := Pollset { ps_size : Z; ps_fds : list Z; ps_cause : Z }.
Record waiter := Waiter { w_tickets : list (Z * ticket); w_pollset : option pollset; w_count : Z; w_next : Z }.

(** The time in seconds and microseconds, [poll] with the descriptors that have an event, and memory. *)
Class WaiterOps (W : Type) := {
  wo_gettimeofday : W -> W * (Z * Z);
  wo_poll : W -> list Z -> Z -> W * Z * list bool;
  wo_calloc : W -> W * bool }.

(** The milliseconds, and what [util_sleep] gives to [usleep] (qrtr/src/util.c). *)
Definition time_ms {W : Type} `{WaiterOps W} (w : W) : W * Z :=
  let '(w, (sec, usec)) := wo_gettimeofday w in (w, u64 (u64 sec * 1000 + Z.quot usec 1000)).
Definition util_sleep (ms : Z) : outcome Z :=
  if (- 2 ^ 31 <=? ms * 1000) && (ms * 1000 <? 2 ^ 31) then Done (u32 (ms * 1000)) else Fault Overflow.

Definition tickets_get (l : list (Z * ticket)) (id : Z) : option ticket :=
  option_map snd (find (fun it => it.1 =? id) l).
Definition tickets_put (l : list (Z * ticket)) (id : Z) (t : ticket) : list (Z * ticket) :=
  map (fun it => if it.1 =? id then (id, t) else it) l.
(** The ticket behind [id]. *)
Fixpoint tickets_after (l : list (Z * ticket)) (id : Z) : option (list (Z * ticket)) :=
  match l with
  | [] => None
  | it :: l' => if it.1 =? id then Some l' else tickets_after l' id
  end.
Definition set_ticket (w : waiter) (id : Z) (t : ticket) : waiter :=
  Waiter (tickets_put (w_tickets w) id t) (w_pollset w) (w_count w) (w_next w).
(** A ticket that is not in the list was freed. *)
Definition get_ticket (w : waiter) (id : Z) : outcome ticket := of_option NullPointer (tickets_get (w_tickets w) id).
Definition set_pollset (w : waiter) (ps : pollset) : waiter := Waiter (w_tickets w) (Some ps) (w_count w) (w_next w).

(** ** Pollsets *)

Definition pollset_create (count : Z) : pollset := Pollset count [] 0.
Definition pollset_reset (ps : pollset) : pollset := Pollset (ps_size ps) [] (ps_cause ps).
Definition pollset_add_fd (ps : pollset) (fd : Z) : outcome pollset :=
  if ps_size ps <=? zlen (ps_fds ps) then Fault OutOfBounds
  else Done (Pollset (ps_size ps) (ps_fds ps ++ [fd]) (ps_cause ps)).
Fixpoint first_event (i : Z) (revents : list bool) : Z :=
  match revents with [] => -1 | e :: l => if (e : bool) then i else first_event (i + 1) l end.
Definition pollset_cause_fd (ps : pollset) (fd : Z) : bool :=
  (0 <=? ps_cause ps) && bool_decide (ps_fds ps !! Z.to_nat (ps_cause ps) = Some fd).

(** ** Tickets *)

Definition waiter_ticket_set_null (t : ticket) : ticket :=
  Ticket WATCH_TYPE_NULL (tk_callback t) (tk_start t) (tk_updated t).
Definition waiter_ticket_set_fd (t : ticket) (fd : Z) : ticket :=
  Ticket (WATCH_TYPE_FD fd) (tk_callback t) (tk_start t) (tk_updated t).
Definition waiter_ticket_check (t : ticket) : Z := if tk_updated t then 0 else -1.
Definition waiter_ticket_clear (t : ticket) : Z * ticket :=
  (waiter_ticket_check t, Ticket (tk_kind t) (tk_callback t) (tk_start t) false).
Definition waiter_ticket_callback (t : ticket) (data : Z) : ticket :=
  Ticket (tk_kind t) (Some data) (tk_start t) (tk_updated t).

Section Waiter.
Context {W : Type} `{WaiterOps W}.

Definition pollset_wait (w : W) (ps : pollset) (ms : Z) : W * Z * pollset :=
  let '(w, rc, revents) := wo_poll w (ps_fds ps) ms in
  if rc <=? 0 then (w, rc, ps) else (w, rc, Pollset (ps_size ps) (ps_fds ps) (first_event 0 revents)).

Definition waiter_ticket_set_timeout (w : W) (t : ticket) (ms : Z) : W * ticket :=
  let '(w, now) := time_ms w in
  (w, Ticket (WATCH_TYPE_TIMEOUT (u32 ms)) (tk_callback t) now (tk_updated t)).

Definition waiter_create (w : W) : W * option waiter :=
  let '(w, ok) := wo_calloc w in (w, if (ok : bool) then Some (Waiter [] None 0 1) else None).
(** The name of the ticket, which is linked even when the pollset is not available. *)
Definition waiter_add_null (w : W) (wt : waiter) : W * waiter * option Z :=
  let '(w, ok) := wo_calloc w in
  if negb ok then (w, wt, None)
  else
    let id := w_next wt in
    let tickets := w_tickets wt ++ [(id, Ticket WATCH_TYPE_NULL None 0 false)] in
    let '(w, ps, failed) :=
      if w_count wt mod 32 =? 0 then
        let '(w, ok) := wo_calloc w in
        if (ok : bool) then (w, Some (pollset_create (w_count wt + 33)), false) else (w, None, true)
      else (w, w_pollset wt, false) in
    if (failed : bool) then (w, Waiter tickets ps (w_count wt) (id + 1), None)
    else (w, Waiter tickets ps (w_count wt + 1) (id + 1), Some id).
Definition update_ticket (wt : waiter) (id : Z) (f : ticket -> ticket) : waiter :=
  match tickets_get (w_tickets wt) id with Some t => set_ticket wt id (f t) | None => wt end.
Definition waiter_add_fd (w : W) (wt : waiter) (fd : Z) : W * waiter * option Z :=
  match waiter_add_null w wt with
  | (w, wt, Some id) => (w, update_ticket wt id (fun t => waiter_ticket_set_fd t fd), Some id)
  | r => r
  end.
Definition waiter_add_timeout (w : W) (wt : waiter) (ms : Z) : W * waiter * option Z :=
  match waiter_add_null w wt with
  | (w, wt, Some id) =>
      match tickets_get (w_tickets wt) id with
      | Some t => let '(w, t) := waiter_ticket_set_timeout w t ms in (w, set_ticket wt id t, Some id)
      | None => (w, wt, Some id)
      end
  | r => r
  end.
Definition waiter_ticket_delete (wt : waiter) (id : Z) : waiter :=
  Waiter (List.filter (fun it => negb (it.1 =? id)) (w_tickets wt)) (w_pollset wt) (w_count wt - 1) (w_next wt).

(** ** Timers with one interval run together *)

Definition timer_of (t : ticket) : option Z := match tk_kind t with WATCH_TYPE_TIMEOUT i => Some i | _ => None end.
(** The first later timer with the interval starts with this one. *)
Fixpoint start_next (interval start : Z) (l : list (Z * ticket)) : list (Z * ticket) :=
  match l with
  | [] => []
  | (id, t) :: l' =>
      if bool_decide (timer_of t = Some interval)
      then (id, Ticket (tk_kind t) (tk_callback t) start (tk_updated t)) :: l'
      else (id, t) :: start_next interval start l'
  end.
Fixpoint synchronize_loop (n : nat) (l : list (Z * ticket)) : list (Z * ticket) :=
  match n, l with
  | S n', (id, t) :: l' =>
      (id, t) :: synchronize_loop n' (match timer_of t with Some i => start_next i (tk_start t) l' | None => l' end)
  | _, _ => l
  end.
Definition waiter_synchronize (wt : waiter) : waiter :=
  Waiter (synchronize_loop (length (w_tickets wt)) (w_tickets wt)) (w_pollset wt) (w_count wt) (w_next wt).

(** ** Waiting *)

Definition max_u64 : Z := 2 ^ 64 - 1.
Definition deadline (t : ticket) (interval : Z) : Z := u64 (tk_start t + interval).
(** The earliest deadline and the descriptors, in the order of the list. *)
Fixpoint collect (l : list (Z * ticket)) (term_time : Z) (ps : pollset) : outcome (Z * pollset) :=
  match l with
  | [] => Done (term_time, ps)
  | (_, t) :: l' =>
      match tk_kind t with
      | WATCH_TYPE_TIMEOUT interval =>
          collect l' (if deadline t interval <? term_time then deadline t interval else term_time) ps
      | WATCH_TYPE_FD fd => ps ← pollset_add_fd ps fd; collect l' term_time ps
      | WATCH_TYPE_NULL => collect l' term_time ps
      end
  end.

(** The callback, by its data and the name of the ticket it is for. *)
Context (callback : Z -> Z -> W -> waiter -> outcome (W * waiter)).

(** What happened to a ticket, and the ticket after it. *)
Definition check_ticket (now rc : Z) (ps : pollset) (t : ticket) : bool * ticket :=
  match tk_kind t with
  | WATCH_TYPE_TIMEOUT interval =>
      if deadline t interval <=? now
      then (negb (tk_updated t), Ticket (tk_kind t) (tk_callback t) now (tk_updated t)) else (false, t)
  | WATCH_TYPE_FD fd => (negb (rc =? 0) && pollset_cause_fd ps fd && negb (tk_updated t), t)
  | WATCH_TYPE_NULL => (false, t)
  end.
Definition set_updated (t : ticket) : ticket := Ticket (tk_kind t) (tk_callback t) (tk_start t) true.
(** The walk along the list, from the ticket [id] on. *)
Fixpoint notify_loop (fuel : nat) (w : W) (wt : waiter) (now rc : Z) (ps : pollset) (id : Z) : outcome (W * waiter) :=
  match fuel with
  | O => OutOfFuel
  | S fuel' =>
      t ← get_ticket wt id;
      let '(fresh, t) := check_ticket now rc ps t in
      let wt := set_ticket wt id (if (fresh : bool) then set_updated t else t) in
      '(w, wt) ← match tk_callback t with
                 | Some data => if (fresh : bool) then callback data id w wt else Done (w, wt)
                 | None => Done (w, wt)
                 end;
      rest ← of_option NullPointer (tickets_after (w_tickets wt) id);
      match rest with
      | [] => Done (w, wt)
      | (next, _) :: _ => notify_loop fuel' w wt now rc ps next
      end
  end.
Definition notify (fuel : nat) (w : W) (wt : waiter) (now rc : Z) (ps : pollset) : outcome (W * waiter) :=
  match w_tickets wt with
  | [] => Done (w, wt)
  | (id, _) :: _ => notify_loop fuel w wt now rc ps id
  end.

(** The time [poll] is given, in milliseconds. *)
Definition poll_time (now term_time : Z) : Z := Z.min (term_time - now) (2 ^ 31 - 1).
Definition waiter_wait (fuel : nat) (w : W) (wt : waiter) : outcome (W * waiter) :=
  ps ← of_option NullPointer (w_pollset wt);
  '(term_time, ps) ← collect (w_tickets wt) max_u64 (pollset_reset ps);
  let '(w, rc, ps) :=
    if term_time =? max_u64 then pollset_wait w ps (-1)
    else
      let '(w, now) := time_ms w in
      if term_time <=? now then (w, 0, ps) else pollset_wait w ps (poll_time now term_time) in
  let wt := set_pollset wt ps in
  if rc <? 0 then Done (w, wt)
  else let '(w, now) := time_ms w in notify fuel w wt now rc ps.

(** The ticket on the stack is linked under the name 0. *)
Definition waiter_wait_timeout (fuel : nat) (w : W) (wt : waiter) (ms : Z) : outcome (W * waiter * Z) :=
  let '(w, t) := waiter_ticket_set_timeout w (Ticket WATCH_TYPE_NULL None 0 false) ms in
  '(w, wt) ← waiter_wait fuel w (Waiter (w_tickets wt ++ [(0, t)]) (w_pollset wt) (w_count wt + 1) (w_next wt));
  t ← get_ticket wt 0;
  Done (w, waiter_ticket_delete wt 0, if waiter_ticket_check t =? 0 then -1 else 0).
End Waiter.
