(* ===== verification/WaiterProps.v ===== *)
(** * Waiting: capacity, deadlines and who is called *)
From S2P Require Import Prelude Waiter.
#[local] Open Scope Z_scope.

(** ** The invariant

    The names of the tickets differ, [count] is their number, and the pollset has a
    place for each of them, although it is only replaced every 32 tickets. *)
Definition ids (l : list (Z * ticket)) : list Z := map fst l.
Definition room (count : Z) (ps : option pollset) : Prop :=
  match ps with
  | Some ps => exists m, m mod 32 = 0 /\ 0 <= m /\ ps_size ps = m + 33 /\ count <= m + 32
  | None => count = 0
  end.
Record waiter_ok (wt : waiter) : Prop := {
  wk_nodup : NoDup (ids (w_tickets wt));
  wk_next : Forall (fun id => 0 < id < w_next wt) (ids (w_tickets wt));
  wk_pos : 0 < w_next wt;
  wk_count : w_count wt = zlen (w_tickets wt);
  wk_room : room (w_count wt) (w_pollset wt) }.

Lemma ids_put l id t : ids (tickets_put l id t) = ids l.
Proof.
  unfold ids, tickets_put. rewrite map_map. apply map_ext. intros [i t']. cbn. by destruct (Z.eqb_spec i id) as [->|].
Qed.
Lemma set_ticket_ok wt id t : waiter_ok wt -> waiter_ok (set_ticket wt id t).
Proof.
  intros [H1 H2 H3 H4 H5]. split; cbn; rewrite ?ids_put; try done. unfold zlen, tickets_put. by rewrite length_map.
Qed.
Lemma update_ticket_ok wt id f : waiter_ok wt -> waiter_ok (update_ticket wt id f).
Proof. intros Hwt. unfold update_ticket. destruct (tickets_get _ _); [by apply set_ticket_ok|done]. Qed.

Section Ops.
Context {W : Type} `{WaiterOps W}.

Lemma create_ok w w' wt : waiter_create w = (w', Some wt) -> waiter_ok wt /\ w_tickets wt = [].
Proof.
  unfold waiter_create. destruct (wo_calloc w) as [w1 [|]]; [|done]. intros [= _ <-]. split; [|done].
  split; cbn; try done; constructor.
Qed.
Lemma add_null_ok w wt w' wt' id : waiter_ok wt -> waiter_add_null w wt = (w', wt', Some id) ->
  waiter_ok wt' /\ id = w_next wt /\ w_tickets wt' = w_tickets wt ++ [(id, Ticket WATCH_TYPE_NULL None 0 false)].
Proof.
  intros [H1 H2 H3 H4 H5]. unfold waiter_add_null. destruct (wo_calloc w) as [w1 [|]]; cbn [negb]; [|done].
  assert (Hok : forall ps, room (w_count wt + 1) ps ->
    waiter_ok (Waiter (w_tickets wt ++ [(w_next wt, Ticket WATCH_TYPE_NULL None 0 false)]) ps (w_count wt + 1) (w_next wt + 1))).
  { intros ps Hps. unfold ids in *. split; cbn; unfold ids; rewrite ?map_app; cbn [map fst].
    - apply NoDup_app. split; [done|]. split; [|apply NoDup_singleton]. intros i Hi ->%list_elem_of_singleton.
      rewrite Forall_forall in H2. specialize (H2 _ Hi). lia.
    - apply Forall_app. split; [|constructor; [lia|constructor]]. eapply Forall_impl; [exact H2|]. cbn. lia.
    - lia.
    - rewrite H4. unfold zlen. rewrite length_app. cbn [length]. lia.
    - done. }
  destruct (w_count wt mod 32 =? 0) eqn:E; reflect_bools.
  - destruct (wo_calloc w1) as [w2 [|]]; [|done]. intros [= _ <- <-]. split; [|done]. apply Hok.
    exists (w_count wt). cbn. split_and!; try done; unfold zlen in H4; lia.
  - intros [= _ <- <-]. split; [|done]. apply Hok. destruct (w_pollset wt) as [ps|]; cbn in *; [|by rewrite H5 in E].
    destruct H5 as (m & Hm & Hm0 & Hs & Hc). exists m. split_and!; try done.
    destruct (decide (w_count wt = m + 32)) as [Em|]; [|lia]. rewrite Em, <- Zplus_mod_idemp_l, Hm in E. done.
Qed.
Lemma add_fd_ok w wt fd w' wt' id : waiter_ok wt -> waiter_add_fd w wt fd = (w', wt', Some id) -> waiter_ok wt'.
Proof.
  intros Hwt. unfold waiter_add_fd. destruct (waiter_add_null w wt) as [[w1 wt1] [i|]] eqn:E; [|done].
  intros [= _ <- _]. apply update_ticket_ok. by apply (add_null_ok _ _ _ _ _ Hwt E).
Qed.
Lemma add_timeout_ok w wt ms w' wt' id : waiter_ok wt -> waiter_add_timeout w wt ms = (w', wt', Some id) -> waiter_ok wt'.
Proof.
  intros Hwt. unfold waiter_add_timeout. destruct (waiter_add_null w wt) as [[w1 wt1] [i|]] eqn:E; [|done].
  apply (add_null_ok _ _ _ _ _ Hwt) in E as [Hok _]. destruct (tickets_get _ _) as [t|].
  - destruct (waiter_ticket_set_timeout _ _ _) as [w2 t2]. intros [= _ <- _]. by apply set_ticket_ok.
  - by intros [= _ <- _].
Qed.
Lemma filter_ids l id : ids (List.filter (fun it : Z * ticket => negb (it.1 =? id)) l) = List.filter (fun i => negb (i =? id)) (ids l).
Proof. induction l as [|[i t] l IH]; [done|]. cbn [List.filter ids map fst]. destruct (negb _); cbn [ids map fst]; [by f_equal|done]. Qed.
Lemma delete_ok wt id : waiter_ok wt -> id ∈ ids (w_tickets wt) -> waiter_ok (waiter_ticket_delete wt id).
Proof.
  intros [H1 H2 H3 H4 H5] Hid. split; cbn; rewrite ?filter_ids; try done.
  - by apply NoDup_ListNoDup, List.NoDup_filter, NoDup_ListNoDup.
  - apply Forall_forall. intros i Hi. apply list_elem_of_In, filter_In in Hi as [Hi _].
    rewrite Forall_forall in H2. by apply H2, list_elem_of_In.
  - rewrite H4. clear - H1 Hid. unfold zlen. assert (Hl : length (w_tickets wt) = S (length (List.filter (fun it => negb (it.1 =? id)) (w_tickets wt)))); [|lia].
    revert H1 Hid. generalize (w_tickets wt) as l. induction l as [|[i t] l IH]; cbn [ids map fst List.filter]; [by intros _ ?%elem_of_nil|].
    intros [Hni Hnd]%NoDup_cons Hid. destruct (Z.eqb_spec i id) as [->|Hne]; cbn [negb length].
    + f_equal. clear - Hni. induction l as [|[j t'] l IH]; [done|]. cbn [ids map fst List.filter] in *.
      apply not_elem_of_cons in Hni as [Hj Hl]. rewrite (proj2 (Z.eqb_neq _ _)) by congruence. cbn [negb length]. f_equal. by apply IH.
    + f_equal. apply IH; [done|]. by apply elem_of_cons in Hid as [->|].
  - rewrite H4 in *. unfold room in *. destruct (w_pollset wt) as [ps|].
    + destruct H5 as (m & Hm & Hm0 & Hs & Hc). exists m. split_and!; done || lia.
    + unfold zlen in H5. destruct (w_tickets wt); [by apply elem_of_nil in Hid|cbn in H5; lia].
Qed.
End Ops.

(** ** What a wait collects *)

Definition fds_of (l : list (Z * ticket)) : list Z :=
  omap (fun it => match tk_kind it.2 with WATCH_TYPE_FD fd => Some fd | _ => None end) l.
Definition deadlines (l : list (Z * ticket)) : list Z :=
  omap (fun it => match tk_kind it.2 with WATCH_TYPE_TIMEOUT i => Some (deadline it.2 i) | _ => None end) l.
Definition earliest (l : list (Z * ticket)) : Z := fold_left Z.min (deadlines l) max_u64.
Lemma fds_length l : (length (fds_of l) <= length l)%nat.
Proof. induction l as [|[i t] l IH]; [done|]. unfold fds_of in *. cbn. destruct (tk_kind t); cbn; lia. Qed.
Lemma collect_fits l term ps : zlen (ps_fds ps) + zlen (fds_of l) <= ps_size ps ->
  collect l term ps = Done (fold_left Z.min (deadlines l) term, Pollset (ps_size ps) (ps_fds ps ++ fds_of l) (ps_cause ps)).
Proof.
  revert term ps. induction l as [|[i t] l IH]; intros term ps Hs.
  - cbn. rewrite app_nil_r. by destruct ps.
  - unfold fds_of, deadlines in *. cbn [collect omap list_omap snd]. cbn [omap list_omap snd] in Hs. destruct (tk_kind t) as [|fd|iv]; cbn [fold_left].
    + by apply IH.
    + unfold pollset_add_fd. unfold zlen in Hs. cbn [length] in Hs. rewrite (proj2 (Z.leb_gt _ _)) by (unfold zlen; lia). run.
      rewrite IH by (cbn; unfold zlen; rewrite length_app; cbn [length]; lia). cbn. by rewrite <- app_assoc.
    + rewrite IH by done. do 3 f_equal. destruct (_ <? term) eqn:E; reflect_bools; lia.
Qed.

(** ** Who is called *)

(** The descriptor that a successful [poll] is about: the first one with an event. *)
Fixpoint ready_fd (fds : list Z) (revents : list bool) : option Z :=
  match fds, revents with
  | fd :: fds, e :: revents => if (e : bool) then Some fd else ready_fd fds revents
  | _, _ => None
  end.
Lemma first_event_ready i fds revents : 0 <= i -> (length revents <= length fds)%nat ->
  first_event i revents = -1 /\ ready_fd fds revents = None \/
  i <= first_event i revents /\ ready_fd fds revents = fds !! Z.to_nat (first_event i revents - i).
Proof.
  revert i fds. induction revents as [|e revents IH]; intros i fds Hi Hl; [left; by destruct fds|].
  destruct fds as [|fd fds]; [cbn in Hl; lia|]. cbn [first_event ready_fd]. destruct e.
  - right. split; [lia|]. by rewrite Z.sub_diag.
  - destruct (IH (i + 1) fds ltac:(lia) ltac:(cbn in Hl; lia)) as [[-> ->]|[Hge ->]]; [by left|right]. split; [lia|].
    by replace (Z.to_nat (first_event (i + 1) revents - i)) with (S (Z.to_nat (first_event (i + 1) revents - (i + 1)))) by lia.
Qed.

(** A ticket is due when its time has come or its descriptor is the one that is ready. *)
Definition due (now : Z) (ready : option Z) (t : ticket) : bool :=
  match tk_kind t with
  | WATCH_TYPE_TIMEOUT interval => deadline t interval <=? now
  | WATCH_TYPE_FD fd => bool_decide (ready = Some fd)
  | WATCH_TYPE_NULL => false
  end.
(** It is called when it is due and was not marked before; a timer starts again when it
    is due. *)
Definition called (now : Z) (ready : option Z) (t : ticket) : bool := due now ready t && negb (tk_updated t).
Definition restarted (now : Z) (ready : option Z) (t : ticket) : ticket :=
  match tk_kind t with
  | WATCH_TYPE_TIMEOUT _ => if due now ready t then Ticket (tk_kind t) (tk_callback t) now (tk_updated t) else t
  | _ => t
  end.

Section Wait.
Context {W : Type} `{WaiterOps W}.
(** A callback that clears the mark of its ticket, as that of the name server does, and
    has an effect of its own. *)
Context (effect : Z -> Z -> W -> W).
Definition clearing (data id : Z) (w : W) (wt : waiter) : outcome (W * waiter) :=
  Done (effect data id w, update_ticket wt id (fun t => (waiter_ticket_clear t).2)).

(** The ticket after a wait, and the effects of the tickets in order. *)
Definition after_wait (now : Z) (ready : option Z) (t : ticket) : ticket :=
  let t' := restarted now ready t in
  if called now ready t then match tk_callback t with Some _ => t' | None => set_updated t' end else t'.
Definition effect_of (now : Z) (ready : option Z) (w : W) (it : Z * ticket) : W :=
  match tk_callback it.2 with Some data => if called now ready it.2 then effect data it.1 w else w | None => w end.
Definition after_all (now : Z) (ready : option Z) (l : list (Z * ticket)) : list (Z * ticket) :=
  map (fun it => (it.1, after_wait now ready it.2)) l.

Lemma get_mid pre id t post : id ∉ ids pre -> tickets_get (pre ++ (id, t) :: post) id = Some t.
Proof.
  unfold tickets_get. induction pre as [|[i t'] pre IH]; intros Hn; cbn [app find fst]; [by rewrite Z.eqb_refl|].
  apply not_elem_of_cons in Hn as [Hi Hn]. cbn in Hi. rewrite (proj2 (Z.eqb_neq _ _)) by congruence. by apply IH.
Qed.
Lemma put_other l id t : id ∉ ids l -> tickets_put l id t = l.
Proof.
  induction l as [|[i t'] l IH]; intros Hn; [done|]. apply not_elem_of_cons in Hn as [Hi Hn]. cbn in Hi.
  unfold tickets_put in *. cbn [map fst]. rewrite (proj2 (Z.eqb_neq _ _)) by congruence. f_equal. by apply IH.
Qed.
Lemma put_mid pre id t t' post : id ∉ ids pre -> id ∉ ids post -> tickets_put (pre ++ (id, t) :: post) id t' = pre ++ (id, t') :: post.
Proof.
  intros H1 H2. unfold tickets_put. rewrite map_app. cbn [map fst]. rewrite Z.eqb_refl.
  f_equal; [by apply put_other|f_equal; by apply put_other].
Qed.
Lemma after_mid pre id t post : id ∉ ids pre -> tickets_after (pre ++ (id, t) :: post) id = Some post.
Proof.
  induction pre as [|[i t'] pre IH]; intros Hn; cbn [app tickets_after fst]; [by rewrite Z.eqb_refl|].
  apply not_elem_of_cons in Hn as [Hi Hn]. cbn in Hi. rewrite (proj2 (Z.eqb_neq _ _)) by congruence. by apply IH.
Qed.

Lemma check_called now rc ps ready t : (forall fd, negb (rc =? 0) && pollset_cause_fd ps fd = bool_decide (ready = Some fd)) ->
  check_ticket now rc ps t = (called now ready t, restarted now ready t).
Proof.
  intros Hr. unfold check_ticket, called, restarted, due. destruct (tk_kind t) as [|fd|iv] eqn:Ek.
  - done.
  - by rewrite Hr.
  - rewrite <- Ek. by destruct (deadline t iv <=? now).
Qed.

Lemma notify_loop_all fuel w wt now rc ps ready pre id t post :
  (forall fd, negb (rc =? 0) && pollset_cause_fd ps fd = bool_decide (ready = Some fd)) ->
  w_tickets wt = pre ++ (id, t) :: post -> NoDup (ids (w_tickets wt)) -> (length post < fuel)%nat ->
  notify_loop clearing fuel w wt now rc ps id =
  Done (fold_left (effect_of now ready) ((id, t) :: post) w,
        Waiter (pre ++ after_all now ready ((id, t) :: post)) (w_pollset wt) (w_count wt) (w_next wt)).
Proof.
  intros Hready. revert w wt pre id t post. induction fuel as [|fuel IH]; intros w wt pre id t post Hl Hnd Hf; [lia|].
  cbn [notify_loop]. unfold get_ticket. rewrite Hl in *. unfold ids in Hnd. rewrite map_app in Hnd. cbn [map fst] in Hnd.
  apply NoDup_app in Hnd as (Hpre & Hdis & [Hpost Hndp]%NoDup_cons).
  assert (Hnpre : id ∉ ids pre) by (intros Hin; apply (Hdis _ Hin); by left).
  rewrite get_mid by done. run. rewrite (check_called now rc ps ready) by done.
  set (t1 := if called now ready t then set_updated (restarted now ready t) else restarted now ready t).
  assert (Eset : set_ticket wt id t1 = Waiter (pre ++ (id, t1) :: post) (w_pollset wt) (w_count wt) (w_next wt)).
  { unfold set_ticket. by rewrite Hl, put_mid. }
  rewrite Eset. assert (Ecb : tk_callback (restarted now ready t) = tk_callback t).
  { unfold restarted. destruct (tk_kind t); try done. by destruct (due now ready t). }
  rewrite Ecb.
  assert (Estep : (match tk_callback t with
     | Some data => if called now ready t then clearing data id w (Waiter (pre ++ (id, t1) :: post) (w_pollset wt) (w_count wt) (w_next wt))
                    else Done (w, Waiter (pre ++ (id, t1) :: post) (w_pollset wt) (w_count wt) (w_next wt))
     | None => Done (w, Waiter (pre ++ (id, t1) :: post) (w_pollset wt) (w_count wt) (w_next wt)) end) =
     Done (effect_of now ready w (id, t), Waiter (pre ++ (id, after_wait now ready t) :: post) (w_pollset wt) (w_count wt) (w_next wt))).
  { unfold effect_of, after_wait. cbn [fst snd]. destruct (tk_callback t) as [d|]; [|unfold t1; by destruct (called now ready t)].
    unfold t1. destruct (called now ready t) eqn:Ec; [|done]. unfold clearing, update_ticket. cbn [w_tickets].
    rewrite get_mid by done. unfold set_ticket. cbn [w_tickets w_pollset w_count w_next]. rewrite put_mid by done.
    do 2 f_equal. f_equal. do 3 f_equal. unfold called in Ec. apply andb_true_iff in Ec as [_ Eu]. apply negb_true_iff in Eu.
    unfold waiter_ticket_clear, set_updated, restarted. cbn. destruct (tk_kind t) eqn:Ek; cbn; try (destruct (due now ready t); cbn); rewrite <- ?Ek;
      destruct t; cbn in *; congruence. }
  rewrite Estep. run. cbn [w_tickets]. rewrite after_mid by done. run. cbn [fold_left after_all map fst snd].
  destruct post as [|[id2 t2] post]; [done|].
  rewrite (IH _ _ (pre ++ [(id, after_wait now ready t)]) id2 t2 post).
  - cbn [w_pollset w_count w_next]. by rewrite <- app_assoc.
  - cbn [w_tickets]. by rewrite <- app_assoc.
  - cbn [w_tickets]. unfold ids. rewrite map_app. cbn [map fst]. apply NoDup_app. split; [done|]. split; [done|]. by apply NoDup_cons.
  - cbn [length] in Hf. lia.
Qed.

(** ** The reference

    A wait polls the descriptors of all tickets until the earliest deadline, or not at all
    when that has passed, and then calls the tickets that are due, in order. *)
Definition polled (w : W) (fds : list Z) (ms : Z) : W * Z * option Z :=
  let '(w, rc, revents) := wo_poll w fds ms in (w, rc, if 0 <? rc then ready_fd fds revents else None).
Definition wait_reference (w : W) (l : list (Z * ticket)) : W * list (Z * ticket) :=
  let '(w, rc, ready) :=
    if earliest l =? max_u64 then polled w (fds_of l) (-1)
    else
      let '(w, now) := time_ms w in
      if earliest l <=? now then (w, 0, None) else polled w (fds_of l) (poll_time now (earliest l)) in
  if rc <? 0 then (w, l)
  else let '(w, now) := time_ms w in (fold_left (effect_of now ready) l w, after_all now ready l).
Definition poll_counts : Prop :=
  forall (w w' : W) fds ms rc revents, wo_poll w fds ms = (w', rc, revents) -> (length revents <= length fds)%nat.

Lemma after_all_ok wt ps now ready : waiter_ok wt -> room (w_count wt) (Some ps) ->
  waiter_ok (Waiter (after_all now ready (w_tickets wt)) (Some ps) (w_count wt) (w_next wt)).
Proof.
  intros [H1 H2 H3 H4 H5] Hroom. assert (Eids : ids (after_all now ready (w_tickets wt)) = ids (w_tickets wt)).
  { unfold ids, after_all. by rewrite map_map. }
  split; cbn [w_tickets w_count w_pollset w_next]; rewrite ?Eids; try done. unfold zlen, after_all. by rewrite length_map.
Qed.
Lemma cause_ready rc fds size revents c fd : (length revents <= length fds)%nat -> 0 <= rc ->
  let ps := if rc <=? 0 then Pollset size fds c else Pollset size fds (first_event 0 revents) in
  negb (rc =? 0) && pollset_cause_fd ps fd = bool_decide ((if 0 <? rc then ready_fd fds revents else None) = Some fd).
Proof.
  intros Hl Hrc. cbv zeta. destruct (Z.eqb_spec rc 0) as [->|Hn]; [done|].
  rewrite (proj2 (Z.leb_gt _ _)), (proj2 (Z.ltb_lt _ _)) by lia. unfold pollset_cause_fd. cbn [negb andb ps_cause ps_fds].
  destruct (first_event_ready 0 fds revents ltac:(lia) Hl) as [[-> ->]|[Hge ->]]; [done|].
  rewrite (proj2 (Z.leb_le _ _)), Z.sub_0_r by done. done.
Qed.

(** A wait does what the reference does. *)
Lemma wait_refines fuel w wt ps : poll_counts -> waiter_ok wt -> w_pollset wt = Some ps ->
  (length (w_tickets wt) <= fuel)%nat ->
  exists wt', waiter_wait clearing fuel w wt = Done ((wait_reference w (w_tickets wt)).1, wt') /\
    w_tickets wt' = (wait_reference w (w_tickets wt)).2 /\ waiter_ok wt'.
Proof.
  intros Hpoll Hok Eps Hfuel. pose proof Hok as [H1 H2 H3 H4 H5]. rewrite Eps in H5. pose proof H5 as (m & Hm & Hm0 & Hs & Hc).
  unfold waiter_wait, wait_reference. rewrite Eps. run. unfold pollset_reset.
  pose proof (fds_length (w_tickets wt)) as Hfds.
  rewrite collect_fits by (cbn [ps_size ps_fds]; unfold zlen in *; cbn [length]; lia). run. cbn [ps_size ps_fds ps_cause app].
  fold (earliest (w_tickets wt)). set (fds := fds_of (w_tickets wt)).
  assert (Hnotify : forall w rc size c revents, size = ps_size ps -> (length revents <= length fds)%nat ->
    let ps1 := if rc <=? 0 then Pollset size fds c else Pollset size fds (first_event 0 revents) in
    let ready := if 0 <? rc then ready_fd fds revents else None in
    exists wt', (if rc <? 0 then Done (w, set_pollset wt ps1) else let '(w, now) := time_ms w in notify clearing fuel w (set_pollset wt ps1) now rc ps1) =
      Done ((if rc <? 0 then (w, w_tickets wt) else let '(w, now) := time_ms w in
             (fold_left (effect_of now ready) (w_tickets wt) w, after_all now ready (w_tickets wt))).1, wt') /\
      w_tickets wt' = (if rc <? 0 then (w, w_tickets wt) else let '(w, now) := time_ms w in
             (fold_left (effect_of now ready) (w_tickets wt) w, after_all now ready (w_tickets wt))).2 /\ waiter_ok wt').
  { clear w. intros w rc size c revents -> Hl ps1 ready.
    assert (Hroom : room (w_count wt) (Some ps1)) by (unfold ps1; destruct (rc <=? 0); exact H5).
    destruct (rc <? 0) eqn:Er; reflect_bools.
    - exists (set_pollset wt ps1). split_and!; [done..|]. by split.
    - destruct (time_ms w) as [w2 now]. unfold notify, set_pollset. cbn [w_tickets].
      exists (Waiter (after_all now ready (w_tickets wt)) (Some ps1) (w_count wt) (w_next wt)).
      split_and!; [|done|by apply after_all_ok]. destruct (w_tickets wt) as [|[id t] post] eqn:El; [done|].
      apply (notify_loop_all fuel w2 (Waiter ((id, t) :: post) (Some ps1) (w_count wt) (w_next wt)) now rc ps1 ready [] id t post).
      + intros fd. by apply cause_ready.
      + done.
      + exact H1.
      + cbn [length] in Hfuel. lia. }
  assert (Hwait : forall w ms, let '(w1, rc, ps1) := pollset_wait w (Pollset (ps_size ps) fds (ps_cause ps)) ms in
    exists revents, polled w fds ms = (w1, rc, if 0 <? rc then ready_fd fds revents else None) /\ (length revents <= length fds)%nat /\
      ps1 = if rc <=? 0 then Pollset (ps_size ps) fds (ps_cause ps) else Pollset (ps_size ps) fds (first_event 0 revents)).
  { clear w. intros w ms. unfold pollset_wait, polled. cbn [ps_fds ps_size]. destruct (wo_poll w fds ms) as [[w1 rc] ev] eqn:Ep.
    apply Hpoll in Ep. destruct (rc <=? 0) eqn:E0; exists ev; by rewrite E0. }
  destruct (earliest (w_tickets wt) =? max_u64).
  - specialize (Hwait w (-1)). destruct (pollset_wait _ _ _) as [[w1 rc] ps1]. destruct Hwait as (ev & -> & Hev & ->).
    apply (Hnotify w1 rc (ps_size ps) (ps_cause ps) ev); done.
  - destruct (time_ms w) as [w0 now]. destruct (earliest _ <=? now).
    + apply (Hnotify w0 0 (ps_size ps) (ps_cause ps) []); [done|cbn; lia].
    + specialize (Hwait w0 (poll_time now (earliest (w_tickets wt)))). destruct (pollset_wait _ _ _) as [[w1 rc] ps1].
      destruct Hwait as (ev & -> & Hev & ->). apply (Hnotify w1 rc (ps_size ps) (ps_cause ps) ev); done.
Qed.

(** C17: waiting implements the reference, for callbacks that clear the mark of their ticket,
    and keeps the invariant; the pollset is never too small. *)
Theorem waiter_wait_refines fuel w wt ps : poll_counts -> waiter_ok wt -> w_pollset wt = Some ps ->
  (length (w_tickets wt) <= fuel)%nat ->
  exists wt', waiter_wait clearing fuel w wt = Done ((wait_reference w (w_tickets wt)).1, wt') /\
    w_tickets wt' = (wait_reference w (w_tickets wt)).2 /\ waiter_ok wt'.
Proof. apply wait_refines. Qed.
End Wait.

(** ** The name server

    Its waiter has one ticket, for its socket. *)
Section Single.
Context {W : Type} `{WaiterOps W}.
Context (effect : Z -> Z -> W -> W).

(** A waiter with one ticket for a socket, marked with a callback that clears it, calls it
    once in each wait in which the socket is ready, and never otherwise. *)
Theorem waiter_single_socket fuel w w1 w2 wt0 wt id sock data : poll_counts ->
  waiter_create w = (w1, Some wt0) -> waiter_add_fd w1 wt0 sock = (w2, wt, Some id) ->
  let t := waiter_ticket_callback (Ticket (WATCH_TYPE_FD sock) None 0 false) data in
  exists wt', waiter_wait (clearing effect) (S fuel) w2 (update_ticket wt id (fun t => waiter_ticket_callback t data)) =
    Done (let '(w3, rc, ready) := polled w2 [sock] (-1) in
          if rc <? 0 then w3
          else let '(w4, _) := time_ms w3 in if bool_decide (ready = Some sock) then effect data id w4 else w4, wt') /\
    w_tickets wt' = [(id, t)] /\ waiter_ok wt'.
Proof.
  intros Hpoll Hcreate Hadd t. destruct (create_ok _ _ _ Hcreate) as [Hok0 Hnil].
  pose proof (add_fd_ok _ _ _ _ _ _ Hok0 Hadd) as Hok. unfold waiter_add_fd in Hadd.
  destruct (waiter_add_null w1 wt0) as [[w3 wt3] [i|]] eqn:Enull; [|done]. injection Hadd as -> <- ->.
  pose proof (add_null_ok _ _ _ _ _ Hok0 Enull) as (Hok3 & _ & Et3). rewrite Hnil in Et3. cbn [app] in Et3.
  assert (Et : update_ticket (update_ticket wt3 id (fun t => waiter_ticket_set_fd t sock)) id (fun t => waiter_ticket_callback t data) =
    Waiter [(id, t)] (w_pollset wt3) (w_count wt3) (w_next wt3)).
  { unfold update_ticket, set_ticket, tickets_get, tickets_put. rewrite Et3. cbn [find fst]. rewrite Z.eqb_refl. cbn [option_map snd w_tickets map fst].
    by repeat progress (cbn [find fst snd option_map w_tickets map w_pollset w_count w_next]; rewrite ?Z.eqb_refl). }
  pose proof (update_ticket_ok _ id (fun t => waiter_ticket_callback t data) Hok) as Hok4. rewrite Et in *.
  destruct (w_pollset wt3) as [ps|] eqn:Eps.
  2:{ destruct Hok4 as [_ _ _ Hc Hr]. cbn in Hc, Hr. unfold zlen in Hc. cbn in Hc. lia. }
  destruct (wait_refines effect (S fuel) w2 _ ps Hpoll Hok4 eq_refl ltac:(cbn; lia)) as (wt' & E & El & Hok').
  exists wt'. rewrite E. unfold wait_reference in *. cbn [w_tickets] in *.
  change (earliest [(id, t)]) with max_u64 in *. rewrite Z.eqb_refl in *. change (fds_of [(id, t)]) with [sock] in *.
  destruct (polled w2 [sock] (-1)) as [[w5 rc] ready]. cbv beta iota in *. destruct (rc <? 0); [by split_and!|].
  destruct (time_ms w5) as [w6 now]. split_and!; [|rewrite El; unfold after_all, after_wait; cbn; by case_match|done].
  cbn [fst fold_left effect_of snd tk_callback t waiter_ticket_callback]. unfold called, due. cbn. by destruct (bool_decide _).
Qed.
End Single.

(** ** A system to try it on: a clock, and a script of the sockets that get ready *)

Record clock := Clock { ck_now : Z; ck_events : list (list bool); ck_calls : list Z }.
#[local] Instance clock_ops : WaiterOps clock := {
  wo_gettimeofday w := (w, (ck_now w / 1000, ck_now w mod 1000 * 1000));
  wo_poll w fds ms :=
    match ck_events w with
    | [] => (w, -1, [])
    | ev :: evs =>
        let ev := take (length fds) ev in
        (Clock (ck_now w + Z.max 0 ms) evs (ck_calls w), if existsb id ev then 1 else 0, ev)
    end;
  wo_calloc w := (w, true) }.
Lemma clock_counts : @poll_counts clock _.
Proof.
  intros [now [|ev evs] calls] w' fds ms rc revents; cbn; [by intros [= <- <- <-]; cbn; lia|].
  intros [= _ _ <-]. rewrite length_take. lia.
Qed.
Definition note (data id : Z) (w : clock) : clock := Clock (ck_now w) (ck_events w) (ck_calls w ++ [data]).

Definition demo_clock : clock := Clock 1000 [[false; true]; [true; true]] [].
(** A timer of 50 ms and two sockets. *)
Definition demo_waiter : waiter :=
  Waiter [(1, Ticket (WATCH_TYPE_TIMEOUT 50) (Some 10) 1000 false); (2, Ticket (WATCH_TYPE_FD 7) (Some 20) 0 false);
          (3, Ticket (WATCH_TYPE_FD 8) (Some 30) 0 false)] (Some (pollset_create 33)) 3 4.
Lemma demo_waiter_ok : waiter_ok demo_waiter.
Proof.
  split; cbn; try done.
  - apply (bool_decide_unpack _). by vm_compute.
  - apply (bool_decide_unpack _). by vm_compute.
  - by exists 0.
Qed.
Lemma waiter_wait_refines_witness :
  (wait_reference note demo_clock (w_tickets demo_waiter)).1 = Clock 1050 [[true; true]] [10; 30] /\
  exists wt', waiter_wait (clearing note) 3 demo_clock demo_waiter = Done ((wait_reference note demo_clock (w_tickets demo_waiter)).1, wt') /\
    w_tickets wt' = (wait_reference note demo_clock (w_tickets demo_waiter)).2 /\ waiter_ok wt'.
Proof. split; [done|]. apply (waiter_wait_refines note 3 demo_clock demo_waiter (pollset_create 33) clock_counts demo_waiter_ok); [done|cbn; lia]. Defined.
Lemma waiter_single_socket_witness :
  let t := waiter_ticket_callback (Ticket (WATCH_TYPE_FD 7) None 0 false) 9 in
  exists wt', waiter_wait (clearing note) 1 (Clock 0 [[true]] []) (update_ticket (Waiter [(1, Ticket (WATCH_TYPE_FD 7) None 0 false)]
      (Some (pollset_create 33)) 1 2) 1 (fun t => waiter_ticket_callback t 9)) =
    Done (let '(w3, rc, ready) := polled (Clock 0 [[true]] []) [7] (-1) in
          if rc <? 0 then w3
          else let '(w4, _) := time_ms w3 in if bool_decide (ready = Some 7) then note 9 1 w4 else w4, wt') /\
    w_tickets wt' = [(1, t)] /\ waiter_ok wt'.
Proof. by apply (waiter_single_socket note 0 (Clock 0 [[true]] []) (Clock 0 [[true]] []) (Clock 0 [[true]] []) (Waiter [] None 0 1) _ 1 7 9 clock_counts). Defined.
