(* ===== verification/Gpio.v ===== *)
(** * Pins of the processor (imola-gpio/imola-gpio.c)

    Calls to the kernel are the class [GpioOps]; usage and verbose messages are left
    out.  The options are those [getopt] reports. *)
From Stdlib Require Import String.
From S2P Require Import Prelude CString.
#[local] Open Scope Z_scope.

Definition TLMM_CHIP_LABEL : list Z := cstr "500000.pinctrl".
Definition PIN_BOOT0 : Z := 37.
Definition PIN_NRST : Z := 38.
Definition PIN_MCU_SPI_RDY : Z := 70.

(** A line with the value it is to have, or to be read; the answer is the descriptor
    of the line.  [go_info] gives label and number of lines of a chip. *)
Inductive line_use := GPIO_INPUT | GPIO_OUTPUT (value : Z).
Class GpioOps (W : Type) := {
  go_open : W -> list Z -> W * Z;
  go_close : W -> Z -> W;
  go_info : W -> Z -> option (list Z * Z);
  go_v2_line : W -> Z -> Z -> line_use -> W * option Z;
  go_v2_values : W -> Z -> option Z;
  go_v1_line : W -> Z -> Z -> line_use -> W * option Z;
  go_v1_values : W -> Z -> option Z;
  go_sleep : W -> Z -> W }.

(** [strstr] is not null. *)
Fixpoint has_substring (sub s : list Z) : bool :=
  bool_decide (take (length sub) s = sub) || match s with [] => false | _ :: s' => has_substring sub s' end.
(** [strrchr] of a slash, the name behind it. *)
Definition base_name (path : list Z) : list Z :=
  rev ((fix upto (r : list Z) := match r with c :: r' => if c =? 47 then [] else c :: upto r' | [] => [] end) (rev path)).

(** What [getopt] finds, before the other arguments. *)
Inductive cli_option := OptChip (path : list Z) | OptVerbose | OptUnknown.

Section Gpio.
Context {W : Type} `{GpioOps W}.

Definition dev_path (i : nat) : list Z := cstr "/dev/gpiochip" ++ print_int (Z.of_nat i).
(** [max_lines] is an [int], compared without sign. *)
Fixpoint find_loop (n i : nat) (w : W) (max_lines : Z) (fallback_path : list Z) : W * option (list Z) :=
  match n with
  | O => (w, if (100 <=? max_lines) && negb (bool_decide (fallback_path = [])) then Some fallback_path else None)
  | S n' =>
      let '(w, fd) := go_open w (dev_path i) in
      if fd <? 0 then find_loop n' (S i) w max_lines fallback_path
      else
        match go_info w fd with
        | Some (label, lines) =>
            if has_substring TLMM_CHIP_LABEL label then (go_close w fd, Some (dev_path i))
            else if u32 max_lines <? lines then find_loop n' (S i) (go_close w fd) (s32 lines) (dev_path i)
            else find_loop n' (S i) (go_close w fd) max_lines fallback_path
        | None => find_loop n' (S i) (go_close w fd) max_lines fallback_path
        end
  end.
Definition find_tlmm_gpiochip (w : W) : W * option (list Z) := find_loop 16 0 w 0 [].

Definition gpio_set_line (w : W) (chip_fd line_num val : Z) : W * Z :=
  let use := GPIO_OUTPUT (if val =? 0 then 0 else 1) in
  match go_v2_line w chip_fd (u32 line_num) use with
  | (w, Some fd) => (go_close w fd, 0)
  | (w, None) =>
      match go_v1_line w chip_fd (u32 line_num) use with
      | (w, Some fd) => (go_close w fd, 0)
      | (w, None) => (w, -1)
      end
  end.
Definition gpio_get_line (w : W) (chip_fd line_num : Z) : W * Z :=
  let '(w, res) :=
    match go_v2_line w chip_fd (u32 line_num) GPIO_INPUT with
    | (w, Some fd) => (go_close w fd, match go_v2_values w fd with Some bits => Z.land bits 1 | None => -1 end)
    | (w, None) => (w, -1)
    end in
  if 0 <=? res then (w, res)
  else
    match go_v1_line w chip_fd (u32 line_num) GPIO_INPUT with
    | (w, Some fd) => (go_close w fd, match go_v1_values w fd with Some v => if v =? 0 then 0 else 1 | None => -1 end)
    | (w, None) => (w, -1)
    end.

(** ** The commands *)

(** The value [main] returns, with the number printed by [get]. *)
Definition run_cmd (w : W) (chip_fd : Z) (cmd : list Z) (args : list (list Z)) : W * Z * option Z :=
  if bool_decide (cmd = cstr "set") then
    match args with
    | pin :: value :: _ =>
        let '(w, ret) := gpio_set_line w chip_fd (atoi pin) (if atoi value =? 0 then 0 else 1) in (w, ret, None)
    | _ => (w, 1, None)
    end
  else if bool_decide (cmd = cstr "get") then
    match args with
    | pin :: _ =>
        let '(w, val) := gpio_get_line w chip_fd (atoi pin) in
        if 0 <=? val then (w, 0, Some val) else (w, 1, None)
    | [] => (w, 1, None)
    end
  else if bool_decide (cmd = cstr "ready") then
    let '(w, r1) := gpio_set_line w chip_fd PIN_BOOT0 0 in
    let '(w, r2) := gpio_set_line w chip_fd PIN_NRST 1 in
    let '(w, r3) := gpio_set_line (go_sleep w 10000) chip_fd PIN_MCU_SPI_RDY 1 in
    (w, if (r1 <? 0) || (r2 <? 0) || (r3 <? 0) then 1 else 0, None)
  else if bool_decide (cmd = cstr "init") then
    let '(w, ret) := gpio_set_line w chip_fd PIN_BOOT0 0 in (w, ret, None)
  else if bool_decide (cmd = cstr "reset") then
    let '(w, _) := gpio_set_line w chip_fd PIN_MCU_SPI_RDY 0 in
    let '(w, _) := gpio_set_line w chip_fd PIN_BOOT0 0 in
    let '(w, _) := gpio_set_line w chip_fd PIN_NRST 0 in
    let '(w, ret) := gpio_set_line (go_sleep w 50000) chip_fd PIN_NRST 1 in
    (go_sleep w 20000, ret, None)
  else (w, 1, None).

(** The command a symbolic link stands for. *)
Definition link_cmd (argv0 : list Z) : option (list Z) :=
  let prog_name := base_name argv0 in
  if has_substring (cstr "ready") prog_name then Some (cstr "ready")
  else if has_substring (cstr "reset") prog_name then Some (cstr "reset")
  else if has_substring (cstr "init") prog_name then Some (cstr "init")
  else None.
(** The path of the last option, cut to the buffer; [None] for an unknown option. *)
Fixpoint chip_option (opts : list cli_option) (chip_path : list Z) : option (list Z) :=
  match opts with
  | [] => Some chip_path
  | OptChip path :: opts' => chip_option opts' (take 63 path)
  | OptVerbose :: opts' => chip_option opts' chip_path
  | OptUnknown :: _ => None
  end.
Definition gpio_main (w : W) (argv0 : list Z) (opts : list cli_option) (rest : list (list Z)) : W * Z * option Z :=
  match chip_option opts [] with
  | None => (w, 1, None)
  | Some chip_path =>
      match (match rest with cmd :: args => Some (cmd, args) | [] => option_map (fun cmd => (cmd, [])) (link_cmd argv0) end) with
      | None => (w, 1, None)
      | Some (cmd, args) =>
          let '(w, chip) := if bool_decide (chip_path = []) then find_tlmm_gpiochip w else (w, Some chip_path) in
          match chip with
          | None => (w, 1, None)
          | Some chip_path =>
              let '(w, chip_fd) := go_open w chip_path in
              if chip_fd <? 0 then (w, 1, None)
              else let '(w, ret, out) := run_cmd w chip_fd cmd args in (go_close w chip_fd, ret, out)
          end
      end
  end.
End Gpio.
