(* ===== verification/GpioProps.v ===== *)
(** * Pins of the processor: which chip is used, and what the commands drive *)
From Stdlib Require Import String.
From S2P Require Import Prelude CString Gpio.
#[local] Open Scope Z_scope.

(** ** What is relied on

    The chips with label and number of lines; those that cannot be opened or asked have
    none.  [gl_log] are the outputs that were asked for, by either interface of a chip, with
    whether the kernel granted them and so drove the line, and the pauses between them. *)
Inductive gpio_event := Asked (v2 : bool) (chip_fd line value : Z) (granted : bool) | Slept (us : Z).
Class GpioLaws (W : Type) `{GpioOps W} := {
  gl_chip : W -> nat -> option (list Z * Z);
  gl_log : W -> list gpio_event;
  gl_close w fd : (forall i, gl_chip (go_close w fd) i = gl_chip w i) /\ gl_log (go_close w fd) = gl_log w;
  gl_sleep w us : gl_log (go_sleep w us) = gl_log w ++ [Slept us];
  gl_open w i : (i < 16)%nat -> exists w' fd, go_open w (dev_path i) = (w', fd) /\ (forall j, gl_chip w' j = gl_chip w j) /\
    match gl_chip w i with
    | Some info => 0 <= fd /\ go_info w' fd = Some info
    | None => fd < 0 \/ go_info w' fd = None
    end;
  gl_lines w i label lines : gl_chip w i = Some (label, lines) -> 0 <= lines < 2 ^ 31;
  gl_output w fd line v :
    gl_log (go_v2_line w fd line (GPIO_OUTPUT v)).1 =
      gl_log w ++ [Asked true fd line v (bool_decide (is_Some (go_v2_line w fd line (GPIO_OUTPUT v)).2))] /\
    gl_log (go_v1_line w fd line (GPIO_OUTPUT v)).1 =
      gl_log w ++ [Asked false fd line v (bool_decide (is_Some (go_v1_line w fd line (GPIO_OUTPUT v)).2))] }.

Section Chip.
Context {W : Type} `{GpioLaws W}.

Definition wanted (o : option (list Z * Z)) : bool := match o with Some (label, _) => has_substring TLMM_CHIP_LABEL label | None => false end.
Definition size_of (o : option (list Z * Z)) : Z := match o with Some (_, lines) => lines | None => 0 end.

(** [path] is that of the first of the largest chips below [i], [big] its size; there is none
    when all are empty. *)
Definition largest_below (chip : nat -> option (list Z * Z)) (i : nat) (big : Z) (path : list Z) : Prop :=
  (forall j, (j < i)%nat -> size_of (chip j) <= big) /\
  (big = 0 /\ path = [] \/
   0 < big /\ exists k, (k < i)%nat /\ path = dev_path k /\ size_of (chip k) = big /\ forall j, (j < k)%nat -> size_of (chip j) < big).
Lemma largest_step chip i big path : largest_below chip i big path -> 0 <= big ->
  (size_of (chip i) <= big -> largest_below chip (S i) big path) /\
  (big < size_of (chip i) -> largest_below chip (S i) (size_of (chip i)) (dev_path i)).
Proof.
  intros [Hle Hb] Hbig. split; intros Hc.
  - split; [intros j Hj; destruct (decide (j = i)) as [->|]; [done|apply Hle; lia]|].
    destruct Hb as [Hb|(Hpos & k & Hk & Hp & Hs & Hf)]; [by left|right]. split; [done|]. exists k. split_and!; done || lia.
  - split; [intros j Hj; destruct (decide (j = i)) as [->|]; [lia|etrans; [apply Hle; lia|lia]]|]. right. split; [lia|].
    exists i. split_and!; try done; [lia|]. intros j Hj. specialize (Hle j Hj). lia.
Qed.

Definition found (chip : nat -> option (list Z * Z)) (r : option (list Z)) : Prop :=
  match r with
  | Some path =>
      (exists i, (i < 16)%nat /\ path = dev_path i /\ wanted (chip i) = true /\ forall j, (j < i)%nat -> wanted (chip j) = false) \/
      (forall j, (j < 16)%nat -> wanted (chip j) = false) /\ exists big, 100 <= big /\ largest_below chip 16 big path
  | None => (forall j, (j < 16)%nat -> wanted (chip j) = false /\ size_of (chip j) < 100)
  end.
Lemma dev_path_nonempty i : dev_path i <> [].
Proof. done. Qed.
Lemma find_loop_found n i w big path chip : (i + n = 16)%nat -> (forall j, gl_chip w j = chip j) -> 0 <= big < 2 ^ 31 ->
  largest_below chip i big path -> (forall j, (j < i)%nat -> wanted (chip j) = false) ->
  found chip (find_loop n i w big path).2.
Proof.
  revert i w big path. induction n as [|n IH]; intros i w big path Hn Hchip Hbig Hlarge Hno; cbn [find_loop].
  - assert (i = 16)%nat as -> by lia. cbn [snd]. destruct (_ && _) eqn:E; reflect_bools.
    + right. split; [done|]. by exists big.
    + intros j Hj. split; [by apply Hno|]. destruct Hlarge as [Hle Hb]. specialize (Hle j Hj). destruct E as [E|E]; reflect_bools; [lia|].
      destruct Hb as [[-> _]|(Hpos & k & _ & Hk & _)]; [lia|]. by rewrite Hk in E.
  - destruct (gl_open w i ltac:(lia)) as (w1 & fd & -> & Hsame & Hinfo). rewrite Hchip in Hinfo.
    destruct (largest_step chip i big path Hlarge ltac:(lia)) as [Hkeep Hnew].
    assert (Hskip : chip i = None -> forall w2, (forall j, gl_chip w2 j = chip j) -> found chip (find_loop n (S i) w2 big path).2).
    { intros Hnone w2 Hw2. apply IH; try done; [lia| |].
      - apply Hkeep. rewrite Hnone. cbn. lia.
      - intros j Hj. destruct (decide (j = i)) as [->|]; [by rewrite Hnone|apply Hno; lia]. }
    assert (Hclose : forall j, gl_chip (go_close w1 fd) j = chip j) by (intros j; rewrite (proj1 (gl_close w1 fd) j), Hsame; apply Hchip).
    destruct (chip i) as [[label lines]|] eqn:Ei.
    + destruct Hinfo as [Hfd ->]. rewrite (proj2 (Z.ltb_ge _ _)) by done.
      assert (Hlines : 0 <= lines < 2 ^ 31) by (apply (gl_lines w i label); by rewrite Hchip).
      destruct (has_substring TLMM_CHIP_LABEL label) eqn:Ew; cbn [snd].
      * left. exists i. split_and!; try done; [lia|]. by rewrite Ei.
      * assert (Hno' : forall j, (j < S i)%nat -> wanted (chip j) = false).
        { intros j Hj. destruct (decide (j = i)) as [->|]; [by rewrite Ei|apply Hno; lia]. }
        cbn [size_of] in *. rewrite u32_small, s32_small by lia. destruct (big <? lines) eqn:Eb; reflect_bools;
          (apply IH; try done; [lia|by auto]).
    + destruct (fd <? 0) eqn:Efd; reflect_bools; [apply Hskip; [done|intros j; by rewrite Hsame]|].
      destruct Hinfo as [Hfd|Hnone]; [lia|]. rewrite Hnone. by apply Hskip.
Qed.

(** The chip that is used is the first one with the label of the pin controller or, when
    there is none, the first of the largest ones, with 100 lines or more; without either
    the program gives up. *)
Theorem find_tlmm_gpiochip_found w : found (gl_chip w) (find_tlmm_gpiochip w).2.
Proof.
  apply find_loop_found; try done; [|lia]. split; [lia|by left].
Qed.

(** ** Commands *)

(** What a command is to do, and what doing it looks like to the kernel: a line is asked for
    with the second interface and, when that is refused, with the first; it could be driven
    when one of them grants it. *)
Inductive step := Drive (line value : Z) | Pause (us : Z).
Inductive driving (fd line value : Z) : bool -> list gpio_event -> Prop :=
  | driving_v2 : driving fd line value true [Asked true fd line value true]
  | driving_v1 ok : driving fd line value ok [Asked true fd line value false; Asked false fd line value ok].
(** The steps in their order, each whether or not those before succeeded; the list says for
    each line whether it could be driven. *)
Inductive performed (fd : Z) : list step -> list bool -> list gpio_event -> Prop :=
  | performed_nil : performed fd [] [] []
  | performed_drive line value ok evs steps oks evs' : driving fd line value ok evs -> performed fd steps oks evs' ->
      performed fd (Drive line value :: steps) (ok :: oks) (evs ++ evs')
  | performed_pause us steps oks evs' : performed fd steps oks evs' -> performed fd (Pause us :: steps) oks (Slept us :: evs').

Lemma performed_app fd s1 s2 o1 o2 e1 e2 : performed fd s1 o1 e1 -> performed fd s2 o2 e2 -> performed fd (s1 ++ s2) (o1 ++ o2) (e1 ++ e2).
Proof.
  intros H1 H2. induction H1; cbn [app]; [done| |by apply performed_pause].
  rewrite <- app_assoc. by apply performed_drive.
Qed.

(** A prefix of a command that has been performed. *)
Definition doing (fd : Z) (w w' : W) (steps : list step) (oks : list bool) : Prop :=
  exists evs, gl_log w' = gl_log w ++ evs /\ performed fd steps oks evs.
Lemma doing_none fd w : doing fd w w [] [].
Proof. exists []. split; [by rewrite app_nil_r|constructor]. Qed.
Lemma set_line_done fd w0 w steps oks line v : doing fd w0 w steps oks -> exists w' (ok : bool),
  gpio_set_line w fd line v = (w', if ok then 0 else -1) /\
  doing fd w0 w' (steps ++ [Drive (u32 line) (if v =? 0 then 0 else 1)]) (oks ++ [ok]).
Proof.
  intros (evs & Hlog & Hp). unfold gpio_set_line. set (l := u32 line). set (b := if v =? 0 then 0 else 1).
  assert (Hstep : forall ok es, driving fd l b ok es -> performed fd [Drive l b] [ok] es).
  { intros ok es Hd. rewrite <- (app_nil_r es). by apply performed_drive; [|constructor]. }
  pose proof (proj1 (gl_output w fd l b)) as L2. destruct (go_v2_line w fd l (GPIO_OUTPUT b)) as [w1 [f|]]; cbn [fst snd] in L2.
  - exists (go_close w1 f), true. split; [done|]. eexists. split; [by rewrite (proj2 (gl_close w1 f)), L2, Hlog, <- app_assoc|].
    apply performed_app; [done|]. apply Hstep. constructor.
  - pose proof (proj2 (gl_output w1 fd l b)) as L1.
    destruct (go_v1_line w1 fd l (GPIO_OUTPUT b)) as [w2 [f|]]; cbn [fst snd] in L1; [exists (go_close w2 f), true|exists w2, false];
      (split; [done|]); eexists; (split; [by rewrite ?(proj2 (gl_close w2 f)), L1, L2, Hlog, <- !app_assoc|]);
      (apply performed_app; [done|]); apply Hstep; constructor.
Qed.
Lemma sleep_done fd w0 w steps oks us : doing fd w0 w steps oks -> doing fd w0 (go_sleep w us) (steps ++ [Pause us]) oks.
Proof.
  intros (evs & Hlog & Hp). exists (evs ++ [Slept us]). split; [by rewrite gl_sleep, Hlog, <- app_assoc|].
  rewrite <- (app_nil_r oks). apply performed_app; [done|]. apply performed_pause. constructor.
Qed.

Definition ready_steps : list step := [Drive PIN_BOOT0 0; Drive PIN_NRST 1; Pause 10000; Drive PIN_MCU_SPI_RDY 1].
Definition reset_steps : list step :=
  [Drive PIN_MCU_SPI_RDY 0; Drive PIN_BOOT0 0; Drive PIN_NRST 0; Pause 50000; Drive PIN_NRST 1; Pause 20000].

End Chip.

(** ** A system to try it on: two chips, the second with the label *)

Record board := Board { bd_log : list gpio_event }.
Definition bd_chips : list (option (list Z * Z)) := [Some (cstr "pmic", 12); None; Some (cstr "500000.pinctrl", 127)].
Definition bd_index (path : list Z) : option nat := fst <$> list_find (fun i => dev_path i = path) (seq 0 16).
#[local] Instance board_ops : GpioOps board := {
  go_open w path :=
    (w, match bd_index path with
        | Some i => match mjoin (bd_chips !! i) with Some _ => Z.of_nat i | None => -1 end
        | None => -1
        end);
  go_close w _ := w;
  go_info _ fd := mjoin (bd_chips !! Z.to_nat fd);
  go_v2_line w fd line use := (match use with GPIO_OUTPUT v => Board (bd_log w ++ [Asked true fd line v false]) | GPIO_INPUT => w end, None);
  go_v2_values _ _ := None;
  go_v1_line w fd line use := (match use with GPIO_OUTPUT v => Board (bd_log w ++ [Asked false fd line v true]) | GPIO_INPUT => w end, Some 9);
  go_v1_values _ _ := Some 1;
  go_sleep w us := Board (bd_log w ++ [Slept us]) }.
#[local] Instance board_laws : GpioLaws board.
Proof.
  refine {| gl_chip _ i := mjoin (bd_chips !! i); gl_log := bd_log |}.
  - done.
  - done.
  - intros w i Hi. do 2 eexists. split; [done|]. split; [done|].
    do 16 (destruct i as [|i]; [vm_compute; auto; split; congruence|]). lia.
  - intros w i label lines. do 3 (destruct i as [|i]; [cbn; intros [= <- <-] || done; lia|]). by destruct i.
  - intros w fd line v. by split.
Defined.
Example board_finds : (find_tlmm_gpiochip (Board [])).2 = Some (cstr "/dev/gpiochip2").
Proof. by vm_compute. Qed.
Example board_ready : gpio_main (Board []) (cstr "/vendor/bin/imola-ready") [] [] = 
  (Board [Asked true 2 37 0 false; Asked false 2 37 0 true; Asked true 2 38 1 false; Asked false 2 38 1 true; Slept 10000;
          Asked true 2 70 1 false; Asked false 2 70 1 true], 0, None).
Proof. by vm_compute. Qed.
Example board_get : gpio_main (Board []) (cstr "imola-gpio") [OptChip (cstr "/dev/gpiochip2")] [cstr "get"; cstr "70"] = (Board [], 0, Some 1).
Proof. by vm_compute. Qed.
Lemma find_tlmm_gpiochip_found_witness : found (gl_chip (Board [])) (find_tlmm_gpiochip (Board [])).2.
Proof. apply (find_tlmm_gpiochip_found (Board [])). Defined.
