(* ===== verification/Bdaddr.v ===== *)
(** * The address of the Bluetooth controller (bdaddr/bdaddr.c)

    The management socket is a sequence of datagrams; what the program does is a list of
    messages written to the socket and of reports about an address that was set.  Other log
    messages are left out. *)
From Stdlib Require Import String.
From S2P Require Import Prelude CString.
#[local] Open Scope Z_scope.

Definition BTMGMT_CMD_READ_CONFIG_INFO : Z := 0x37.
Definition BTMGMT_CMD_SET_PUBLIC_ADDR : Z := 0x39.
Definition BTMGMT_EV_CMD_COMPLETE : Z := 1.
Definition BTMGMT_EV_CMD_STATUS : Z := 2.
Definition BTMGMT_EV_UNCONF_INDEX_ADDED : Z := 0x1d.
Definition HCI_CONTROLLER : Z := 0.
Definition MAC_ADDRESS_LENGTH : Z := 17.
(** Sizes of the packed structures, and of a pointer. *)
Definition sizeof_hdr : Z := 6.
Definition sizeof_cmd_status : Z := 9.
Definition sizeof_config_info : Z := 19.
Definition sizeof_pointer : Z := 8.

(** ** Addresses

    [%02hhx] of [scanf]: white space, then at most two characters with a sign and
    digits; the last eight bits are stored. *)
Fixpoint hex_prefix (width : nat) (s : list Z) (acc : Z) (any : bool) : option (Z * list Z) :=
  match width, s with
  | S width', b :: s' =>
      match hex_digit b with
      | Some d => hex_prefix width' s' (acc * 16 + d) true
      | None => if any then Some (acc, s) else None
      end
  | _, _ => if any then Some (acc, s) else None
  end.
Definition scan_hhx (s : list Z) : option (Z * list Z) :=
  match skip_isspace s with
  | b :: s' =>
      if b =? 45 then option_map (fun r => (u8 (- r.1), r.2)) (hex_prefix 1 s' 0 false)
      else if b =? 43 then option_map (fun r => (u8 r.1, r.2)) (hex_prefix 1 s' 0 false)
      else option_map (fun r => (u8 r.1, r.2)) (hex_prefix 2 (b :: s') 0 false)
  | [] => None
  end.
(** [n] numbers with colons between them. *)
Fixpoint scan_mac (n : nat) (s : list Z) : option (list Z) :=
  match n with
  | O => Some []
  | S n' =>
      match scan_hhx s with
      | None => None
      | Some (v, s) =>
          match n', s with
          | O, _ => Some [v]
          | _, c :: s' => if c =? 58 then option_map (cons v) (scan_mac n' s') else None
          | _, [] => None
          end
      end
  end.
(** The first number is the last byte of the address. *)
Definition parse_bdaddr (arg : list Z) : option (list Z) :=
  if negb (zlen arg =? MAC_ADDRESS_LENGTH) then None else option_map (@rev Z) (scan_mac 6 arg).

(** ** Messages *)

Definition btmgmt_hdr (cmd id len : Z) : list Z := le_bytes 2 cmd ++ le_bytes 2 id ++ le_bytes 2 len.
Definition btmgmt_request_config_info : list Z := btmgmt_hdr BTMGMT_CMD_READ_CONFIG_INFO HCI_CONTROLLER 0.
Definition btmgmt_set_public_addr (bdaddr : list Z) : list Z := btmgmt_hdr BTMGMT_CMD_SET_PUBLIC_ADDR HCI_CONTROLLER 6 ++ bdaddr.

Definition word (n : Z) (buf : list Z) (off : Z) : outcome Z := bs ← read_mem buf off n; Done (le_value bs).
Definition hdr_cmd (buf : list Z) := word 2 buf 0.
Definition hdr_id (buf : list Z) := word 2 buf 2.
Definition hdr_len (buf : list Z) := word 2 buf 4.
Definition ev_cmd (buf : list Z) := word 2 buf 6.
Definition ev_status (buf : list Z) := word 1 buf 8.
Definition info_missing_options (buf : list Z) := word 4 buf 15.

Definition btmgmt_config_needs_public_addr (buf : list Z) : outcome bool :=
  status ← ev_status buf;
  if negb (status =? 0) then Done false
  else
    cmd ← hdr_cmd buf;
    len ← hdr_len buf;
    if negb (cmd =? BTMGMT_EV_CMD_COMPLETE) || (len <? sizeof_config_info - sizeof_hdr) then Done false
    else missing ← info_missing_options buf; Done (Z.testbit missing 1).

(** What is written to the socket, and the two messages about an address. *)
Inductive bdaddr_out := Written (m : list Z) | Updated (bdaddr : list Z) | UpdateFailed (bdaddr : list Z) (error : Z).
Definition btmgmt_complete_set_public_addr (buf bdaddr : list Z) : outcome (list bdaddr_out) :=
  status ← ev_status buf;
  Done [if status =? 0 then Updated bdaddr else UpdateFailed bdaddr status].

(** A turn of the loop: the buffer of 512 bytes after [read], and what it returned. *)
Definition bdaddr_event (bdaddr buf : list Z) (len : Z) : outcome (list bdaddr_out) :=
  if len <? sizeof_hdr then Done []
  else
    hlen ← hdr_len buf;
    if len <? sizeof_hdr + hlen then Done []
    else
      id ← hdr_id buf;
      if negb (id =? HCI_CONTROLLER) then Done []
      else
        cmd ← hdr_cmd buf;
        if (cmd =? BTMGMT_EV_CMD_COMPLETE) || (cmd =? BTMGMT_EV_CMD_STATUS) then
          if hlen <? sizeof_cmd_status - sizeof_pointer then Done []
          else
            ecmd ← ev_cmd buf;
            if ecmd =? BTMGMT_CMD_READ_CONFIG_INFO then
              needs ← btmgmt_config_needs_public_addr buf;
              Done (if (needs : bool) then [Written (btmgmt_set_public_addr bdaddr)] else [])
            else if ecmd =? BTMGMT_CMD_SET_PUBLIC_ADDR then btmgmt_complete_set_public_addr buf bdaddr
            else Done []
        else if cmd =? BTMGMT_EV_UNCONF_INDEX_ADDED then Done [Written btmgmt_request_config_info]
        else Done [].
(** A datagram over what the buffer held. *)
Definition received_over (data buf : list Z) : list Z := data ++ drop (length data) buf.
(** The datagrams are at most as long as the buffer. *)
Fixpoint bdaddr_loop (bdaddr buf : list Z) (events : list (list Z)) : outcome (list bdaddr_out) :=
  match events with
  | [] => Done []
  | data :: events' =>
      let buf := received_over data buf in
      out ← bdaddr_event bdaddr buf (zlen data);
      rest ← bdaddr_loop bdaddr buf events';
      Done (out ++ rest)
  end.

(** ** The socket *)

Definition PF_BLUETOOTH : Z := 31.
Definition HCI_DEV_NONE : Z := 0xffff.
Definition HCI_CHANNEL_CONTROL : Z := 3.
Definition BTPROTO_HCI : Z := 1.
Record sockaddr_hci := SockaddrHci { hci_family : Z; hci_dev : Z; hci_channel : Z }.
(** The results of the calls, and the calls. *)
Record hci_sys := HciSys { hs_socket : Z; hs_bind : Z }.
Inductive hci_call := HSocket (domain protocol : Z) | HBind (s : Z) (addr : sockaddr_hci) | HClose (s : Z).
Definition btmgmt_connect (sy : hci_sys) : list hci_call * Z :=
  let s := hs_socket sy in
  if s <? 0 then ([HSocket PF_BLUETOOTH BTPROTO_HCI], -1)
  else
    let addr := SockaddrHci PF_BLUETOOTH HCI_DEV_NONE HCI_CHANNEL_CONTROL in
    if hs_bind sy <? 0 then ([HSocket PF_BLUETOOTH BTPROTO_HCI; HBind s addr; HClose s], -1)
    else ([HSocket PF_BLUETOOTH BTPROTO_HCI; HBind s addr], s).

(** The calls, and the value of [main] when it gives up or what the loop does. *)
Definition bdaddr_main (sy : hci_sys) (arg : option (list Z)) (buf : list Z) (events : list (list Z))
    : outcome (list hci_call * (Z + list bdaddr_out)) :=
  match arg with
  | None => Done ([], inl 1)
  | Some arg =>
      match parse_bdaddr arg with
      | None => Done ([], inl 1)
      | Some bdaddr =>
          let '(t, s) := btmgmt_connect sy in
          if s <? 0 then Done (t, inl 1)
          else
            out ← bdaddr_loop bdaddr buf events;
            Done (t, inr (Written btmgmt_request_config_info :: out))
      end
  end.
