(* ===== verification/BdaddrProps.v ===== *)
(** * The address of the Bluetooth controller: texts and events *)
From Stdlib Require Import String.
From S2P Require Import Prelude CString Bdaddr.
#[local] Open Scope Z_scope.

(** ** Addresses *)

(** [MAC_ADDRESS_FORMAT], as it is printed: the last byte comes first. *)
Fixpoint mac_text (bytes : list Z) : list Z :=
  match bytes with
  | [] => []
  | [b] => hex_digits 2 b
  | b :: bytes' => hex_digits 2 b ++ [58] ++ mac_text bytes'
  end.

Lemma hex_digits2 b : byte_ok b -> exists d1 d0, 0 <= d1 < 16 /\ 0 <= d0 < 16 /\ b = d1 * 16 + d0 /\
  hex_digits 2 b = [hex_char d1; hex_char d0].
Proof.
  intros Hb. exists (b / 16), (b mod 16). unfold byte_ok in Hb. split_and!; [word_lia..|].
  cbn [hex_digits app]. change 15 with (Z.ones 4). rewrite !Z.land_ones, Z.shiftr_div_pow2 by lia. change (2 ^ 4) with 16.
  do 2 f_equal. rewrite Z.mod_small by word_lia. done.
Qed.
Lemma hex_char_plain d : 0 <= d < 16 -> isspace (hex_char d) = false /\ (hex_char d =? 45) = false /\ (hex_char d =? 43) = false.
Proof.
  intros Hd. assert (48 <= hex_char d /\ hex_char d <> 45) as [H1 H2]
    by (unfold hex_char; destruct (d <? 10) eqn:E; reflect_bools; lia).
  unfold isspace. split_and!; [|apply Z.eqb_neq; lia..].
  apply orb_false_iff. split; [apply Z.eqb_neq; lia|]. apply andb_false_iff. rewrite !Z.leb_gt. lia.
Qed.
Lemma scan_byte b rest : byte_ok b -> scan_hhx (hex_digits 2 b ++ rest) = Some (b, rest).
Proof.
  intros Hb. destruct (hex_digits2 b Hb) as (d1 & d0 & H1 & H0 & Eb & ->). unfold scan_hhx. cbn [app skip_isspace].
  destruct (hex_char_plain d1 H1) as (-> & -> & ->). cbn [hex_prefix]. rewrite !hex_digit_back by done.
  cbn [option_map fst snd]. do 2 f_equal. unfold u8. rewrite Z.mod_small; unfold byte_ok in Hb; lia.
Qed.
Lemma scan_mac_text bytes : bytes_ok bytes -> scan_mac (length bytes) (mac_text bytes) = Some bytes.
Proof.
  induction 1 as [|b bytes Hb Hbs IH]; [done|]. destruct bytes as [|b2 bytes].
  - cbn [length scan_mac mac_text]. rewrite <- (app_nil_r (hex_digits 2 b)), scan_byte by done. done.
  - change (mac_text (b :: b2 :: bytes)) with (hex_digits 2 b ++ [58] ++ mac_text (b2 :: bytes)).
    change (length (b :: b2 :: bytes)) with (S (length (b2 :: bytes))). cbn [scan_mac]. rewrite scan_byte by done.
    cbn [length app Z.eqb Pos.eqb] in *. by rewrite IH.
Qed.
Lemma mac_text_length bytes : bytes <> [] -> zlen (mac_text bytes) = 3 * zlen bytes - 1.
Proof.
  induction bytes as [|b bytes IH]; [done|]. intros _. destruct bytes as [|b2 bytes]; [done|].
  change (mac_text (b :: b2 :: bytes)) with (hex_digits 2 b ++ [58] ++ mac_text (b2 :: bytes)).
  unfold zlen in *. rewrite !length_app, !Nat2Z.inj_add, IH by done. cbn [length hex_digits app]. lia.
Qed.

(** The text of an address, in the format of the messages of the program, is accepted and
    gives the address. *)
Lemma parse_bdaddr_text addr : bytes_ok addr -> length addr = 6%nat -> parse_bdaddr (mac_text (rev addr)) = Some addr.
Proof.
  intros Hb Hl. unfold parse_bdaddr. assert (Hr : length (rev addr) = 6%nat) by by rewrite length_rev.
  rewrite mac_text_length by (intros E; by rewrite E in Hr). unfold zlen at 1. rewrite Hr. cbn [negb Z.eqb Z.mul Z.sub Z.add].
  change (3 * Z.of_nat 6 - 1 =? MAC_ADDRESS_LENGTH) with true. cbn [negb].
  rewrite <- Hr, scan_mac_text by (apply Forall_rev; done). cbn [option_map]. by rewrite rev_involutive.
Qed.


(** ** Events *)

(** What the control channel delivers: events of the controller, by their parameters, and
    those of other controllers. *)
Inductive mgmt_event :=
  | ConfigInfo (status manufacturer supported missing : Z) (more : list Z)
  | ConfigPart (complete : bool) (status : Z) (rest : list Z)
  | AddrSet (complete : bool) (status : Z) (rest : list Z)
  | OtherCommand (complete : bool) (ecmd : Z) (rest : list Z)
  | NoCommand (complete : bool)
  | UnconfIndexAdded (payload : list Z)
  | OtherEvent (cmd : Z) (payload : list Z)
  | OtherController (cmd id : Z) (payload : list Z).
Definition event_cmd (e : mgmt_event) : Z :=
  match e with
  | ConfigInfo _ _ _ _ _ => BTMGMT_EV_CMD_COMPLETE
  | ConfigPart complete _ _ | AddrSet complete _ _ | OtherCommand complete _ _ | NoCommand complete =>
      if complete then BTMGMT_EV_CMD_COMPLETE else BTMGMT_EV_CMD_STATUS
  | UnconfIndexAdded _ => BTMGMT_EV_UNCONF_INDEX_ADDED
  | OtherEvent cmd _ | OtherController cmd _ _ => cmd
  end.
Definition event_id (e : mgmt_event) : Z := match e with OtherController _ id _ => id | _ => HCI_CONTROLLER end.
Definition event_params (e : mgmt_event) : list Z :=
  match e with
  | ConfigInfo status manufacturer supported missing more =>
      le_bytes 2 BTMGMT_CMD_READ_CONFIG_INFO ++ le_bytes 1 status ++ le_bytes 2 manufacturer ++ le_bytes 4 supported
      ++ le_bytes 4 missing ++ more
  | ConfigPart _ status rest => le_bytes 2 BTMGMT_CMD_READ_CONFIG_INFO ++ le_bytes 1 status ++ rest
  | AddrSet _ status rest => le_bytes 2 BTMGMT_CMD_SET_PUBLIC_ADDR ++ le_bytes 1 status ++ rest
  | OtherCommand _ ecmd rest => le_bytes 2 ecmd ++ rest
  | NoCommand _ => []
  | UnconfIndexAdded payload | OtherEvent _ payload | OtherController _ _ payload => payload
  end.
(** A configuration that is not complete: a status, or fewer parameters than it has. *)
Definition event_ok (e : mgmt_event) : Prop :=
  match e with
  | ConfigInfo status manufacturer supported missing _ =>
      0 <= status < 256 /\ 0 <= missing < 2 ^ 32
  | ConfigPart complete status rest => 0 <= status < 256 /\ (complete = true -> zlen rest < 10)
  | AddrSet _ status _ => 0 <= status < 256
  | OtherCommand _ ecmd rest =>
      0 <= ecmd < 2 ^ 16 /\ ecmd <> BTMGMT_CMD_READ_CONFIG_INFO /\ ecmd <> BTMGMT_CMD_SET_PUBLIC_ADDR /\ rest <> []
  | NoCommand _ | UnconfIndexAdded _ => True
  | OtherEvent cmd _ =>
      0 <= cmd < 2 ^ 16 /\ cmd <> BTMGMT_EV_CMD_COMPLETE /\ cmd <> BTMGMT_EV_CMD_STATUS /\ cmd <> BTMGMT_EV_UNCONF_INDEX_ADDED
  | OtherController cmd id _ => 0 <= cmd < 2 ^ 16 /\ 0 < id < 2 ^ 16
  end.
(** A datagram: an event, perhaps with bytes behind what its header announces; one that ends
    before that; or one that ends before the header does. *)
Inductive mgmt_datagram := Whole (e : mgmt_event) (extra : list Z) | Cut (cmd id len : Z) (payload : list Z) | Stub (data : list Z).
Definition datagram_bytes (d : mgmt_datagram) : list Z :=
  match d with
  | Whole e extra => btmgmt_hdr (event_cmd e) (event_id e) (zlen (event_params e)) ++ event_params e ++ extra
  | Cut cmd id len payload => btmgmt_hdr cmd id len ++ payload
  | Stub data => data
  end.
Definition datagram_ok (d : mgmt_datagram) : Prop :=
  match d with
  | Whole e _ => event_ok e
  | Cut cmd id len payload => 0 <= cmd < 2 ^ 16 /\ 0 <= id < 2 ^ 16 /\ zlen payload < len < 2 ^ 16
  | Stub data => zlen data < sizeof_hdr
  end.
(** What is to be done about them. *)
Definition reaction (addr : list Z) (d : mgmt_datagram) : list bdaddr_out :=
  match d with
  | Whole (ConfigInfo status _ _ missing _) _ =>
      if (status =? 0) && Z.testbit missing 1 then [Written (btmgmt_set_public_addr addr)] else []
  | Whole (AddrSet _ status _) _ => [if status =? 0 then Updated addr else UpdateFailed addr status]
  | Whole (UnconfIndexAdded _) _ => [Written btmgmt_request_config_info]
  | _ => []
  end.
(** The answer to a command whose parameters end before its status: the length is compared
    with the size of a pointer, so that it is taken, with what the buffer held. *)
Definition torn (data : list Z) : bool :=
  match data with
  | c0 :: c1 :: i0 :: i1 :: l0 :: l1 :: params =>
      let cmd := c0 + 256 * c1 in let len := l0 + 256 * l1 in
      ((cmd =? BTMGMT_EV_CMD_COMPLETE) || (cmd =? BTMGMT_EV_CMD_STATUS)) && (i0 + 256 * i1 =? HCI_CONTROLLER) &&
      (1 <=? len) && (len <=? 2) && (len <=? zlen params)
  | _ => false
  end.

Lemma word_at_field pre n v rest off : 0 <= v < 2 ^ (8 * Z.of_nat n) -> off = zlen pre ->
  word (Z.of_nat n) (pre ++ le_bytes n v ++ rest) off = Done v.
Proof.
  intros Hv ->. unfold word. rewrite (proj2 (read_mem_done _ (zlen pre) (Z.of_nat n) (le_bytes n v))).
  - run. by rewrite le_value_bytes, Z.mod_small.
  - unfold zlen. rewrite !length_app, length_le_bytes. split_and!; [lia..|]. rewrite !Nat2Z.id, drop_app_length.
    rewrite take_app_length' by by rewrite length_le_bytes. done.
Qed.
Lemma length_hdr cmd id len : length (btmgmt_hdr cmd id len) = 6%nat.
Proof. unfold btmgmt_hdr. by rewrite !length_app, !length_le_bytes. Qed.
Lemma hdr_fields cmd id len rest : 0 <= cmd < 2 ^ 16 -> 0 <= id < 2 ^ 16 -> 0 <= len < 2 ^ 16 ->
  let m := btmgmt_hdr cmd id len ++ rest in hdr_cmd m = Done cmd /\ hdr_id m = Done id /\ hdr_len m = Done len.
Proof.
  intros H1 H2 H3 m. unfold m, btmgmt_hdr, hdr_cmd, hdr_id, hdr_len. rewrite <- !app_assoc. split_and!.
  - by apply (word_at_field [] 2).
  - by apply (word_at_field (le_bytes 2 cmd) 2).
  - rewrite (app_assoc (le_bytes 2 cmd)). by apply (word_at_field (le_bytes 2 cmd ++ le_bytes 2 id) 2).
Qed.

Lemma ev_fields cmd id len ecmd status rest : 0 <= ecmd < 2 ^ 16 -> 0 <= status < 256 ->
  let m := btmgmt_hdr cmd id len ++ le_bytes 2 ecmd ++ le_bytes 1 status ++ rest in
  ev_cmd m = Done ecmd /\ ev_status m = Done status.
Proof.
  intros H1 H2 m. unfold m, ev_cmd, ev_status. split.
  - apply (word_at_field (btmgmt_hdr cmd id len) 2); [done|]. unfold zlen. by rewrite length_hdr.
  - rewrite (app_assoc (btmgmt_hdr cmd id len)). apply (word_at_field (btmgmt_hdr cmd id len ++ le_bytes 2 ecmd) 1); [done|].
    unfold zlen. by rewrite length_app, length_hdr, length_le_bytes.
Qed.

Lemma hdr_accepted addr cmd params extra rest : 0 <= cmd < 2 ^ 16 -> zlen params < 2 ^ 16 ->
  let data := btmgmt_hdr cmd HCI_CONTROLLER (zlen params) ++ params ++ extra in
  bdaddr_event addr (data ++ rest) (zlen data) =
  let buf := btmgmt_hdr cmd HCI_CONTROLLER (zlen params) ++ params ++ extra ++ rest in
  if (cmd =? BTMGMT_EV_CMD_COMPLETE) || (cmd =? BTMGMT_EV_CMD_STATUS) then
    if zlen params <? 1 then Done []
    else
      ecmd ← ev_cmd buf;
      if ecmd =? BTMGMT_CMD_READ_CONFIG_INFO then
        needs ← btmgmt_config_needs_public_addr buf;
        Done (if (needs : bool) then [Written (btmgmt_set_public_addr addr)] else [])
      else if ecmd =? BTMGMT_CMD_SET_PUBLIC_ADDR then btmgmt_complete_set_public_addr buf addr
      else Done []
  else if cmd =? BTMGMT_EV_UNCONF_INDEX_ADDED then Done [Written btmgmt_request_config_info] else Done [].
Proof.
  intros Hc Hp. cbv zeta. rewrite <- !app_assoc. set (len := zlen params) in *. assert (0 <= len) by (unfold len, zlen; lia).
  assert (Hz : zlen (btmgmt_hdr cmd HCI_CONTROLLER len ++ params ++ extra) = 6 + len + zlen extra) by (unfold len, zlen; rewrite !length_app, length_hdr; lia).
  pose proof (zlen_nonneg extra).
  destruct (hdr_fields cmd HCI_CONTROLLER len (params ++ extra ++ rest) Hc ltac:(done) ltac:(lia)) as (E1 & E2 & E3).
  unfold bdaddr_event. rewrite Hz, E1, E2, E3. unfold sizeof_hdr. run.
  rewrite (proj2 (Z.ltb_ge (6 + len + zlen extra) 6)), (proj2 (Z.ltb_ge (6 + len + zlen extra) (6 + len))) by lia. done.
Qed.
(** An answer to a command with a status. *)
Lemma answer_accepted addr (complete : bool) ecmd status params extra rest : 0 <= ecmd < 2 ^ 16 -> 0 <= status < 256 ->
  3 + zlen params < 2 ^ 16 ->
  let cmd := if complete then BTMGMT_EV_CMD_COMPLETE else BTMGMT_EV_CMD_STATUS in
  let data := btmgmt_hdr cmd HCI_CONTROLLER (zlen (le_bytes 2 ecmd ++ le_bytes 1 status ++ params)) ++
    (le_bytes 2 ecmd ++ le_bytes 1 status ++ params) ++ extra in
  bdaddr_event addr (data ++ rest) (zlen data) =
  if ecmd =? BTMGMT_CMD_READ_CONFIG_INFO then
    if negb (status =? 0) then Done []
    else if negb complete || (3 + zlen params <? 13) then Done []
    else missing ← word 4 (params ++ extra ++ rest) 6; Done (if Z.testbit missing 1 then [Written (btmgmt_set_public_addr addr)] else [])
  else if ecmd =? BTMGMT_CMD_SET_PUBLIC_ADDR then Done [if status =? 0 then Updated addr else UpdateFailed addr status]
  else Done [].
Proof.
  intros He Hs Hp cmd data. unfold data. set (P := le_bytes 2 ecmd ++ le_bytes 1 status ++ params).
  assert (HP : zlen P = 3 + zlen params) by (unfold P; rewrite !zlen_app; change (zlen (le_bytes 2 ecmd)) with 2; change (zlen (le_bytes 1 status)) with 1; lia).
  pose proof (zlen_nonneg params). rewrite hdr_accepted by (first [lia | by destruct complete]). cbv zeta.
  assert ((cmd =? BTMGMT_EV_CMD_COMPLETE) || (cmd =? BTMGMT_EV_CMD_STATUS) = true) as -> by by destruct complete.
  rewrite (proj2 (Z.ltb_ge (zlen P) 1)), HP by lia. unfold P. rewrite <- !app_assoc.
  destruct (ev_fields cmd HCI_CONTROLLER (3 + zlen params) ecmd status (params ++ extra ++ rest) He Hs) as [-> Es]. run.
  destruct (ecmd =? BTMGMT_CMD_READ_CONFIG_INFO).
  - unfold btmgmt_config_needs_public_addr. rewrite Es. run. destruct (status =? 0); cbn [negb]; [|done].
    destruct (hdr_fields cmd HCI_CONTROLLER (3 + zlen params) (le_bytes 2 ecmd ++ le_bytes 1 status ++ params ++ extra ++ rest)) as (-> & _ & ->);
      [by destruct complete|done|lia|]. run.
    assert (negb (cmd =? BTMGMT_EV_CMD_COMPLETE) = negb complete) as -> by by destruct complete.
    change (sizeof_config_info - sizeof_hdr) with 13. destruct (_ || _); [done|].
    assert (Em : info_missing_options (btmgmt_hdr cmd HCI_CONTROLLER (3 + zlen params) ++ le_bytes 2 ecmd ++ le_bytes 1 status ++ params ++ extra ++ rest) =
      word 4 (params ++ extra ++ rest) 6).
    { unfold info_missing_options, word. set (Q := params ++ extra ++ rest).
      set (h := btmgmt_hdr cmd HCI_CONTROLLER (3 + zlen params) ++ le_bytes 2 ecmd ++ le_bytes 1 status).
      assert (Hh : length h = 9%nat) by (unfold h; by rewrite !length_app, length_hdr, !length_le_bytes).
      assert (R : btmgmt_hdr cmd HCI_CONTROLLER (3 + zlen params) ++ le_bytes 2 ecmd ++ le_bytes 1 status ++ Q = h ++ Q) by (unfold h; by rewrite <- !app_assoc).
      rewrite R. unfold read_mem. rewrite zlen_app. unfold zlen at 1. rewrite Hh.
      replace (15 + 4 <=? Z.of_nat 9 + zlen Q) with (6 + 4 <=? zlen Q) by (destruct (_ <=? _) eqn:E; reflect_bools; symmetry; [apply Z.leb_le|apply Z.leb_gt]; lia).
      cbn [Z.leb Z.compare andb]. by destruct (_ <=? _). }
    rewrite Em. destruct (word 4 _ 6); done.
  - destruct (ecmd =? BTMGMT_CMD_SET_PUBLIC_ADDR); [|done]. unfold btmgmt_complete_set_public_addr. rewrite Es. by run.
Qed.

Lemma datagram_reaction addr d rest : datagram_ok d -> zlen (datagram_bytes d) <= 512 ->
  bdaddr_event addr (datagram_bytes d ++ rest) (zlen (datagram_bytes d)) = Done (reaction addr d).
Proof.
  intros Hd Hl. destruct d as [e extra|cmd id len payload|data].
  - assert (Hp : zlen (event_params e) < 2 ^ 16).
    { cbn [datagram_bytes] in Hl. rewrite !zlen_app in Hl. unfold zlen at 1 in Hl. rewrite length_hdr in Hl. pose proof (zlen_nonneg extra). lia. }
    clear Hl. cbn [datagram_ok] in Hd.
    destruct e as [status man sup missing more|complete status params|complete status params|complete ecmd params|complete|payload|cmd payload|cmd id payload];
      cbn [datagram_bytes event_cmd event_id event_params event_ok reaction] in *.
    + destruct Hd as [Hs Hm]. set (P := le_bytes 2 man ++ le_bytes 4 sup ++ le_bytes 4 missing ++ more) in *.
      assert (HP : zlen P = 10 + zlen more) by (unfold P, zlen; rewrite !length_app, !length_le_bytes; lia).
      rewrite !zlen_app in Hp. change (zlen (le_bytes 2 BTMGMT_CMD_READ_CONFIG_INFO)) with 2 in Hp. change (zlen (le_bytes 1 status)) with 1 in Hp.
      rewrite (answer_accepted addr true BTMGMT_CMD_READ_CONFIG_INFO status P) by (done || lia). cbn [Z.eqb Pos.eqb BTMGMT_CMD_READ_CONFIG_INFO negb orb].
      destruct (status =? 0); cbn [negb andb]; [|done]. pose proof (zlen_nonneg more). rewrite (proj2 (Z.ltb_ge _ _)) by lia.
      assert (Em : word 4 (P ++ extra ++ rest) 6 = Done missing).
      { unfold P. rewrite <- !app_assoc, (app_assoc (le_bytes 2 man)). by apply (word_at_field (le_bytes 2 man ++ le_bytes 4 sup) 4). }
      rewrite Em. by run.
    + destruct Hd as [Hs Hc]. rewrite !zlen_app in Hp. change (zlen (le_bytes 2 _)) with 2 in Hp. change (zlen (le_bytes 1 _)) with 1 in Hp.
      rewrite answer_accepted by (done || lia). cbn [Z.eqb Pos.eqb BTMGMT_CMD_READ_CONFIG_INFO].
      destruct (status =? 0); cbn [negb]; [|done]. destruct complete; cbn [negb orb]; [|done].
      rewrite (proj2 (Z.ltb_lt _ _)); [done|]. specialize (Hc eq_refl). lia.
    + rewrite !zlen_app in Hp. change (zlen (le_bytes 2 _)) with 2 in Hp. change (zlen (le_bytes 1 _)) with 1 in Hp.
      rewrite answer_accepted by (done || lia). done.
    + destruct Hd as (He & Hn1 & Hn2 & Hne). destruct params as [|x params]; [done|].
      rewrite hdr_accepted by (done || by destruct complete). cbv zeta.
      assert (((if complete then BTMGMT_EV_CMD_COMPLETE else BTMGMT_EV_CMD_STATUS) =? BTMGMT_EV_CMD_COMPLETE) ||
        ((if complete then BTMGMT_EV_CMD_COMPLETE else BTMGMT_EV_CMD_STATUS) =? BTMGMT_EV_CMD_STATUS) = true) as -> by by destruct complete.
      rewrite (proj2 (Z.ltb_ge _ 1)) by (unfold zlen; rewrite length_app, length_le_bytes; lia).
      unfold ev_cmd. rewrite <- (app_assoc (le_bytes 2 ecmd)). set (n := zlen _).
      rewrite (word_at_field (btmgmt_hdr _ HCI_CONTROLLER n) 2) by (done || unfold zlen; rewrite length_hdr; done).
      run. by rewrite (proj2 (Z.eqb_neq _ _) Hn1), (proj2 (Z.eqb_neq _ _) Hn2).
    + rewrite (hdr_accepted addr _ []) by (done || by destruct complete). by destruct complete.
    + by rewrite hdr_accepted.
    + destruct Hd as (Hc & Hn1 & Hn2 & Hn3). rewrite hdr_accepted by done. cbv zeta.
      by rewrite (proj2 (Z.eqb_neq _ _) Hn1), (proj2 (Z.eqb_neq _ _) Hn2), (proj2 (Z.eqb_neq _ _) Hn3).
    + destruct Hd as (Hc & Hid). unfold bdaddr_event. rewrite <- app_assoc.
      destruct (hdr_fields cmd id (zlen payload) ((payload ++ extra) ++ rest) Hc ltac:(lia) ltac:(pose proof (zlen_nonneg payload); lia)) as (-> & -> & ->). run.
      rewrite (proj2 (Z.eqb_neq id _)) by (unfold HCI_CONTROLLER; lia). by repeat case_match.
  - destruct Hd as (Hc & Hid & Hlen). cbn [datagram_bytes reaction]. unfold bdaddr_event. pose proof (zlen_nonneg payload).
    assert (Hz : zlen (btmgmt_hdr cmd id len ++ payload) = 6 + zlen payload) by (unfold zlen; rewrite length_app, length_hdr; lia).
    rewrite Hz, <- app_assoc. destruct (hdr_fields cmd id len (payload ++ rest) Hc Hid ltac:(lia)) as (_ & _ & ->). run.
    destruct (_ <? sizeof_hdr); [done|]. by rewrite (proj2 (Z.ltb_lt _ _)) by (unfold sizeof_hdr; lia).
  - cbn [datagram_bytes reaction datagram_ok] in *. unfold bdaddr_event. by rewrite (proj2 (Z.ltb_lt _ _) Hd).
Qed.

(** *** Every datagram is one of these, unless it is torn *)

Lemma byte_pair a b : byte_ok a -> byte_ok b -> [a; b] = le_bytes 2 (a + 256 * b) /\ 0 <= a + 256 * b < 2 ^ 16.
Proof. intros Ha Hb. unfold byte_ok in *. split; [|lia]. cbn [le_bytes]. f_equal; [word_lia|f_equal; word_lia]. Qed.
Lemma byte_quad a b c d : byte_ok a -> byte_ok b -> byte_ok c -> byte_ok d ->
  exists v, [a; b; c; d] = le_bytes 4 v /\ 0 <= v < 2 ^ 32.
Proof.
  intros Ha Hb Hc Hd. unfold byte_ok in *. exists (a + 256 * (b + 256 * (c + 256 * d))). split; [|lia].
  cbn [le_bytes]. f_equal; [word_lia|f_equal; [word_lia|f_equal; [word_lia|f_equal; word_lia]]].
Qed.
Lemma byte_single a : byte_ok a -> [a] = le_bytes 1 a.
Proof. intros Ha. unfold byte_ok in Ha. cbn [le_bytes]. by rewrite Z.mod_small by lia. Qed.

(** The parameters of an answer of the controller. *)
Lemma answer_cases (complete : bool) params : bytes_ok params ->
  let cmd := if complete then BTMGMT_EV_CMD_COMPLETE else BTMGMT_EV_CMD_STATUS in
  1 <= zlen params <= 2 \/ exists e, event_ok e /\ event_cmd e = cmd /\ event_id e = HCI_CONTROLLER /\ event_params e = params.
Proof.
  intros Hb cmd. destruct params as [|a [|b [|st params]]]; [right|by left|by left|right].
  { exists (NoCommand complete). done. }
  apply Forall_cons in Hb as [Ha [Hbb [Hst Hb]%Forall_cons]%Forall_cons].
  destruct (byte_pair a b Ha Hbb) as [Eab Hab]. set (ecmd := a + 256 * b) in *.
  assert (Ep : a :: b :: st :: params = le_bytes 2 ecmd ++ st :: params) by by rewrite <- Eab.
  rewrite Ep. clear Ep. pose proof (eq_sym (byte_single st Hst)) as Est. unfold byte_ok in Hst. destruct (decide (ecmd = BTMGMT_CMD_READ_CONFIG_INFO)) as [->|Hn1].
  - destruct (decide (complete = true /\ 10 <= zlen params)) as [[-> Hl]|Hn].
    + unfold cmd. do 10 (destruct params as [|?x params]; [done|]). clear Hl.
      repeat match type of Hb with Forall _ (_ :: _) => apply Forall_cons in Hb as [? Hb] end.
      destruct (byte_pair x x0) as [E1 _]; [done..|]. destruct (byte_quad x1 x2 x3 x4) as (sup & E2 & _); [done..|].
      destruct (byte_quad x5 x6 x7 x8) as (missing & E3 & Hm); [done..|].
      exists (ConfigInfo st (x + 256 * x0) sup missing params). split; [done|]. split; [done|]. split; [done|].
      cbn [event_params]. by rewrite Est, <- E1, <- E2, <- E3.
    + exists (ConfigPart complete st params). cbn [event_ok event_params]. rewrite Est. split_and!; try done; try lia.
      intros ->. destruct (Z.lt_ge_cases (zlen params) 10); [done|]. by destruct Hn.
  - destruct (decide (ecmd = BTMGMT_CMD_SET_PUBLIC_ADDR)) as [->|Hn2].
    + exists (AddrSet complete st params). cbn [event_params]. by rewrite Est.
    + by exists (OtherCommand complete ecmd (st :: params)).
Qed.

Lemma datagram_cases data : bytes_ok data -> torn data = true \/ exists d, datagram_ok d /\ datagram_bytes d = data.
Proof.
  intros Hb. destruct (Z.lt_ge_cases (zlen data) sizeof_hdr) as [Hs|Hs]; [right; by exists (Stub data)|].
  do 6 (destruct data as [|?x data]; [done|]). clear Hs.
  unfold bytes_ok in Hb. repeat match type of Hb with Forall _ (_ :: _) => apply Forall_cons in Hb as [? Hb] end.
  destruct (byte_pair x x0) as [E1 Hcmd]; [done..|]. destruct (byte_pair x1 x2) as [E2 Hid]; [done..|].
  destruct (byte_pair x3 x4) as [E3 Hlen]; [done..|]. set (cmd := x + 256 * x0) in *. set (id := x1 + 256 * x2) in *. set (len := x3 + 256 * x4) in *.
  assert (Ht : (cmd = BTMGMT_EV_CMD_COMPLETE \/ cmd = BTMGMT_EV_CMD_STATUS) -> id = HCI_CONTROLLER -> 1 <= len <= 2 ->
    len <= zlen data -> torn (x :: x0 :: x1 :: x2 :: x3 :: x4 :: data) = true).
  { intros Hc Hi Hl Hz. cbn [torn]. fold cmd id len. rewrite !andb_true_iff, orb_true_iff, !Z.eqb_eq, !Z.leb_le. intuition. }
  set (tn := torn _) in *. clearbody tn.
  assert (E : x :: x0 :: x1 :: x2 :: x3 :: x4 :: data = btmgmt_hdr cmd id len ++ data) by (unfold btmgmt_hdr; by rewrite <- E1, <- E2, <- E3).
  rewrite E. clear E E1 E2 E3. clearbody cmd id len.
  destruct (Z.lt_ge_cases (zlen data) len) as [Hc|Hc]; [right; exists (Cut cmd id len data); split; [by split_and!; try lia|done]|].
  set (params := take (Z.to_nat len) data). set (extra := drop (Z.to_nat len) data).
  assert (Ed : data = params ++ extra) by (symmetry; apply take_drop).
  assert (Hz : zlen params = len) by (unfold params, zlen in *; rewrite length_take; lia).
  assert (Hp : bytes_ok params) by by apply Forall_take. rewrite Ed, <- Hz.
  assert (Hw : forall e, event_ok e -> event_cmd e = cmd -> event_id e = id -> event_params e = params ->
    exists d, datagram_ok d /\ datagram_bytes d = btmgmt_hdr cmd id (zlen params) ++ params ++ extra).
  { intros e He <- <- <-. by exists (Whole e extra). }
  destruct (decide (id = HCI_CONTROLLER)) as [->|Hn].
  2: { right. apply (Hw (OtherController cmd id params)); try done. cbn. unfold HCI_CONTROLLER in Hn. lia. }
  assert (Ha : forall complete : bool, cmd = (if complete then BTMGMT_EV_CMD_COMPLETE else BTMGMT_EV_CMD_STATUS) ->
    tn = true \/ exists d, datagram_ok d /\ datagram_bytes d = btmgmt_hdr cmd HCI_CONTROLLER (zlen params) ++ params ++ extra).
  { intros complete Ec. destruct (answer_cases complete params Hp) as [Ht2|(e & He & E1 & E2 & E3)].
    - left. apply Ht; [rewrite Ec; destruct complete; auto|done|lia|done].
    - right. apply (Hw e); try done. by rewrite E1. }
  destruct (decide (cmd = BTMGMT_EV_CMD_COMPLETE)) as [Ec|Hn1]; [by apply (Ha true)|].
  destruct (decide (cmd = BTMGMT_EV_CMD_STATUS)) as [Ec|Hn2]; [by apply (Ha false)|]. right.
  destruct (decide (cmd = BTMGMT_EV_UNCONF_INDEX_ADDED)) as [Ec|Hn3]; [by apply (Hw (UnconfIndexAdded params))|].
  by apply (Hw (OtherEvent cmd params)).
Qed.


(** An answer without its status is taken, when the buffer holds a status from before: here it is
    reported that the address was set. *)
Example torn_answer :
  torn (btmgmt_hdr BTMGMT_EV_CMD_COMPLETE HCI_CONTROLLER 2 ++ le_bytes 2 BTMGMT_CMD_SET_PUBLIC_ADDR) = true /\
  bdaddr_loop [1; 2; 3; 4; 5; 6] (replicate 512 0) [btmgmt_hdr BTMGMT_EV_CMD_COMPLETE HCI_CONTROLLER 2 ++ le_bytes 2 BTMGMT_CMD_SET_PUBLIC_ADDR] =
  Done [Updated [1; 2; 3; 4; 5; 6]].
Proof. split; vm_compute; reflexivity. Qed.

Definition demo_addr : list Z := [0x01; 0x2a; 0xff; 0x10; 0x80; 0xc0].
Definition demo_datagrams : list mgmt_datagram :=
  [Whole (ConfigPart false 0x11 []) []; Whole (UnconfIndexAdded []) []; Whole (ConfigInfo 0 29 3 2 []) []; Stub [1; 0; 0];
   Cut 1 0 13 [0x37; 0; 0]; Whole (AddrSet true 0 []) [7]; Whole (OtherController 6 1 [1; 2; 3]) []; Whole (ConfigPart true 0 [29; 0; 3]) [];
   Whole (ConfigInfo 0 29 3 0 []) []].
Example demo_text : mac_text (rev demo_addr) = cstr "c0:80:10:ff:2a:01".
Proof. done. Qed.
(** Capital letters and short or padded numbers of two characters are accepted too. *)
Example loose_text : parse_bdaddr (cstr "C0: 8:+1:fF:2A:01") = Some [0x01; 0x2a; 0xff; 0x01; 0x08; 0xc0].
Proof. done. Qed.
Lemma parse_bdaddr_text_witness : parse_bdaddr (mac_text (rev demo_addr)) = Some demo_addr.
Proof. apply parse_bdaddr_text; [|done]. apply (bool_decide_unpack _). by vm_compute. Defined.
