(* ===== verification/Rproc.v ===== *)
(** * Starting and stopping the modem (rmtfs/rproc.c)

    The calls to the system are the class [RprocOps].  A directory that was opened with
    [fdopendir] has a list of names; [closedir] closes its descriptor. *)
From Stdlib Require Import String.
From S2P Require Import Prelude CString Paths Gpio.
#[local] Open Scope Z_scope.

Definition RPROC_BASE_PATH : list Z := cstr "/sys/bus/platform/drivers/qcom-q6v5-mss/".
Definition RPROC_CLASS_PATH : list Z := cstr "/sys/class/remoteproc/".

Class RprocOps (W : Type) := {
  rp_open : W -> list Z -> W * Z;
  rp_openat : W -> Z -> list Z -> W * Z;
  rp_fdopendir : W -> Z -> bool;
  rp_readdir : W -> Z -> list (list Z);
  rp_closedir : W -> Z -> W;
  rp_close : W -> Z -> W;
  rp_read : W -> Z -> Z -> W * Z * list Z;
  rp_pipe : W -> W * option (Z * Z);
  rp_pwrite : W -> Z -> list Z -> W * Z;
  rp_write : W -> Z -> list Z -> W * Z;
  rp_thread : W -> W * Z }.

Section Rproc.
Context {W : Type} `{RprocOps W}.

(** What the functions that look for the state file do for a name; the result is the
    descriptor of the state file or -1. *)
Definition modalias_entry (w : W) (base_fd : Z) (name : list Z) : W * Z :=
  if is_dot name then (w, -1)
  else
    let '(w, rproc_fd) := rp_openat w base_fd name in
    if rproc_fd <? 0 then (w, -1)
    else
      let '(w, modalias_fd) := rp_openat w rproc_fd (cstr "device/modalias") in
      if modalias_fd <? 0 then (rp_close w rproc_fd, -1)
      else
        let '(w, ret, bs) := rp_read w modalias_fd 255 in
        let modalias := before_nul bs in
        let '(w, state_fd) :=
          if (0 <=? ret) && (has_substring (cstr "-mpss-pas") modalias || has_substring (cstr "-mss-pil") modalias)
          then rp_openat w rproc_fd (cstr "state") else (w, -1) in
        (rp_close (rp_close w modalias_fd) rproc_fd, state_fd).
(** The loops over a directory, until a state file was opened. *)
Fixpoint dir_loop (entry : W -> Z -> list Z -> outcome (W * Z)) (w : W) (fd : Z) (names : list (list Z)) : outcome (W * Z) :=
  match names with
  | [] => Done (w, -1)
  | name :: names' =>
      '(w, state_fd) ← entry w fd name;
      if state_fd <? 0 then dir_loop entry w fd names' else Done (w, state_fd)
  end.
Definition rproc_init_by_modalias (w : W) : outcome (W * Z) :=
  let '(w, base_fd) := rp_open w RPROC_CLASS_PATH in
  if base_fd <? 0 then Done (w, -1)
  else if negb (rp_fdopendir w base_fd) then Done (rp_close w base_fd, -1)
  else
    '(w, state_fd) ← dir_loop (fun w fd name => Done (modalias_entry w fd name)) w base_fd (rp_readdir w base_fd);
    Done (rp_close (rp_closedir w base_fd) base_fd, state_fd).

Definition state_entry (w : W) (rproc_base_fd : Z) (name : list Z) : W * Z :=
  if is_dot name then (w, -1)
  else
    let '(w, rproc_fd) := rp_openat w rproc_base_fd name in
    if rproc_fd <? 0 then (w, -1)
    else let '(w, state_fd) := rp_openat w rproc_fd (cstr "state") in (rp_close w rproc_fd, state_fd).
(** The directory of a device; [fdopendir] is not checked there. *)
Definition device_entry (w : W) (base_fd : Z) (name : list Z) : outcome (W * Z) :=
  if is_dot name then Done (w, -1)
  else
    let '(w, device_fd) := rp_openat w base_fd name in
    if device_fd <? 0 then Done (w, -1)
    else
      let '(w, rproc_base_fd) := rp_openat w device_fd (cstr "remoteproc") in
      if rproc_base_fd <? 0 then Done (rp_close w device_fd, -1)
      else if negb (rp_fdopendir w rproc_base_fd) then Fault NullPointer
      else
        '(w, state_fd) ← dir_loop (fun w fd name => Done (state_entry w fd name)) w rproc_base_fd (rp_readdir w rproc_base_fd);
        Done (rp_close (rp_close (rp_closedir w rproc_base_fd) rproc_base_fd) device_fd, state_fd).
Definition rproc_init_by_mss_driver (w : W) : outcome (W * Z) :=
  let '(w, base_fd) := rp_open w RPROC_BASE_PATH in
  if base_fd <? 0 then Done (w, -1)
  else if negb (rp_fdopendir w base_fd) then Done (rp_close w base_fd, -1)
  else
    '(w, state_fd) ← dir_loop device_entry w base_fd (rp_readdir w base_fd);
    Done (rp_close (rp_closedir w base_fd) base_fd, state_fd).

(** The descriptors the module keeps. *)
Record rproc := RprocSt { rproc_state_fd : Z; rproc_pipe : Z * Z }.
Definition rproc_init (w : W) : outcome (W * option rproc) :=
  '(w, state_fd) ← rproc_init_by_modalias w;
  '(w, state_fd) ← (if state_fd <? 0 then rproc_init_by_mss_driver w else Done (w, state_fd));
  if state_fd <? 0 then Done (w, None)
  else
    match rp_pipe w with
    | (w, None) => Done (rp_close w state_fd, None)
    | (w, Some pipe) => Done (w, Some (RprocSt state_fd pipe))
    end.
(** The value [rproc_init] returns: the end of the pipe to wait on. *)
Definition rproc_init_result (r : option rproc) : Z := match r with Some st => (rproc_pipe st).1 | None => -1 end.

(** The bodies of the threads; the one that stops may exit the process. *)
Definition do_rproc_start (w : W) (st : rproc) : W := (rp_pwrite w (rproc_state_fd st) (cstr "start")).1.
Definition do_rproc_stop (w : W) (st : rproc) : W * bool :=
  let '(w, _) := rp_pwrite w (rproc_state_fd st) (cstr "stop") in
  let '(w, ret) := rp_write w (rproc_pipe st).2 (cstr "Y") in
  (w, negb (ret =? 1)).
Definition rproc_start (w : W) : W * Z := rp_thread w.
Definition rproc_stop (w : W) : W * Z := rp_thread w.
End Rproc.
