(* ===== verification/RprocProps.v ===== *)
(** * Starting and stopping the modem: no descriptor is lost *)
From Stdlib Require Import String.
From S2P Require Import Prelude CString Paths Gpio Rproc.
From stdpp Require Import gmap.
#[local] Open Scope Z_scope.

(** The descriptors that are open: a new one is fresh, closing removes one. *)
Class RprocLaws (W : Type) `{RprocOps W} := {
  rl_fds : W -> gset Z;
  rl_open w path : let '(w', fd) := rp_open w path in
    if fd <? 0 then rl_fds w' = rl_fds w else (fd ∉ rl_fds w) /\ rl_fds w' = {[fd]} ∪ rl_fds w;
  rl_openat w dir path : let '(w', fd) := rp_openat w dir path in
    if fd <? 0 then rl_fds w' = rl_fds w else (fd ∉ rl_fds w) /\ rl_fds w' = {[fd]} ∪ rl_fds w;
  rl_close w fd : rl_fds (rp_close w fd) = rl_fds w ∖ {[fd]};
  rl_closedir w fd : rl_fds (rp_closedir w fd) = rl_fds w ∖ {[fd]};
  rl_read w fd n : rl_fds (rp_read w fd n).1.1 = rl_fds w;
  rl_pipe w : match rp_pipe w with
    | (w', Some (r, s)) => (r ∉ rl_fds w) /\ (s ∉ rl_fds w) /\ rl_fds w' = {[r; s]} ∪ rl_fds w
    | (w', None) => rl_fds w' = rl_fds w
    end }.

Section Leaks.
Context {W : Type} `{RprocLaws W}.

(** From [w] to [w'] only [fd], if there is one, was opened and is still open. *)
Definition opened (w w' : W) (fd : Z) : Prop :=
  if fd <? 0 then rl_fds w' = rl_fds w else (fd ∉ rl_fds w) /\ rl_fds w' = {[fd]} ∪ rl_fds w.
Lemma opened_none w w' : rl_fds w' = rl_fds w -> opened w w' (-1).
Proof. done. Qed.
Lemma openat_opened w dir path w' fd : rp_openat w dir path = (w', fd) -> opened w w' fd.
Proof. intros E. pose proof (rl_openat w dir path) as Ho. by rewrite E in Ho. Qed.
Lemma open_opened w path w' fd : rp_open w path = (w', fd) -> opened w w' fd.
Proof. intros E. pose proof (rl_open w path) as Ho. by rewrite E in Ho. Qed.
(** Around something that opens [fd] a directory is opened and closed. *)
Lemma opened_within w w1 w2 w3 dir fd : opened w w1 dir -> 0 <= dir -> opened w1 w2 fd ->
  rl_fds w3 = rl_fds w2 ∖ {[dir]} -> opened w w3 fd.
Proof.
  unfold opened. intros H1 Hd H2 H3. rewrite (proj2 (Z.ltb_ge _ _)) in H1 by done. destruct H1 as [Hn H1].
  destruct (fd <? 0); [|destruct H2 as [Hn2 H2]; split]; rewrite ?H3, ?H2, ?H1 in *; set_solver.
Qed.

Lemma modalias_opened w fd name w' r : modalias_entry w fd name = (w', r) -> opened w w' r.
Proof.
  unfold modalias_entry. destruct (is_dot name); [by intros [= <- <-]|].
  destruct (rp_openat w fd name) as [w1 rproc_fd] eqn:E1. apply openat_opened in E1.
  destruct (rproc_fd <? 0) eqn:L1; [intros [= <- <-]; unfold opened in E1; rewrite L1 in E1; by apply opened_none|]. apply Z.ltb_ge in L1.
  destruct (rp_openat w1 rproc_fd _) as [w2 modalias_fd] eqn:E2. apply openat_opened in E2.
  destruct (modalias_fd <? 0) eqn:L2.
  { intros [= <- <-]. apply (opened_within _ _ _ _ _ _ E1 L1 (opened_none w1 w2 ltac:(by unfold opened in E2; rewrite L2 in E2))). apply rl_close. }
  apply Z.ltb_ge in L2. destruct (rp_read w2 modalias_fd 255) as [[w3 ret] bs] eqn:E3.
  pose proof (rl_read w2 modalias_fd 255) as H3. rewrite E3 in H3. cbn [fst] in H3.
  destruct (if _ && _ then _ else _) as [w4 state_fd] eqn:E4. intros [= <- <-].
  assert (H4 : opened w2 w4 state_fd).
  { destruct (_ && _); [apply openat_opened in E4; unfold opened in *; by rewrite H3 in E4|injection E4 as <- <-; by apply opened_none]. }
  apply (opened_within _ _ _ _ _ _ E1 L1 (opened_within _ _ _ _ _ _ E2 L2 H4 (rl_close w4 modalias_fd))). apply rl_close.
Qed.
Lemma state_opened w fd name w' r : state_entry w fd name = (w', r) -> opened w w' r.
Proof.
  unfold state_entry. destruct (is_dot name); [by intros [= <- <-]|].
  destruct (rp_openat w fd name) as [w1 rproc_fd] eqn:E1. apply openat_opened in E1.
  destruct (rproc_fd <? 0) eqn:L1; [intros [= <- <-]; unfold opened in E1; rewrite L1 in E1; by apply opened_none|]. apply Z.ltb_ge in L1.
  destruct (rp_openat w1 rproc_fd _) as [w2 state_fd] eqn:E2. apply openat_opened in E2. intros [= <- <-].
  apply (opened_within _ _ _ _ _ _ E1 L1 E2). apply rl_close.
Qed.
Lemma dir_loop_opened entry w fd names w' r : (forall w name w' r, entry w fd name = Done (w', r) -> opened w w' r) ->
  dir_loop entry w fd names = Done (w', r) -> opened w w' r.
Proof.
  intros He. revert w. induction names as [|name names IH]; intros w E; cbn [dir_loop] in E; [by injection E as <- <-|].
  inv_done. destruct r0 as [w1 fd1]. apply He in Hrun. destruct (fd1 <? 0) eqn:L; [|by injection E as <- <-].
  apply IH in E. unfold opened in *. rewrite L in Hrun. by rewrite Hrun in E.
Qed.
(** A directory that is walked; [closedir] and [close] both close it. *)
Lemma walked_opened entry w dir w1 w2 r : opened w w1 dir -> 0 <= dir ->
  (forall w name w' r, entry w dir name = Done (w', r) -> opened w w' r) ->
  dir_loop entry w1 dir (rp_readdir w1 dir) = Done (w2, r) -> opened w (rp_close (rp_closedir w2 dir) dir) r.
Proof.
  intros H1 Hd He E. apply (opened_within _ _ _ _ _ _ H1 Hd (dir_loop_opened _ _ _ _ _ _ He E)).
  rewrite rl_close, rl_closedir. set_solver.
Qed.
Lemma device_opened w fd name w' r : device_entry w fd name = Done (w', r) -> opened w w' r.
Proof.
  unfold device_entry. destruct (is_dot name); [by intros [= <- <-]|].
  destruct (rp_openat w fd name) as [w1 device_fd] eqn:E1. apply openat_opened in E1.
  destruct (device_fd <? 0) eqn:L1; [intros [= <- <-]; unfold opened in E1; rewrite L1 in E1; by apply opened_none|]. apply Z.ltb_ge in L1.
  destruct (rp_openat w1 device_fd _) as [w2 base_fd] eqn:E2. apply openat_opened in E2. destruct (base_fd <? 0) eqn:L2.
  { intros [= <- <-]. apply (opened_within _ _ _ _ _ _ E1 L1 (opened_none w1 w2 ltac:(by unfold opened in E2; rewrite L2 in E2))). apply rl_close. }
  apply Z.ltb_ge in L2. destruct (negb _); [done|]. intros E. inv_done. destruct r0 as [w3 state_fd]. injection E as <- <-.
  eapply (opened_within _ _ (rp_close (rp_closedir w3 base_fd) base_fd) _ _ _ E1 L1); [|apply rl_close].
  refine (walked_opened (fun w fd name => Done (state_entry w fd name)) _ _ _ _ _ E2 L2 _ Hrun). intros w4 nm w5 r5 [= E5]. by apply state_opened in E5.
Qed.

Lemma modalias_init_opened w w' r : rproc_init_by_modalias w = Done (w', r) -> opened w w' r.
Proof.
  unfold rproc_init_by_modalias. destruct (rp_open w _) as [w1 base_fd] eqn:E1. apply open_opened in E1.
  destruct (base_fd <? 0) eqn:L1; [intros [= <- <-]; unfold opened in E1; rewrite L1 in E1; by apply opened_none|].
  pose proof (proj1 (Z.ltb_ge _ _) L1) as L1'. destruct (negb _).
  { intros [= <- <-]. apply (opened_within _ _ _ _ _ _ E1 L1' (opened_none w1 w1 eq_refl)). apply rl_close. }
  intros E. inv_done. destruct r0 as [w3 state_fd]. injection E as <- <-.
  refine (walked_opened (fun w fd name => Done (modalias_entry w fd name)) _ _ _ _ _ E1 L1' _ Hrun). intros w4 nm w5 r5 [= E5]. by apply modalias_opened in E5.
Qed.
Lemma driver_init_opened w w' r : rproc_init_by_mss_driver w = Done (w', r) -> opened w w' r.
Proof.
  unfold rproc_init_by_mss_driver. destruct (rp_open w _) as [w1 base_fd] eqn:E1. apply open_opened in E1.
  destruct (base_fd <? 0) eqn:L1; [intros [= <- <-]; unfold opened in E1; rewrite L1 in E1; by apply opened_none|].
  pose proof (proj1 (Z.ltb_ge _ _) L1) as L1'. destruct (negb _).
  { intros [= <- <-]. apply (opened_within _ _ _ _ _ _ E1 L1' (opened_none w1 w1 eq_refl)). apply rl_close. }
  intros E. inv_done. destruct r0 as [w3 state_fd]. injection E as <- <-.
  refine (walked_opened device_entry _ _ _ _ _ E1 L1' _ Hrun). intros w4 nm w5 r5 E5. by apply device_opened in E5.
Qed.

(** ** Initialising returns *)

Lemma dir_loop_returns (entry : W -> Z -> list Z -> outcome (W * Z)) w fd names : (forall w name, exists r, entry w fd name = Done r) ->
  exists r, dir_loop entry w fd names = Done r.
Proof.
  intros He. revert w. induction names as [|name names IH]; intros w; cbn [dir_loop]; [by eexists|].
  destruct (He w name) as [[w1 fd1] ->]. run. destruct (fd1 <? 0); [apply IH|by eexists].
Qed.
Lemma init_returns w : (forall w fd, rp_fdopendir w fd = true) ->
  (exists r, rproc_init_by_modalias w = Done r) /\ (exists r, rproc_init_by_mss_driver w = Done r).
Proof.
  intros Hd. split.
  - unfold rproc_init_by_modalias. destruct (rp_open w _) as [w1 fd]. destruct (fd <? 0); [by eexists|]. rewrite Hd. cbn [negb].
    destruct (dir_loop_returns (fun w fd name => Done (modalias_entry w fd name)) w1 fd (rp_readdir w1 fd)) as [[w2 r] ->]; by eexists.
  - unfold rproc_init_by_mss_driver. destruct (rp_open w _) as [w1 fd]. destruct (fd <? 0); [by eexists|]. rewrite Hd. cbn [negb].
    destruct (dir_loop_returns device_entry w1 fd (rp_readdir w1 fd)) as [[w2 r] ->]; [|by eexists].
    intros w3 name. unfold device_entry. destruct (is_dot name); [by eexists|]. destruct (rp_openat w3 fd name) as [w4 fd4].
    destruct (fd4 <? 0); [by eexists|]. destruct (rp_openat w4 fd4 _) as [w5 fd5]. destruct (fd5 <? 0); [by eexists|]. rewrite Hd. cbn [negb].
    destruct (dir_loop_returns (fun w fd name => Done (state_entry w fd name)) w5 fd5 (rp_readdir w5 fd5)) as [[w6 r] ->]; by eexists.
Qed.

Lemma init_keeps w : (forall w fd, rp_fdopendir w fd = true) ->
  exists w' r, rproc_init w = Done (w', r) /\
    match r with
    | Some st => (rproc_state_fd st ∉ rl_fds w) /\
        rl_fds w' = {[(rproc_pipe st).1; (rproc_pipe st).2]} ∪ ({[rproc_state_fd st]} ∪ rl_fds w)
    | None => rl_fds w' = rl_fds w
    end.
Proof.
  intros Hd. unfold rproc_init. destruct (init_returns w Hd) as [[[w1 fd1] E1] _]. rewrite E1. run. apply modalias_init_opened in E1.
  assert (H2 : exists w2 fd2, (if fd1 <? 0 then rproc_init_by_mss_driver w1 else Done (w1, fd1)) = Done (w2, fd2) /\ opened w w2 fd2).
  { unfold opened in *. destruct (fd1 <? 0) eqn:L1; [|exists w1, fd1; by rewrite L1].
    destruct (init_returns w1 Hd) as [_ [[w2 fd2] E2]]. exists w2, fd2. split; [done|]. apply driver_init_opened in E2.
    unfold opened in E2. by rewrite E1 in E2. }
  destruct H2 as (w2 & fd2 & -> & H2). run. unfold opened in H2. destruct (fd2 <? 0); [by exists w2, None|]. destruct H2 as [Hn H2].
  pose proof (rl_pipe w2) as Hp. destruct (rp_pipe w2) as [w3 [[p0 p1]|]].
  - exists w3, (Some (RprocSt fd2 (p0, p1))). split; [done|]. destruct Hp as (_ & _ & Hp). cbn. split; [done|]. by rewrite Hp, H2.
  - exists (rp_close w3 fd2), None. split; [done|]. rewrite rl_close, Hp, H2. set_solver.
Qed.

(** C32: whatever the directories hold and whatever cannot be opened on the way, the only
    descriptors that are left open are the state file and the pipe, and none when
    initialising fails. *)
Theorem rproc_init_keeps_descriptors w : (forall w fd, rp_fdopendir w fd = true) ->
  exists w' r, rproc_init w = Done (w', r) /\
    match r with
    | Some st => (rproc_state_fd st ∉ rl_fds w) /\
        rl_fds w' = {[(rproc_pipe st).1; (rproc_pipe st).2]} ∪ ({[rproc_state_fd st]} ∪ rl_fds w)
    | None => rl_fds w' = rl_fds w
    end.
Proof. apply init_keeps. Qed.
End Leaks.

(** ** A system to try it on: one modem under the class of remote processors *)

Record sysfs := Sysfs { sf_fds : gset Z; sf_next : nat }.
Definition sf_alloc (w : sysfs) : sysfs * Z :=
  let n := Z.of_nat (sf_next w) in
  if decide (n ∈ sf_fds w) then (w, -1) else (Sysfs ({[n]} ∪ sf_fds w) (S (sf_next w)), n).
Definition sf_close (w : sysfs) (fd : Z) : sysfs := Sysfs (sf_fds w ∖ {[fd]}) (sf_next w).
#[export] Instance sysfs_ops : RprocOps sysfs := {
  rp_open w _ := sf_alloc w;
  rp_openat w _ _ := sf_alloc w;
  rp_fdopendir _ _ := true;
  rp_readdir _ _ := [cstr "."; cstr "remoteproc0"];
  rp_closedir := sf_close;
  rp_close := sf_close;
  rp_read w _ _ := (w, 13, cstr "qcom-mpss-pas");
  rp_pipe w :=
    let n := Z.of_nat (sf_next w) in
    if decide ((n ∈ sf_fds w) \/ (n + 1 ∈ sf_fds w)) then (w, None)
    else (Sysfs ({[n; n + 1]} ∪ sf_fds w) (S (S (sf_next w))), Some (n, n + 1));
  rp_pwrite w _ bs := (w, zlen bs);
  rp_write w _ bs := (w, zlen bs);
  rp_thread w := (w, 0) }.
Lemma sf_alloc_law w : let '(w', fd) := sf_alloc w in
  if fd <? 0 then sf_fds w' = sf_fds w else (fd ∉ sf_fds w) /\ sf_fds w' = {[fd]} ∪ sf_fds w.
Proof. unfold sf_alloc. case_decide; [done|]. by rewrite (proj2 (Z.ltb_ge _ _)) by lia. Qed.
#[export] Instance sysfs_laws : RprocLaws sysfs.
Proof.
  refine {| rl_fds := sf_fds |}; try done; try (intros; apply sf_alloc_law).
  intros w. cbn. case_decide as E; [done|]. set_solver.
Defined.
Lemma rproc_init_keeps_descriptors_witness : exists w' r, rproc_init (Sysfs ∅ 3) = Done (w', r) /\
    match r with
    | Some st => (rproc_state_fd st ∉ rl_fds (Sysfs ∅ 3)) /\
        rl_fds w' = {[(rproc_pipe st).1; (rproc_pipe st).2]} ∪ ({[rproc_state_fd st]} ∪ rl_fds (Sysfs ∅ 3))
    | None => rl_fds w' = rl_fds (Sysfs ∅ 3)
    end.
Proof. apply (rproc_init_keeps_descriptors (Sysfs ∅ 3)). done. Defined.
Example sysfs_finds : (exists w, rproc_init (Sysfs ∅ 3) = Done (w, Some (RprocSt 6 (7, 8)))).
Proof. eexists. by vm_compute. Qed.
