(* ===== verification/RmtfsStart.v ===== *)
(** * The start of the remote file system service (rmtfs/rmtfs.c, [main])

    Here the parts of the service meet: the command line, the control of the modem
    ([Rproc], over a system [R]), the window of shared memory ([SharedMem]) and the
    service itself ([Rmtfs]), both over a system [W]. *)
From Stdlib Require Import String.
From S2P Require Import Prelude CString Os Storage SharedMem Rmtfs Gpio Rproc.
#[local] Open Scope Z_scope.

(** What [getopt] finds. *)
Inductive rmtfs_option := OptRoot (dir : list Z) | OptPartitions | OptReadOnly | OptRproc | OptVerbose | OptUnknown.
(** [opt_rproc] are the descriptors of [rproc.c] when [rprocfd] is one of them. *)
Record rmtfs_options := RmtfsOptions {
  opt_root : option (list Z); opt_partitions : bool; opt_read_only : bool;
  opt_rproc : option rproc; opt_verbose : bool }.
Definition rmtfs_defaults : rmtfs_options := RmtfsOptions None false false None false.

(** How [main] ends, with what is left of the system: it gives up before the service runs,
    the service has stopped, or it still runs. *)
Inductive rmtfs_end (W : Type) := RmtfsExit (status : Z) (w : option W) | RmtfsStopped (st : rmtfs W) | RmtfsRuns (st : rmtfs W).
Arguments RmtfsExit {W}.
Arguments RmtfsStopped {W}.
Arguments RmtfsRuns {W}.

Section Start.
Context {R : Type} `{RprocOps R} {W : Type} `{OsOps W}.

(** Every [-s] looks for the modem again; [None] is the exit. *)
Fixpoint take_options (rw : R) (opts : list rmtfs_option) (o : rmtfs_options) : outcome (R * option rmtfs_options) :=
  match opts with
  | [] => Done (rw, Some o)
  | OptRoot dir :: opts' =>
      take_options rw opts' (RmtfsOptions (Some dir) (opt_partitions o) (opt_read_only o) (opt_rproc o) (opt_verbose o))
  | OptPartitions :: opts' =>
      take_options rw opts' (RmtfsOptions (opt_root o) true (opt_read_only o) (opt_rproc o) (opt_verbose o))
  | OptReadOnly :: opts' =>
      take_options rw opts' (RmtfsOptions (opt_root o) (opt_partitions o) true (opt_rproc o) (opt_verbose o))
  | OptRproc :: opts' =>
      '(rw, r) ← rproc_init rw;
      if rproc_init_result r <? 0 then Done (rw, None)
      else take_options rw opts' (RmtfsOptions (opt_root o) (opt_partitions o) (opt_read_only o) r (opt_verbose o))
  | OptVerbose :: opts' =>
      take_options rw opts' (RmtfsOptions (opt_root o) (opt_partitions o) (opt_read_only o) (opt_rproc o) true)
  | OptUnknown :: _ => Done (rw, None)
  end.

(** The arguments behind the options are what [rmtfs_mem_open] and the runs of the service see. *)
Definition rmtfs_program (rw : R) (w : W) (opts : list rmtfs_option) (val : list Z) (dir : option (list tree_entry))
    (mmap : Z -> Z -> Z -> option (list Z)) (runs : list (Z * Z * list turn)) : outcome (R * rmtfs_end W) :=
  '(rw, o) ← take_options rw opts rmtfs_defaults;
  match o with
  | None => Done (rw, RmtfsExit 1 None)
  | Some o =>
      '(w, m) ← rmtfs_mem_open w val dir mmap;
      match m with
      | None => Done (rw, RmtfsExit 1 (Some w))
      | Some m =>
          '(st, stopped) ← rmtfs_main w m (opt_root o) (opt_read_only o) (opt_partitions o)
                             (0 <=? rproc_init_result (opt_rproc o)) runs;
          Done (rw, if (stopped : bool) then RmtfsStopped st else RmtfsRuns st)
      end
  end.
End Start.
