(* ===== verification/RmtfsStartProps.v ===== *)
(** * The life of the remote file system service: properties *)
From Stdlib Require Import String.
From S2P Require Import Prelude CString Qrtr Qmi RmtfsMsgs QmiRef Os World Storage StorageFacts StorageProps SharedMem SharedMemProps Rmtfs RmtfsWorld RmtfsFacts RmtfsProps Gpio Rproc RprocProps RmtfsStart.
#[local] Open Scope Z_scope.

(** ** Datagrams the service copes with *)

(** The packet a message of a client becomes. *)
Definition client_packet (stk : stack) (data : list Z) (sq : sockaddr_qrtr) : qrtr_packet :=
  set_qp_data (set_qp_addr (set_qp_type (stk_pkt stk) QRTR_TYPE_DATA) (sq_node sq) (sq_port sq)) data.

(** What [recvfrom] may give in state [st]: an error; a control packet; a message too short
    for a header, or with an unknown id; or a request that is decoded, at least as far as
    its transaction, and that is malformed and no transfer or one of [serves]. *)
Inductive datagram_ok {W} (st : rmtfs W) : received -> list Z -> stack -> Prop :=
  | dg_error e stale stk : datagram_ok st (inl e) stale stk
  | dg_control data sq stale stk : sq_port sq = QRTR_PORT_CTRL -> datagram_ok st (inr (data, sq)) stale stk
  | dg_header data sq stale stk ret o : sq_port sq <> QRTR_PORT_CTRL ->
      qmi_decode_header (data ++ stale) (zlen data) = Done (ret, o) -> ret < 0 -> datagram_ok st (inr (data, sq)) stale stk
  | dg_unknown data sq stale stk id : sq_port sq <> QRTR_PORT_CTRL ->
      qmi_decode_header (data ++ stale) (zlen data) = Done (0, Some id) -> request_table id = None ->
      datagram_ok st (inr (data, sq)) stale stk
  | dg_request data sq stale stk id size ei req ret txn : sq_port sq <> QRTR_PORT_CTRL -> stack_ok stk ->
      qmi_decode_header (data ++ stale) (zlen data) = Done (0, Some id) -> request_table id = Some (size, ei) ->
      decode_req (client_packet stk data sq) stale size id ei = Done (req, ret, Some txn) ->
      (ret < 0 -> id <> QMI_RMTFS_RW_IOVEC) -> (0 <= ret -> serves st (sq_node sq) req id) ->
      datagram_ok st (inr (data, sq)) stale stk.

(** What the calls of a turn return, for each turn in the state the turns before have left. *)
Fixpoint accepts {W} `{OsOps W} (turns : list turn) (st : rmtfs W) : Prop :=
  match turns with
  | [] => True
  | t :: ts => -1 <= t_select t /\ (forall n done, t_rproc t = Some (n, done) -> -1 <= n) /\
      match t_sock t with
      | Some (r, stale, stk) =>
          (0 <= t_select t -> datagram_ok st r stale stk) /\
          forall st' ret, (if t_select t <? 0 then Done (st, 0) else handle_rmtfs st r stale stk) = Done (st', ret) -> accepts ts st'
      | None => accepts ts st
      end
  end.

(** The requests that are served whatever is open: all but transfers that write and
    questions for the error of an entry. *)
Inductive always_served (req : list Z) : Z -> Prop :=
  | always_open p : read_cstr req 4 = Done p -> always_served req QMI_RMTFS_OPEN
  | always_close c : read_u32 req 0 = Done c -> c < 2 ^ 31 -> always_served req QMI_RMTFS_CLOSE
  | always_alloc n : read_u32 req 4 = Done n -> always_served req QMI_RMTFS_ALLOC_BUFF
  | always_read c n : read_u32 req 0 = Done c -> c < 2 ^ 31 -> read_u8 req 4 = Done 0 ->
      read_u64 req 8 = Done n -> n <= 255 ->
      (forall j, 0 <= j < n -> exists e, read_entry req j = Done e) -> always_served req QMI_RMTFS_RW_IOVEC.

Section Datagrams.
Context {W : Type} `{OsWorld W}.
Implicit Types st : rmtfs W.

Lemma always_serves st n req i : always_served req i -> serves st n req i.
Proof.
  intros []; [by eapply serves_open|by eapply serves_close|by eapply serves_alloc|].
  eapply serves_iovec; eauto.
Qed.
(** Turns with datagrams that are accepted in every state. *)
Lemma always_accepts turns st :
  Forall (fun t => -1 <= t_select t /\ (forall n done, t_rproc t = Some (n, done) -> -1 <= n) /\
    forall r stale stk, t_sock t = Some (r, stale, stk) -> forall st, datagram_ok (W := W) st r stale stk) turns ->
  accepts turns st.
Proof.
  intros Hl. revert st. induction Hl as [|t ts (Hsel & Hrp & Hd) _ IH]; intros st; [done|].
  cbn [accepts]. split; [done|]. split; [done|]. destruct (t_sock t) as [[[r stale] stk]|]; [|done].
  split; [intros _; by eapply Hd|]. auto.
Qed.

Lemma handle_accounted st r stale stk : rmtfs_ok st -> datagram_ok st r stale stk ->
  exists st' ret, handle_rmtfs st r stale stk = Done (st', ret) /\ rmtfs_ok st' /\ accounted st st'.
Proof.
  intros Hst Hd. destruct Hd as [e stale stk|data sq stale stk Hp|data sq stale stk ret o Hp Hh Hr|data sq stale stk id Hp Hh Ht|
    data sq stale stk id size ei req ret txn Hp Hstk Hh Ht Hdec Hmal Hsv]; cbn [handle_rmtfs].
  { by exists st, (- e). }
  { destruct (qrtr_decode_control (stk_pkt stk) data sq Hp) as (rc & d & -> & Hd). run.
    destruct (rc <? 0) eqn:E; reflect_bools; [by exists st, rc|]. destruct Hd as [?|[_ Hd]]; [lia|].
    destruct (qp_type d =? QRTR_TYPE_BYE); [by exists st, 0|]. destruct (qp_type d =? QRTR_TYPE_DEL_CLIENT); [by exists st, 0|].
    rewrite (proj2 (Z.eqb_neq _ _) Hd). by exists st, rc. }
  all: unfold qrtr_decode; rewrite (proj2 (Z.eqb_neq _ _) Hp); run; fold (client_packet stk data sq);
    cbn [client_packet qp_type set_qp_data set_qp_addr set_qp_type]; cbn [Z.ltb Z.compare];
    change (qp_data (client_packet stk data sq)) with data; rewrite Hh; run.
  - rewrite (proj2 (Z.ltb_lt _ _) Hr). by exists st, ret.
  - exists st, 0. revert Ht. unfold rmtfs_dispatch, request_table. repeat case_scrut; done.
  - destruct (dispatch_replied st id (client_packet stk data sq) stale stk size ei req ret txn)
      as (st1 & wire & -> & Hst1 & _ & Ha & _); try done.
    run. eexists _, 0. split; [done|]. split; [by destruct Hst1|]. etrans; [exact Ha|apply sent_accounted].
Qed.
End Datagrams.

(** ** The turns of the loop

    Why a turn ends the loop: the service is asked to stop, cannot wait, or the modem has
    been stopped ([quits]); or the socket was reset and has to be opened again. *)
Definition quits (rproc : bool) (t : turn) : Prop :=
  1 < t_sigint t \/ (t_sigint t = 1 /\ rproc = false) \/ (t_select t < 0 /\ t_errno t <> EINTR) \/
  (0 <= t_select t /\ rproc = true /\ exists n done, t_rproc t = Some (n, done) /\ (n = 0 \/ done = 89)).
Definition resets (t : turn) : Prop :=
  0 <= t_select t /\ exists stale stk, t_sock t = Some (inl ENETRESET, stale, stk).
Inductive ending := Quit | Reset.
Inductive run_end (rproc : bool) : list turn -> ending -> Prop :=
  | end_quit t ts : quits rproc t -> run_end rproc (t :: ts) Quit
  | end_reset t ts : ~ quits rproc t -> resets t -> run_end rproc (t :: ts) Reset
  | end_later t ts x : ~ quits rproc t -> ~ resets t -> run_end rproc ts x -> run_end rproc (t :: ts) x.
(** A turn, before the loop ends, that sees the first signal. *)
Inductive asked (rproc : bool) : list turn -> Prop :=
  | asked_now t ts : t_sigint t = 1 -> asked rproc (t :: ts)
  | asked_later t ts : ~ quits rproc t -> ~ resets t -> asked rproc ts -> asked rproc (t :: ts).

Section Life.
Context {W : Type} `{OsWorld W}.
Implicit Types st : rmtfs W.

Lemma decode_result dest buf sq rc d : qrtr_decode dest buf sq = Done (rc, d) -> rc = 0 \/ rc = - EMSGSIZE.
Proof.
  unfold qrtr_decode. intros E. destruct (_ =? _); [|injection E as <- _; by left].
  destruct (_ <? _); [injection E as <- _; by right|]. left. apply bind_done in E as (c & _ & E).
  repeat match type of E with context [if ?b then _ else _] => destruct b end; inv_done; congruence.
Qed.
Lemma header_result data n rc o : qmi_decode_header data n = Done (rc, o) -> rc = 0 \/ rc = - EINVAL.
Proof.
  unfold qmi_decode_header. intros E. apply bind_done in E as (l & _ & E).
  destruct (negb _); [injection E as <- _; by right|]. apply bind_done in E as (i & _ & [= <- _]). by left.
Qed.

(** Only an error of the socket is passed on as one. *)
Lemma handle_reset st r stale stk st' ret : handle_rmtfs st r stale stk = Done (st', ret) ->
  ret = - ENETRESET <-> r = inl ENETRESET.
Proof.
  destruct r as [e|[data sq]]; cbn [handle_rmtfs].
  { intros [= <- <-]. unfold ENETRESET. split; [intros; f_equal; lia|by intros [= ->]]. }
  intros E. split; [|done]. intros ->. exfalso. apply bind_done in E as ([rc d] & Hrc%decode_result & E).
  unfold EMSGSIZE, ENETRESET in *.
  destruct (rc <? 0) eqn:Er; [injection E as _ E; lia|].
  destruct (_ =? QRTR_TYPE_BYE); [by injection E|]. destruct (_ =? QRTR_TYPE_DEL_CLIENT); [by injection E|].
  destruct (_ =? QRTR_TYPE_DATA); [|injection E as _ E; lia].
  apply bind_done in E as ([rc2 o] & Hh%header_result & E). unfold EINVAL in Hh.
  destruct (rc2 <? 0); inv_done; lia.
Qed.

(** What a run returns and does, said with [run_end] and [asked]. *)
Definition loop_outcome (rproc stopped : bool) (turns : list turn) (r : option Z) (calls : list rproc_call) : Prop :=
  match r with
  | Some v => run_end rproc turns (if v =? - ENETRESET then Reset else Quit)
  | None => forall x, ~ run_end rproc turns x
  end /\
  exists stops : bool, calls = (if stops then [RprocStop] else []) ++ match r with Some _ => [CloseSocket] | None => [] end /\
    (stops = true <-> stopped = false /\ rproc = true /\ asked rproc turns).

(** The first signal is handled in this turn. *)
Definition stop_now (rproc stopped : bool) (t : turn) : bool := (t_sigint t =? 1) && negb stopped && rproc.
Definition stop_calls (now : bool) : list rproc_call := if now then [RprocStop] else [].

Lemma outcome_end rproc stopped t ts v :
  (if v =? - ENETRESET then ~ quits rproc t /\ resets t else quits rproc t) ->
  loop_outcome rproc stopped (t :: ts) (Some v) (stop_calls (stop_now rproc stopped t) ++ [CloseSocket]).
Proof.
  intros Hv. split; [destruct (v =? - ENETRESET); [destruct Hv; by apply end_reset|by apply end_quit]|].
  exists (stop_now rproc stopped t). split; [done|]. unfold stop_now. rewrite !andb_true_iff, negb_true_iff, Z.eqb_eq.
  split; [intros [[Hs Hst] Hr]; split_and!; [done..|by apply asked_now]|].
  intros (Hst & Hr & Ha). split_and!; [|done..]. inversion Ha as [|? ? Hq Hn]; subst; [done|].
  exfalso. destruct (v =? - ENETRESET); tauto.
Qed.

Lemma outcome_later rproc stopped t ts r calls : ~ quits rproc t -> ~ resets t ->
  loop_outcome rproc (stopped || stop_now rproc stopped t) ts r calls ->
  loop_outcome rproc stopped (t :: ts) r (stop_calls (stop_now rproc stopped t) ++ calls).
Proof.
  intros Hq Hn [Hr (stops & -> & Hs)]. split.
  { destruct r; [by apply end_later|]. intros x Hx. inversion Hx; subst; [done..|]. by eapply Hr. }
  assert (Ha : asked rproc (t :: ts) <-> t_sigint t = 1 \/ asked rproc ts).
  { split; [intros Hx; inversion Hx; auto|intros [Hx|Hx]; [by apply asked_now|by apply asked_later]]. }
  setoid_rewrite Ha. unfold stop_now in *. destruct stopped; cbn [orb negb] in *.
  { rewrite andb_false_r in *. cbn [andb] in *. exists stops. split; [done|]. rewrite Hs. intuition congruence. }
  rewrite andb_true_r in *. destruct (t_sigint t =? 1) eqn:E; cbn [andb] in *; reflect_bools.
  - destruct rproc; [|exists stops; split; [done|]; intuition congruence].
    destruct stops; [destruct (proj1 Hs eq_refl); congruence|]. exists true. split; [done|]. intuition.
  - exists stops. split; [done|]. rewrite Hs. intuition congruence.
Qed.

(** The signals are looked at first. *)
Definition stopped_by_signal (rproc stopped : bool) (t : turn) : bool :=
  (1 <? t_sigint t) || ((t_sigint t =? 1) && negb stopped && negb rproc).
Lemma signals_step (rproc stopped : bool) t :
  (if (t_sigint t =? 1) && negb stopped then
     if rproc then (false, true, [RprocStop]) else (true, stopped, [])
   else (1 <? t_sigint t, stopped, [])) =
  (stopped_by_signal rproc stopped t, stopped || stop_now rproc stopped t, stop_calls (stop_now rproc stopped t)).
Proof.
  unfold stopped_by_signal, stop_now, stop_calls. destruct (t_sigint t =? 1) eqn:E1, (1 <? t_sigint t) eqn:E2, stopped, rproc;
    reflect_bools; cbn; try done; lia.
Qed.
Lemma signal_quits rproc stopped t : stopped_by_signal rproc stopped t = true -> quits rproc t.
Proof.
  unfold stopped_by_signal, quits. rewrite orb_true_iff, !andb_true_iff, Z.ltb_lt, Z.eqb_eq, !negb_true_iff. tauto.
Qed.
Lemma no_signal_quits (rproc stopped : bool) t : (stopped = true -> rproc = true) -> stopped_by_signal rproc stopped t = false ->
  ~ 1 < t_sigint t /\ ~ (t_sigint t = 1 /\ rproc = false).
Proof.
  unfold stopped_by_signal. rewrite orb_false_iff, Z.ltb_ge. intros Hs [K1 K2]. split; [lia|]. intros [K3 ->].
  rewrite K3 in K2. destruct stopped; [by specialize (Hs eq_refl)|done].
Qed.

(** Then the modem, when its pipe is ready. *)
Lemma modem_step (rproc : bool) t : (forall n done, t_rproc t = Some (n, done) -> -1 <= n) -> 0 <= t_select t ->
  exists ret over, match t_rproc t with
                   | Some (n, done) => if rproc then (n, (n =? 0) || (done =? 89)) else (t_select t, false)
                   | None => (t_select t, false)
                   end = (ret, over) /\ ret <> - ENETRESET /\
    (over = true <-> 0 <= t_select t /\ rproc = true /\ exists n done, t_rproc t = Some (n, done) /\ (n = 0 \/ done = 89)).
Proof.
  intros Hn Hs. unfold ENETRESET. destruct (t_rproc t) as [[n d]|]; [destruct rproc|].
  - specialize (Hn n d eq_refl). eexists _, _. split; [done|]. split; [lia|]. rewrite orb_true_iff, !Z.eqb_eq. split.
    + intros Ho. split_and!; [done..|]. by exists n, d.
    + intros (_ & _ & n' & d' & [= <- <-] & Ho). done.
  - eexists _, _. split; [done|]. split; [lia|]. split; [done|]. by intros (_ & ? & _).
  - eexists _, _. split; [done|]. split; [lia|]. split; [done|]. by intros (_ & _ & ? & ? & ? & _).
Qed.

Lemma run_loop_life turns rproc st stopped ret : rmtfs_ok st -> accepts turns st -> ret <> - ENETRESET ->
  (stopped = true -> rproc = true) ->
  exists st' r calls, run_loop turns rproc st stopped ret = Done (st', r, calls) /\ rmtfs_ok st' /\ accounted st st' /\
    loop_outcome rproc stopped turns r calls.
Proof.
  revert st stopped ret. induction turns as [|t ts IH]; intros st stopped ret Hst Hacc Hret Hstop.
  { exists st, None, []. split_and!; [done..|]. split; [by intros x Hx; inversion Hx|]. exists false. split; [done|].
    split; [done|]. intros (_ & _ & Ha). by inversion Ha. }
  destruct Hacc as (Hsel & Hrp & Hsock). cbn [run_loop]. rewrite signals_step. set (now := stop_now rproc stopped t). set (stopped' := stopped || now).
  assert (Hstop' : stopped' = true -> rproc = true).
  { unfold stopped', now, stop_now. destruct stopped, rproc; cbn; auto. by rewrite andb_false_r. }
  destruct (stopped_by_signal rproc stopped t) eqn:Esig.
  { eexists _, _, _. split_and!; [done..|]. apply outcome_end. rewrite (proj2 (Z.eqb_neq _ _) Hret). by eapply signal_quits. }
  apply no_signal_quits in Esig as [Hs1 Hs2]; [|done].
  assert (Hlater : forall st2 ret2, rmtfs_ok st2 -> accounted st st2 -> accepts ts st2 -> ret2 <> - ENETRESET -> ~ quits rproc t -> ~ resets t ->
    exists st' r calls, ('(st, r, c) ← run_loop ts rproc st2 stopped' ret2; Done (st, r, stop_calls now ++ c)) = Done (st', r, calls) /\
      rmtfs_ok st' /\ accounted st st' /\ loop_outcome rproc stopped (t :: ts) r calls).
  { intros st2 ret2 Hst2 Ha2 Hacc2 Hret2 Hq Hn. destruct (IH st2 stopped' ret2 Hst2 Hacc2 Hret2 Hstop') as (st' & r & calls & -> & Hst' & Ha' & Ho).
    run. eexists _, _, _. split_and!; [done..|by etrans|]. by apply outcome_later. }
  assert (Hend : forall st2 v, rmtfs_ok st2 -> accounted st st2 -> (if v =? - ENETRESET then ~ quits rproc t /\ resets t else quits rproc t) ->
    exists st' r calls, Done (st2, Some v, stop_calls now ++ [CloseSocket]) = Done (st', r, calls) /\
      rmtfs_ok st' /\ accounted st st' /\ loop_outcome rproc stopped (t :: ts) r calls).
  { intros st2 v Hst2 Ha2 Hv. eexists _, _, _. split_and!; [done..|]. by apply outcome_end. }
  destruct (t_select t <? 0) eqn:Ew; reflect_bools.
  { destruct (t_errno t =? EINTR) eqn:Ee; cbn [negb]; reflect_bools.
    - apply Hlater; [done|done| |unfold ENETRESET; lia|unfold quits; intuition lia|intros [? _]; lia].
      destruct (t_sock t) as [[[r stale] stk]|]; [|done]. by apply (proj2 Hsock st 0).
    - apply Hend; [done|done|]. rewrite (proj2 (Z.eqb_neq _ _)) by (unfold ENETRESET; lia). unfold quits. auto. }
  destruct (modem_step rproc t Hrp Ew) as (ret2 & over & -> & Hret2 & Hover). destruct over.
  { apply Hend; [done|done|]. rewrite (proj2 (Z.eqb_neq _ _) Hret2). unfold quits. tauto. }
  assert (Hq : ~ quits rproc t) by (unfold quits; intuition lia).
  destruct (t_sock t) as [[[r stale] stk]|] eqn:Es.
  - destruct Hsock as [Hd Hnext].
    destruct (handle_accounted st r stale stk Hst (Hd Ew)) as (st3 & ret3 & Eh & Hst3 & Ha3). rewrite Eh. run.
    specialize (Hnext _ _ Eh). apply handle_reset in Eh.
    destruct (ret3 =? - ENETRESET) eqn:E3; reflect_bools.
    + apply Hend; [done|done|]. rewrite (proj2 (Z.eqb_eq _ _) E3). split; [done|]. split; [done|]. exists stale, stk. by rewrite <- (proj1 Eh E3).
    + apply Hlater; [done..|]. intros (_ & stale' & stk' & E'). apply E3, Eh. congruence.
  - run. apply Hlater; [done..|]. intros (_ & stale' & stk' & E'). congruence.
Qed.
End Life.

(** ** Leaving the service *)

(** An entry that is closed. *)
Definition closed (r : rmtfd) : rmtfd := Rmtfd (id r) (node r) (-1) (dev_error r) None None 0.

Section Exit.
Context {W : Type} `{OsWorld W}.

Lemma close_loop_closes (l1 l2 : list rmtfd) (w : W) s F x : storage_ok s -> held F x w s ->
  rmtfds s = map closed l1 ++ l2 ->
  exists w' s', close_loop w s (length l1) (length l2) = Done (w', s') /\ held F x w' s' /\ rmtfds s' = map closed (l1 ++ l2).
Proof.
  revert l1 w s. induction l2 as [|r l2 IH]; intros l1 w s Hok Hh Hs; cbn [close_loop length].
  { rewrite app_nil_r in *. by exists w, s. }
  assert (Hr : rmtfds s !! length l1 = Some r).
  { rewrite Hs. apply list_lookup_middle. by rewrite length_map. }
  destruct (storage_close_spec w s _ _ Hok Hr) as ([w1 s1] & E & Hok1 & _ & Hfds). rewrite E. run.
  apply (storage_close_world _ _ _ _ _ Hok) in E as [_ Hh1].
  specialize (IH (l1 ++ [r]) w1 s1 Hok1 (Hh1 _ _ Hh)). rewrite length_app, Nat.add_comm in IH. cbn [length Nat.add] in IH.
  rewrite <- app_assoc in IH. apply IH. rewrite Hfds, Hs, (insert_app_r_alt (map closed l1)) by (by rewrite length_map).
  rewrite length_map, Nat.sub_diag, map_app, <- app_assoc. done.
Qed.

(** The storage is left with every entry closed and no descriptor. *)
Record released (F : Z -> Prop) (x : list Z) (w : W) (s : storage) : Prop := {
  rel_open g : ow_open w g <-> F g;
  rel_stray : ow_stray w = x;
  rel_entries i r : rmtfds s !! i = Some r -> fd r = -1 /\ shadow_buf r = None /\ rpart r = None }.
Lemma storage_exit_releases (w : W) s F x : storage_ok s -> held F x w s ->
  exists w' s', storage_exit w s = Done (w', s') /\ released F x w' s'.
Proof.
  intros Hs Hh. unfold storage_exit. destruct (close_loop_closes [] (rmtfds s) w s F x Hs Hh eq_refl) as (w' & s' & E & [L1 _ _ L4] & El).
  rewrite (ok_length _ Hs) in E. exists w', s'. split; [exact E|].
  assert (Hc : forall i r, rmtfds s' !! i = Some r -> fd r = -1 /\ shadow_buf r = None /\ rpart r = None).
  { intros i r. rewrite El. cbn [app]. rewrite list_lookup_fmap. by intros (r0 & _ & ->)%fmap_Some. }
  split; [|done|done]. intros g. rewrite L1. split; [|by left]. intros [?|(i & Hg & r & Hr & <-)]; [done|].
  apply Hc in Hr as [Hr _]. lia.
Qed.

(** ** The runs of the service

    A run is given by the results of opening and registering the socket and the turns of
    its loop. *)
Definition run : Type := Z * Z * list turn.
(** What the calls of a run return, for each run in the state the runs before have left. *)
Fixpoint runs_accept (runs : list run) (rproc : bool) (st : rmtfs W) : Prop :=
  match runs with
  | [] => True
  | (sock, published, turns) :: rs =>
      -1 <= sock /\ -1 <= published /\ accepts turns st /\
      forall st' r calls, run_rmtfs sock published rproc turns st = Done (st', r, calls) -> runs_accept rs rproc st'
  end.
Definition run_ending (rproc : bool) (r : run) (x : ending) : Prop :=
  let '(sock, published, turns) := r in
  if (sock <? 0) || (published <? 0) then x = Quit else run_end rproc turns x.
(** The service ends with the first run that is quit. *)
Inductive finishes (rproc : bool) : list run -> Prop :=
  | finishes_quit r rs : run_ending rproc r Quit -> finishes rproc (r :: rs)
  | finishes_again r rs : run_ending rproc r Reset -> finishes rproc rs -> finishes rproc (r :: rs).

Lemma run_end_unique rproc turns x y : run_end rproc turns x -> run_end rproc turns y -> x = y.
Proof.
  intros Hx. revert y. induction Hx; intros y Hy; inversion Hy; subst; try done; auto.
Qed.

Lemma run_ends rproc sock published turns (st : rmtfs W) : rmtfs_ok st -> -1 <= sock -> -1 <= published -> accepts turns st ->
  exists st' r calls, run_rmtfs sock published rproc turns st = Done (st', r, calls) /\ rmtfs_ok st' /\ accounted st st' /\
    match r with
    | Some v => run_ending rproc (sock, published, turns) (if v =? - ENETRESET then Reset else Quit)
    | None => forall x, ~ run_ending rproc (sock, published, turns) x
    end.
Proof.
  intros Hst Hs Hp Ht. unfold run_rmtfs, run_ending, ENETRESET. destruct (sock <? 0) eqn:Es; reflect_bools; cbn [orb].
  { eexists _, _, _. split_and!; [done..|]. cbn iota beta. by rewrite (proj2 (Z.eqb_neq _ _)) by lia. }
  destruct (published <? 0) eqn:Ep; reflect_bools.
  { eexists _, _, _. split_and!; [done..|]. cbn iota beta. by rewrite (proj2 (Z.eqb_neq _ _)) by lia. }
  destruct (run_loop_life turns rproc st false published) as (st' & r & calls & -> & Hst' & Ha & Hr & _); [done..|unfold ENETRESET; lia|done|].
  run. by eexists _, _, _.
Qed.

(** The service goes on with what it has opened accounted for, or leaves just what others
    have open, the descriptor of the memory not among it. *)
Lemma main_loop_life rproc runs (st : rmtfs W) (F : Z -> Prop) x m : rmtfs_ok st -> runs_accept runs rproc st ->
  held F x (rs_w st) (rs_storage st) -> F m -> mem_fd (rs_mem st) = m ->
  exists st' stopped, main_loop runs rproc st = Done (st', stopped) /\
    if (stopped : bool) then finishes rproc runs /\ released (fun g => F g /\ g <> m) x (rs_w st') (rs_storage st')
    else ~ finishes rproc runs /\ rmtfs_ok st' /\ held F x (rs_w st') (rs_storage st').
Proof.
  intros Hst Hr Hh HF. revert st Hst Hr Hh. induction runs as [|[[sock published] turns] rs IH]; intros st Hst Hr Hh Hm; cbn [main_loop].
  { exists st, false. split_and!; [done| |done..]. intros Hf. inversion Hf. }
  destruct Hr as (Hsock & Hpub & Hacc & Hnext).
  destruct (run_ends rproc sock published turns st Hst Hsock Hpub Hacc) as (st1 & r & calls & E1 & Hst1 & [Ha1 Ha2] & Hend).
  rewrite E1. run. specialize (Hnext _ _ _ E1). specialize (Ha1 _ _ Hh).
  assert (Huniq : forall x y, run_ending rproc (sock, published, turns) x -> run_ending rproc (sock, published, turns) y -> x = y).
  { unfold run_ending. destruct (_ || _); [congruence|]. apply run_end_unique. }
  destruct r as [v|].
  2:{ exists st1, false. split_and!; [done| |done..]. intros Hf. inversion Hf; subst; by eapply Hend. }
  destruct (v =? - ENETRESET).
  - destruct (IH st1 Hst1 Hnext Ha1 ltac:(congruence)) as (st' & stopped & -> & Hst'). exists st', stopped. split; [done|]. destruct stopped.
    + destruct Hst' as [Hf Hc]. split; [by apply finishes_again|done].
    + destruct Hst' as [Hf Hc]. split; [|done]. intros Hf'. inversion Hf' as [? ? Hq|]; subst; [|done].
      by specialize (Huniq _ _ Hend Hq).
  - destruct (storage_exit_releases _ _ _ _ (ok_storage _ Hst1) Ha1) as (w2 & s2 & -> & [R1 R2 R3]). run.
    eexists _, true. split; [done|]. split; [by apply finishes_quit|]. unfold rmtfs_mem_close. cbn [rs_w rs_storage].
    rewrite Ha2, Hm. split; [|rewrite ow_close_once; [done|by apply R1]|done]. intros g. by rewrite ow_close_open, R1.
Qed.

(** ** Opening the window *)

Lemma read_sysattr_keeps (w w' : W) path val errno val' errno' r :
  read_sysattr w path val errno = Done (w', val', errno', r) -> keeps w w'.
Proof.
  unfold read_sysattr. destruct (os_open w path O_RDONLY) as [w1 f] eqn:Ho.
  destruct (f <? 0) eqn:Ef; reflect_bools; [intros [= <- _ _ _]; by eapply steady_keeps, open_fails|].
  pose proof (ow_read w1 f PAGE_SIZE) as S. destruct (os_read w1 f PAGE_SIZE) as [[w2 n] bs]. cbn [fst] in S.
  intros (v & _ & ([[a any] rg] & _ & E)%bind_done)%bind_done. assert (w' = os_close w2 f) as ->; [|by eapply open_close_keeps].
  by destruct (_ || _); injection E as <- _ _ _.
Qed.

(** It takes one descriptor, the one that is closed with the window. *)
Lemma mem_open_world (w w' : W) val dir mmap m : rmtfs_mem_open w val dir mmap = Done (w', Some m) -> 0 <= mem_fd m ->
  (forall g, ow_open w' g <-> g = mem_fd m \/ ow_open w g) /\ ~ ow_open w (mem_fd m) /\ ow_stray w' = ow_stray w.
Proof.
  unfold rmtfs_mem_open. pose proof (ow_calloc w 32) as S0. destruct (os_calloc w 32) as [w0 ok]. cbn [fst] in S0.
  destruct ok; cbn [negb]; [|done]. intros ([[w1 m1] ret] & E1 & E)%bind_done Hm.
  assert (E' : w1 = w' /\ m1 = m).
  { destruct (_ && _); [done|]. destruct (ret <? 0); [|by injection E as <- <-]. done. }
  destruct E' as [-> ->]. clear E. unfold rmtfs_mem_open_rfsa in E1.
  destruct (os_open w0 _ O_RDWR) as [w2 f] eqn:Ho.
  match type of Ho with os_open _ ?p _ = _ => pose proof (ow_open_law w0 p O_RDWR) as Hl; pose proof (ow_open_sent w0 p O_RDWR) as Hs end.
  rewrite Ho in Hl, Hs. destruct Hs as [_ Hs]. cbn [fst] in Hs.
  destruct (f <? 0) eqn:Ef; reflect_bools; [injection E1 as _ <- _; cbn [mem_fd] in Hm; lia|]. destruct Hl as (Hn & Hopen & _).
  apply bind_done in E1 as ([[[w3 v3] e3] r3] & K3%read_sysattr_keeps & E1).
  assert (K : keeps w2 w' /\ mem_fd m = f).
  { destruct r3 as [a|e]; [|injection E1 as <- <- _; done].
    apply bind_done in E1 as ([[[w4 v4] e4] r4] & K4%read_sysattr_keeps & E1).
    destruct r4; injection E1 as <- <- _; (split; [by etrans|done]). }
  destruct K as [[[_ C2 C3] _] Hf]. destruct S0 as [[_ D2 D3] _]. subst f. split_and!.
  - intros g. by rewrite C2, Hopen, D2.
  - by rewrite <- D2.
  - congruence.
Qed.
End Exit.

(** ** The descriptors of [-s]

    A second [-s] looks for the modem again and the module forgets the state file and the
    pipe of the first one, which stay open. *)
Section Descriptors.
Context {R : Type} `{RprocLaws R}.

Lemma repeated_sync_leaks (rw rw2 : R) o o2 : (forall w fd, rp_fdopendir w fd = true) ->
  take_options rw [OptRproc; OptRproc] o = Done (rw2, Some o2) ->
  exists st1 st2, opt_rproc o2 = Some st2 /\ rproc_state_fd st1 <> rproc_state_fd st2 /\
    rl_fds rw2 = {[(rproc_pipe st2).1; (rproc_pipe st2).2; rproc_state_fd st2;
                   (rproc_pipe st1).1; (rproc_pipe st1).2; rproc_state_fd st1]} ∪ rl_fds rw.
Proof.
  intros Hd E. cbn [take_options] in E.
  destruct (init_keeps rw Hd) as (w1 & r1 & E1 & K1). rewrite E1 in E. cbn in E.
  destruct r1 as [st1|]; [|done]. cbn [rproc_init_result] in E. destruct (_ <? 0) in E; [done|].
  destruct (init_keeps w1 Hd) as (w2 & r2 & E2 & K2). rewrite E2 in E. cbn in E.
  destruct r2 as [st2|]; [|done]. cbn [rproc_init_result] in E. destruct (_ <? 0) in E; [done|].
  injection E as <- <-. exists st1, st2. destruct K1 as [Hn1 K1], K2 as [Hn2 K2]. rewrite K1 in Hn2, K2. split; [done|].
  split; [set_solver|]. rewrite K2. set_solver.
Qed.
End Descriptors.

(** ** Properties *)

(** C22: a run of the service, with a socket and a registration, returns when, and only when,
    a turn of its loop gives the reason (a signal, [select] failing, the modem having stopped,
    or the socket being reset), and [-ENETRESET] just for a reset; on the way it starts the
    modem once, stops it at the first signal and closes its socket last.  The invariants hold
    afterwards and every descriptor is accounted for.  The datagrams are those of
    [datagram_ok]: errors, control packets, short and unknown messages, and requests that are
    malformed behind their transaction and no transfers, or well-formed and served in the
    state they meet ([serves]). *)
Theorem rmtfs_run_life {W : Type} `{OsWorld W} rproc sock published turns (st : rmtfs W) :
  rmtfs_ok st -> 0 <= sock -> 0 <= published -> accepts turns st ->
  exists st' r calls, run_rmtfs sock published rproc turns st = Done (st', r, calls) /\ rmtfs_ok st' /\ accounted st st' /\
    match r with
    | Some v => run_end rproc turns (if v =? - ENETRESET then Reset else Quit)
    | None => forall x, ~ run_end rproc turns x
    end /\
    exists stops : bool, (stops = true <-> rproc = true /\ asked rproc turns) /\
      calls = (if rproc then [RprocStart] else []) ++ (if stops then [RprocStop] else []) ++
        match r with Some _ => [CloseSocket] | None => [] end.
Proof.
  intros Hst Hs Hp Ht. unfold run_rmtfs. rewrite !(proj2 (Z.ltb_ge _ _)) by done.
  destruct (run_loop_life turns rproc st false published) as (st' & r & calls & -> & Hst' & Ha & Hr & stops & -> & Hstops);
    [done..|unfold ENETRESET; lia|done|].
  run. eexists _, _, _. split_and!; [done..|]. exists stops. split; [|done]. rewrite Hstops. tauto.
Qed.


(** ** Witnesses *)

Definition opening (p : list Z) : list Z :=
  header_bytes QMI_REQUEST 9 QMI_RMTFS_OPEN (3 + zlen p) ++ [1; zlen p; 0] ++ p.
Definition opening_turn : turn :=
  Turn 0 1 0 None (Some (inr (opening (cstr "/boot/modem_fs1"), SockaddrQrtr AF_QIPCRTR 5 1), replicate 512 0, demo_stack)).
Definition reset_turn : turn := Turn 0 1 0 None (Some (inl ENETRESET, [], demo_stack)).
Definition signal_turn : turn := Turn 1 1 0 None None.

Lemma opening_ok (st : rmtfs box) :
  datagram_ok st (inr (opening (cstr "/boot/modem_fs1"), SockaddrQrtr AF_QIPCRTR 5 1)) (replicate 512 0) demo_stack.
Proof.
  eapply (dg_request _ _ _ _ _ QMI_RMTFS_OPEN); [done|apply demo_stack_ok|vm_compute; reflexivity|vm_compute; reflexivity|vm_compute; reflexivity|lia|].
  intros _. eapply always_serves, always_open. vm_compute. reflexivity.
Qed.
Lemma demo_turns_accepted (t : turn) st : t = reset_turn \/ t = signal_turn -> accepts (W := box) [opening_turn; t] st.
Proof.
  intros Ht. apply always_accepts. constructor; [|constructor; [|constructor]].
  - split; [done|]. split; [done|]. intros r stale stk [= <- <- <-]. apply opening_ok.
  - destruct Ht as [->| ->]; (split; [done|]; split; [done|]); intros r stale stk; [|done]. intros [= <- <- <-] st0. apply dg_error.
Qed.

Lemma rmtfs_run_life_witness :
  exists st' r calls, run_rmtfs 5 0 true [opening_turn; signal_turn] (demo_state true) = Done (st', r, calls) /\ rmtfs_ok st' /\
    accounted (demo_state true) st' /\
    match r with
    | Some v => run_end true [opening_turn; signal_turn] (if v =? - ENETRESET then Reset else Quit)
    | None => forall x, ~ run_end true [opening_turn; signal_turn] x
    end /\
    exists stops : bool, (stops = true <-> true = true /\ asked true [opening_turn; signal_turn]) /\
      calls = [RprocStart] ++ (if stops then [RprocStop] else []) ++ match r with Some _ => [CloseSocket] | None => [] end.
Proof.
  apply (rmtfs_run_life true 5 0 [opening_turn; signal_turn] (demo_state true)); [apply rmtfs_demo_ok|lia|lia|].
  apply demo_turns_accepted. by right.
Defined.

(** The service is started over after a reset, and stopped by a signal. *)
Definition demo_runs : list run := [(5, 0, [opening_turn; reset_turn]); (5, 0, [opening_turn; signal_turn])].
Lemma demo_runs_accepted rproc (st : rmtfs box) : runs_accept demo_runs rproc st.
Proof.
  split; [lia|]. split; [lia|]. split; [apply demo_turns_accepted; by left|]. intros st' r calls _.
  split; [lia|]. split; [lia|]. split; [apply demo_turns_accepted; by right|done].
Qed.
Lemma demo_runs_finish : finishes false demo_runs.
Proof.
  assert (Hq : forall t, t_sigint t = 0 -> t_select t = 1 -> ~ quits false t).
  { intros t E1 E2. unfold quits. rewrite E1, E2. intuition (lia || done). }
  apply finishes_again; [|apply finishes_quit]; cbn.
  - apply end_later; [by apply Hq| |]; [intros (_ & stale & stk & E); done|].
    apply end_reset; [by apply Hq|]. split; [done|]. by eexists _, _.
  - apply end_later; [by apply Hq| |]; [intros (_ & stale & stk & E); done|].
    apply end_quit. right. left. done.
Qed.
(** The device of the window, its attributes and a partition, before the program starts. *)
Definition boot_box : box :=
  Box [(cstr "/dev/qcom_rmtfs_mem1", window_bytes);
       (cstr "/sys/class/rmtfs/qcom_rmtfs_mem1/phys_addr", cstr "0x8e000000" ++ [10]);
       (cstr "/sys/class/rmtfs/qcom_rmtfs_mem1/size", cstr "0x200000" ++ [10]);
       (cstr "/data/modem_fs1", [1; 2; 3; 4])] [] [] [].
