(* ===== verification/Numbers.v ===== *)
(** * Numbers in text

    [strtoul] with any base, and how it reads what [printf] writes; used by the command
    lines of qrtr/src/lookup.c and qrtr/src/cfg.c. *)
From S2P Require Import Prelude CString.
#[local] Open Scope Z_scope.

Definition alnum_value (b : Z) : option Z :=
  if (48 <=? b) && (b <=? 57) then Some (b - 48)
  else if (97 <=? b) && (b <=? 122) then Some (b - 87)
  else if (65 <=? b) && (b <=? 90) then Some (b - 55)
  else None.
Definition digit_in (base b : Z) : option Z :=
  match alnum_value b with Some d => if d <? base then Some d else None | None => None end.
Fixpoint read_digits (base : Z) (s : list Z) (acc : Z) : Z * list Z :=
  match s with
  | [] => (acc, [])
  | b :: s' => match digit_in base b with Some d => read_digits base s' (acc * base + d) | None => (acc, s) end
  end.
Definition read_sign (s : list Z) : bool * list Z :=
  match s with
  | b :: s' => if b =? 45 then (true, s') else if b =? 43 then (false, s') else (false, s)
  | [] => (false, [])
  end.
(** Base 0 is that of the prefix: 0x, 0 or none. *)
Definition detect_base (base : Z) (s : list Z) : Z * list Z :=
  let plain := (if base =? 0 then match s with b :: _ => if b =? 48 then 8 else 10 | [] => 10 end else base, s) in
  match s with
  | z :: x :: s' =>
      if ((base =? 0) || (base =? 16)) && (z =? 48) && ((x =? 120) || (x =? 88)) &&
         match s' with d :: _ => bool_decide (is_Some (digit_in 16 d)) | [] => false end
      then (16, s') else plain
  | _ => plain
  end.
(** The value, whether it was out of range, and the text behind the number; without any
    digit that is the whole text.  An [unsigned long] has 64 bits. *)
Definition strtoul (base : Z) (s : list Z) : Z * bool * list Z :=
  let '(neg, s1) := read_sign (skip_isspace s) in
  let '(base, s2) := detect_base base s1 in
  let '(v, rest) := read_digits base s2 0 in
  if (length rest =? length s2)%nat then (0, false, s)
  else if 2 ^ 64 <=? v then (2 ^ 64 - 1, true, rest)
  else (u64 (if (neg : bool) then - v else v), false, rest).

(** ** Reading what was printed *)

Lemma digit_in_10 b : isdigit b = true -> digit_in 10 b = Some (b - 48).
Proof.
  intros Hb. pose proof (digit_range b Hb). unfold digit_in, alnum_value, isdigit in *. rewrite Hb.
  by rewrite (proj2 (Z.ltb_lt _ _)) by lia.
Qed.
Lemma read_digits_10 ds : forall acc, Forall (fun b => isdigit b = true) ds ->
  read_digits 10 ds acc = (fold_left (fun v d => v * 10 + (d - 48)) ds acc, []).
Proof.
  induction ds as [|d ds IH]; intros acc Hd; [done|]. apply Forall_cons in Hd as [H Hd]. cbn [read_digits fold_left].
  by rewrite digit_in_10, IH.
Qed.
(** Numbers are printed without leading zeros. *)
Lemma dec_head n z : 0 < z < 10 ^ Z.of_nat n -> exists d ds, dec n z = d :: ds /\ d <> 48.
Proof.
  revert z. induction n as [|n IH]; intros z Hz; [cbn in Hz; lia|]. cbn [dec].
  destruct (z <? 10) eqn:E; reflect_bools; [exists (z + 48), []; split; [done|lia]|].
  rewrite Nat2Z.inj_succ, Z.pow_succ_r in Hz by lia.
  destruct (IH (z / 10)) as (d & ds & -> & Hd); [Z.div_mod_to_equations; lia|]. by exists d, (ds ++ [z mod 10 + 48]).
Qed.
Lemma strtoul_print base z : base = 0 \/ base = 10 -> 0 <= z < 2 ^ 64 -> strtoul base (print_int z) = (z, false, []).
Proof.
  intros Hbase Hz. unfold print_int. rewrite (proj2 (Z.ltb_ge _ _)) by lia. destruct (Z.eq_dec z 0) as [->|Hn].
  { destruct Hbase; by subst. }
  destruct (dec_digits 20 z) as [Hd Hl]; [lia|lia|]. pose proof (dec_value 20 z ltac:(lia)) as Hv.
  destruct (dec_head 20 z ltac:(lia)) as (d & ds & E & H48). rewrite E in *. pose proof (Forall_inv Hd) as Hd0.
  pose proof (digit_range d Hd0) as Hr. unfold strtoul. cbn [skip_isspace].
  assert (isspace d = false) as ->.
  { unfold isspace. apply orb_false_iff. split; [apply Z.eqb_neq; lia|]. apply andb_false_iff. rewrite !Z.leb_gt. lia. }
  cbn [read_sign]. rewrite (proj2 (Z.eqb_neq d 45)), (proj2 (Z.eqb_neq d 43)) by lia.
  assert (detect_base base (d :: ds) = (10, d :: ds)) as ->.
  { unfold detect_base. rewrite (proj2 (Z.eqb_neq d 48)), andb_false_r by lia. destruct Hbase; subst; by destruct ds. }
  rewrite read_digits_10 by done. fold (digits_value (d :: ds)). rewrite Hv. cbn [length Nat.eqb].
  rewrite (proj2 (Z.leb_gt _ _)) by lia. by rewrite u64_small.
Qed.
