(* ===== verification/Lookup.v ===== *)
(** * Listing the servers (qrtr/src/lookup.c)

    The program asks the name server and prints a line for every server.  The calls on
    the socket are those of [Qrtr]: a record of their results, and the trace of the calls
    made; what [recv] returns is a list of datagrams and its last result.  Warnings are
    left out. *)
From Stdlib Require Import String.
From S2P Require Import Prelude CString Numbers Qrtr.
#[local] Open Scope Z_scope.

(** ** Names *)

Definition DIAG_SERVICE : Z := 4097.
(** The service, the filter of instances and the name. *)
Definition common_names : list (Z * Z * list Z) :=
  [(0, 0, cstr "Control service"); (1, 0, cstr "Wireless Data Service");
   (2, 0, cstr "Device Management Service"); (3, 0, cstr "Network Access Service");
   (4, 0, cstr "Quality Of Service service"); (5, 0, cstr "Wireless Messaging Service");
   (6, 0, cstr "Position Determination Service"); (7, 0, cstr "Authentication service");
   (8, 0, cstr "AT service"); (9, 0, cstr "Voice service");
   (10, 0, cstr "Card Application Toolkit service (v2)"); (11, 0, cstr "User Identity Module service");
   (12, 0, cstr "Phonebook Management service"); (13, 0, cstr "QCHAT service");
   (14, 0, cstr "Remote file system service"); (15, 0, cstr "Test service");
   (16, 0, cstr "Location service (~ PDS v2)"); (17, 0, cstr "Specific absorption rate service");
   (18, 0, cstr "IMS settings service"); (19, 0, cstr "Analog to digital converter driver service");
   (20, 0, cstr "Core sound driver service"); (21, 0, cstr "Modem embedded file system service");
   (22, 0, cstr "Time service"); (23, 0, cstr "Thermal sensors service");
   (24, 0, cstr "Thermal mitigation device service"); (25, 0, cstr "Service access proxy service");
   (26, 0, cstr "Wireless data administrative service"); (27, 0, cstr "TSYNC control service");
   (28, 0, cstr "Remote file system access service"); (29, 0, cstr "Circuit switched videotelephony service");
   (30, 0, cstr "Qualcomm mobile access point service"); (31, 0, cstr "IMS presence service");
   (32, 0, cstr "IMS videotelephony service"); (33, 0, cstr "IMS application service");
   (34, 0, cstr "Coexistence service"); (36, 0, cstr "Persistent device configuration service");
   (38, 0, cstr "Simultaneous transmit service"); (39, 0, cstr "Bearer independent transport service");
   (40, 0, cstr "IMS RTP service"); (41, 0, cstr "RF radiated performance enhancement service");
   (42, 0, cstr "Data system determination service"); (43, 0, cstr "Subsystem control service");
   (47, 0, cstr "Data Port Mapper service"); (49, 0, cstr "IPA control service");
   (51, 0, cstr "CoreSight remote tracing service"); (52, 0, cstr "Dynamic Heap Memory Sharing");
   (64, 0, cstr "Service registry locator service"); (66, 0, cstr "Service registry notification service");
   (69, 0, cstr "ATH10k WLAN firmware service"); (224, 0, cstr "Card Application Toolkit service (v1)");
   (225, 0, cstr "Remote Management Service"); (226, 0, cstr "Open Mobile Alliance device management service");
   (312, 0, cstr "QBT1000 Ultrasonic Fingerprint Sensor service"); (769, 0, cstr "SLIMbus control service");
   (771, 0, cstr "Peripheral Access Control Manager service"); (4096, 0, cstr "TFTP");
   (DIAG_SERVICE, 0, cstr "DIAG service")].
Definition diag_instance_base_str (instance_base : Z) : list Z :=
  if instance_base =? 0 then cstr "MODEM"
  else if instance_base =? 1 then cstr "LPASS"
  else if instance_base =? 2 then cstr "WCNSS"
  else if instance_base =? 3 then cstr "SENSORS"
  else if instance_base =? 4 then cstr "CDSP"
  else if instance_base =? 5 then cstr "WDSP"
  else cstr "<unk>".
Definition diag_instance_str (instance : Z) : list Z :=
  if instance =? 0 then cstr "CNTL"
  else if instance =? 1 then cstr "CMD"
  else if instance =? 2 then cstr "DATA"
  else if instance =? 3 then cstr "DCI_CMD"
  else if instance =? 4 then cstr "DCI"
  else cstr "<unk>".
(** [snprintf] cuts the text to the buffer. *)
Definition get_diag_instance_info (size : Z) (instance : Z) : list Z :=
  take (Z.to_nat (size - 1))
    (diag_instance_base_str (Z.shiftr instance 6) ++ [58] ++ diag_instance_str (Z.land instance 0x3f)).

(** The last entry of the table that fits. *)
Definition name_step (service instance : Z) (name : option (list Z)) (entry : Z * Z * list Z) : option (list Z) :=
  let '(s, ifilter, n) := entry in
  if negb (service =? s) then name
  else if negb (instance =? 0) && negb (Z.land instance ifilter =? ifilter) then name
  else Some n.
Definition service_name (service instance : Z) : list Z :=
  match fold_left (name_step service instance) common_names None with
  | Some n => n
  | None => cstr "<unknown>"
  end.

(** ** Lines *)

(** [%5d] and [%7s]; the numbers are unsigned, [printf] takes them as [int]. *)
Definition pad (width : Z) (s : list Z) : list Z := replicate (Z.to_nat (width - zlen s)) 32 ++ s.
Definition pad_int (width v : Z) : list Z := pad width (print_int (s32 v)).
Definition heading : list Z := cstr "  Service Version Instance Node  Port" ++ [10].
Definition server_line (service raw node port : Z) : list Z :=
  let version := Z.land raw 0xff in
  let instance := Z.shiftr raw 8 in
  let name := service_name service instance in
  if service =? DIAG_SERVICE then
    pad_int 9 service ++ [32] ++ pad 7 (cstr "N/A") ++ [32] ++ pad_int 8 raw ++ [32] ++ pad_int 4 node ++ [32] ++
    pad_int 5 port ++ [32] ++ name ++ [32; 40] ++ get_diag_instance_info 24 raw ++ [41; 10]
  else
    pad_int 9 service ++ [32] ++ pad_int 7 version ++ [32] ++ pad_int 8 instance ++ [32] ++ pad_int 4 node ++ [32] ++
    pad_int 5 port ++ [32] ++ name ++ [10].

(** ** The program *)

(** The number and the new [*rcp]. *)
Definition read_num_le (str : list Z) (rc : Z) : Z * Z :=
  if negb (rc =? 0) then (0, rc)
  else
    let '(v, range, rest) := strtoul 0 str in
    (u32 v, if range || negb (bool_decide (rest = [])) then -1 else 0).

(** The arguments behind the name of the program: the service and the instance to look
    for, [None] when there are too many or when one is not a number. *)
Definition lookup_filter (args : list (list Z)) : option (Z * Z) :=
  let '(service, instance, rc) :=
    match args with
    | [] => (0, 0, 0)
    | [a1] => let '(service, rc) := read_num_le a1 0 in (service, 0, rc)
    | [a1; a2] =>
        let '(instance, rc) := read_num_le a2 0 in
        let '(service, rc) := read_num_le a1 rc in
        (service, instance, rc)
    | _ => (0, 0, -1)
    end in
  if rc =? 0 then Some (service, instance) else None.

(** The lines for the datagrams.  [pkt] is the packet in memory, over which [recv]
    writes; [last] is its result when there is no datagram any more.  The result tells
    whether the loop ended without an error. *)
Fixpoint list_loop (pkt : list Z) (datagrams : list (list Z)) (last : Z) : outcome (list (list Z) * bool) :=
  match datagrams with
  | [] => Done ([], 0 <=? last)
  | d :: datagrams' =>
      let bs := take 20 d in
      let len := zlen bs in
      let pkt := bs ++ drop (length bs) pkt in
      if len =? 0 then Done ([], true)
      else
        type ← le32_to_cpu pkt off_cmd;
        if (len <? sizeof_ctrl_pkt) || negb (type =? QRTR_TYPE_NEW_SERVER) then list_loop pkt datagrams' last
        else
          service ← le32_to_cpu pkt off_service;
          raw ← le32_to_cpu pkt off_instance;
          node ← le32_to_cpu pkt off_node;
          port ← le32_to_cpu pkt off_port;
          if (service =? 0) && (raw =? 0) && (node =? 0) && (port =? 0) then Done ([], true)
          else
            '(lines, ok) ← list_loop pkt datagrams' last;
            Done (server_line service raw node port :: lines, ok)
  end.

(** The calls, with the exit status and what is printed; sockets are not closed when the
    program exits early. *)
Definition lookup_main (sy : sys) (args : list (list Z)) (datagrams : list (list Z)) (last : Z)
    : outcome (traced (Z * list (list Z))) :=
  match lookup_filter args with
  | None => Done ([], (1, []))
  | Some (service, instance) =>
      let sock := sys_socket sy in
      if sock <? 0 then Done ([CSocket], (1, []))
      else
        let '(rc, sq, sl) := sys_getsockname sy in
        if negb (rc =? 0) || negb (sq_family sq =? AF_QIPCRTR) || negb (sl =? sizeof_sockaddr_qrtr)
        then Done ([CSocket; CGetsockname sock], (1, []))
        else if negb (sys_setsockopt sy =? 0) then Done ([CSocket; CGetsockname sock; CSetsockopt sock], (1, []))
        else
          let pkt := pkt_bytes (CtrlPkt QRTR_TYPE_NEW_LOOKUP service instance 0 0) in
          let trace := [CSocket; CGetsockname sock; CSetsockopt sock;
                        CSendto sock pkt (SockaddrQrtr AF_QIPCRTR (sq_node sq) QRTR_PORT_CTRL)] in
          if sys_sendto sy <? 0 then Done (trace, (1, []))
          else
            '(lines, ok) ← list_loop pkt datagrams last;
            if (ok : bool) then Done (trace ++ [CClose sock], (0, heading :: lines))
            else Done (trace, (1, heading :: lines))
  end.
