(* ===== verification/LookupProps.v ===== *)
(** * What qrtr-lookup prints

    The program and the name server together. *)
From Stdlib Require Import String.
From S2P Require Import Prelude CString Numbers Hash Map MapFacts Qrtr NameServer NsFacts NsProps Lookup.
#[local] Open Scope Z_scope.

(** ** The loop *)

Definition line_of (srv : server) : list Z := server_line (srv_service srv) (srv_instance srv) (srv_node srv) (srv_port srv).
(** The servers of the name server have ports, so that none looks like the end. *)
Definition listed (srv : server) : Prop := pkt_ok (notify_pkt (Some srv) true) /\ srv_port srv <> 0.

Lemma pkt_bytes_length p : zlen (pkt_bytes p) = 20.
Proof. done. Qed.
Lemma end_pkt_ok : pkt_ok (notify_pkt None true).
Proof. by split. Qed.
(** A datagram of 20 bytes replaces the packet. *)
Lemma whole_packet pkt p : zlen pkt = 20 ->
  take 20 (pkt_bytes p) ++ drop (length (take 20 (pkt_bytes p))) pkt = pkt_bytes p ++ [] /\ zlen (take 20 (pkt_bytes p)) = 20.
Proof.
  intros Hl. rewrite take_ge by (pose proof (pkt_bytes_length p); unfold zlen in *; lia). split; [|done].
  f_equal. apply drop_ge. pose proof (pkt_bytes_length p). unfold zlen in *. lia.
Qed.
Lemma list_loop_lists srvs : forall pkt more last, zlen pkt = 20 -> Forall listed srvs ->
  list_loop pkt (map (fun srv => pkt_bytes (notify_pkt (Some srv) true)) srvs ++ pkt_bytes (notify_pkt None true) :: more) last =
  Done (map line_of srvs, true).
Proof.
  induction srvs as [|srv srvs IH]; intros pkt more last Hl Hs; cbn [map app list_loop].
  - destruct (whole_packet pkt (notify_pkt None true) Hl) as [-> ->].
    destruct (pkt_fields _ [] end_pkt_ok) as (-> & -> & -> & -> & ->). done.
  - apply Forall_cons in Hs as [[Hok Hp] Hs]. destruct (whole_packet pkt (notify_pkt (Some srv) true) Hl) as [-> ->].
    destruct (pkt_fields _ [] Hok) as (-> & -> & -> & -> & ->). run. cbn [notify_pkt server_pkt cmd service instance node port].
    change ((20 =? 0)) with false. change ((20 <? sizeof_ctrl_pkt) || negb (QRTR_TYPE_NEW_SERVER =? QRTR_TYPE_NEW_SERVER)) with false.
    cbv iota. rewrite (proj2 (Z.eqb_neq (srv_port srv) 0)), andb_false_r by done. rewrite app_nil_r, IH by done. by run.
Qed.

(** ** The filter *)

Lemma read_num_range a rc : 0 <= (read_num_le a rc).1 < 2 ^ 32.
Proof.
  unfold read_num_le. destruct (negb (rc =? 0)); [done|]. destruct (strtoul 0 a) as [[v range] rest]. apply u32_range.
Qed.
Lemma lookup_filter_range args svc inst : lookup_filter args = Some (svc, inst) -> 0 <= svc < 2 ^ 32 /\ 0 <= inst < 2 ^ 32.
Proof.
  unfold lookup_filter. destruct args as [|a1 [|a2 [|a3 args]]]; [by intros [= <- <-]| | |done].
  - pose proof (read_num_range a1 0). destruct (read_num_le a1 0) as [v rc]. case_match; [|done]. by intros [= <- <-].
  - pose proof (read_num_range a2 0). destruct (read_num_le a2 0) as [v rc]. pose proof (read_num_range a1 rc).
    destruct (read_num_le a1 rc) as [v' rc']. case_match; [|done]. by intros [= <- <-].
Qed.
(** Numbers are understood as they are printed. *)
Lemma read_num_print z : 0 <= z < 2 ^ 32 -> read_num_le (print_int z) 0 = (z, 0).
Proof. intros Hz. unfold read_num_le. cbn [Z.eqb negb]. rewrite strtoul_print by (auto || lia). by rewrite u32_small. Qed.
Lemma lookup_filter_print svc inst : 0 <= svc < 2 ^ 32 -> 0 <= inst < 2 ^ 32 ->
  lookup_filter [print_int svc; print_int inst] = Some (svc, inst).
Proof. intros. unfold lookup_filter. by rewrite !read_num_print. Qed.
(** A third argument, though documented, is refused; so are other bases' prefixes. *)
Example filter_argument : lookup_filter [cstr "1"; cstr "2"; cstr "3"] = None.
Proof. done. Qed.
Example filter_forms : map (fun s => lookup_filter [s]) [cstr "0x1001"; cstr "010"; cstr " +7"; cstr "-1"; cstr "12a"; []; cstr "4294967297"] =
  [Some (4097, 0); Some (8, 0); Some (7, 0); Some (0xffffffff, 0); None; Some (0, 0); Some (1, 0)].
Proof. by vm_compute. Qed.

(** ** With the name server *)

(** The sockets work. *)
Definition sockets_work (sy : sys) (sq : sockaddr_qrtr) : Prop :=
  0 <= sys_socket sy /\ sys_getsockname sy = (0, sq, sizeof_sockaddr_qrtr) /\ sq_family sq = AF_QIPCRTR /\
  sys_setsockopt sy = 0 /\ 0 <= sys_sendto sy.
(** The packet the program sends, as the name server receives it: behind it the buffer
    holds what was there. *)
Definition lookup_pkt (svc inst : Z) : qrtr_ctrl_pkt := CtrlPkt QRTR_TYPE_NEW_LOOKUP svc inst 0 0.
Definition lookup_request (sq : sockaddr_qrtr) (svc inst : Z) (rest : list Z) : received :=
  Received 20 (pkt_bytes (lookup_pkt svc inst) ++ rest) sq.

(** C26: on a local node whose sockets work the program sends one request, and with what the
    name server answers it prints the heading and a line for every registered server that
    was asked for, and for no other, and ends without an error, whatever comes afterwards.
    The name server has memory for the lookup ([plenty]), and in none of its tables a port is
    registered twice ([clean]): it would answer with stale entries ([ns_stale_server]) too. *)
Theorem lookup_lists_servers (e : env) (sy : sys) (sq : sockaddr_qrtr) (args : list (list Z)) (svc inst : Z) (rest : list Z) (s : ns_state) :
  plenty e -> ns_ok s -> clean s -> sockets_work sy sq -> sq_node sq = local_id s -> lookup_filter args = Some (svc, inst) ->
  exists s' answers reply,
    ctrl_port_fn e (lookup_request sq svc inst rest) s = Done (tt, s') /\
    sent s' = sent s ++ map (pair sq) answers /\
    (forall more last, lookup_main sy args (answers ++ more) last =
      Done ([CSocket; CGetsockname (sys_socket sy); CSetsockopt (sys_socket sy);
             CSendto (sys_socket sy) (pkt_bytes (lookup_pkt svc inst)) (SockaddrQrtr AF_QIPCRTR (sq_node sq) QRTR_PORT_CTRL);
             CClose (sys_socket sy)], (0, heading :: map line_of reply))) /\
    forall srv, srv ∈ reply <->
      (server_at s (srv_node srv) (srv_port srv) = Some srv /\ is_u32 (srv_node srv)) /\ wanted svc inst srv.
Proof.
  intros Hpl H Hcl (Hso & Hgn & Hfam & Hopt & Hsend) Hloc Hfil. pose proof (lookup_filter_range args svc inst Hfil) as [Hsvc Hinst].
  set (r := lookup_request sq svc inst rest). set (pk := lookup_pkt svc inst).
  assert (Hpk : pkt_ok pk) by (split; try done; cbn; unfold QRTR_TYPE_NEW_LOOKUP; lia).
  assert (Hc : carries r pk) by (split; [done|]; split; [done|]; by exists rest).
  pose proof (carries_fields r pk Hc) as (_ & E1 & E2 & E3 & E4). assert (Hcmd : cmd pk = QRTR_TYPE_NEW_LOOKUP) by done.
  destruct (runs_port e r pk s _ _ Hc ltac:(pick_handler) (new_lookup_spec e s sq svc inst H)) as ([] & s' & E & rc & HQ).
  destruct HQ as (_ & _ & [(_ & _ & _ & F)|(_ & _ & _ & S)]); [by destruct (F Hpl)|].
  set (reply := matching (ServerFilter svc inst 0) (all_servers s)) in *.
  exists s', (map (fun srv => pkt_bytes (notify_pkt (Some srv) true)) reply ++ [pkt_bytes (notify_pkt None true)]), reply.
  split; [done|].
  assert (Hreply : forall srv, srv ∈ reply -> server_ok (srv_node srv) (hash_u32 (srv_port srv)) srv /\
      (server_at s (srv_node srv) (srv_port srv) = Some srv /\ is_u32 (srv_node srv)) /\ wanted svc inst srv).
  { intros srv. unfold reply, matching. rewrite list_elem_of_filter, all_servers_at by done. intros [Hm Hat].
    pose proof (registered_ok s srv H (proj1 Hat)) as Hok. split; [done|]. split; [done|].
    apply server_match_spec in Hm; [done|]. apply Hok. }
  split; [|split].
  - rewrite S. unfold reply_msgs. by rewrite map_app, map_map.
  - intros more last. unfold lookup_main. rewrite Hfil, Hgn, Hfam, Hopt.
    rewrite (proj2 (Z.ltb_ge (sys_socket sy) 0)), (proj2 (Z.ltb_ge (sys_sendto sy) 0)) by done. cbn [Z.eqb negb orb AF_QIPCRTR sizeof_sockaddr_qrtr].
    rewrite <- app_assoc. cbn [app]. rewrite list_loop_lists; [by run|done|]. apply Forall_forall. intros srv Hin.
    apply Hreply in Hin as ([_ _ [Hs _] Hi [Hp Hp0]] & [_ Hn] & _). split; [|done]. by split.
  - intros srv. split; [by intros Hin; apply Hreply|]. intros [Hat Hw]. unfold reply, matching.
    rewrite list_elem_of_filter, all_servers_at by done. split; [|done].
    apply server_match_spec; [|done]. by apply (registered_ok s srv H (proj1 Hat)).
Qed.

(** ** A name server with one server, and a client that lists all of them *)

Lemma clean_heap s : Forall (fun it => NoDup (item_pairs (map_data (services it.2))).*1) (map_to_list (heap s)) -> clean s.
Proof.
  intros Hf n _. unfold clean_at, table_at, node_at. rewrite Forall_forall in Hf.
  assert (Hempty : map_unique (@map_create server)) by by intros i j k v w.
  destruct (map_get (nodes s) (hash_u32 n)) as [[p|]| |]; try done. destruct (heap s !! p) as [nd|] eqn:E; [|done].
  refine (unique_of_nodup _ (Hf (p, nd) _)). by apply elem_of_map_to_list.
Qed.
Lemma demo_clean_all : clean demo_state.
Proof. apply clean_heap. apply (bool_decide_unpack _). by vm_compute. Qed.
Definition demo_client : sockaddr_qrtr := SockaddrQrtr AF_QIPCRTR 1 77.
Definition demo_sockets : sys := Sys 3 0 0 (0, demo_client, 12) 20.
Lemma lookup_lists_servers_witness : exists s' answers reply,
  ctrl_port_fn demo_env (lookup_request demo_client 10 0 []) demo_state = Done (tt, s') /\
  sent s' = sent demo_state ++ map (pair demo_client) answers /\
  (forall more last, lookup_main demo_sockets [cstr "0xa"] (answers ++ more) last =
    Done ([CSocket; CGetsockname 3; CSetsockopt 3; CSendto 3 (pkt_bytes (lookup_pkt 10 0)) (SockaddrQrtr AF_QIPCRTR 1 QRTR_PORT_CTRL); CClose 3],
          (0, heading :: map line_of reply))) /\
  forall srv, srv ∈ reply <-> (server_at demo_state (srv_node srv) (srv_port srv) = Some srv /\ is_u32 (srv_node srv)) /\ wanted 10 0 srv.
Proof.
  apply (lookup_lists_servers demo_env demo_sockets demo_client [cstr "0xa"] 10 0 [] demo_state);
    [apply demo_plenty|apply demo_state_ok|apply demo_clean_all|by vm_compute|by vm_compute|done].
Defined.
Example demo_line : line_of (Server 10 0x102 1 5) = cstr "       10       2        1    1     5 Card Application Toolkit service (v2)" ++ [10].
Proof. by vm_compute. Qed.
Example diag_line : server_line DIAG_SERVICE 0x43 0 0xfffffffe =
  cstr "     4097     N/A       67    0    -2 DIAG service (LPASS:DCI_CMD)" ++ [10].
Proof. by vm_compute. Qed.
