(* ===== verification/Cfg.v ===== *)
(** * Setting the address of the node (qrtr/src/cfg.c, qrtr/src/addr.c)

    The number on the command line becomes a netlink message.  The results of the calls
    are a record, the calls made a trace; an answer may be of any length. *)
From S2P Require Import Prelude CString Numbers Qrtr.
#[local] Open Scope Z_scope.

Definition RTM_NEWADDR : Z := 20.
Definition NLM_F_REQUEST : Z := 1.
Definition NLM_F_ACK : Z := 4.
Definition NLMSG_ERROR : Z := 2.
Definition IFA_LOCAL : Z := 2.
Definition UINT_MAX : Z := 2 ^ 32 - 1.
(** The macros of the netlink headers: everything is aligned to four bytes. *)
Definition nl_align (n : Z) : Z := Z.land (n + 3) (Z.lnot 3).
Definition sizeof_nlmsghdr : Z := 16.
Definition sizeof_ifaddrmsg : Z := 8.
Definition sizeof_rtattr : Z := 4.
Definition NLMSG_SPACE (len : Z) : Z := nl_align (len + nl_align sizeof_nlmsghdr).
Definition RTA_LENGTH (len : Z) : Z := nl_align sizeof_rtattr + len.
(** The request: the two headers and 32 bytes for attributes. *)
Definition sizeof_req : Z := 56.

Inductive addr_call := ASocketQrtr | AGetsockname (sock : Z) | AClose (sock : Z) | ASocketNetlink | ASend (sock : Z) (msg : list Z) | ARecv (sock : Z).
(** [as_recv] are the bytes of the answer, at most those of the structure it is received in;
    [None]: [recv] has failed. *)
Record addr_sys := AddrSys {
  as_socket : Z;
  as_getsockname : Z * sockaddr_qrtr * Z;
  as_netlink : Z;
  as_send : Z;
  as_recv : option (list Z) }.

Definition addr_request (addr : Z) : outcome (list Z) :=
  let req := replicate (Z.to_nat sizeof_req) 0 in
  let nlmsg_len := NLMSG_SPACE sizeof_ifaddrmsg in
  req ← write_mem req 0 (le_bytes 4 nlmsg_len);
  req ← write_mem req 6 (le_bytes 2 (Z.lor NLM_F_REQUEST NLM_F_ACK));
  req ← write_mem req 4 (le_bytes 2 RTM_NEWADDR);
  req ← write_mem req 16 (le_bytes 1 AF_QIPCRTR);
  let rta := nlmsg_len in
  req ← write_mem req (rta + 2) (le_bytes 2 IFA_LOCAL);
  let rta_len := RTA_LENGTH 4 in
  req ← write_mem req rta (le_bytes 2 rta_len);
  req ← write_mem req (rta + nl_align sizeof_rtattr) (le_bytes 4 addr);
  let nlmsg_len := nlmsg_len + rta_len in
  req ← write_mem req 0 (le_bytes 4 nlmsg_len);
  read_mem req 0 nlmsg_len.

(** A field of the answer; what was not received is uninitialised. *)
Definition answer_field (resp : list Z) (off n : Z) : outcome Z :=
  if off + n <=? zlen resp then Done (le_value (take (Z.to_nat n) (drop (Z.to_nat off) resp))) else Fault Uninitialised.

(** The calls, and whether it returns; otherwise the program has exited with 1. *)
Definition qrtr_set_address (sy : addr_sys) (addr : Z) : outcome (list addr_call * bool) :=
  let sock := as_socket sy in
  if sock <? 0 then Done ([ASocketQrtr], false)
  else
    let '(ret, sq, sl) := as_getsockname sy in
    if ret <? 0 then Done ([ASocketQrtr; AGetsockname sock], false)
    else
      let t := [ASocketQrtr; AGetsockname sock; AClose sock] in
      if (sl =? sizeof_sockaddr_qrtr) && (sq_node sq =? addr) then Done (t, true)
      else
        let t := t ++ [ASocketNetlink] in
        let nl := as_netlink sy in
        if nl <? 0 then Done (t, false)
        else
          req ← addr_request addr;
          let t := t ++ [ASend nl req] in
          if as_send sy <? 0 then Done (t, false)
          else
            let t := t ++ [ARecv nl] in
            match as_recv sy with
            | None => Done (t, false)
            | Some resp =>
                nlmsg_type ← answer_field resp 4 2;
                failed ← (if nlmsg_type =? NLMSG_ERROR then error ← answer_field resp 16 4; Done (negb (error =? 0)) else Done false);
                if (failed : bool) then Done (t, false) else Done (t ++ [AClose nl], true)
            end.

(** The arguments behind the name of the program; the exit status. *)
Definition cfg_address (args : list (list Z)) : option Z :=
  match args with
  | [arg] =>
      let '(addrul, _, ep) := strtoul 10 arg in
      if bool_decide (arg = []) || negb (bool_decide (ep = [])) || (UINT_MAX <=? addrul) then None else Some (u32 addrul)
  | _ => None
  end.
Definition cfg_main (sy : addr_sys) (args : list (list Z)) : outcome (list addr_call * Z) :=
  match cfg_address args with
  | None => Done ([], 1)
  | Some addr => '(t, ok) ← qrtr_set_address sy addr; Done (t, if (ok : bool) then 0 else 1)
  end.
