(* ===== verification/CfgProps.v ===== *)
(** * What qrtr-cfg asks the kernel for *)
From Stdlib Require Import String.
From S2P Require Import Prelude CString Numbers Qrtr Cfg.
#[local] Open Scope Z_scope.

(** The message as it is on the socket: a request for a new local address. *)
Definition newaddr_msg (addr : Z) : list Z :=
  le_bytes 4 32 ++ le_bytes 2 RTM_NEWADDR ++ le_bytes 2 5 ++ le_bytes 4 0 ++ le_bytes 4 0 ++
  [AF_QIPCRTR; 0; 0; 0] ++ le_bytes 4 0 ++ le_bytes 2 8 ++ le_bytes 2 IFA_LOCAL ++ le_bytes 4 addr.
Lemma addr_request_msg addr : addr_request addr = Done (newaddr_msg addr).
Proof. reflexivity. Qed.

(** What the kernel answers: a message of some type; one that reports the error [e], 0 for the
    acknowledgement; or too little to tell. *)
Definition nl_message (type : Z) (resp : list Z) : Prop := exists pre rest, zlen pre = 4 /\ resp = pre ++ le_bytes 2 type ++ rest.
Definition nl_error (e : Z) (resp : list Z) : Prop :=
  exists pre mid rest, zlen pre = 4 /\ zlen mid = 10 /\ resp = pre ++ le_bytes 2 NLMSG_ERROR ++ mid ++ le_bytes 4 e ++ rest.
Definition nl_short (resp : list Z) : Prop := zlen resp < 6 \/ nl_message NLMSG_ERROR resp /\ zlen resp < 20.

Lemma answer_field_at pre n v rest off : 0 <= v < 2 ^ (8 * Z.of_nat n) -> off = zlen pre ->
  answer_field (pre ++ le_bytes n v ++ rest) off (Z.of_nat n) = Done v.
Proof.
  intros Hv ->. unfold answer_field. pose proof (zlen_nonneg rest).
  rewrite (proj2 (Z.leb_le _ _)) by (rewrite !zlen_app; unfold zlen at 3; rewrite length_le_bytes; lia).
  unfold zlen. rewrite !Nat2Z.id, drop_app_length, take_app_length' by by rewrite length_le_bytes.
  by rewrite le_value_bytes, Z.mod_small.
Qed.

Lemma cfg_address_print addr : 0 <= addr < UINT_MAX -> cfg_address [print_int addr] = Some addr.
Proof.
  intros Ha. unfold UINT_MAX in *. unfold cfg_address. rewrite strtoul_print by (auto || lia).
  destruct (dec_digits 20 addr) as [_ Hl]; [lia|lia|].
  assert (print_int addr <> []) as Hn.
  { unfold print_int. rewrite (proj2 (Z.ltb_ge _ _)) by lia. intros E. rewrite E in Hl. cbn in Hl. lia. }
  rewrite bool_decide_false by done. rewrite bool_decide_true by done. unfold UINT_MAX. rewrite (proj2 (Z.leb_gt _ _)) by lia.
  cbn [orb negb]. rewrite u32_small by lia. done.
Qed.

Lemma cfg_address_large addr : UINT_MAX <= addr < 2 ^ 64 -> cfg_address [print_int addr] = None.
Proof.
  intros Ha. unfold UINT_MAX in *. unfold cfg_address. rewrite strtoul_print by (auto || lia).
  unfold UINT_MAX. rewrite (proj2 (Z.leb_le _ _)) by lia. by rewrite orb_true_r.
Qed.

(** What the program does when the kernel is asked, by its answer. *)
Lemma set_address_asks sy sq addr : 0 <= as_socket sy -> as_getsockname sy = (0, sq, sizeof_sockaddr_qrtr) ->
  0 <= as_netlink sy -> 0 <= as_send sy -> 0 <= addr < UINT_MAX -> sq_node sq <> addr ->
  let set := [ASocketQrtr; AGetsockname (as_socket sy); AClose (as_socket sy); ASocketNetlink;
              ASend (as_netlink sy) (newaddr_msg addr); ARecv (as_netlink sy)] in
  cfg_main sy [print_int addr] =
  match as_recv sy with
  | None => Done (set, 1)
  | Some resp =>
      nlmsg_type ← answer_field resp 4 2;
      failed ← (if nlmsg_type =? NLMSG_ERROR then error ← answer_field resp 16 4; Done (negb (error =? 0)) else Done false);
      Done (if (failed : bool) then (set, 1) else (set ++ [AClose (as_netlink sy)], 0))
  end.
Proof.
  intros Hs Hg Hn Hsend Ha Hne set. unfold cfg_main. rewrite cfg_address_print by lia. unfold qrtr_set_address.
  rewrite (proj2 (Z.ltb_ge (as_socket sy) 0)) by done. rewrite Hg. rewrite Z.eqb_refl, (proj2 (Z.eqb_neq _ _) Hne). cbn [Z.ltb Z.compare andb].
  rewrite (proj2 (Z.ltb_ge (as_netlink sy) 0)) by done. rewrite addr_request_msg. run.
  rewrite (proj2 (Z.ltb_ge (as_send sy) 0)) by done. destruct (as_recv sy) as [resp|]; [|by run].
  destruct (answer_field resp 4 2) as [ty| |]; [run|done..].
  destruct (ty =? NLMSG_ERROR); [|by run]. destruct (answer_field resp 16 4) as [e| |]; [run|done..]. by destruct (negb (e =? 0)).
Qed.

(** C39: for a number below the broadcast address, when its sockets work, the program asks the
    kernel to make it the local address unless it is that already.  It then succeeds on the
    acknowledgement, an error message with error 0, and fails on any other error message and
    when nothing can be received.  A message that is no error message counts as success as
    well, and an answer that ends in front of the error makes the program test uninitialised
    memory.  For the broadcast address and every larger number below [2 ^ 64] no call is
    made. *)
Theorem cfg_sets_address sy sq addr :
  0 <= as_socket sy -> as_getsockname sy = (0, sq, sizeof_sockaddr_qrtr) -> 0 <= as_netlink sy -> 0 <= as_send sy ->
  0 <= addr < 2 ^ 64 ->
  let asked := [ASocketQrtr; AGetsockname (as_socket sy); AClose (as_socket sy)] in
  let set := asked ++ [ASocketNetlink; ASend (as_netlink sy) (newaddr_msg addr); ARecv (as_netlink sy)] in
  let result := cfg_main sy [print_int addr] in
  if UINT_MAX <=? addr then result = Done ([], 1)
  else if sq_node sq =? addr then result = Done (asked, 0)
  else match as_recv sy with
       | None => result = Done (set, 1)
       | Some resp =>
           (nl_error 0 resp -> result = Done (set ++ [AClose (as_netlink sy)], 0)) /\
           (forall e, 0 < e < 2 ^ 32 -> nl_error e resp -> result = Done (set, 1)) /\
           (forall type, 0 <= type < 2 ^ 16 -> type <> NLMSG_ERROR -> nl_message type resp ->
              result = Done (set ++ [AClose (as_netlink sy)], 0)) /\
           (nl_short resp -> result = Fault Uninitialised)
       end.
Proof.
  intros Hs Hg Hn Hsend Ha asked set result. destruct (UINT_MAX <=? addr) eqn:Eb; reflect_bools.
  { unfold result, cfg_main. by rewrite cfg_address_large by lia. }
  destruct (sq_node sq =? addr) eqn:Eq; reflect_bools.
  { unfold result, cfg_main. rewrite cfg_address_print by lia. unfold qrtr_set_address.
    rewrite (proj2 (Z.ltb_ge (as_socket sy) 0)) by done. rewrite Hg, Eq, !Z.eqb_refl. by run. }
  pose proof (set_address_asks sy sq addr Hs Hg Hn Hsend ltac:(lia) Eq) as E. fold result in E. cbv zeta in E.
  destruct (as_recv sy) as [resp|]; [|exact E].
  assert (Herr : forall e, 0 <= e < 2 ^ 32 -> nl_error e resp -> result = Done (if e =? 0 then (set ++ [AClose (as_netlink sy)], 0) else (set, 1))).
  { intros e He (pre & mid & rest & H1 & H2 & ->). rewrite E, (answer_field_at pre 2 NLMSG_ERROR) by (unfold NLMSG_ERROR in *; lia). run. cbn [Z.eqb Pos.eqb NLMSG_ERROR].
    rewrite (app_assoc pre), (app_assoc (pre ++ _)), (answer_field_at ((pre ++ _) ++ mid) 4) by (done || (rewrite !zlen_app, H1, H2; done)). run.
    by destruct (e =? 0). }
  split_and!.
  - exact (Herr 0 ltac:(lia)).
  - intros e He Hx. rewrite (Herr e ltac:(lia) Hx). by rewrite (proj2 (Z.eqb_neq _ _)) by lia.
  - intros type Ht Hne (pre & rest & H1 & ->). rewrite E, (answer_field_at pre 2 type) by (unfold NLMSG_ERROR in *; lia). run.
    by rewrite (proj2 (Z.eqb_neq _ _) Hne).
  - intros [Hshort|[(pre & rest & H1 & ->) Hshort]]; rewrite E.
    + assert (Hf : answer_field resp 4 2 = Fault Uninitialised) by (unfold answer_field; by rewrite (proj2 (Z.leb_gt _ _)) by lia).
      by rewrite Hf.
    + rewrite (answer_field_at pre 2 NLMSG_ERROR) by (unfold NLMSG_ERROR in *; lia). run. cbn [Z.eqb Pos.eqb NLMSG_ERROR].
      set (resp := pre ++ _) in *.
      assert (Hf : answer_field resp 16 4 = Fault Uninitialised) by (unfold answer_field; by rewrite (proj2 (Z.leb_gt _ _)) by lia).
      by rewrite Hf.
Qed.

Definition demo_resp (error : Z) : list Z := le_bytes 4 36 ++ le_bytes 2 NLMSG_ERROR ++ replicate 10 0 ++ le_bytes 4 error ++ replicate 16 0.
Definition demo_addr_sys (error : Z) : addr_sys := AddrSys 3 (0, SockaddrQrtr AF_QIPCRTR 1 99, 12) 4 32 (Some (demo_resp error)).
Lemma cfg_sets_address_witness :
  cfg_main (demo_addr_sys (u32 (-17))) [print_int 7] =
  Done ([ASocketQrtr; AGetsockname 3; AClose 3; ASocketNetlink; ASend 4 (newaddr_msg 7); ARecv 4], 1).
Proof.
  destruct (cfg_sets_address (demo_addr_sys (u32 (-17))) (SockaddrQrtr AF_QIPCRTR 1 99) 7) as (_ & He & _).
  - cbn. lia.
  - reflexivity.
  - cbn. lia.
  - cbn. lia.
  - lia.
  - apply (He (u32 (-17))); [vm_compute; by split|]. by exists (le_bytes 4 36), (replicate 10 0), (replicate 16 0).
Defined.
(** The text may also have white space, a sign and a value that wraps around. *)
Example address_forms : map (fun s => cfg_address [s]) [cstr "12"; cstr " +12"; cstr "-18446744073709551604"; cstr "0x12"; cstr "-1"; []] =
  [Some 12; Some 12; Some 12; None; None; None].
Proof. by vm_compute. Qed.
(** No argument, or several, and no call is made. *)
Example one_argument : map (cfg_main (demo_addr_sys 0)) [[]; [cstr "7"; cstr "8"]] = [Done ([], 1); Done ([], 1)].
Proof. by vm_compute. Qed.
