(* ===== verification/Udev.v ===== *)
(** * The shared memory on a system with udev (rmtfs/sharedmem.c without ANDROID)

    The functions that open the memory when the service is not built for Android; the
    rest of the file is shared and is in [SharedMem].  What the calls and libudev give is
    a record, the descriptors that are closed are a trace. *)
From Stdlib Require Import String.
From stdpp Require Import pretty.
From S2P Require Import Prelude CString SharedMem.
#[local] Open Scope Z_scope.

(** Each result comes with the value of [errno] after a failure. *)
Record udev_sys := UdevSys {
  us_open : list Z -> Z * Z;
  us_fstat : Z * Z;
  us_udev_new : option Z;
  us_new_from_devnum : option Z;
  us_sysattr : list Z -> option (list Z);
  us_mmap : Z -> Z -> list Z + Z }.

(** The result and the value, when it was stored; without a digit [errno] is still 0. *)
Definition parse_hex_sysattr (sy : udev_sys) (name : list Z) : outcome (Z * option Z) :=
  match us_sysattr sy name with
  | None => Done (- ENOENT, None)
  | Some buf =>
      '(val, any, range) ← strtoull16 (buf ++ [0]);
      let errno := if (range : bool) then ERANGE else 0 in
      if ((val =? 2 ^ 64 - 1) && (errno =? ERANGE)) || negb (any : bool) then Done (- errno, None)
      else Done (0, Some val)
  end.
(** A value that was not stored leaves the field as it was. *)
Definition stored (old : Z) (v : option Z) : Z := match v with Some v => v | None => old end.
(** The two attributes of the device. *)
Definition parse_window (sy : udev_sys) (m : rmtfs_mem) (phys_name size_name : list Z) : outcome (rmtfs_mem * Z) :=
  '(ret, a) ← parse_hex_sysattr sy phys_name;
  let m := RmtfsMem (stored (address m) a) (size m) (base m) (mem_fd m) in
  if ret <? 0 then Done (m, ret)
  else
    '(ret, s) ← parse_hex_sysattr sy size_name;
    let m := RmtfsMem (address m) (stored (size m) s) (base m) (mem_fd m) in
    if ret <? 0 then Done (m, ret) else Done (m, 0).

(** The descriptors closed, the memory and the result. *)
Definition udev_open_rfsa (sy : udev_sys) (m : rmtfs_mem) (client_id : Z) : outcome (list Z * rmtfs_mem * Z) :=
  let '(fd, errno) := us_open sy (cstr "/dev/qcom_rmtfs_mem" ++ cstr (pretty client_id)) in
  if fd <? 0 then Done ([], m, - errno)
  else
    let m := RmtfsMem (address m) (size m) (base m) fd in
    let '(ret, errno) := us_fstat sy in
    if ret <? 0 then Done ([fd; fd], m, - errno)
    else
      match us_udev_new sy with
      | Some errno => Done ([fd], m, - errno)
      | None =>
          match us_new_from_devnum sy with
          | Some errno => Done ([fd], m, - errno)
          | None =>
              '(m, ret) ← parse_window sy m (cstr "phys_addr") (cstr "size");
              if ret <? 0 then Done ([fd], m, ret) else Done ([], m, 0)
          end
      end.
Definition udev_open_uio (sy : udev_sys) (m : rmtfs_mem) (client_id : Z) : outcome (list Z * rmtfs_mem * Z) :=
  let '(fd, errno) := us_open sy (cstr "/dev/qcom_rmtfs_uio" ++ cstr (pretty client_id)) in
  if fd <? 0 then Done ([], m, - errno)
  else
    let m := RmtfsMem (address m) (size m) (base m) fd in
    let '(ret, errno) := us_fstat sy in
    if ret <? 0 then Done ([fd; fd], m, - errno)
    else
      match us_udev_new sy with
      | Some errno => Done ([fd], m, - errno)
      | None =>
          match us_new_from_devnum sy with
          | Some errno => Done ([fd], m, - errno)
          | None =>
              '(m, ret) ← parse_window sy m (cstr "maps/map0/addr") (cstr "maps/map0/size");
              if ret <? 0 then Done ([fd], m, ret)
              else
                match us_mmap sy (size m) fd with
                | inr errno => Done ([fd], m, - errno)
                | inl b => Done ([], RmtfsMem (address m) (size m) (Some b) fd, 0)
                end
          end
      end.
(** What [rmtfs_mem_open] does with them, before it turns to the device tree. *)
Definition udev_open (sy : udev_sys) : outcome (list Z * rmtfs_mem * Z) :=
  '(closed, m, ret) ← udev_open_rfsa sy (RmtfsMem 0 0 None 0) 1;
  if ret =? - ENOENT then
    '(closed', m, ret) ← udev_open_uio sy m 1;
    Done (closed ++ closed', m, ret)
  else Done (closed, m, ret).

