(* ===== verification/UdevProps.v ===== *)
(** * The window that udev describes *)
From Stdlib Require Import String.
From stdpp Require Import pretty.
From S2P Require Import Prelude CString SharedMem SharedMemProps Udev.
#[local] Open Scope Z_scope.

(** An attribute as the kernel prints it. *)
Record attr_text (sy : udev_sys) (name : list Z) (v : Z) : Prop := {
  at_digits : exists ds, us_sysattr sy name = Some (hex_text ds) /\ Forall (fun d => 0 <= d < 16) ds /\ ds <> [] /\ digits_value ds 0 = v;
  at_range : v < 2 ^ 64 }.
Lemma parse_hex_text sy name v : attr_text sy name v -> parse_hex_sysattr sy name = Done (0, Some v).
Proof.
  intros [(ds & Ha & Hd & Hne & Hv) Hr]. unfold parse_hex_sysattr. rewrite Ha, strtoull16_text, Hv by done.
  rewrite (proj2 (Z.leb_gt _ _)) by done. run. change (0 =? ERANGE) with false. by rewrite andb_false_r.
Qed.
Lemma parse_window_text sy m n1 n2 a s : attr_text sy n1 a -> attr_text sy n2 s ->
  parse_window sy m n1 n2 = Done (RmtfsMem a s (base m) (mem_fd m), 0).
Proof. intros Ha Hs. unfold parse_window. rewrite (parse_hex_text _ _ _ Ha). run. by rewrite (parse_hex_text _ _ _ Hs). Qed.

(** libudev finds the devices. *)
Definition udev_works (sy : udev_sys) : Prop := 0 <= (us_fstat sy).1 /\ us_udev_new sy = None /\ us_new_from_devnum sy = None.
Definition mem_dev : list Z := cstr "/dev/qcom_rmtfs_mem1".
Definition uio_dev : list Z := cstr "/dev/qcom_rmtfs_uio1".

(** The window is the one that the attributes of the first device that exists describe:
    that of the driver for the memory, reached through its descriptor, or that of the
    generic driver, which is mapped.  Its descriptor stays open; when mapping fails it
    is closed. *)
Theorem udev_open_window sy fd a s : udev_works sy ->
  (us_open sy mem_dev = (fd, 0) -> 0 <= fd -> attr_text sy (cstr "phys_addr") a -> attr_text sy (cstr "size") s ->
   udev_open sy = Done ([], RmtfsMem a s None fd, 0)) /\
  ((us_open sy mem_dev).1 < 0 -> (us_open sy mem_dev).2 = ENOENT -> us_open sy uio_dev = (fd, 0) -> 0 <= fd ->
   attr_text sy (cstr "maps/map0/addr") a -> attr_text sy (cstr "maps/map0/size") s ->
   udev_open sy = Done match us_mmap sy s fd with
     | inl b => ([], RmtfsMem a s (Some b) fd, 0)
     | inr errno => ([fd], RmtfsMem a s None fd, - errno)
     end).
Proof.
  intros (Hst & Hnew & Hdev). unfold udev_open, udev_open_rfsa, udev_open_uio.
  change (cstr "/dev/qcom_rmtfs_mem" ++ cstr (pretty 1)) with mem_dev. change (cstr "/dev/qcom_rmtfs_uio" ++ cstr (pretty 1)) with uio_dev.
  destruct (us_fstat sy) as [st est]. cbn [fst] in Hst. split.
  - intros Ho Hfd Ha Hs. rewrite Ho, !(proj2 (Z.ltb_ge _ 0)), Hnew, Hdev by done. by rewrite (parse_window_text _ _ _ _ a s Ha Hs).
  - destruct (us_open sy mem_dev) as [r e]. cbn [fst snd]. intros Hr -> Ho Hfd Ha Hs. rewrite (proj2 (Z.ltb_lt r 0)) by done. run.
    rewrite Z.eqb_refl, Ho, !(proj2 (Z.ltb_ge _ 0)), Hnew, Hdev by done. rewrite (parse_window_text _ _ _ _ a s Ha Hs). run.
    cbn [Z.ltb Z.compare size address]. by destruct (us_mmap sy s fd).
Qed.

(** ** A system to try it on *)

Definition demo_udev : udev_sys := UdevSys
  (fun path => if bool_decide (path = uio_dev) then (5, 0) else (-1, ENOENT)) (0, 0) None None
  (fun name => if bool_decide (name = cstr "maps/map0/addr") then Some (hex_text [8; 5; 14; 0; 0; 0; 0; 0])
               else if bool_decide (name = cstr "maps/map0/size") then Some (hex_text [2; 0; 0]) else None)
  (fun n _ => inl (replicate (Z.to_nat n) 0)).
Lemma udev_open_window_witness : udev_open demo_udev = Done ([], RmtfsMem 0x85e00000 0x200 (Some (replicate 512 0)) 5, 0).
Proof.
  etransitivity; [apply (proj2 (udev_open_window demo_udev 5 0x85e00000 0x200 ltac:(done)))|]; try done.
  - split; [|done]. exists [8; 5; 14; 0; 0; 0; 0; 0]. split_and!; try done. repeat (constructor; [done|]); constructor.
  - split; [|done]. exists [2; 0; 0]. split_and!; try done. repeat (constructor; [done|]); constructor.
Defined.
(** Text without digits is taken for a success: the window is the one at 0 of no bytes.
    After a failed [fstat] the descriptor is closed twice. *)
Definition demo_garbage : udev_sys := UdevSys (fun _ => (5, 0)) (0, 0) None None (fun _ => Some (cstr "(null)")) (fun _ _ => inr 12).
Example garbage_accepted : udev_open demo_garbage = Done ([], RmtfsMem 0 0 None 5, 0).
Proof. by vm_compute. Qed.
Example closed_twice : udev_open (UdevSys (fun _ => (5, 0)) (-1, 5) None None (fun _ => None) (fun _ _ => inr 12)) = Done ([5; 5], RmtfsMem 0 0 None 5, -5).
Proof. by vm_compute. Qed.
