(* ===== verification/Diag.v ===== *)
(** * Messages for people (rmtfs/util.c, qrtr/lib/logging.c)

    The hexadecimal dump of a packet and the log.  What is printed is text; a message of
    the log is given as [vsnprintf] and [vsyslog] format it. *)
From Stdlib Require Import String.
From S2P Require Import Prelude CString.
#[local] Open Scope Z_scope.

(** ** The dump *)

Definition to_hex (ch : Z) : Z := let ch := Z.land ch 0xf in if ch <=? 9 then 48 + ch else 97 + ch - 10.
Definition isprint (ch : Z) : bool := (32 <=? ch) && (ch <=? 126).
(** [%04x]. *)
Definition hex4 (v : Z) : list Z := hex_digits (Nat.max 4 (Z.to_nat (Z.log2 v / 4 + 1))) v.

(** The buffer of a line, of 65 bytes with the terminator. *)
Definition sizeof_line : Z := 16 * 3 + 16 + 1.
Definition dump_line (bs : list Z) : outcome (list Z) :=
  let line := concat (map (fun ch => [to_hex (Z.shiftr ch 4); to_hex ch; 32]) bs) ++
              concat (replicate (16 - length bs) [32; 32; 32]) ++
              map (fun ch => if isprint ch then ch else 46) bs in
  if sizeof_line <? zlen line + 1 then Fault OutOfBounds else Done line.
(** The counter is an [int]; a turn takes 16 bytes. *)
Fixpoint dump_loop (fuel : nat) (prefix buf : list Z) (len i : Z) : outcome (list (list Z)) :=
  if i <? len then
    match fuel with
    | O => OutOfFuel
    | S fuel' =>
        bs ← read_mem buf i (Z.min 16 (len - i));
        line ← dump_line bs;
        if 2 ^ 31 <=? i + 16 then Fault Overflow
        else
          rest ← dump_loop fuel' prefix buf len (i + 16);
          Done ((prefix ++ [32] ++ hex4 i ++ [58; 32] ++ line ++ [10]) :: rest)
    end
  else Done [].
Definition print_hex_dump (prefix buf : list Z) (len : Z) : outcome (list (list Z)) :=
  dump_loop (Z.to_nat len) prefix buf len 0.

(** ** The log *)

Definition LOG_EMERG : Z := 0.
Definition LOG_INFO : Z := 6.
Definition LOG_DEBUG : Z := 7.
Definition QLOG_BUF_SIZE : Z := 512.
Record qlog_state := QLog { current_tag : list Z; logging_to_syslog : bool; min_priority : Z }.
Definition qlog_start : qlog_state := QLog (cstr "libqrtr") false LOG_INFO.
Inductive qlog_output := ToSyslog (priority : Z) (msg : list Z) | ToStderr (text : list Z).

Definition qlog_setup (tag : list Z) (use_syslog : bool) (st : qlog_state) : qlog_state := QLog tag use_syslog (min_priority st).
Definition qlog_set_min_priority (priority : Z) (st : qlog_state) : qlog_state :=
  if (priority <? LOG_EMERG) || (LOG_DEBUG <? priority) then st
  else QLog (current_tag st) (logging_to_syslog st) priority.
Definition get_priority_string (priority : Z) : list Z :=
  if priority =? 0 then cstr "EMERG"
  else if priority =? 1 then cstr "ALERT"
  else if priority =? 2 then cstr "CRIT"
  else if priority =? 3 then cstr "ERROR"
  else if priority =? 4 then cstr "WARNING"
  else if priority =? 5 then cstr "NOTICE"
  else if priority =? 6 then cstr "INFO"
  else if priority =? 7 then cstr "DEBUG"
  else [].
Definition qlog (st : qlog_state) (priority : Z) (msg : list Z) : option qlog_output :=
  if min_priority st <? priority then None
  else if logging_to_syslog st then Some (ToSyslog priority msg)
  else Some (ToStderr (get_priority_string priority ++ [32] ++ current_tag st ++ [58; 32] ++
                       take (Z.to_nat (QLOG_BUF_SIZE - 1)) msg ++ [10])).
