(* ===== verification/DiagProps.v ===== *)
(** * Dumps can be read back *)
From Stdlib Require Import String.
From S2P Require Import Prelude CString Diag.
#[local] Open Scope Z_scope.

(** ** Lines *)

Lemma to_hex_back ch : 0 <= ch < 256 -> hex_digit (to_hex (Z.shiftr ch 4)) = Some (ch / 16) /\ hex_digit (to_hex ch) = Some (ch mod 16).
Proof.
  intros Hc. assert (Hall : forallb (fun ch => bool_decide (hex_digit (to_hex (Z.shiftr ch 4)) = Some (ch / 16) /\ hex_digit (to_hex ch) = Some (ch mod 16)))
    (map Z.of_nat (seq 0 256)) = true) by by vm_compute.
  rewrite forallb_forall in Hall. specialize (Hall ch). rewrite bool_decide_eq_true in Hall. apply Hall.
  apply in_map_iff. exists (Z.to_nat ch). split; [lia|]. apply in_seq. lia.
Qed.
(** The columns of digits of a line; the first blank column ends them. *)
Fixpoint read_columns (n : nat) (s : list Z) : list Z :=
  match n, s with
  | S n', a :: b :: _ :: s' =>
      match hex_digit a, hex_digit b with
      | Some x, Some y => x * 16 + y :: read_columns n' s'
      | _, _ => []
      end
  | _, _ => []
  end.
(** The line behind the prefix, a blank, the offset of four digits, a colon and a blank. *)
Definition undump (prefix line : list Z) : list Z := read_columns 16 (drop (length prefix + 7) line).

Definition columns (bs : list Z) : list Z := concat (map (fun ch => [to_hex (Z.shiftr ch 4); to_hex ch; 32]) bs).
Lemma columns_length bs : length (columns bs) = (3 * length bs)%nat.
Proof. unfold columns. induction bs as [|b bs IH]; [done|]. cbn [map concat]. rewrite length_app, IH. cbn [length]. lia. Qed.
Lemma blanks_length n : length (concat (replicate n [32; 32; 32])) = (3 * n)%nat.
Proof. induction n as [|n IH]; [done|]. cbn [replicate concat]. rewrite length_app, IH. cbn [length]. lia. Qed.
(** A line always fits its buffer, exactly. *)
Lemma dump_line_fits bs : (length bs <= 16)%nat -> dump_line bs =
  Done (columns bs ++ concat (replicate (16 - length bs) [32; 32; 32]) ++ map (fun ch => if isprint ch then ch else 46) bs).
Proof.
  intros Hl. unfold dump_line. fold (columns bs). rewrite (proj2 (Z.ltb_ge _ _)); [done|].
  unfold zlen, sizeof_line. rewrite !length_app, columns_length, blanks_length, length_map. lia.
Qed.
Lemma read_columns_back bs : forall n rest, bytes_ok bs -> (length bs <= n)%nat ->
  ((length bs < n)%nat -> exists rest', rest = [32; 32; 32] ++ rest') ->
  read_columns n (columns bs ++ rest) = bs.
Proof.
  induction bs as [|b bs IH]; intros n rest Hb Hl Hrest.
  - destruct n as [|n]; [done|]. destruct (Hrest ltac:(cbn; lia)) as [rest' ->]. done.
  - apply Forall_cons in Hb as [Hb Hbs]. cbn [length] in *. destruct n as [|n]; [lia|].
    change (columns (b :: bs)) with ([to_hex (Z.shiftr b 4); to_hex b; 32] ++ columns bs). cbn [app read_columns].
    destruct (to_hex_back b Hb) as [-> ->]. f_equal; [|apply IH; [done|lia|intros; apply Hrest; lia]].
    rewrite (Z.mul_comm (b / 16)). symmetry. by apply Z.div_mod.
Qed.
Lemma hex4_length i : 0 <= i < 2 ^ 16 -> length (hex4 i) = 4%nat.
Proof.
  intros Hi. assert (Hd : forall n v, length (hex_digits n v) = n).
  { induction n as [|n IH]; intros v; [done|]. cbn [hex_digits]. rewrite length_app, IH. cbn [length]. lia. }
  unfold hex4. rewrite Hd. pose proof (Z.log2_nonneg i).
  assert (Z.log2 i < 16). { destruct (Z.eq_dec i 0) as [->|]; [done|]. apply Z.log2_lt_pow2; lia. }
  assert (Z.log2 i / 4 < 4) by (apply Z.div_lt_upper_bound; lia). pose proof (Z.div_pos (Z.log2 i) 4 ltac:(lia) ltac:(lia)). lia.
Qed.
Lemma undump_line prefix i bs line : 0 <= i < 2 ^ 16 -> bytes_ok bs -> (length bs <= 16)%nat -> dump_line bs = Done line ->
  undump prefix (prefix ++ [32] ++ hex4 i ++ [58; 32] ++ line ++ [10]) = bs.
Proof.
  intros Hi Hb Hl. rewrite dump_line_fits by done. intros [= <-]. unfold undump.
  rewrite (app_assoc prefix), (app_assoc (prefix ++ [32])), (app_assoc ((prefix ++ [32]) ++ hex4 i)).
  rewrite drop_app_length' by (rewrite !length_app, hex4_length by done; cbn [length]; lia). rewrite <- app_assoc.
  apply read_columns_back; [done|done|]. intros Hlt. replace (16 - length bs)%nat with (S (15 - length bs)) by lia.
  cbn [replicate concat]. eexists. by rewrite <- !app_assoc.
Qed.

(** ** Dumps *)

(** A packet of up to 64 KiB is dumped completely, in lines of 16 bytes, without leaving
    the buffer of a line, and the dump gives back its bytes. *)
Theorem hex_dump_roundtrip prefix buf : bytes_ok buf -> zlen buf <= 2 ^ 16 ->
  exists lines, print_hex_dump prefix buf (zlen buf) = Done lines /\ zlen lines = (zlen buf + 15) / 16 /\
    concat (map (undump prefix) lines) = buf.
Proof.
  intros Hb Hl. unfold print_hex_dump.
  assert (Hloop : forall fuel (k : nat) buf', drop (16 * k) buf = buf' -> (16 * k <= length buf + 15)%nat -> (length buf' <= fuel)%nat ->
    exists lines, dump_loop fuel prefix buf (zlen buf) (16 * Z.of_nat k) = Done lines /\ zlen lines = (zlen buf' + 15) / 16 /\
      concat (map (undump prefix) lines) = buf').
  { induction fuel as [|fuel IH]; intros k buf' Hd Hk Hf.
    all: assert (Hlen : length buf' = (length buf - 16 * k)%nat) by by rewrite <- Hd, length_drop.
    all: cbn [dump_loop]; destruct (16 * Z.of_nat k <? zlen buf) eqn:E; reflect_bools; unfold zlen in E.
    1: lia.
    1, 3: (exists []; split; [done|]; destruct buf'; [done|cbn [length] in *; lia]).
    set (n := Z.min 16 (zlen buf - 16 * Z.of_nat k)). assert (Hn : 0 < n <= 16) by (unfold n, zlen; lia).
    assert (Hr : read_mem buf (16 * Z.of_nat k) n = Done (take (Z.to_nat n) buf')).
    { apply read_mem_done. unfold zlen in *. split_and!; [lia..|]. rewrite <- Hd. do 2 f_equal. lia. }
    rewrite Hr. run. set (bs := take (Z.to_nat n) buf').
    assert (Hbs : (length bs <= 16)%nat) by (unfold bs; rewrite length_take; lia).
    pose proof (dump_line_fits bs Hbs) as Hline. rewrite Hline. run. unfold zlen in Hl. rewrite (proj2 (Z.leb_gt _ _)) by lia.
    replace (16 * Z.of_nat k + 16) with (16 * Z.of_nat (S k)) by lia.
    assert (Hd' : drop (16 * S k) buf = drop 16 buf') by (rewrite <- Hd, drop_drop; f_equal; lia).
    destruct (IH (S k) _ Hd') as (lines & -> & Hz & Hc); [lia|rewrite length_drop; lia|]. run.
    eexists. split; [done|]. split.
    - unfold zlen in *. cbn [length]. rewrite length_drop in Hz. rewrite Nat2Z.inj_succ, Hz.
      destruct (decide (length buf' <= 16)%nat).
      + replace (Z.of_nat (length buf' - 16) + 15) with 15 by lia. change (15 / 16) with 0.
        apply (Z.div_unique _ _ _ (Z.of_nat (length buf') - 1)); lia.
      + replace (Z.of_nat (length buf') + 15) with (Z.of_nat (length buf' - 16) + 15 + 1 * 16) by lia. rewrite Z.div_add by done. lia.
    - cbn [map concat]. rewrite Hc, (undump_line prefix _ bs); [|lia| |done|done].
      + unfold bs. destruct (decide (length buf' <= 16)%nat).
        * rewrite take_ge, drop_ge by (unfold n, zlen; lia). apply app_nil_r.
        * replace (Z.to_nat n) with 16%nat by (unfold n, zlen; lia). apply take_drop.
      + unfold bs. apply Forall_take. rewrite <- Hd. by apply Forall_drop. }
  destruct (Hloop (Z.to_nat (zlen buf)) 0%nat buf) as (lines & E & H); [done|lia|unfold zlen; lia|]. by exists lines.
Qed.
Lemma hex_dump_roundtrip_witness : exists lines, print_hex_dump (cstr "RX") (map Z.of_nat (seq 60 20)) 20 = Done lines /\ zlen lines = 2 /\
  concat (map (undump (cstr "RX")) lines) = map Z.of_nat (seq 60 20).
Proof. apply (hex_dump_roundtrip (cstr "RX") (map Z.of_nat (seq 60 20))); [|done]. apply (bool_decide_unpack _). by vm_compute. Defined.
Example demo_dump : print_hex_dump (cstr "RX") (map Z.of_nat (seq 60 20)) 20 =
  Done [cstr "RX 0000: 3c 3d 3e 3f 40 41 42 43 44 45 46 47 48 49 4a 4b <=>?@ABCDEFGHIJK" ++ [10];
        cstr "RX 0010: 4c 4d 4e 4f                                     LMNO" ++ [10]].
Proof. by vm_compute. Qed.

(** ** The log *)

Lemma qlog_level st priority msg : qlog st priority msg = None <-> min_priority st < priority.
Proof. unfold qlog. destruct (min_priority st <? priority) eqn:E; reflect_bools; [done|]. case_match; split; (done || lia). Qed.
(** The level stays one of the eight, so that emergencies are always logged. *)
Lemma qlog_min_range st p : LOG_EMERG <= min_priority st <= LOG_DEBUG -> LOG_EMERG <= min_priority (qlog_set_min_priority p st) <= LOG_DEBUG.
Proof. intros Hm. unfold qlog_set_min_priority. destruct (_ || _) eqn:E; [done|]. reflect_bools. cbn [min_priority]. lia. Qed.
