(* ===== verification/NsStart.v ===== *)
(** * The start and the loop of the name server (qrtr/src/ns.c, [main])

    Here the parts of the name server meet: the options, the address ([Cfg]), the log
    ([Diag]), the waiter ([Waiter]) whose callback is [ctrl_port_fn], and the state of
    [NameServer]. *)
From S2P Require Import Prelude CString Numbers Qrtr NameServer Cfg Diag Waiter.
#[local] Open Scope Z_scope.

(** ** The command line *)

(** What [getopt] finds. *)
Inductive ns_option := OptForeground | OptSyslog | OptVerbose | OptUsage.
Record ns_options := NsOptions { foreground : bool; use_syslog : bool; verbose_log : bool }.
Fixpoint parse_options (opts : list ns_option) (o : ns_options) : option ns_options :=
  match opts with
  | [] => Some o
  | OptForeground :: opts' => parse_options opts' (NsOptions true (use_syslog o) (verbose_log o))
  | OptSyslog :: opts' => parse_options opts' (NsOptions (foreground o) true (verbose_log o))
  | OptVerbose :: opts' => parse_options opts' (NsOptions (foreground o) (use_syslog o) true)
  | OptUsage :: _ => None
  end.
Definition start_log (progname : list Z) (o : ns_options) (st : qlog_state) : qlog_state :=
  let st := qlog_setup progname (use_syslog o) st in
  if verbose_log o then qlog_set_min_priority LOG_DEBUG st else st.
(** The address, from [argv[optind]]; the test for an empty text is one of [argv[1]]. *)
Definition ns_address (argv1 arg : list Z) : option Z :=
  let '(addr, _, ep) := strtoul 10 arg in
  if bool_decide (argv1 = []) || negb (bool_decide (ep = [])) || (UINT_MAX <=? addr) then None else Some (u32 addr).
(** The calls that set the address; [false] when the program has exited. *)
Definition take_address (sy : addr_sys) (argv1 : list Z) (rest : list (list Z)) : outcome (list addr_call * bool) :=
  match rest with
  | [] => Done ([], true)
  | arg :: more =>
      match ns_address argv1 arg with
      | None => Done ([], false)
      | Some addr =>
          '(t, ok) ← qrtr_set_address sy addr;
          Done (t, (ok : bool) && bool_decide (more = []))
      end
  end.

(** ** The start *)

Definition EADDRINUSE : Z := 98.
Record start_sys := StartSys {
  ss_addr : addr_sys;
  ss_socket : Z;
  ss_getsockname : Z * sockaddr_qrtr;
  ss_bind : Z * Z;
  ss_fork : Z }.
(** The program exits, sleeps for ever next to a name server that runs already, or goes
    on with its state. *)
Inductive ns_started := NsExit (status : Z) | NsDormant | NsRunning (s : ns_state).
Definition open_port (e : env) (sy : start_sys) (o : ns_options) : outcome ns_started :=
  let sock := ss_socket sy in
  if sock <? 0 then Done (NsExit 1)
  else
    let '(rc, sq) := ss_getsockname sy in
    if rc <? 0 then Done (NsExit 1)
    else
      let '(rc, errno) := ss_bind sy in
      if rc <? 0 then Done (if errno =? EADDRINUSE then NsDormant else NsExit 1)
      else
        '(rc, s) ← say_hello e (ns_init sock (sq_node sq));
        if negb (rc =? 0) then Done (NsExit 1)
        else if negb (foreground o) && negb (ss_fork sy =? 0) then Done (NsExit 0)
        else Done (NsRunning s).

(** ** The loop

    What happens to the socket: a datagram (or the failure of [recvfrom]) or an
    interrupted [poll], in order. *)
Record ns_world := NsWorld { nw_state : ns_state; nw_events : list (option received); nw_memory : bool }.
#[export] Instance ns_world_ops : WaiterOps ns_world := {
  wo_gettimeofday w := (w, (0, 0));
  wo_poll w fds ms :=
    match nw_events w with
    | Some _ :: _ => (w, 1, [true])
    | None :: evs => (NsWorld (nw_state w) evs (nw_memory w), -1, [])
    | [] => (w, -1, [])
    end;
  wo_calloc w := (w, nw_memory w) }.

(** The callback: the datagram is received and handled, the ticket cleared. *)
Definition port_callback (e : env) (data id : Z) (w : ns_world) (wt : waiter) : outcome (ns_world * waiter) :=
  match nw_events w with
  | Some r :: evs =>
      '(_, s) ← ctrl_port_fn e r (nw_state w);
      Done (NsWorld s evs (nw_memory w), update_ticket wt id (fun t => (waiter_ticket_clear t).2))
  | _ => OutOfFuel
  end.
(** [turns] of the loop, less when the socket was closed. *)
Fixpoint ns_loop (e : env) (turns : nat) (w : ns_world) (wt : waiter) : outcome (ns_world * waiter) :=
  if sock (nw_state w) <? 0 then Done (w, wt)
  else
    match turns with
    | O => Done (w, wt)
    | S turns' =>
        '(w, wt) ← waiter_wait (port_callback e) 1 w wt;
        ns_loop e turns' w wt
    end.

(** The program: what its end is, with the state when it serves.  [tkt] is not tested,
    so that without memory it is a null pointer. *)
Definition ns_program (e : env) (sy : start_sys) (argv1 : list Z) (opts : list ns_option) (rest : list (list Z))
    (memory : bool) (events : list (option received)) : outcome (list addr_call * ns_started) :=
  match parse_options opts (NsOptions false false false) with
  | None => Done ([], NsExit 1)
  | Some o =>
      '(t, ok) ← take_address (ss_addr sy) argv1 rest;
      if negb (ok : bool) then Done (t, NsExit 1)
      else
        let w := NsWorld (ns_init 0 0) events memory in
        match waiter_create w with
        | (_, None) => Done (t, NsExit 1)
        | (w, Some wt) =>
            r ← open_port e sy o;
            match r with
            | NsRunning s =>
                let '(w, wt, tkt) := waiter_add_fd (NsWorld s events memory) wt (sock s) in
                tkt ← of_option NullPointer tkt;
                let wt := update_ticket wt tkt (fun t => waiter_ticket_callback t 0) in
                '(w, _) ← ns_loop e (length events) w wt;
                Done (t, NsRunning (nw_state w))
            | r => Done (t, r)
            end
        end
  end.
