(* ===== verification/NsStartProps.v ===== *)
(** * The name server program serves *)
From Stdlib Require Import String.
From S2P Require Import Prelude CString Numbers Qrtr NameServer NsFacts NsProps Cfg Diag Waiter NsStart.
#[local] Open Scope Z_scope.

(** ** A turn of the loop *)

(** The waiter of the name server: one ticket, for its socket. *)
Definition port_waiter (fd : Z) (wt : waiter) : Prop :=
  exists ps, wt = Waiter [(1, Ticket (WATCH_TYPE_FD fd) (Some 0) 0 false)] (Some ps) 1 2 /\ 1 <= ps_size ps.

Lemma add_first size cause fd : 1 <= size -> pollset_add_fd (Pollset size [] cause) fd = Done (Pollset size [fd] cause).
Proof. intros Hs. unfold pollset_add_fd. cbn [ps_size ps_fds]. rewrite (proj2 (Z.leb_gt _ _)); [done|]. unfold zlen. cbn [length]. lia. Qed.
Lemma wait_interrupted e fd w wt : port_waiter fd wt -> (forall r evs, nw_events w <> Some r :: evs) ->
  exists wt', waiter_wait (port_callback e) 1 w wt = Done (NsWorld (nw_state w) (tail (nw_events w)) (nw_memory w), wt') /\ port_waiter fd wt'.
Proof.
  intros (ps & -> & Hps) Hev. destruct ps as [size fds cause]. cbn [ps_size] in Hps.
  unfold waiter_wait. cbn [w_pollset w_tickets of_option]. run. unfold pollset_reset. cbn [collect tk_kind ps_size ps_fds ps_cause].
  rewrite add_first by done. run. change (max_u64 =? max_u64) with true. cbv iota.
  unfold pollset_wait. cbn [wo_poll ns_world_ops ps_fds]. destruct w as [s [|[r|] evs] mem]; cbn [nw_events nw_state nw_memory tail] in *.
  - eexists. split; [done|]. eexists. by split.
  - by destruct (Hev r evs).
  - eexists. split; [done|]. eexists. by split.
Qed.
Lemma wait_datagram e fd s r evs mem wt s' : port_waiter fd wt -> ctrl_port_fn e r s = Done (tt, s') ->
  exists wt', waiter_wait (port_callback e) 1 (NsWorld s (Some r :: evs) mem) wt = Done (NsWorld s' evs mem, wt') /\ port_waiter fd wt'.
Proof.
  intros (ps & -> & Hps) Hport. destruct ps as [size fds cause]. cbn [ps_size] in Hps.
  unfold waiter_wait. cbn [w_pollset w_tickets of_option]. run. unfold pollset_reset. cbn [collect tk_kind ps_size ps_fds ps_cause].
  rewrite add_first by done. run. change (max_u64 =? max_u64) with true. cbv iota.
  unfold pollset_wait. cbn [wo_poll ns_world_ops ps_fds nw_events Z.leb Z.ltb Z.compare first_event time_ms wo_gettimeofday u64 Z.modulo set_pollset w_tickets w_count w_next notify notify_loop].
  unfold get_ticket, check_ticket, pollset_cause_fd. cbn [ps_cause ps_fds app].
  change (Z.to_nat 0) with 0%nat. change ([fd] !! 0%nat) with (Some fd).
  cbv beta iota zeta delta [set_pollset set_ticket tickets_put tickets_after tickets_get find fst snd map option_map of_option mbind outcome_bind
    w_tickets w_pollset w_count w_next tk_kind tk_callback tk_start tk_updated Z.eqb Pos.eqb Z.leb Z.compare andb negb ps_size ps_fds].
  rewrite bool_decide_true by done. unfold port_callback. cbn [nw_events nw_state nw_memory]. rewrite Hport. run.
  eexists. split; [done|]. eexists. by split.
Qed.

(** ** The loop *)

(** The datagrams among the events. *)
Definition datagrams (events : list (option received)) : list received := omap (fun ev => ev) events.

Lemma ns_loop_serves e fd mem : calloc_limit e -> forall events s wt, ns_ok s -> Forall received_ok (datagrams events) -> port_waiter fd wt ->
  exists s' evs wt', ns_loop e (length events) (NsWorld s events mem) wt = Done (NsWorld s' evs mem, wt') /\
    serve e (datagrams events) s = Done (tt, s') /\ ns_ok s'.
Proof.
  intros Hlim. induction events as [|ev events IH]; intros s wt Hok Hev Hwt.
  - exists s, [], wt. cbn [length ns_loop nw_state datagrams omap list_omap serve]. unfold mbind, act_bind, get. by destruct (sock s <? 0).
  - cbn [length ns_loop nw_state]. destruct (sock s <? 0) eqn:Es.
    { exists s, (ev :: events), wt. split; [done|]. split; [|done].
      destruct (datagrams (ev :: events)); cbn [serve]; unfold mbind, act_bind, get; by rewrite Es. }
    destruct ev as [r|].
    + change (datagrams (Some r :: events)) with (r :: datagrams events) in *. apply Forall_cons in Hev as [Hr Hev].
      destruct (ctrl_port_fn_spec e Hlim r s Hok Hr) as ([] & s1 & E & Hok1 & _).
      destruct (wait_datagram e fd s r events mem wt s1 Hwt E) as (wt1 & -> & Hwt1). run.
      destruct (IH s1 wt1 Hok1 Hev Hwt1) as (s' & evs & wt' & -> & Hs & Hok'). exists s', evs, wt'. split; [done|]. split; [|done].
      cbn [serve]. unfold mbind, act_bind, get. rewrite Es, E. exact Hs.
    + destruct (wait_interrupted e fd (NsWorld s (None :: events) mem) wt Hwt ltac:(done)) as (wt1 & -> & Hwt1). run. cbn [nw_state nw_events nw_memory tail].
      destruct (IH s wt1 Hok Hev Hwt1) as (s' & evs & wt' & -> & Hs & Hok'). by exists s', evs, wt'.
Qed.

(** ** The program *)

(** The socket can be opened and bound. *)
Definition port_opens (sy : start_sys) (o : ns_options) (fd : Z) (sq : sockaddr_qrtr) : Prop :=
  ss_socket sy = fd /\ 0 <= fd /\ ss_getsockname sy = (0, sq) /\ 0 <= (ss_bind sy).1 /\ (foreground o = true \/ ss_fork sy = 0).

(** C19: started with acceptable arguments on a system where the port is free, the program
    sets the address, says hello and then handles the datagrams that the waiter reports,
    one by one, as [ns_main] does, whatever else wakes the waiter; when the greeting
    cannot be sent it exits. *)
Theorem ns_program_serves e sy argv1 opts o rest t fd sq events :
  calloc_limit e -> Forall received_ok (datagrams events) ->
  parse_options opts (NsOptions false false false) = Some o -> take_address (ss_addr sy) argv1 rest = Done (t, true) ->
  port_opens sy o fd sq ->
  exists greeted s, ns_main e fd (sq_node sq) (datagrams events) = Done (greeted, s) /\ ns_ok s /\
    ns_program e sy argv1 opts rest true events = Done (t, if greeted : bool then NsRunning s else NsExit 1).
Proof.
  intros Hlim Hev Ho Ht (Hs & Hfd & Hname & Hbind & Hfork). unfold ns_program. rewrite Ho, Ht. run. cbn [negb].
  change (waiter_create (NsWorld (ns_init 0 0) events true)) with (NsWorld (ns_init 0 0) events true, Some (Waiter [] None 0 1)). cbv beta iota.
  unfold open_port. rewrite Hs, (proj2 (Z.ltb_ge fd 0)), Hname by done. cbn [Z.ltb Z.compare].
  destruct (ss_bind sy) as [rc errno]. cbn [fst] in Hbind. rewrite (proj2 (Z.ltb_ge rc 0)) by done. unfold ns_main.
  assert (Hhello : runs (say_hello e) (ns_init fd (sq_node sq)) (fun _ s => ns_ok s)).
  { unfold say_hello. acts. apply with_sent_ok, ns_init_ok. }
  destruct Hhello as (rch & s & E & Hok). rewrite E. run. destruct (rch =? 0) eqn:Er; cbn [negb]; [|by exists false, s].
  assert (negb (foreground o) && negb (ss_fork sy =? 0) = false) as ->.
  { destruct Hfork as [->|E0]; [done|rewrite E0; apply andb_false_r]. }
  set (wt := Waiter [(1, Ticket (WATCH_TYPE_FD (sock s)) (Some 0) 0 false)] (Some (pollset_create 33)) 1 2).
  destruct (ns_loop_serves e (sock s) true Hlim events s wt Hok Hev) as (s' & evs & wt' & El & Es & Hok').
  { exists (pollset_create 33). by split. }
  exists true, s'. rewrite Es. run. split; [done|]. split; [done|].
  change (waiter_add_fd (NsWorld s events true) (Waiter [] None 0 1) (sock s)) with
    (NsWorld s events true, Waiter [(1, Ticket (WATCH_TYPE_FD (sock s)) None 0 false)] (Some (pollset_create 33)) 1 2, Some 1). cbv beta iota. run.
  change (update_ticket _ 1 _) with wt. by rewrite El.
Qed.

(** ** A start *)

Definition demo_start : start_sys :=
  StartSys (AddrSys 3 (0, SockaddrQrtr AF_QIPCRTR 1 99, 12) 4 32 (Some (replicate 36 0))) 3 (0, SockaddrQrtr AF_QIPCRTR 1 99) (0, 0) 0.
Definition demo_events : list (option received) := [Some (demo_new 5 10); None; Some (demo_del 5 10)].
Lemma ns_program_serves_witness : exists greeted s,
  ns_main demo_env 3 1 [demo_new 5 10; demo_del 5 10] = Done (greeted, s) /\ ns_ok s /\
  ns_program demo_env demo_start (cstr "-f") [OptForeground; OptVerbose] [cstr "1"] true demo_events =
    Done ([ASocketQrtr; AGetsockname 3; AClose 3], if greeted : bool then NsRunning s else NsExit 1).
Proof.
  apply (ns_program_serves demo_env demo_start (cstr "-f") [OptForeground; OptVerbose] (NsOptions true false true) [cstr "1"]
    [ASocketQrtr; AGetsockname 3; AClose 3] 3 (SockaddrQrtr AF_QIPCRTR 1 99) demo_events); [apply demo_limit| |done|by vm_compute|].
  - change (datagrams demo_events) with [demo_new 5 10; demo_del 5 10]. repeat (apply Forall_cons_2; [by apply demo_recv_ok|]). apply Forall_nil_2.
  - split_and!; try done. by left.
Defined.
(** An empty address behind an option is taken for 0: the test looks at the option. *)
Example empty_address : (ns_address (cstr "-f") [], ns_address [] []) = (Some 0, None).
Proof. done. Qed.
