(* ===== verification/Ring.v ===== *)
(** * Rings of list heads (tqftpserv/list.h)

    The lists of clients of the TFTP server are circular: the head of the list is a cell
    like those of its elements.  Cells live in a heap from addresses to cells; freeing a
    client takes its cell out of the heap.  [Tftp] keeps the lists as sequences; the
    theorems show that the operations and loops of this header are those on sequences. *)
From S2P Require Import Prelude.
#[local] Open Scope Z_scope.

Record list_head := ListHead { lh_prev : Z; lh_next : Z }.
Abbreviation ring_heap := (gmap Z list_head).

Definition cell (h : ring_heap) (p : Z) : outcome list_head := of_option OutOfBounds (h !! p).
Definition put_prev (h : ring_heap) (p v : Z) : outcome ring_heap := c ← cell h p; Done (<[p := ListHead v (lh_next c)]> h).
Definition put_next (h : ring_heap) (p v : Z) : outcome ring_heap := c ← cell h p; Done (<[p := ListHead (lh_prev c) v]> h).

Definition list_init (h : ring_heap) (head : Z) : outcome ring_heap := h ← put_next h head head; put_prev h head head.
Definition list_empty (h : ring_heap) (head : Z) : outcome bool := c ← cell h head; Done (lh_next c =? head).
Definition list_add (h : ring_heap) (head item : Z) : outcome ring_heap :=
  c ← cell h head;
  let prev := lh_prev c in
  h ← put_next h item head;
  h ← put_prev h item prev;
  h ← put_prev h head item;
  put_next h prev item.
Definition list_del (h : ring_heap) (item : Z) : outcome ring_heap :=
  c ← cell h item;
  h ← put_next h (lh_prev c) (lh_next c);
  c ← cell h item;
  put_prev h (lh_next c) (lh_prev c).

(** [list_for_each] and [list_for_each_entry]: the elements that are visited. *)
Fixpoint each_loop (fuel : nat) (h : ring_heap) (head item : Z) : outcome (list Z) :=
  if item =? head then Done []
  else
    match fuel with
    | O => OutOfFuel
    | S fuel' => c ← cell h item; rest ← each_loop fuel' h head (lh_next c); Done (item :: rest)
    end.
Definition list_for_each (fuel : nat) (h : ring_heap) (head : Z) : outcome (list Z) :=
  c ← cell h head; each_loop fuel h head (lh_next c).

(** [client_close_and_free], as far as the list goes. *)
Definition del_and_free (h : ring_heap) (item : Z) : outcome ring_heap := h ← list_del h item; Done (delete item h).
(** [list_for_each_entry_safe] with a body that closes some of the elements: the next one
    is known before the body runs.  The state [St] is what the body changes. *)
Section Safe.
Context {St : Type} (body : St -> Z -> outcome (St * bool)).
Fixpoint safe_loop (fuel : nat) (s : St) (h : ring_heap) (head item next : Z) : outcome (St * ring_heap) :=
  if item =? head then Done (s, h)
  else
    match fuel with
    | O => OutOfFuel
    | S fuel' =>
        '(s, close) ← body s item;
        h ← (if (close : bool) then del_and_free h item else Done h);
        c ← cell h next;
        safe_loop fuel' s h head next (lh_next c)
    end.
Definition list_for_each_safe (fuel : nat) (s : St) (h : ring_heap) (head : Z) : outcome (St * ring_heap) :=
  c ← cell h head;
  let item := lh_next c in
  c ← cell h item;
  safe_loop fuel s h head item (lh_next c).
End Safe.
