(* ===== verification/RingProps.v ===== *)
(** * Rings are sequences *)
From S2P Require Import Prelude Qrtr Translate Tftp TftpProps Ring.
#[local] Open Scope Z_scope.

Definition next_of (h : ring_heap) (p : Z) : option Z := lh_next <$> h !! p.
Definition prev_of (h : ring_heap) (p : Z) : option Z := lh_prev <$> h !! p.
Definition link (h : ring_heap) (a b : Z) : Prop := next_of h a = Some b /\ prev_of h b = Some a.
(** Every cell of the path is linked with the one behind it. *)
Fixpoint path (h : ring_heap) (l : list Z) : Prop :=
  match l with
  | a :: (b :: _) as l' => link h a b /\ path h l'
  | _ => True
  end.
(** The heap holds the ring with this head and these elements. *)
Record ring (h : ring_heap) (head : Z) (l : list Z) : Prop := {
  rg_path : path h (head :: l ++ [head]);
  rg_nodup : NoDup (head :: l) }.

(** ** Cells *)

Lemma put_next_done h p v : is_Some (h !! p) -> exists h', put_next h p v = Done h' /\
  (forall q, next_of h' q = if decide (q = p) then Some v else next_of h q) /\ (forall q, prev_of h' q = prev_of h q).
Proof.
  intros [c Hc]. exists (<[p := ListHead (lh_prev c) v]> h). unfold put_next, cell, next_of, prev_of. rewrite Hc. split; [done|].
  split; intros q; [case_decide as E|destruct (decide (q = p)) as [E|E]]; subst.
  - by rewrite lookup_insert_eq.
  - by rewrite lookup_insert_ne.
  - by rewrite lookup_insert_eq, Hc.
  - by rewrite lookup_insert_ne.
Qed.
Lemma put_prev_done h p v : is_Some (h !! p) -> exists h', put_prev h p v = Done h' /\
  (forall q, prev_of h' q = if decide (q = p) then Some v else prev_of h q) /\ (forall q, next_of h' q = next_of h q).
Proof.
  intros [c Hc]. exists (<[p := ListHead v (lh_next c)]> h). unfold put_prev, cell, next_of, prev_of. rewrite Hc. split; [done|].
  split; intros q; [case_decide as E|destruct (decide (q = p)) as [E|E]]; subst.
  - by rewrite lookup_insert_eq.
  - by rewrite lookup_insert_ne.
  - by rewrite lookup_insert_eq, Hc.
  - by rewrite lookup_insert_ne.
Qed.
Lemma next_cell h p q : next_of h p = Some q -> exists c, cell h p = Done c /\ lh_next c = q.
Proof.
  unfold next_of, cell. destruct (h !! p) as [c|]; [|done]. intros [= <-]. by exists c.
Qed.
Lemma prev_cell h p q : prev_of h p = Some q -> exists c, cell h p = Done c /\ lh_prev c = q.
Proof. unfold prev_of, cell. destruct (h !! p) as [c|]; [|done]. intros [= <-]. by exists c. Qed.
Lemma next_is_some h p q : next_of h p = Some q -> is_Some (h !! p).
Proof. unfold next_of. destruct (h !! p); [by eexists|done]. Qed.
Lemma prev_is_some h p q : prev_of h p = Some q -> is_Some (h !! p).
Proof. unfold prev_of. destruct (h !! p); [by eexists|done]. Qed.

(** ** Paths *)

Lemma path_app h l x l' : path h (l ++ x :: l') <-> path h (l ++ [x]) /\ path h (x :: l').
Proof.
  induction l as [|a [|b l] IH]; [by cbn; tauto|cbn; by destruct l'; tauto|].
  change (link h a b /\ path h ((b :: l) ++ x :: l') <-> (link h a b /\ path h ((b :: l) ++ [x])) /\ path h (x :: l')).
  rewrite IH. tauto.
Qed.
Lemma path_frame h h' l : path h l -> (forall q, q ∈ removelast l -> next_of h' q = next_of h q) ->
  (forall q, q ∈ tail l -> prev_of h' q = prev_of h q) -> path h' l.
Proof.
  induction l as [|a [|b l] IH]; [done|done|]. intros [[Hn Hp] Hl] Fn Fp. split.
  - split; [by rewrite Fn by left|by rewrite Fp by left].
  - apply IH; [done|intros q Hq; apply Fn; by right|intros q Hq; apply Fp; by right].
Qed.
Lemma path_prev h l x : path h l -> x ∈ tail l -> is_Some (prev_of h x).
Proof.
  induction l as [|a [|b l] IH]; [by intros _ ?%not_elem_of_nil|by intros _ ?%not_elem_of_nil|]. intros [[_ Hp] Hl] Hx. cbn [tail] in Hx.
  apply elem_of_cons in Hx as [->|Hx]; [by eexists|by apply IH].
Qed.

(** ** Operations *)

(** Cells that are left as they are. *)
Definition untouched (h h' : ring_heap) (except : list Z) : Prop :=
  forall q, q ∉ except -> next_of h' q = next_of h q /\ prev_of h' q = prev_of h q.
Lemma ring_untouched h h' except head l : ring h head l -> untouched h h' except -> (forall q, q ∈ (head :: l) -> q ∉ except) -> ring h' head l.
Proof.
  intros [Hp Hn] Hu Hd. split; [|done]. eapply path_frame; [exact Hp|..]; intros q Hq; apply Hu, Hd.
  - change (head :: l ++ [head]) with ((head :: l) ++ [head]) in Hq. by rewrite removelast_last in Hq.
  - cbn [tail] in Hq. apply elem_of_app in Hq as [Hq|Hq%list_elem_of_singleton]; [by right|subst; by left].
Qed.
(** The last cell before the head. *)
Lemma ring_last h head l : ring h head l -> exists u p, (head :: l) = u ++ [p] /\ (p ∉ u) /\ path h (u ++ [p]) /\ link h p head.
Proof.
  intros [Hp Hn]. destruct (exists_last (l := head :: l)) as (u & p & E); [done|]. exists u, p. split; [done|].
  change (head :: l ++ [head]) with ((head :: l) ++ [head]) in Hp. rewrite E in Hp, Hn. rewrite <- app_assoc in Hp.
  apply path_app in Hp as [Hu [Hl _]]. split; [|done]. apply NoDup_app in Hn as (_ & Hn & _). intros Hin. by apply (Hn p Hin), list_elem_of_singleton.
Qed.

Lemma list_init_ring h head : is_Some (h !! head) -> exists h', list_init h head = Done h' /\ ring h' head [] /\ untouched h h' [head].
Proof.
  intros Hc. unfold list_init. destruct (put_next_done h head head Hc) as (h1 & -> & N1 & P1). run.
  assert (Hc1 : is_Some (h1 !! head)) by (apply (next_is_some h1 head head); by rewrite N1, decide_True).
  destruct (put_prev_done h1 head head Hc1) as (h2 & -> & P2 & N2). exists h2. split; [done|]. split.
  - split; [split; [|done]|by apply NoDup_singleton]. split; [by rewrite N2, N1, decide_True|by rewrite P2, decide_True].
  - intros q Hq. apply not_elem_of_cons in Hq as [Hq _]. by rewrite N2, N1, P2, P1, !decide_False.
Qed.
Lemma list_empty_ring h head l : ring h head l -> list_empty h head = Done (bool_decide (l = [])).
Proof.
  intros [Hp Hn]. unfold list_empty. destruct l as [|x l]; destruct Hp as [[Hnext _] _];
    apply next_cell in Hnext as (c & -> & Ec); run; rewrite Ec; f_equal; [by rewrite Z.eqb_refl|].
  apply NoDup_cons in Hn as [Hn _]. rewrite bool_decide_false by done. apply Z.eqb_neq. intros ->. apply Hn. by left.
Qed.
(** A fresh cell is put at the end. *)
Lemma list_add_ring h head l item : ring h head l -> is_Some (h !! item) -> item ∉ head :: l ->
  exists h', list_add h head item = Done h' /\ ring h' head (l ++ [item]) /\ untouched h h' (item :: head :: l).
Proof.
  intros Hr Hi Hnew. destruct (ring_last h head l Hr) as (u & p & E & Hpu & Hu & Hlast & Hhead).
  assert (Hhp : head ∈ u ++ [p]) by (rewrite <- E; by left). assert (Hpp : p ∈ head :: l) by (rewrite E; apply elem_of_app; right; by left).
  assert (Hne : item <> p) by (intros ->; done). assert (Hnh : item <> head) by (intros ->; apply Hnew; by left).
  unfold list_add. destruct (prev_cell _ _ _ Hhead) as (c & -> & Ec). run. rewrite Ec.
  destruct (put_next_done h item head Hi) as (h1 & -> & N1 & P1). run.
  destruct (put_prev_done h1 item p) as (h2 & -> & P2 & N2); [apply (next_is_some _ _ head); by rewrite N1, decide_True|]. run.
  destruct (put_prev_done h2 head item) as (h3 & -> & P3 & N3); [apply (prev_is_some _ _ p); by rewrite P2, decide_False, P1|]. run.
  destruct (put_next_done h3 p item) as (h4 & -> & N4 & P4); [apply (next_is_some _ _ head); by rewrite N3, N2, N1, decide_False|].
  exists h4. split; [done|].
  assert (Hnext : forall q, next_of h4 q = if decide (q = p) then Some item else if decide (q = item) then Some head else next_of h q)
    by (intros q; by rewrite N4, N3, N2, N1).
  assert (Hprev : forall q, prev_of h4 q = if decide (q = head) then Some item else if decide (q = item) then Some p else prev_of h q)
    by (intros q; by rewrite P4, P3, P2, P1).
  split; [split|].
  - change (head :: (l ++ [item]) ++ [head]) with (((head :: l) ++ [item]) ++ [head]). rewrite E, <- !app_assoc.
    apply path_app. split; [|split; [|split; [|done]]].
    + eapply path_frame; [exact Hu|..]; intros q Hq.
      * rewrite removelast_last in Hq. rewrite Hnext, !decide_False; [done| |by intros ->].
        intros ->. apply Hnew. rewrite E. apply elem_of_app. by left.
      * rewrite <- E in Hq. cbn [tail] in Hq. pose proof (rg_nodup _ _ _ Hr) as [Hh _]%NoDup_cons.
        rewrite Hprev, !decide_False; [done|intros ->; apply Hnew; by right|by intros ->].
    + split; [by rewrite Hnext, decide_True|]. by rewrite Hprev, decide_False, decide_True.
    + split; [by rewrite Hnext, decide_False, decide_True|by rewrite Hprev, decide_True].
  - change (NoDup ((head :: l) ++ [item])). apply NoDup_app. split; [apply Hr|]. split; [|apply NoDup_singleton].
    intros q Hq ->%list_elem_of_singleton. done.
  - intros q Hq. apply not_elem_of_cons in Hq as [Hq1 Hq2]. rewrite Hnext, Hprev, !decide_False; try done; intros ->; apply Hq2; [by left|done].
Qed.
Lemma path_around h head l1 x l2 : path h (head :: (l1 ++ x :: l2) ++ [head]) ->
  exists u p n v, head :: l1 = u ++ [p] /\ l2 ++ [head] = n :: v /\
    path h (u ++ [p]) /\ link h p x /\ link h x n /\ path h (n :: v).
Proof.
  intros Hp. destruct (exists_last (l := head :: l1)) as (u & p & E1); [done|].
  destruct (l2 ++ [head]) as [|n v] eqn:E2; [by destruct l2|]. exists u, p, n, v. split; [done|]. split; [done|].
  change (head :: (l1 ++ x :: l2) ++ [head]) with ((head :: (l1 ++ x :: l2)) ++ [head]) in Hp.
  rewrite app_comm_cons, <- app_assoc in Hp. cbn [app] in Hp. rewrite E2 in Hp. change (head :: l1 ++ x :: n :: v) with ((head :: l1) ++ x :: n :: v) in Hp.
  rewrite E1, <- app_assoc in Hp. apply path_app in Hp as [Hu [Hpx [Hxn Hv]]]. done.
Qed.
Lemma nodup_ring_middle (head x : Z) l1 l2 : NoDup (head :: l1 ++ x :: l2) -> NoDup (x :: (head :: l1) ++ l2).
Proof. intros Hn. by rewrite (Permutation_middle (head :: l1)). Qed.
(** An element is taken out of its place; its own cell stays as it is. *)
Lemma list_del_ring h head l1 x l2 : ring h head (l1 ++ x :: l2) ->
  exists h', list_del h x = Done h' /\ ring h' head (l1 ++ l2) /\ untouched h h' (head :: l1 ++ l2).
Proof.
  intros [Hp Hn]. destruct (path_around h head l1 x l2 Hp) as (u & p & n & v & E1 & E2 & Hu & [Hpx Hxp] & [Hxn Hnx] & Hv).
  apply nodup_ring_middle, NoDup_cons in Hn as [Hx Hn']. rewrite E1 in Hx, Hn'.
  assert (Hhp : p ∈ head :: l1) by (rewrite E1; apply elem_of_app; right; by left).
  assert (Hnl : n ∈ l2 ++ [head]) by (rewrite E2; by left).
  assert (Hin : forall q, q ∈ l2 ++ [head] -> q <> x).
  { intros q Hq ->. apply Hx. rewrite <- E1. apply elem_of_app in Hq as [Hq|Hq%list_elem_of_singleton];
      [apply elem_of_app; by right|subst; by left]. }
  assert (Hpx' : p <> x) by (intros ->; apply Hx, elem_of_app; left; apply elem_of_app; right; by left).
  assert (Hnx' : n <> x) by by apply Hin.
  unfold list_del. destruct (next_cell _ _ _ Hxn) as (c & Ec & En). assert (Ep : lh_prev c = p).
  { unfold prev_of in Hxp. unfold cell in Ec. destruct (h !! x); cbn in *; [|done]. injection Ec as ->. by injection Hxp. }
  rewrite Ec. run. rewrite Ep, En.
  destruct (put_next_done h p n (next_is_some _ _ _ Hpx)) as (h1 & -> & N1 & P1). run.
  assert (Hx1 : next_of h1 x = Some n) by by rewrite N1, decide_False.
  destruct (next_cell _ _ _ Hx1) as (c1 & Ec1 & En1). assert (Ep1 : lh_prev c1 = p).
  { specialize (P1 x). rewrite Hxp in P1. unfold prev_of in P1. unfold cell in Ec1. destruct (h1 !! x); cbn in *; [|done]. injection Ec1 as ->. by injection P1. }
  rewrite Ec1. run. rewrite Ep1, En1.
  destruct (put_prev_done h1 n p) as (h2 & -> & P2 & N2); [apply (prev_is_some _ _ x); by rewrite P1|]. exists h2. split; [done|].
  assert (Hnext : forall q, next_of h2 q = if decide (q = p) then Some n else next_of h q) by (intros q; by rewrite N2, N1).
  assert (Hprev : forall q, prev_of h2 q = if decide (q = n) then Some p else prev_of h q) by (intros q; by rewrite P2, P1).
  assert ((p ∉ u) /\ (p ∉ l2)) as [Hpu Hpl].
  { apply NoDup_app in Hn' as (Hn1 & Hd & _). split; [|apply Hd, elem_of_app; right; by left].
    apply NoDup_app in Hn1 as (_ & Hd1 & _). intros Hq. apply (Hd1 p Hq). by left. }
  assert (Hnl1 : n ∉ l1).
  { rewrite <- E1 in Hn'. apply NoDup_app in Hn' as (Hn1 & Hd & _). apply NoDup_cons in Hn1 as [Hh _].
    intros Hq. apply elem_of_app in Hnl as [Hnl|Hnl%list_elem_of_singleton]; [apply (Hd n); [by right|done]|by subst]. }
  assert (Hnv : n ∉ v).
  { assert (NoDup (n :: v)) as [? _]%NoDup_cons; [|done]. rewrite <- E2. rewrite <- E1 in Hn'.
    apply NoDup_app in Hn' as (_ & Hd & Hn2). apply NoDup_app. split; [done|]. split; [|apply NoDup_singleton].
    intros q Hq ->%list_elem_of_singleton. apply (Hd head); [by left|done]. }
  split; [split|].
  - change (head :: (l1 ++ l2) ++ [head]) with ((head :: (l1 ++ l2)) ++ [head]). rewrite app_comm_cons, <- app_assoc, E1, E2, <- app_assoc.
    apply path_app. split; [|split].
    + eapply path_frame; [exact Hu|..]; intros q Hq.
      * rewrite removelast_last in Hq. rewrite Hnext, decide_False; [done|]. by intros ->.
      * rewrite <- E1 in Hq. cbn [tail] in Hq. rewrite Hprev, decide_False; [done|by intros ->].
    + split; [by rewrite Hnext, decide_True|by rewrite Hprev, decide_True].
    + eapply path_frame; [exact Hv|..]; intros q Hq.
      * rewrite <- E2, removelast_last in Hq. rewrite Hnext, decide_False; [done|]. by intros ->.
      * cbn [tail] in Hq. rewrite Hprev, decide_False; [done|by intros ->].
  - change (NoDup ((head :: l1) ++ l2)). by rewrite E1.
  - intros q Hq. rewrite Hnext, Hprev, !decide_False; [done|..]; intros ->; apply Hq.
    + apply elem_of_app in Hnl as [Hnl|Hnl%list_elem_of_singleton]; [right; apply elem_of_app; by right|subst; by left].
    + change (p ∈ (head :: l1) ++ l2). apply elem_of_app. by left.
Qed.
Lemma del_and_free_ring h head l1 x l2 : ring h head (l1 ++ x :: l2) ->
  exists h', del_and_free h x = Done h' /\ ring h' head (l1 ++ l2) /\ untouched h h' (x :: head :: l1 ++ l2).
Proof.
  intros Hr. destruct (list_del_ring h head l1 x l2 Hr) as (h1 & E & Hr1 & Hu). unfold del_and_free. rewrite E. run.
  exists (delete x h1). split; [done|].
  assert (Hd : untouched h1 (delete x h1) [x]).
  { intros q Hq. unfold next_of, prev_of. rewrite lookup_delete_ne; [done|]. intros ->. apply Hq. by left. }
  split.
  - apply (ring_untouched _ _ _ _ _ Hr1 Hd). intros q Hq ->%list_elem_of_singleton.
    by pose proof (rg_nodup _ _ _ Hr) as [Hx _]%nodup_ring_middle%NoDup_cons.
  - intros q [Hq1 Hq2]%not_elem_of_cons. destruct (Hu q Hq2) as [-> ->] || (destruct (Hd q) as [-> ->]; [by intros ->%list_elem_of_singleton|by apply Hu]).
Qed.

(** ** Loops *)

Lemma ring_next h head l1 x l2 : ring h head (l1 ++ x :: l2) -> next_of h x = Some (List.hd head l2).
Proof.
  intros [Hp _]. destruct (path_around h head l1 x l2 Hp) as (u & p & n & v & _ & E2 & _ & _ & [-> _] & _).
  destruct l2; cbn in E2; by injection E2 as ->.
Qed.
Lemma ring_first h head l : ring h head l -> next_of h head = Some (List.hd head l).
Proof. intros [Hp _]. by destruct l; destruct Hp as [[-> _] _]. Qed.
(** The cell behind [next] in the walk is there. *)
Lemma ring_step h head l1 l2 : ring h head (l1 ++ l2) -> exists c, cell h (List.hd head l2) = Done c /\
  (l2 <> [] -> lh_next c = List.hd head (tail l2)).
Proof.
  intros Hr. destruct l2 as [|y l2].
  - destruct (next_cell _ _ _ (ring_first _ _ _ Hr)) as (c & E & _). by exists c.
  - destruct (next_cell _ _ _ (ring_next _ _ _ _ _ Hr)) as (c & E & En). by exists c.
Qed.

Lemma each_loop_ring h head l2 : forall l1 fuel, ring h head (l1 ++ l2) -> (length l2 <= fuel)%nat ->
  each_loop fuel h head (List.hd head l2) = Done l2.
Proof.
  induction l2 as [|x l2 IH]; intros l1 fuel Hr Hf; [destruct fuel; cbn; by rewrite Z.eqb_refl|].
  cbn [length] in Hf. destruct fuel as [|fuel]; [lia|]. cbn [each_loop List.hd].
  destruct (Z.eqb_spec x head) as [->|_].
  { pose proof (rg_nodup _ _ _ Hr) as [Hh _]%NoDup_cons. destruct Hh. apply elem_of_app. right. by left. }
  destruct (next_cell _ _ _ (ring_next _ _ _ _ _ Hr)) as (c & -> & En). run. rewrite En.
  rewrite (IH (l1 ++ [x])) by (by rewrite <- ?app_assoc || lia). by run.
Qed.
(** The loop visits the elements in the order they were added. *)
Lemma list_for_each_ring h head l fuel : ring h head l -> (length l <= fuel)%nat -> list_for_each fuel h head = Done l.
Proof.
  intros Hr Hf. unfold list_for_each. destruct (next_cell _ _ _ (ring_first _ _ _ Hr)) as (c & -> & En). run. rewrite En.
  by apply (each_loop_ring h head l []).
Qed.

Section Safe.
Context {St : Type} (body : St -> Z -> outcome (St * bool)).

(** The loop on a sequence: the elements that stay. *)
Fixpoint safe_seq (s : St) (l : list Z) : outcome (St * list Z) :=
  match l with
  | [] => Done (s, [])
  | x :: l' =>
      '(s, close) ← body s x;
      '(s, kept) ← safe_seq s l';
      Done (s, if (close : bool) then kept else x :: kept)
  end.
Lemma safe_loop_ring todo : forall fuel kept s h head s' rest, ring h head (kept ++ todo) -> (length todo <= fuel)%nat ->
  safe_seq s todo = Done (s', rest) ->
  forall next, (todo <> [] -> next = List.hd head (tail todo)) ->
  exists h', safe_loop body fuel s h head (List.hd head todo) next = Done (s', h') /\ ring h' head (kept ++ rest).
Proof.
  induction todo as [|x todo IH]; intros fuel kept s h head s' rest Hr Hf Hseq next Hnext.
  - injection Hseq as <- <-. exists h. split; [|done]. destruct fuel; cbn; by rewrite Z.eqb_refl.
  - cbn [length] in Hf. destruct fuel as [|fuel]; [lia|]. cbn [safe_loop List.hd]. rewrite (Hnext ltac:(done)). cbn [tail].
    destruct (Z.eqb_spec x head) as [->|_].
    { pose proof (rg_nodup _ _ _ Hr) as [Hh _]%NoDup_cons. destruct Hh. apply elem_of_app. right. by left. }
    cbn [safe_seq] in Hseq. apply bind_done in Hseq as ([s1 close] & Eb & Hseq). apply bind_done in Hseq as ([s2 kept2] & Es & [= <- <-]).
    rewrite Eb. run.
    assert (Hdel : exists h1, (if close then del_and_free h x else Done h) = Done h1 /\ ring h1 head ((if close then kept else kept ++ [x]) ++ todo)).
    { destruct close; [|exists h; split; [done|by rewrite <- app_assoc]].
      destruct (del_and_free_ring h head kept x todo Hr) as (h1 & E & Hr1 & _). by exists h1. }
    destruct Hdel as (h1 & -> & Hr1). run. destruct (ring_step _ _ _ _ Hr1) as (c & -> & Ec). run.
    destruct (IH fuel _ s1 h1 head s2 kept2 Hr1 ltac:(lia) Es (lh_next c) Ec) as (h' & -> & Hr').
    exists h'. split; [done|]. destruct close; [done|]. by rewrite <- app_assoc in Hr'.
Qed.
Lemma list_for_each_safe_ring h head l fuel s s' rest : ring h head l -> (length l <= fuel)%nat -> safe_seq s l = Done (s', rest) ->
  exists h', list_for_each_safe body fuel s h head = Done (s', h') /\ ring h' head rest.
Proof.
  intros Hr Hf Hs. unfold list_for_each_safe. destruct (next_cell _ _ _ (ring_first _ _ _ Hr)) as (c & -> & En). run. rewrite En.
  destruct (ring_step h head [] l Hr) as (c1 & -> & Ec1). run. by apply (safe_loop_ring l fuel []).
Qed.
End Safe.

(** ** The clients of the TFTP server *)

Section Clients.
Context {W : Type} `{TftpOps W}.
(** The client whose list head is at an address. *)
Context (client_of : Z -> tftp_client).
Context (handle : W -> tftp_client -> received -> outcome (W * bool)) (ready : Z -> option received).

(** The body of the loops over the clients: one whose socket is ready is handled, and
    closed when it is through. *)
Definition client_body (w : W) (item : Z) : outcome (W * bool) :=
  let c := client_of item in
  match ready (c_sock c) with
  | None => Done (w, false)
  | Some r => '(w, stays) ← handle w c r; Done (if (stays : bool) then (w, false) else (client_close w c, true))
  end.
Lemma clients_pass_seq l : forall w,
  clients_pass handle ready w (map client_of l) = ('(w, kept) ← safe_seq client_body w l; Done (w, map client_of kept)).
Proof.
  induction l as [|x l IH]; intros w; [done|]. cbn [map clients_pass safe_seq].
  assert (client_body w x = match ready (c_sock (client_of x)) with
    | None => Done (w, false)
    | Some r => '(w, stays) ← handle w (client_of x) r; Done (if (stays : bool) then (w, false) else (client_close w (client_of x), true))
    end) as -> by done.
  destruct (ready (c_sock (client_of x))) as [r|].
  - destruct (handle w (client_of x) r) as [[w1 []]| |]; run; try done; rewrite IH; by destruct (safe_seq _ _ l) as [[??]| |].
  - run. rewrite IH. by destruct (safe_seq _ _ l) as [[??]| |].
Qed.

(** C28: the pass over the clients is the loop over the ring of their list heads: it ends, in
    the same state, and the ring holds the clients that are left, in the same order,
    although the cells of the others were freed on the way. *)
Theorem ring_clients_pass fuel w w' h head l cs : ring h head l -> (length l <= fuel)%nat ->
  clients_pass handle ready w (map client_of l) = Done (w', cs) ->
  exists h' kept, list_for_each_safe client_body fuel w h head = Done (w', h') /\ ring h' head kept /\
    cs = map client_of kept /\ list_for_each fuel h' head = Done kept.
Proof.
  intros Hr Hf. rewrite clients_pass_seq. intros ([w1 kept] & Es & [= -> <-])%bind_done.
  destruct (list_for_each_safe_ring client_body h head l fuel w w' kept Hr Hf Es) as (h' & E & Hr').
  exists h', kept. split_and!; try done. apply list_for_each_ring; [done|].
  assert (Hk : forall l w w' kept, safe_seq client_body w l = Done (w', kept) -> (length kept <= length l)%nat).
  { clear. induction l as [|x l IH]; intros w w' kept E; cbn [safe_seq] in E; [by injection E as <- <-|].
    apply bind_done in E as ([w1 close] & _ & E). apply bind_done in E as ([w2 k] & E & [= _ <-]). apply IH in E.
    destruct close; cbn [length]; lia. }
  specialize (Hk _ _ _ _ Es). lia.
Qed.
End Clients.

(** Three clients in a ring, of which the second and third are through. *)
#[local] Existing Instance disk_ops.
Definition demo_client_of (item : Z) : tftp_client := TftpClient (SockaddrQrtr AF_QIPCRTR 1 item) item (item + 100) 512 0 0 1000.
Definition demo_cells : ring_heap := {[1 := ListHead 4 2; 2 := ListHead 1 3; 3 := ListHead 2 4; 4 := ListHead 3 1]}.
Definition demo_ready (sock : Z) : option received := if sock =? 2 then None else Some (inl 0).
Definition demo_handle (w : disk) (c : tftp_client) (r : received) := handle_reader 3 w c r (replicate 128 0).
Lemma ring_clients_pass_witness : exists h' kept,
  list_for_each_safe (client_body demo_client_of demo_handle demo_ready) 3 (Disk [] [] 0 [] []) demo_cells 1 =
    Done (Disk [] [] 0 [] [3; 103; 4; 104], h') /\
  ring h' 1 kept /\
  [demo_client_of 2] = map demo_client_of kept /\ list_for_each 3 h' 1 = Done kept.
Proof.
  apply (ring_clients_pass demo_client_of demo_handle demo_ready 3 (Disk [] [] 0 [] []) _ demo_cells 1 [2; 3; 4]).
  - split; [repeat split|apply (bool_decide_unpack _); by vm_compute].
  - done.
  - by vm_compute.
Defined.
