(* ===== verification/QmiTlv.v ===== *)
(** * The TLV helper (rmtfs/qmi_tlv.c)

    Messages that are built and read an element at a time.  A helper either owns the
    memory of its message or uses the memory of its caller; [malloc] and [realloc] give
    bytes of any value, which the operations get as arguments. *)
From S2P Require Import Prelude.
#[local] Open Scope Z_scope.

Definition EINVAL : Z := 22.
Definition ENOMEM : Z := 12.
(** Sizes of the packed headers, and the place of the fields in them. *)
Definition sizeof_packet : Z := 7.
Definition sizeof_item : Z := 3.

(** [tlv_allocated] tells whether [allocated] is set; [tlv_buf] is the memory behind
    [buf], which of a caller may be longer than [tlv_size]. *)
Record qmi_tlv := QmiTlv { tlv_allocated : bool; tlv_buf : list Z; tlv_size : Z; tlv_error : Z }.

Definition qmi_packet (flags txn_id msg_id msg_len : Z) : list Z :=
  [u8 flags] ++ le_bytes 2 txn_id ++ le_bytes 2 msg_id ++ le_bytes 2 msg_len.
Definition qmi_tlv_init (txn msg_id msg_type : Z) : qmi_tlv :=
  QmiTlv true (qmi_packet msg_type txn msg_id 0) sizeof_packet 0.

(** The helper and the transaction. *)
Definition qmi_tlv_decode (buf : list Z) (len msg_type : Z) : outcome (option (qmi_tlv * Z)) :=
  flags ← read_mem buf 0 1;
  if negb (le_value flags =? msg_type) then Done None
  else
    txn ← read_mem buf 1 2;
    Done (Some (QmiTlv false buf len 0, le_value txn)).

(** The message and its length. *)
Definition qmi_tlv_encode (tlv : option qmi_tlv) : outcome (option (qmi_tlv * Z)) :=
  match tlv with
  | None => Done None
  | Some tlv =>
      if negb (tlv_error tlv =? 0) then Done None
      else
        buf ← write_mem (tlv_buf tlv) 5 (le_bytes 2 (tlv_size tlv - sizeof_packet));
        Done (Some (QmiTlv (tlv_allocated tlv) buf (tlv_size tlv) (tlv_error tlv), tlv_size tlv))
  end.

(** ** Looking for an element

    The offsets are relative to the data of the packet; the result is the place of the
    element in the memory. *)
Definition item_key (m : list Z) (pos : Z) : outcome Z := b ← read_mem m pos 1; Done (le_value b).
Definition item_len (m : list Z) (pos : Z) : outcome Z := bs ← read_mem m (pos + 1) 2; Done (le_value bs).
Fixpoint get_item_loop (fuel : nat) (m : list Z) (size id offset : Z) : outcome (option Z) :=
  if offset <? size then
    match fuel with
    | O => OutOfFuel
    | S fuel' =>
        key ← item_key m (sizeof_packet + offset);
        if key =? id then Done (Some (sizeof_packet + offset))
        else
          len ← item_len m (sizeof_packet + offset);
          get_item_loop fuel' m size id (u32 (offset + (sizeof_item + len)))
    end
  else Done None.
(** Every turn advances by three bytes or more. *)
Definition qmi_tlv_get_item (tlv : qmi_tlv) (id : Z) : outcome (option Z) :=
  get_item_loop (S (Z.to_nat (tlv_size tlv))) (tlv_buf tlv) (tlv_size tlv) id 0.
(** The place of the data and its length. *)
Definition qmi_tlv_get (tlv : qmi_tlv) (id : Z) : outcome (option (Z * Z)) :=
  item ← qmi_tlv_get_item tlv id;
  match item with
  | None => Done None
  | Some pos => len ← item_len (tlv_buf tlv) pos; Done (Some (pos + sizeof_item, len))
  end.
(** The place of the elements, their number and the size of each.  The pointer to the
    number is to [void] when it is incremented: it moves by one byte. *)
Definition qmi_tlv_get_array (tlv : qmi_tlv) (id len_size : Z) : outcome (option (Z * Z * Z)) :=
  item ← qmi_tlv_get_item tlv id;
  match item with
  | None => Done None
  | Some pos =>
      let ptr := pos + sizeof_item in
      if negb (bool_decide (len_size ∈ [1; 2; 4])) then Fault Uninitialised
      else
        bs ← read_mem (tlv_buf tlv) ptr len_size;
        len ← item_len (tlv_buf tlv) pos;
        let count := le_value bs in
        if count =? 0 then Fault DivByZero
        else Done (Some (ptr + 1, count, u32 (len - len_size) / count))
  end.

(** ** Adding an element *)

(** [fresh] is what [realloc] leaves behind the message, [None] when it fails. *)
Definition qmi_tlv_alloc_item (tlv : qmi_tlv) (id len : Z) (fresh : option (list Z)) : outcome (option (qmi_tlv * Z)) :=
  match fresh with
  | None => Done None
  | Some fresh =>
      let new_size := tlv_size tlv + sizeof_item + len in
      old ← read_mem (tlv_buf tlv) 0 (tlv_size tlv);
      let newp := old ++ take (Z.to_nat (sizeof_item + len)) fresh in
      buf ← write_mem newp (tlv_size tlv) ([u8 id] ++ le_bytes 2 len);
      Done (Some (QmiTlv true buf new_size (tlv_error tlv), tlv_size tlv))
  end.
Definition set_error (tlv : qmi_tlv) (e : Z) : qmi_tlv := QmiTlv (tlv_allocated tlv) (tlv_buf tlv) (tlv_size tlv) e.
Definition set_buf (tlv : qmi_tlv) (buf : list Z) : qmi_tlv := QmiTlv (tlv_allocated tlv) buf (tlv_size tlv) (tlv_error tlv).
Definition qmi_tlv_set (tlv : option qmi_tlv) (id : Z) (bs : list Z) (fresh : option (list Z)) : outcome (option qmi_tlv * Z) :=
  match tlv with
  | None => Done (None, - EINVAL)
  | Some tlv =>
      item ← qmi_tlv_alloc_item tlv id (zlen bs) fresh;
      match item with
      | None => Done (Some (set_error tlv ENOMEM), - ENOMEM)
      | Some (tlv, item) => buf ← write_mem (tlv_buf tlv) (item + sizeof_item) bs; Done (Some (set_buf tlv buf), 0)
      end
  end.
(** [bs] are the [len] elements of [size] bytes; a [len_size] of another value stores no
    number. *)
Definition qmi_tlv_set_array (tlv : option qmi_tlv) (id len_size : Z) (bs : list Z) (len : Z) (fresh : option (list Z))
    : outcome (option qmi_tlv * Z) :=
  match tlv with
  | None => Done (None, - EINVAL)
  | Some tlv =>
      item ← qmi_tlv_alloc_item tlv id (len_size + zlen bs) fresh;
      match item with
      | None => Done (Some (set_error tlv ENOMEM), - ENOMEM)
      | Some (tlv, item) =>
          let ptr := item + sizeof_item in
          '(buf, ptr) ← (if bool_decide (len_size ∈ [1; 2; 4])
                         then buf ← write_mem (tlv_buf tlv) ptr (le_bytes (Z.to_nat len_size) len); Done (buf, ptr + 1)
                         else Done (tlv_buf tlv, ptr));
          buf ← write_mem buf ptr bs;
          Done (Some (set_buf tlv buf), 0)
      end
  end.
