(* ===== verification/QmiTlvProps.v ===== *)
(** * Messages built with the TLV helper *)
From S2P Require Import Prelude QmiTlv.
#[local] Open Scope Z_scope.

(** ** The format *)

Definition wire_item (it : Z * list Z) : list Z := it.1 :: le_bytes 2 (zlen it.2) ++ it.2.
Definition wire_items (items : list (Z * list Z)) : list Z := concat (map wire_item items).
Definition item_ok (it : Z * list Z) : Prop := 0 <= it.1 < 256 /\ zlen it.2 < 2 ^ 16.
(** The first element with a key. *)
Definition first_item (items : list (Z * list Z)) (id : Z) : option (list Z) :=
  option_map snd (find (fun it => it.1 =? id) items).

Lemma zlen_wire_item it : zlen (wire_item it) = 3 + zlen it.2.
Proof. unfold wire_item, zlen. cbn [length]. rewrite length_app, length_le_bytes. lia. Qed.
Lemma item_key_at pre it post : item_key (pre ++ wire_item it ++ post) (zlen pre) = Done it.1.
Proof.
  unfold item_key. rewrite (read_at _ pre [it.1] (le_bytes 2 (zlen it.2) ++ it.2 ++ post)).
  - run. cbn [le_value]. f_equal. lia.
  - unfold wire_item. cbn [app]. by rewrite <- app_assoc.
  - done.
  - done.
Qed.
Lemma item_len_at pre it post : zlen it.2 < 2 ^ 16 -> item_len (pre ++ wire_item it ++ post) (zlen pre) = Done (zlen it.2).
Proof.
  intros Hl. unfold item_len. rewrite (read_at _ (pre ++ [it.1]) (le_bytes 2 (zlen it.2)) (it.2 ++ post)).
  - run. rewrite le_value_bytes2; [done|]. pose proof (zlen_nonneg it.2). lia.
  - unfold wire_item. by rewrite <- !app_assoc.
  - by rewrite zlen_app.
  - unfold zlen. by rewrite length_le_bytes.
Qed.

(** The walk: it stops at the first element with the key, and reads behind the message
    when there is none. *)
Lemma walk_items items : forall fuel pre post offset id size, Forall item_ok items ->
  zlen pre = sizeof_packet + offset -> 0 <= offset -> size = sizeof_packet + offset + zlen (wire_items items) -> size < 2 ^ 32 ->
  zlen (wire_items items) < Z.of_nat fuel ->
  match first_item items id with
  | Some v => exists pre' post', pre ++ wire_items items ++ post = pre' ++ wire_item (id, v) ++ post' /\
      get_item_loop fuel (pre ++ wire_items items ++ post) size id offset = Done (Some (zlen pre'))
  | None => post = [] -> get_item_loop fuel (pre ++ wire_items items ++ post) size id offset = Fault OutOfBounds
  end.
Proof.
  unfold sizeof_packet, first_item. induction items as [|it items IH]; intros fuel pre post offset id size Hok Hp Ho Hs Hm Hf.
  - cbn [find option_map]. intros ->. change (zlen (wire_items [])) with 0 in *. destruct fuel as [|fuel]; [lia|]. cbn [get_item_loop].
    rewrite (proj2 (Z.ltb_lt _ _)) by lia. unfold item_key, read_mem. change (wire_items []) with (@nil Z). rewrite !app_nil_r.
    rewrite (proj2 (Z.leb_gt (_ + 1) _)) by (unfold sizeof_packet; lia). by rewrite andb_false_r.
  - apply Forall_cons in Hok as [[Hid Hl] Hok]. change (wire_items (it :: items)) with (wire_item it ++ wire_items items) in *.
    rewrite zlen_app, zlen_wire_item in Hs, Hf. pose proof (zlen_nonneg it.2). pose proof (zlen_nonneg (wire_items items)).
    destruct fuel as [|fuel]; [lia|]. cbn [find get_item_loop]. rewrite (proj2 (Z.ltb_lt _ _)) by lia.
    replace (sizeof_packet + offset) with (zlen pre) by (unfold sizeof_packet; lia).
    rewrite <- !app_assoc, item_key_at. run. destruct (Z.eqb_spec it.1 id) as [E|E].
    + cbn [option_map]. exists pre, (wire_items items ++ post). subst id. by destruct it.
    + rewrite item_len_at by done. run. unfold sizeof_item. rewrite u32_small by lia.
      specialize (IH fuel (pre ++ wire_item it) post (offset + (3 + zlen it.2)) id size Hok).
      rewrite zlen_app, zlen_wire_item, <- !app_assoc in IH. apply IH; lia.
Qed.

(** ** Building *)

(** A message that is exactly as long as its memory. *)
Definition built (tlv : qmi_tlv) : Prop := tlv_size tlv = zlen (tlv_buf tlv) /\ tlv_error tlv = 0.
Definition appended (tlv : qmi_tlv) (bs : list Z) : qmi_tlv := QmiTlv true (tlv_buf tlv ++ bs) (tlv_size tlv + zlen bs) 0.
Lemma built_appended tlv bs : built tlv -> built (appended tlv bs).
Proof. intros [Hs He]. split; [|done]. cbn. rewrite zlen_app. lia. Qed.

(** The memory [realloc] gives is cut into the header and the data of the element. *)
Lemma alloc_item tlv id n fresh : built tlv -> 0 <= id < 256 -> 0 <= n -> 3 + n <= zlen fresh -> exists data, zlen data = n /\
  qmi_tlv_alloc_item tlv id n (Some fresh) =
  Done (Some (appended tlv ((id :: le_bytes 2 n) ++ data), tlv_size tlv)).
Proof.
  intros [Hs He] Hid Hn Hf. exists (take (Z.to_nat n) (drop 3 fresh)). unfold zlen in Hf.
  assert (Hd : zlen (take (Z.to_nat n) (drop 3 fresh)) = n) by (unfold zlen; rewrite length_take, length_drop; lia).
  split; [done|]. unfold qmi_tlv_alloc_item. rewrite read_mem_all by done. run.
  replace (take (Z.to_nat (sizeof_item + n)) fresh) with (take 3 fresh ++ take (Z.to_nat n) (drop 3 fresh)).
  2: { rewrite <- (take_drop 3 (take (Z.to_nat (sizeof_item + n)) fresh)), take_take, skipn_firstn_comm.
       unfold sizeof_item. rewrite Nat.min_l by lia. do 2 f_equal. lia. }
  rewrite write_at; [|done|unfold zlen; rewrite length_take; cbn [length app]; rewrite length_le_bytes; lia].
  run. unfold appended. rewrite He. unfold u8. rewrite Z.mod_small by lia. cbn [app]. do 4 f_equal.
  unfold zlen in *. cbn [length]. rewrite length_app, length_le_bytes. unfold sizeof_item. lia.
Qed.
Lemma set_appends tlv id v fresh : built tlv -> 0 <= id < 256 -> 3 + zlen v <= zlen fresh ->
  qmi_tlv_set (Some tlv) id v (Some fresh) = Done (Some (appended tlv (wire_item (id, v))), 0).
Proof.
  intros Hb Hid Hf. unfold qmi_tlv_set. destruct (alloc_item tlv id (zlen v) fresh Hb Hid (zlen_nonneg v) Hf) as (data & Hd & ->).
  run. cbn [appended tlv_buf]. rewrite app_assoc, <- (app_nil_r data), write_at.
  - run. unfold set_buf, appended, wire_item. cbn [tlv_allocated tlv_size tlv_error app fst snd].
    rewrite !app_nil_r, <- app_assoc. do 4 f_equal. unfold zlen in *. cbn [length]. rewrite !length_app. lia.
  - rewrite zlen_app. destruct Hb as [-> _]. unfold zlen. cbn [length]. rewrite length_le_bytes. unfold sizeof_item. lia.
  - done.
Qed.

(** The elements that are added, each with the memory that [realloc] finds. *)
Fixpoint set_all (tlv : option qmi_tlv) (sets : list (Z * list Z * list Z)) : outcome (option qmi_tlv * Z) :=
  match sets with
  | [] => Done (tlv, 0)
  | (id, v, fresh) :: sets' =>
      '(tlv, r) ← qmi_tlv_set tlv id v (Some fresh);
      if r <? 0 then Done (tlv, r) else set_all tlv sets'
  end.
Definition set_ok (s : Z * list Z * list Z) : Prop := item_ok s.1 /\ 3 + zlen s.1.2 <= zlen s.2.
Lemma set_all_appends sets : forall tlv, built tlv -> Forall set_ok sets ->
  set_all (Some tlv) sets = Done (Some (appended tlv (wire_items (map fst sets))), 0) \/
  sets = [] /\ set_all (Some tlv) sets = Done (Some tlv, 0).
Proof.
  induction sets as [|[[id v] fresh] sets IH]; intros tlv Hb Hok; [by right|]. left.
  apply Forall_cons in Hok as [[[Hid Hl] Hf] Hok]. cbn [fst snd] in *. cbn [set_all]. rewrite set_appends by done. run.
  cbn [Z.ltb Z.compare map fst]. change (wire_items ((id, v) :: ?l)) with (wire_item (id, v) ++ wire_items l).
  destruct (IH (appended tlv (wire_item (id, v)))) as [->|[-> ->]]; [by apply built_appended|done|..].
  - unfold appended. cbn [tlv_buf tlv_size]. rewrite zlen_app, <- app_assoc. do 4 f_equal. lia.
  - cbn [map]. change (wire_items []) with (@nil Z). by rewrite app_nil_r.
Qed.
Lemma init_built txn msg_id msg_type : built (qmi_tlv_init txn msg_id msg_type).
Proof. done. Qed.

(** Writing the length of the message into its header. *)
Lemma encode_header flags txn_id msg_id bs : write_mem (qmi_packet flags txn_id msg_id 0 ++ bs) 5 (le_bytes 2 (zlen bs)) =
  Done (qmi_packet flags txn_id msg_id (zlen bs) ++ bs).
Proof. exact (write_at ([u8 flags] ++ le_bytes 2 txn_id ++ le_bytes 2 msg_id) (le_bytes 2 0) bs (le_bytes 2 (zlen bs)) 5 eq_refl eq_refl). Qed.

(** ** Round trip *)

Lemma first_item_ok items id v : Forall item_ok items -> first_item items id = Some v -> zlen v < 2 ^ 16.
Proof.
  unfold first_item. induction 1 as [|it items [_ Hl] _ IH]; [done|]. cbn [find]. destruct (it.1 =? id); [|done].
  by intros [= <-].
Qed.
(** What the getters find in a message; [rest] is what the memory holds behind it. *)
Lemma get_item_first hdr items rest tlv id : zlen hdr = sizeof_packet -> Forall item_ok items ->
  tlv_buf tlv = hdr ++ wire_items items ++ rest -> tlv_size tlv = zlen (hdr ++ wire_items items) -> tlv_size tlv < 2 ^ 32 ->
  match first_item items id with
  | Some v => exists pos, qmi_tlv_get tlv id = Done (Some (pos, zlen v)) /\ read_mem (tlv_buf tlv) pos (zlen v) = Done v
  | None => rest = [] -> qmi_tlv_get tlv id = Fault OutOfBounds
  end.
Proof.
  intros Hh Hok Eb Es Hsz. unfold qmi_tlv_get, qmi_tlv_get_item. rewrite Eb. rewrite zlen_app in Es.
  pose proof (zlen_nonneg (wire_items items)). unfold sizeof_packet in Hh.
  pose proof (walk_items items (S (Z.to_nat (tlv_size tlv))) hdr rest 0 id (tlv_size tlv) Hok ltac:(unfold sizeof_packet; lia) ltac:(lia)
    ltac:(unfold sizeof_packet; lia) ltac:(lia) ltac:(rewrite Es; lia)) as W.
  destruct (first_item items id) as [v|] eqn:Ef; [|intros ->; by rewrite W].
  destruct W as (pre' & post' & -> & ->). run. rewrite item_len_at by by eapply first_item_ok.
  run. exists (zlen pre' + sizeof_item). split; [done|]. unfold wire_item.
  apply (read_at _ (pre' ++ id :: le_bytes 2 (zlen v)) v post'); [cbn [fst snd app]; by rewrite <- !app_assoc| |done].
  rewrite zlen_app. unfold zlen. cbn [length]. rewrite length_le_bytes. unfold sizeof_item. lia.
Qed.

(** C27: a message that is built an element at a time is the header with the length and the
    elements in order, and read back every key gives the bytes of its first element.
    A key that is not there is looked for behind the end of the message. *)
Theorem qmi_tlv_roundtrip txn msg_id msg_type sets rest : Forall set_ok sets ->
  let items := map fst sets in
  let data := wire_items items in
  zlen data < 2 ^ 31 ->
  exists tlv tlv' d,
    set_all (Some (qmi_tlv_init txn msg_id msg_type)) sets = Done (Some tlv, 0) /\
    qmi_tlv_encode (Some tlv) = Done (Some (tlv', 7 + zlen data)) /\
    tlv_buf tlv' = qmi_packet msg_type txn msg_id (zlen data) ++ data /\
    qmi_tlv_decode (tlv_buf tlv' ++ rest) (7 + zlen data) (u8 msg_type) = Done (Some (d, u16 txn)) /\
    forall id, match first_item items id with
      | Some v => exists pos, qmi_tlv_get d id = Done (Some (pos, zlen v)) /\ read_mem (tlv_buf d) pos (zlen v) = Done v
      | None => rest = [] -> qmi_tlv_get d id = Fault OutOfBounds
      end.
Proof.
  intros Hok items data Hsz. set (hdr := qmi_packet msg_type txn msg_id).
  assert (Hset : exists tlv, set_all (Some (qmi_tlv_init txn msg_id msg_type)) sets = Done (Some tlv, 0) /\
    tlv_buf tlv = hdr 0 ++ data /\ tlv_size tlv = 7 + zlen data /\ tlv_error tlv = 0).
  { destruct (set_all_appends sets (qmi_tlv_init txn msg_id msg_type)) as [E|[E1 E2]]; [apply init_built|done|..].
    - eexists. split; [exact E|]. done.
    - eexists. split; [exact E2|]. unfold data, items. by rewrite E1. }
  destruct Hset as (tlv & Eset & Eb & Es & Ee).
  assert (Hh : zlen (hdr (zlen data)) = 7) by done.
  exists tlv, (QmiTlv (tlv_allocated tlv) (hdr (zlen data) ++ data) (7 + zlen data) 0),
    (QmiTlv false (hdr (zlen data) ++ data ++ rest) (7 + zlen data) 0).
  split; [done|]. split.
  { unfold qmi_tlv_encode. rewrite Ee, Eb, Es. cbn [Z.eqb negb]. unfold sizeof_packet. replace (7 + zlen data - 7) with (zlen data) by lia.
    unfold hdr. rewrite encode_header. by run. }
  split; [done|]. split.
  - unfold qmi_tlv_decode, hdr, qmi_packet. cbn [tlv_buf]. rewrite <- !app_assoc.
    rewrite (read_at _ [] [u8 msg_type] (le_bytes 2 txn ++ le_bytes 2 msg_id ++ le_bytes 2 (zlen data) ++ data ++ rest) 0 1) by reflexivity.
    run. cbn [le_value]. replace (u8 msg_type + 256 * 0) with (u8 msg_type) by lia. rewrite Z.eqb_refl. cbn [negb].
    rewrite (read_at _ [u8 msg_type] (le_bytes 2 txn) (le_bytes 2 msg_id ++ le_bytes 2 (zlen data) ++ data ++ rest) 1 2) by reflexivity.
    run. by rewrite le_value_bytes.
  - intros id. apply (get_item_first (hdr (zlen data)) items rest).
    + done.
    + apply Forall_map. eapply Forall_impl; [exact Hok|]. by intros s [? _].
    + done.
    + by rewrite zlen_app, Hh.
    + cbn [tlv_size]. pose proof (zlen_nonneg data). lia.
Qed.

Definition demo_sets : list (Z * list Z * list Z) :=
  [(2, [0; 0; 0; 0], replicate 7 170); (16, [5; 6], replicate 9 187); (1, [], [1; 2; 3])].
Lemma qmi_tlv_roundtrip_witness : exists tlv tlv' d,
  set_all (Some (qmi_tlv_init 7 3 2)) demo_sets = Done (Some tlv, 0) /\
  qmi_tlv_encode (Some tlv) = Done (Some (tlv', 22)) /\
  tlv_buf tlv' = qmi_packet 2 7 3 15 ++ wire_items (map fst demo_sets) /\
  qmi_tlv_decode (tlv_buf tlv' ++ []) 22 2 = Done (Some (d, 7)) /\
  forall id, match first_item (map fst demo_sets) id with
    | Some v => exists pos, qmi_tlv_get d id = Done (Some (pos, zlen v)) /\ read_mem (tlv_buf d) pos (zlen v) = Done v
    | None => @nil Z = [] -> qmi_tlv_get d id = Fault OutOfBounds
    end.
Proof.
  apply (qmi_tlv_roundtrip 7 3 2 demo_sets []); [|done]. repeat constructor; done.
Defined.

(** ** Arrays *)

(** With a number of one byte an array is an element like the others. *)
Lemma set_array_appends tlv id bs len fresh : built tlv -> 0 <= id < 256 -> 4 + zlen bs <= zlen fresh ->
  qmi_tlv_set_array (Some tlv) id 1 bs len (Some fresh) = Done (Some (appended tlv (wire_item (id, u8 len :: bs))), 0).
Proof.
  intros Hb Hid Hf. unfold qmi_tlv_set_array. pose proof (zlen_nonneg bs).
  destruct (alloc_item tlv id (1 + zlen bs) fresh Hb Hid) as (data & Hd & ->); [lia..|]. run.
  change (bool_decide (1 ∈ [1; 2; 4])) with true. cbv iota.
  destruct data as [|b data]; [unfold zlen in Hd; cbn [length] in Hd; lia|]. cbn [appended tlv_buf tlv_size].
  set (head := id :: le_bytes 2 (1 + zlen bs)).
  assert (Hh : zlen (tlv_buf tlv ++ head) = tlv_size tlv + sizeof_item).
  { rewrite zlen_app. destruct Hb as [-> _]. unfold head, zlen. cbn [length]. rewrite length_le_bytes. done. }
  replace (tlv_buf tlv ++ head ++ b :: data) with ((tlv_buf tlv ++ head) ++ [b] ++ data) by by rewrite <- app_assoc.
  rewrite write_at by done. run. change (le_bytes (Z.to_nat 1) len) with [u8 len].
  rewrite app_assoc, <- (app_nil_r data), write_at; [|rewrite zlen_app, Hh; done|unfold zlen in *; cbn [length] in Hd; lia].
  run. unfold set_buf, appended, wire_item, head. cbn [tlv_allocated tlv_size tlv_error fst snd]. rewrite app_nil_r, <- !app_assoc.
  cbn [app]. replace (zlen (u8 len :: bs)) with (1 + zlen bs) by (unfold zlen; cbn [length]; lia). do 4 f_equal.
  unfold zlen in *. cbn [length] in *. rewrite !length_app. cbn [length]. rewrite app_nil_r. lia.
Qed.
(** Such an array is read back as it was stored. *)
Lemma array_roundtrip tlv id bs len size fresh tlv' : built tlv -> zlen (tlv_buf tlv) = sizeof_packet -> 0 <= id < 256 ->
  4 + zlen bs <= zlen fresh -> 0 < len < 256 -> zlen bs = len * size -> zlen bs < 65535 ->
  qmi_tlv_set_array (Some tlv) id 1 bs len (Some fresh) = Done (Some tlv', 0) ->
  exists pos, qmi_tlv_get_array tlv' id 1 = Done (Some (pos, len, size)) /\ read_mem (tlv_buf tlv') pos (zlen bs) = Done bs.
Proof.
  intros Hb Hp Hid Hf Hlen Hbs Hsz. rewrite set_array_appends by done. intros [= <-].
  assert (u8 len = len) as -> by (unfold u8; apply Z.mod_small; lia). set (v := len :: bs).
  assert (Hv : zlen v = 1 + zlen bs) by (unfold v, zlen; cbn [length]; lia). pose proof (zlen_nonneg bs).
  pose proof Hb as [Hs _].
  pose proof (walk_items [(id, v)] (S (Z.to_nat (tlv_size tlv + zlen (wire_item (id, v))))) (tlv_buf tlv) [] 0 id
    (tlv_size tlv + zlen (wire_item (id, v)))) as W.
  unfold first_item, wire_items in W. cbn [map concat find fst option_map] in W. rewrite Z.eqb_refl, !app_nil_r, zlen_wire_item in W. cbn [snd option_map] in W.
  destruct W as (pre' & post' & Eb & Ew); [|unfold sizeof_packet in *; lia..|].
  { repeat constructor; cbn [fst snd]; lia. }
  assert (Ei : qmi_tlv_get_item (appended tlv (wire_item (id, v))) id = Done (Some (zlen pre'))).
  { unfold qmi_tlv_get_item, appended. cbn [tlv_size tlv_buf]. by rewrite zlen_wire_item. }
  unfold qmi_tlv_get_array. rewrite Ei. run. change (bool_decide (1 ∈ [1; 2; 4])) with true. cbn [negb]. unfold appended. cbn [tlv_buf].
  assert (E3 : zlen (pre' ++ id :: le_bytes 2 (zlen v)) = zlen pre' + sizeof_item).
  { rewrite zlen_app. unfold zlen. cbn [length]. rewrite length_le_bytes. done. }
  rewrite Eb, item_len_at by (cbn [snd]; lia). cbn [snd].
  rewrite (read_at _ (pre' ++ id :: le_bytes 2 (zlen v)) [len] (bs ++ post')); [|unfold wire_item, v; cbn [fst snd app]; by rewrite <- !app_assoc|done..].
  run. cbn [le_value]. replace (len + 256 * 0) with len by lia. rewrite (proj2 (Z.eqb_neq len 0)) by lia.
  rewrite u32_small by lia. exists (zlen pre' + sizeof_item + 1). split.
  - do 3 f_equal. rewrite Hv, Hbs. replace (1 + len * size - 1) with (size * len) by lia. by apply Z.div_mul; lia.
  - apply (read_at _ ((pre' ++ id :: le_bytes 2 (zlen v)) ++ [len]) bs post'); [|by rewrite zlen_app, E3|done].
    unfold wire_item, v. cbn [fst snd app]. by rewrite <- !app_assoc.
Qed.
(** With a larger number the array is stored over it, three bytes too early, and a
    number of none divides by zero. *)
Definition demo_array (len_size len : Z) (bs : list Z) : outcome (option (Z * Z * Z)) :=
  '(tlv, _) ← qmi_tlv_set_array (Some (qmi_tlv_init 1 2 0)) 16 len_size bs len (Some (replicate 32 170));
  tlv ← of_option NullPointer tlv;
  qmi_tlv_get_array tlv 16 len_size.
Example array_one : demo_array 1 2 [1; 2; 3; 4] = Done (Some (11, 2, 2)).
Proof. done. Qed.
Example array_four : demo_array 4 2 [1; 2; 3; 4] = Done (Some (11, 2 + 256 * (1 + 256 * (2 + 256 * 3)), 0)).
Proof. done. Qed.
Example array_none : demo_array 1 0 [] = Fault DivByZero.
Proof. done. Qed.
